(* ===== verification/_CoqProject ===== *)
-Q . S2P
Prelude.v
Words.v
Checksum.v
Slip.v
Unicode.v
Fcb.v
Paths.v
FatTime.v
Host.v
Attrs.v
MemFs.v
Files.v
Drive.v
Handles.v
DriveOps.v
DriveInv.v
Protocol.v
HandlerInv.v
ReplyCache.v
Server.v
Samples.v
DriveSpec.v
Listing.v
ProtoSpec.v
ServerInv.v
MainLoop.v
Config.v
Transport.v
WinSocket.v
SerialPort.v
Program.v
ProgramSamples.v
Resident.v
Network.v
Redirector.v
NetworkInv.v
NetworkSpec.v
ReadAhead.v
FileServer.v
Exchange.v
Search.v
Dispatch.v
WriteThrough.v
Args.v
Setup.v
SetupInv.v
MountSpec.v
Manage.v
ManageSpec.v
NInstall.v
NInstallSpec.v
Calls.v
Session.v
SessionSamples.v
