(* ===== verification/Prelude.v ===== *)
(** * NetMount: a verification library

    NetMount lets DOS machines use directories of a modern system as drives.  A
    resident program on the DOS side (src/netmount) sends the redirector calls
    of DOS as UDP datagrams; the server (src/netmount-server) carries them out.
    This library models both, from the calls of a DOS program over the bytes on
    the wire to the calls of the operating system, and the programs that set
    the DOS side up (src/netmount, src/nmmanage, src/ninstall), and proves what
    makes them correct.

    ** The server

    - Prelude.v: bytes, machine integers, the state-and-exception monad [M] in
      which stateful code is written, with the rules [keeps] (a relation every
      run respects) and [triple] (invariant, relation, value), and their
      tactics.  Words.v: utils.hpp, byte order and ASCII case.  Checksum.v:
      the two checksums (netmount-server.cpp, slip_udp_serial.cpp).
    - Slip.v: class SlipUdpSerial, the built-in SLIP, IPv4 and UDP stack.
    - Unicode.v: unicode_to_ascii.cpp, UTF-8 decoding, the transliteration map
      and the conversion of file names.  Fcb.v: the 8.3 names of fs.cpp, their
      order, the mask test, parsing and inventing them.  FatTime.v: FAT
      timestamps.  Paths.v: std::filesystem::path as the code uses it, client
      paths and check_path_depth.
    - Host.v: the operating system, an abstract state [W] with the class [Host]
      of queries and operations and [HostLaws], the documented behaviour the
      proofs use.  Attrs.v: the interface [DosAttrs] of the attribute stores
      and its five implementations (fs_linux.cpp, fs_freebsd.cpp, fs_macos.cpp,
      fs_win.cpp, fs_posix.cpp).  MemFs.v: a file system in memory that
      implements all of these classes, so that every theorem has an instance.
    - Files.v: the free functions of fs.cpp.  Drive.v: class Drive, its state
      (record [Drive] with the handle table of [Item]s), the directory lists
      and the translation of client paths.  DriveOps.v: the operations of
      class Drive.  All are computations over [st], the drive beside the
      machine and the working directory.
    - Protocol.v: one handler per INT 2Fh function, the cases of the switch in
      process_request (netmount-server.cpp).  ReplyCache.v: class ReplyCache.
      Server.v: process_request and, as [serve], the body of the main loop for
      one datagram; [srv] is the state of the process.  Transport.v: the turn
      of the loop over UDP and over a serial line.  Config.v: the command line
      and share definitions, up to the state the loop starts with.
    - WinSocket.v: udp_socket_win.cpp, with the thread in which Windows runs the
      signal handler; [yields] is the rule for stages of a construction.
      SerialPort.v: serial_port.cpp and serial_port_win.cpp.  Program.v: class
      UdpSocket as an interface with its two implementations, [MainIO], what
      main needs of a transport, with its laws [MainIOLaws], and main itself
      with the signal handlers, the loop and the destructors; its theorems are
      proved against the laws, which both sockets and the serial line
      discharge.  ProgramSamples.v: concrete machines for it.
    - Handles.v, DriveInv.v, HandlerInv.v, ServerInv.v, MainLoop.v: invariants
      of the handle table, the drive, the handlers, process_request and the
      loop, each proved from the one before.  DriveSpec.v, Listing.v,
      ProtoSpec.v: functional properties of deleting and renaming, of directory
      lists and searches, and of the numbers in replies.  Samples.v: a concrete
      server for the witnesses.

    A datagram passes [Transport] (receive), [Server.check_packet], the reply
    cache, [process_request], [Protocol.dispatch], a handler, an operation of
    [DriveOps] on the addressed [Drive], which translates the client path with
    the handle table and the directory lists, and the functions of [Files] on
    the [Host]; the reply goes back through the cache to the transport.

    ** The DOS side

    - Resident.v: the variables of the resident part of netmount.c ([client],
      [shared_data]), what it reads and writes of DOS ([dos]), and its string
      and checksum helpers.  Network.v: the monad [C] (a state, and the
      outcomes [Done], [Overrun] for an access outside a buffer and [Waiting]
      for a loop out of turns), the receiver called by the packet driver, ARP
      and send_request; the network is the class [Wire], the clock the class
      [Timer].  Redirector.v: handle_request_for_our_drive, one definition per
      call, and int2F_redirector.
    - NetworkInv.v, NetworkSpec.v: what the waiting loops keep, and what a reply
      can be trusted for.  ReadAhead.v, WriteThrough.v: reading and writing
      files against the interfaces [FileService] and [FileSink]; FileServer.v
      discharges them with a wire that serves a file.  Search.v: a directory
      search by the calls FIND_FIRST and FIND_NEXT, against the interface
      [DirService] of a server that handles them as Protocol.v does.
      Exchange.v: client, network and server joined.  Dispatch.v: which calls
      are taken.
    - Args.v: the helpers of the command line and the table of addresses.
      Setup.v: the rest of netmount.c, main with INSTALL, MOUNT, UMOUNT and
      UNINSTALL, over a [machine] with its resident [program]; DOS and the
      packet drivers are the classes [Dos] and [PacketDriver].  Manage.v:
      nmmanage.c.  NInstall.v: ninstall.c.
    - SetupInv.v, MountSpec.v, ManageSpec.v, NInstallSpec.v: what the commands
      establish, preserve and change.  Calls.v: every call of DOS comes back
      and keeps what the commands set up.  Session.v: any sequence of commands,
      calls and interrupts ([step]).  SessionSamples.v: a concrete PC with a
      packet driver, for the witnesses.

    NINSTALL runs NETMOUNT INSTALL, which leaves the program resident; MOUNT,
    UMOUNT and NMMANAGE find it by INT 2Fh and change its shared data, which
    the calls of DOS and the receive interrupt read.

    ** What the theorems show

    - Confinement: over any run of ordinary requests the machine changes only
      by operations on paths below the roots of writable shares
      (MainLoop.run_confined, ServerInv.process_request_confined,
      process_request_read_only).  Requests are ordinary unless a component of
      a path has the FCB name of a dot entry without being one, or a search
      names the root itself; the findings say what happens then.
    - Robustness: whatever arrives, the server goes on and its tables stay well
      formed (server_never_stops, process_request_total, slip_turn_safe,
      receive_in_bounds), but for the overflows named there.  Every call of DOS
      comes back, but for two kinds that may leave their buffers
      (Calls.call_comes_back, NetworkInv.send_request_returns).
    - Protocol: until its call returns a request is executed at most once, and
      exactly once when the call succeeds (Exchange.exactly_once, for one
      client of a little-endian server without older datagrams of the exchange
      on their way); a retransmission is not executed again while the reply
      cache has its entry (retransmission_not_repeated).  The frames
      build_request makes pass the checks of the server (request_accepted), the
      replies of a little-endian server those of accept_reply
      (Exchange.reply_accepted); damaged requests are dropped
      (damaged_request_dropped), a reply is the server's answer to this request
      (send_request_authentic).  A request over a serial line comes to the same
      as one over UDP, by the formats of SLIP, IPv4 and UDP defined in
      Transport.v apart from the code (slip_exchange).
    - Files: a read or write of a DOS program transfers exactly the bytes of
      the file or ends with an error (read_file_exact, write_file_exact); a
      search reports the matching entries, all of them when its requests are
      answered (dos_search_complete).
    - Setting up: INSTALL leaves the program as its handlers need it or changes
      nothing (install_spec), UNINSTALL takes back what INSTALL did
      (uninstall_after_install), MOUNT and UMOUNT change just the drives they
      are for (mount_spec, umount_spec; the drive right behind the last one of
      DOS leads MOUNT behind the entries of DOS), NMMANAGE keeps the client in order and
      shows what it sets (nmmanage_keeps, drive_set_get, net_set_get), a
      configuration file of complete lines reaches the installed program
      (ninstall_lines, config_arrives).  Over any session without an access
      outside a buffer the resident program meets the hypotheses of the
      theorems on calls (Session.session_in_order).
    - Refinement: the handle table is a map from paths to handles with
      least-recently-used replacement (get_handle_spec), the reply cache a map
      from clients to entries (get_reply_info_spec), each attribute store a map
      (platform_attrs_lawful), a directory list an injective naming of the
      files (listing_names_every_file), the reader of NINSTALL a reader by
      lines for files of complete lines (ninstall_lines).
    - Data: round trips, bounds and orders of the codecs (UDP over SLIP,
      checksums, FAT times, FCB names, UTF-8, paths, addresses, network masks,
      tokens of the command line) and of the numbers in replies
      (disk_info_spec, seek_from_end_spec).
    - Start and end: an accepted command line of the server leads to a state
      that meets the loop's invariant (Config.startup_ok); main returns once it
      is told to stop and gives back what its transport held
      (Program.main_comes_down), on Windows with every use of the socket
      library in order (windows_socket_life); a run in which a datagram or a
      line of the map of names has damaged the memory ends in [AnythingAfter],
      of which nothing is claimed.  And a serial port is set up for
      transparent bytes (tty_setup_raw).

    ** Representation

    A byte is a [Z] from 0 to 255, a machine integer a [Z] with its wrap-around
    written out ([u16], [u32], [i32]); packets are lists of bytes, read and
    written in the byte order of the machine (class [Native]; DOS machines are
    little-endian).  An exception is a value of [exn], and [M] keeps the state
    it leaves behind.  Writing past the end of a buffer is an outcome of its
    own ([Undefined], [SendOverflow], [TxOverflow], [Overrun]), never a silent
    success.

    Fuel.  [grow_sectors] has 64 turns, one per bit of a 64-bit sector count;
    [suffix_loop] has the 9998 turns of the source; [parse_options] has one
    turn per character of the argument (Config.startup_total).  The waiting
    loops of send_request take their turns as an argument: each turn lets the
    clock go on, so that some number is enough, whatever the network does
    (NetworkInv.send_request_returns); the loops over chunks have as many turns
    as bytes to transfer, and no call runs out of them
    (Calls.call_comes_back).  [scan_ids] has the 64 turns of the range C0 to
    FF, [detect_pktdrv] the 33 interrupts 60 to 80, [parse_checksums] one turn
    per character (SetupInv.parse_checksums_enough), [dec_digits] the 5 digits
    of a 16-bit number.  [main_loop] has its turns as an argument: when a stop
    signal arrives at access number [t] of the server's thread, [t] + 2 turns
    are enough (main_loop_comes_down).

    ** Not modelled

    Text for people: usage, messages and logging, the texts of errors.  What a
    system call answers is a parameter of the model of its caller, for sockets,
    serial ports, files and signals.  Files that change while a single request is served: between requests the
    machine may change in any way, within one the host's answers are those of
    one state.  In the resident part the switching of stacks, which is inline
    assembly on the registers of the processor, and frames that arrive within
    one poll of a waiting loop beyond the first, which the driver loses.
    During a run of NETMOUNT no interrupt is taken: INSTALL marks the receive
    buffer as full until it is done.  The segment of the environment in the
    program's prefix, which INSTALL clears behind freeing it.  In an exchange
    with the server the other clients of that server.  Between NINSTALL and
    NETMOUNT the splitting of the command tail by DOS. *)
From stdpp Require Export base tactics numbers option list strings.
#[export] Set Default Goal Selector "!".
Open Scope Z_scope.

(** ** Bytes and character codes *)

(** A [std::string], a [std::uint8_t] buffer and a packet are lists of byte
    values; [is_byte] is the range invariant of [unsigned char]. *)
Abbreviation bytes := (list Z) (only parsing).

(** [size()] of a buffer, as an integer. *)
Abbreviation zlen l := (Z.of_nat (length l)) (only parsing).

Definition is_byte (b : Z) : Prop := 0 <= b < 256.

#[export] Instance is_byte_dec b : Decision (is_byte b).
Proof. unfold is_byte. apply _. Defined.

(** Character codes the sources compare against. *)
Abbreviation CH_NUL := 0 (only parsing).
Abbreviation CH_SPACE := 32 (only parsing).
Abbreviation CH_QUOTE := 34 (only parsing).
Abbreviation CH_HASH := 35 (only parsing).
Abbreviation CH_COMMA := 44 (only parsing).
Abbreviation CH_DOT := 46 (only parsing).
Abbreviation CH_SLASH := 47 (only parsing).
Abbreviation CH_0 := 48 (only parsing).
Abbreviation CH_9 := 57 (only parsing).
Abbreviation CH_COLON := 58 (only parsing).
Abbreviation CH_EQ := 61 (only parsing).
Abbreviation CH_QMARK := 63 (only parsing).
Abbreviation CH_A := 65 (only parsing).
Abbreviation CH_C := 67 (only parsing).
Abbreviation CH_Z := 90 (only parsing).
Abbreviation CH_BACKSLASH := 92 (only parsing).
Abbreviation CH_UNDERSCORE := 95 (only parsing).
Abbreviation CH_a := 97 (only parsing).
Abbreviation CH_z := 122 (only parsing).
Abbreviation CH_TILDE := 126 (only parsing).

(** The bytes of a string literal. *)
Fixpoint str (s : string) : bytes :=
  match s with
  | EmptyString => []
  | String a s => Z.of_N (Ascii.N_of_ascii a) :: str s
  end.

(** Induction on the length of a list. *)
Lemma list_length_ind {A} (P : list A -> Prop) :
  (forall l, (forall k, (length k < length l)%nat -> P k) -> P l) -> forall l, P l.
Proof.
  intros H l. remember (length l) as n eqn:E. revert l E.
  induction (lt_wf n) as [n _ IH]. intros l ->. apply H. eauto.
Qed.

(** The first occurrence of a separator splits a list in one way. *)
Lemma app_sep_inj {A} (c : A) l r k v :
  l ++ c :: r = k ++ c :: v -> Forall (fun x => x <> c) l -> Forall (fun x => x <> c) k ->
  l = k /\ r = v.
Proof.
  intros E Hl. revert k E. induction Hl as [|a l Ha Hl IH]; intros k E Hk;
    destruct Hk as [|b k Hb Hk]; simplify_eq/=; try done.
  match goal with h : l ++ _ = _ |- _ => by destruct (IH k h Hk) as [-> ->] end.
Qed.

(** ** Machine integers *)

(** Conversion of a value to an unsigned or signed type of the given width. *)
Definition u8 (x : Z) : Z := x mod 2 ^ 8.
Definition u16 (x : Z) : Z := x mod 2 ^ 16.
Definition u32 (x : Z) : Z := x mod 2 ^ 32.
Definition i32 (x : Z) : Z := (x + 2 ^ 31) mod 2 ^ 32 - 2 ^ 31.

Definition is_u16 (x : Z) : Prop := 0 <= x < 2 ^ 16.
Definition is_u32 (x : Z) : Prop := 0 <= x < 2 ^ 32.

Lemma u8_range x : is_byte (u8 x).
Proof. unfold is_byte, u8. change 256 with (2 ^ 8). apply Z.mod_pos_bound. lia. Qed.
Lemma u16_range x : is_u16 (u16 x).
Proof. unfold is_u16, u16. apply Z.mod_pos_bound. lia. Qed.
Lemma u32_range x : is_u32 (u32 x).
Proof. unfold is_u32, u32. apply Z.mod_pos_bound. lia. Qed.
Lemma u8_id x : is_byte x -> u8 x = x.
Proof. unfold is_byte, u8. intros. apply Z.mod_small. lia. Qed.
Lemma u16_id x : is_u16 x -> u16 x = x.
Proof. unfold is_u16, u16. intros. apply Z.mod_small. lia. Qed.
Lemma u32_id x : is_u32 x -> u32 x = x.
Proof. unfold is_u32, u32. intros. apply Z.mod_small. lia. Qed.

Create HintDb words discriminated.
#[export] Hint Resolve u8_range u16_range u32_range : words.

(** A decidable fact about every value of a small range, by evaluation. *)
Lemma by_enum n (P : Z -> bool) : forallb P (seqZ 0 n) = true -> forall x, 0 <= x < n -> P x = true.
Proof.
  intros H x Hx. rewrite forallb_forall in H. apply H.
  apply list_elem_of_In, elem_of_seqZ. lia.
Qed.

(** The sum of two values with disjoint bits is their bitwise or. *)
Lemma lor_disjoint n a b : 0 <= n -> 0 <= a < 2 ^ n -> Z.lor a (b * 2 ^ n) = a + b * 2 ^ n.
Proof.
  intros Hn Ha. rewrite <- Z.add_lor_land.
  assert (Z.land a (b * 2 ^ n) = 0) as ->; [|lia].
  apply Z.bits_inj'. intros i Hi. rewrite Z.land_spec, Z.bits_0.
  destruct (Z.ltb_spec i n).
  - rewrite (Z.mul_pow2_bits_low b n i) by lia. apply andb_false_r.
  - rewrite <- (Z.mod_small a (2 ^ n)) by lia.
    rewrite Z.mod_pow2_bits_high by lia. done.
Qed.

(** ** Exceptions and the state-and-exception monad *)

(** The [std::errc] values [get_dos_err_code] tells apart. *)
Inductive errc :=
  | directory_not_empty
  | file_exists
  | is_a_directory
  | io_error
  | no_such_file_or_directory
  | not_a_directory
  | permission_denied
  | read_only_file_system
  | other_errc.

#[export] Instance errc_eq_dec : EqDecision errc.
Proof. solve_decision. Defined.

(** The exceptions the server throws or lets through: its own
    [FilesystemError] with the DOS code it carries, the standard library's
    [std::filesystem::filesystem_error], and any other [std::runtime_error]. *)
Inductive exn :=
  | FilesystemError (dos_err_code : Z)
  | StdFilesystemError (code : errc)
  | RuntimeError.

#[export] Instance exn_eq_dec : EqDecision exn.
Proof. solve_decision. Defined.

Inductive result (A : Type) :=
  | Ok (a : A)
  | Throw (e : exn).
Arguments Ok {A} a.
Arguments Throw {A} e.

#[export] Instance result_eq_dec {A} `{EqDecision A} : EqDecision (result A).
Proof. solve_decision. Defined.

(** A computation over the state [S].  A C++ exception keeps the changes made
    before the throw, so the state is returned on both sides. *)
Definition M (S A : Type) : Type := S -> result A * S.

Section Monad.
Context {S : Type}.

Definition ret {A} (a : A) : M S A := fun s => (Ok a, s).
Definition throw {A} (e : exn) : M S A := fun s => (Throw e, s).
Definition bind {A B} (m : M S A) (k : A -> M S B) : M S B :=
  fun s => match m s with
           | (Ok a, s') => k a s'
           | (Throw e, s') => (Throw e, s')
           end.
(** [try { m } catch (const std::runtime_error & ex) { h(ex) }] *)
Definition try_catch {A} (m : M S A) (h : exn -> M S A) : M S A :=
  fun s => match m s with
           | (Ok a, s') => (Ok a, s')
           | (Throw e, s') => h e s'
           end.
Definition gets {A} (f : S -> A) : M S A := fun s => (Ok (f s), s).
Definition modify (f : S -> S) : M S unit := fun s => (Ok tt, f s).
(** A query that may throw. *)
Definition query {A} (f : S -> result A) : M S A := fun s => (f s, s).
Definition of_result {A} (r : result A) : M S A := fun s => (r, s).
End Monad.

Declare Scope monad_scope.
Delimit Scope monad_scope with monad.
Notation "'let*' x ':=' m 'in' k" := (bind m (fun x => k))
  (at level 10, x name, m at level 100, k at level 200) : monad_scope.
Notation "'let*' ' p ':=' m 'in' k" := (bind m (fun x => match x with p => k end))
  (at level 10, p pattern, m at level 100, k at level 200) : monad_scope.
Notation "'do*' m 'in' k" := (bind m (fun _ => k))
  (at level 10, m at level 100, k at level 200) : monad_scope.
Open Scope monad_scope.

(** *** Relational reasoning: [keeps R m] says every run of [m], normal or
    exceptional, ends in a state related by [R] to the one it started in. *)
Definition keeps {S A} (R : S -> S -> Prop) (m : M S A) : Prop :=
  forall s, R s (m s).2.

Section Keeps.
Context {S : Type} (R : S -> S -> Prop) `{!PreOrder R}.

Lemma keeps_ret {A} (a : A) : keeps R (ret a).
Proof. intros s. reflexivity. Qed.
Lemma keeps_throw {A} e : keeps R (throw (A:=A) e).
Proof. intros s. reflexivity. Qed.
Lemma keeps_gets {A} (f : S -> A) : keeps R (gets f).
Proof. intros s. reflexivity. Qed.
Lemma keeps_query {A} (f : S -> result A) : keeps R (query f).
Proof. intros s. reflexivity. Qed.
Lemma keeps_of_result {A} (r : result A) : keeps R (of_result r).
Proof. intros s. reflexivity. Qed.
Lemma keeps_modify (f : S -> S) : (forall s, R s (f s)) -> keeps R (modify f).
Proof. intros H s. apply H. Qed.
Lemma keeps_bind {A B} (m : M S A) (k : A -> M S B) :
  keeps R m -> (forall a, keeps R (k a)) -> keeps R (bind m k).
Proof.
  intros Hm Hk s. unfold bind. specialize (Hm s).
  destruct (m s) as [[a|e] s']; simpl in *; [|done].
  etrans; [exact Hm | apply Hk].
Qed.
Lemma keeps_try {A} (m : M S A) (h : exn -> M S A) :
  keeps R m -> (forall e, keeps R (h e)) -> keeps R (try_catch m h).
Proof.
  intros Hm Hh s. unfold try_catch. specialize (Hm s).
  destruct (m s) as [[a|e] s']; simpl in *; [done|].
  etrans; [exact Hm | apply Hh].
Qed.
Lemma keeps_if {A} (b : bool) (m n : M S A) :
  keeps R m -> keeps R n -> keeps R (if b then m else n).
Proof. by destruct b. Qed.
End Keeps.

Create HintDb keeps discriminated.
#[export] Hint Resolve keeps_ret keeps_throw keeps_gets keeps_query keeps_of_result : keeps.
#[export] Hint Extern 0 (PreOrder _) => apply _ : keeps.

(** [keeps_tac] walks a monadic body; the database [keeps] closes the calls. *)
Ltac keeps_step :=
  first
    [ solve [eauto with keeps]
    | apply keeps_bind; [apply _ | | intros ?]
    | apply keeps_try; [apply _ | | intros ?]
    | match goal with
      | |- keeps _ (match ?x with _ => _ end) => destruct x eqn:?
      | |- keeps _ (let (_, _) := ?x in _) => destruct x eqn:?
      end ].
Ltac keeps_tac := repeat keeps_step.

(** *** [raises P m]: every exception [m] ends with satisfies [P]. *)
Definition raises {S A} (P : exn -> Prop) (m : M S A) : Prop :=
  forall s e, (m s).1 = Throw e -> P e.

(** *** Hoare-style reasoning: started in a state of the invariant [I], [m] ends,
    normally or with an exception, in a state of [I] related to the first by
    [R], and a value it returns satisfies [Q]. *)
Definition triple {S A} (I : S -> Prop) (R : S -> S -> Prop) (m : M S A) (Q : A -> Prop) : Prop :=
  forall s, I s -> I (m s).2 /\ R s (m s).2 /\ forall a, (m s).1 = Ok a -> Q a.

Section Triple.
Context {S : Type} (I : S -> Prop) (R : S -> S -> Prop) `{!PreOrder R}.

Lemma triple_ret {A} (a : A) (Q : A -> Prop) : Q a -> triple I R (ret a) Q.
Proof. intros HQ s Hs. simpl. split_and!; [done|reflexivity|]. by intros b [= <-]. Qed.
Lemma triple_throw {A} e (Q : A -> Prop) : triple I R (throw e) Q.
Proof. intros s Hs. simpl. by split_and!. Qed.
Lemma triple_gets {A} (f : S -> A) (Q : A -> Prop) :
  (forall s, I s -> Q (f s)) -> triple I R (gets f) Q.
Proof. intros HQ s Hs. simpl. split_and!; [done|reflexivity|]. intros b [= <-]. auto. Qed.
Lemma triple_query {A} (f : S -> result A) (Q : A -> Prop) :
  (forall s a, I s -> f s = Ok a -> Q a) -> triple I R (query f) Q.
Proof. intros HQ s Hs. simpl. split_and!; [done|reflexivity|]. eauto. Qed.
Lemma triple_modify (f : S -> S) (Q : unit -> Prop) :
  (forall s, I s -> I (f s) /\ R s (f s)) -> Q tt -> triple I R (modify f) Q.
Proof.
  intros Hf HQ s Hs. simpl. destruct (Hf s Hs). split_and!; [done|done|]. by intros [] _.
Qed.
Lemma triple_bind {A B} (m : M S A) (k : A -> M S B) (P : A -> Prop) (Q : B -> Prop) :
  triple I R m P -> (forall a, P a -> triple I R (k a) Q) -> triple I R (bind m k) Q.
Proof.
  intros Hm Hk s Hs. unfold bind. destruct (Hm s Hs) as (HI & HR & HP).
  destruct (m s) as [[a|e] s']; simpl in *; [|by split_and!].
  destruct (Hk a (HP a eq_refl) s' HI) as (HI' & HR' & HQ). split_and!; [done| |done].
  by etrans.
Qed.
Lemma triple_try {A} (m : M S A) (h : exn -> M S A) (Q : A -> Prop) :
  triple I R m Q -> (forall e, triple I R (h e) Q) -> triple I R (try_catch m h) Q.
Proof.
  intros Hm Hh s Hs. unfold try_catch. destruct (Hm s Hs) as (HI & HR & HP).
  destruct (m s) as [[a|e] s']; simpl in *; [by split_and!|].
  destruct (Hh e s' HI) as (HI' & HR' & HQ). split_and!; [done| |done]. by etrans.
Qed.
Lemma triple_conseq {A} (m : M S A) (P Q : A -> Prop) :
  triple I R m P -> (forall a, P a -> Q a) -> triple I R m Q.
Proof. intros Hm HPQ s Hs. destruct (Hm s Hs) as (? & ? & ?). split_and!; auto. Qed.
End Triple.

Create HintDb triple discriminated.
#[export] Hint Extern 0 (PreOrder _) => apply _ : triple.
#[export] Hint Resolve triple_throw : triple.

(** [triple_tac] walks a monadic body: calls are closed by the database
    [triple], values that are only tested on are forgotten. *)
Ltac triple_step :=
  lazymatch goal with
  | |- triple _ _ (ret _) _ => apply triple_ret; [apply _|]; try done
  | |- triple _ _ (throw _) _ => apply triple_throw; apply _
  | |- triple _ _ (bind (gets _) _) _ =>
      first [ eapply triple_bind; [apply _ | solve [eauto with triple] | intros ? ?; cbv beta in *]
            | eapply triple_bind with (P := fun _ => True);
              [apply _ | apply triple_gets; [apply _|]; done | intros ? _] ]
  | |- triple _ _ (bind (query _) _) _ =>
      first [ eapply triple_bind; [apply _ | solve [eauto with triple] | intros ? ?; cbv beta in *]
            | eapply triple_bind with (P := fun _ => True);
              [apply _ | apply triple_query; [apply _|]; done | intros ? _] ]
  | |- triple _ _ (bind _ _) _ =>
      first [ eapply triple_bind; [apply _ | solve [eauto with triple] | intros ? ?; cbv beta in *]
            | eapply triple_bind with (P := fun _ => True); [apply _ | | intros ? _] ]
  | |- triple _ _ (try_catch _ _) _ => apply triple_try; [apply _ | | intros ?]
  | |- triple _ _ (match ?x with pair _ _ => _ end) _ => destruct x; cbn [fst snd] in *
  | |- triple _ _ (match ?x with _ => _ end) _ => destruct x eqn:?
  | |- triple _ _ (gets _) (fun _ => True) => apply triple_gets; [apply _|]; done
  | |- triple _ _ (query _) (fun _ => True) => apply triple_query; [apply _|]; done
  | |- triple _ _ _ _ => solve [eauto with triple | eapply triple_conseq; [eauto with triple | done]]
  end.
Ltac triple_tac := repeat triple_step.
