(* ===== verification/Words.v ===== *)
(** * Words: the byte-order and ASCII helpers of utils.hpp

    [native] is the byte order of the machine the server runs on
    ([std::endian::native]).  A [uint16_t] or [uint32_t] member of a packed
    struct is read from and written to a packet by [load16]/[load32] and
    [store16]/[store32], which use that order; the [to_little]/[from_little]
    functions of utils.hpp then make the packets independent of it. *)
From S2P Require Import Prelude.

Inductive endian := little | big.
Class Native := native : endian.

#[export] Instance endian_eq_dec : EqDecision endian.
Proof. solve_decision. Defined.

(** ** ASCII case conversion *)

Definition ascii_to_upper (c : Z) : Z :=
  if (CH_a <=? c) && (c <=? CH_z) then c - (CH_a - CH_A) else c.

Definition ascii_to_lower (c : Z) : Z :=
  if (CH_A <=? c) && (c <=? CH_Z) then c + (CH_a - CH_A) else c.

(** ** Byte swapping *)

Definition byte_swap16 (x : Z) : Z :=
  u16 (Z.lor (Z.shiftr x 8) (Z.shiftl x 8)).

Definition byte_swap32 (x : Z) : Z :=
  u32 (Z.lor (Z.lor (Z.lor (Z.shiftr x 24) (Z.shiftr (Z.land x 0x00FF0000) 8))
                    (Z.shiftl (Z.land x 0x0000FF00) 8))
             (Z.shiftl x 24)).

Section ByteOrder.
Context `{Native}.

Definition to_little16 (host_value : Z) : Z :=
  match native with little => host_value | big => byte_swap16 host_value end.
Definition to_little32 (host_value : Z) : Z :=
  match native with little => host_value | big => byte_swap32 host_value end.
Definition from_little16 (little_value : Z) : Z :=
  match native with little => little_value | big => byte_swap16 little_value end.
Definition from_little32 (little_value : Z) : Z :=
  match native with little => little_value | big => byte_swap32 little_value end.
Definition to_big16 (host_value : Z) : Z :=
  match native with big => host_value | little => byte_swap16 host_value end.
Definition to_big32 (host_value : Z) : Z :=
  match native with big => host_value | little => byte_swap32 host_value end.
Definition from_big16 (big_value : Z) : Z :=
  match native with big => big_value | little => byte_swap16 big_value end.
Definition from_big32 (big_value : Z) : Z :=
  match native with big => big_value | little => byte_swap32 big_value end.
End ByteOrder.

(** ** Reading and writing words in memory *)

(** Byte [i] of a buffer (0 past its end: every read of the sources is
    guarded by a length test that the callers' lemmas use). *)
Definition byte_at (l : bytes) (i : nat) : Z := nth i l 0.

(** Little- and big-endian values of the bytes at [off], and the bytes of a
    value: what the protocol documents. *)
Definition le16 (l : bytes) (off : nat) : Z := byte_at l off + 2 ^ 8 * byte_at l (off + 1).
Definition le32 (l : bytes) (off : nat) : Z :=
  byte_at l off + 2 ^ 8 * byte_at l (off + 1) + 2 ^ 16 * byte_at l (off + 2)
  + 2 ^ 24 * byte_at l (off + 3).
Definition be16 (l : bytes) (off : nat) : Z := 2 ^ 8 * byte_at l off + byte_at l (off + 1).
Definition be32 (l : bytes) (off : nat) : Z :=
  2 ^ 24 * byte_at l off + 2 ^ 16 * byte_at l (off + 1) + 2 ^ 8 * byte_at l (off + 2)
  + byte_at l (off + 3).

Definition le16_bytes (x : Z) : bytes := [x mod 2 ^ 8; x / 2 ^ 8 mod 2 ^ 8].
Definition le32_bytes (x : Z) : bytes :=
  [x mod 2 ^ 8; x / 2 ^ 8 mod 2 ^ 8; x / 2 ^ 16 mod 2 ^ 8; x / 2 ^ 24 mod 2 ^ 8].
Definition be16_bytes (x : Z) : bytes := [x / 2 ^ 8 mod 2 ^ 8; x mod 2 ^ 8].
Definition be32_bytes (x : Z) : bytes :=
  [x / 2 ^ 24 mod 2 ^ 8; x / 2 ^ 16 mod 2 ^ 8; x / 2 ^ 8 mod 2 ^ 8; x mod 2 ^ 8].

Section Memory.
Context `{Native}.

Definition load16 (l : bytes) (off : nat) : Z :=
  match native with little => le16 l off | big => be16 l off end.
Definition load32 (l : bytes) (off : nat) : Z :=
  match native with little => le32 l off | big => be32 l off end.
Definition store16 (x : Z) : bytes :=
  match native with little => le16_bytes x | big => be16_bytes x end.
Definition store32 (x : Z) : bytes :=
  match native with little => le32_bytes x | big => be32_bytes x end.
End Memory.

(** ** Lemmas *)

Lemma byte_at_byte l i : Forall is_byte l -> is_byte (byte_at l i).
Proof.
  unfold byte_at. intros Hl. revert i.
  induction Hl as [|b l Hb Hl IH]; intros [|i]; simpl; auto; unfold is_byte; lia.
Qed.
#[export] Hint Resolve byte_at_byte : words.

(** [x / m = q] and [x mod m = r], given the remainder or the quotient. *)
Ltac div_lia := first [lia | Z.to_euclidean_division_equations; lia].
Ltac div_is r :=
  first [apply Z.div_unique_pos with r | symmetry; apply Z.div_unique_pos with r]; div_lia.
Ltac mod_is q :=
  first [apply Z.mod_unique_pos with q | symmetry; apply Z.mod_unique_pos with q]; div_lia.

(** Masking one byte of a word. *)
Lemma land_255_shift x n : 0 <= n -> Z.land x (255 * 2 ^ n) = x / 2 ^ n mod 2 ^ 8 * 2 ^ n.
Proof.
  intros Hn. rewrite <- !Z.shiftl_mul_pow2, <- Z.shiftr_div_pow2 by lia.
  rewrite <- Z.land_ones by lia. change (Z.ones 8) with 255.
  apply Z.bits_inj'. intros i Hi.
  rewrite Z.land_spec, !Z.shiftl_spec, Z.land_spec by lia.
  destruct (Z.ltb_spec i n).
  - rewrite (Z.testbit_neg_r 255), (Z.testbit_neg_r (_ ≫ _)) by lia.
    by rewrite andb_false_r.
  - rewrite Z.shiftr_spec by lia. f_equal. f_equal. lia.
Qed.

Lemma byte_swap16_bytes a b : is_byte a -> is_byte b ->
  byte_swap16 (a + 2 ^ 8 * b) = b + 2 ^ 8 * a.
Proof.
  unfold is_byte, byte_swap16, u16. intros Ha Hb.
  rewrite Z.shiftr_div_pow2, Z.shiftl_mul_pow2 by lia.
  rewrite (Z.mul_comm (2 ^ 8) b), Z.div_add, (Z.div_small a) by lia.
  rewrite lor_disjoint by lia.
  replace (0 + b + (a + b * 2 ^ 8) * 2 ^ 8) with (b + 2 ^ 8 * a + b * 2 ^ 16) by lia.
  rewrite Z.mod_add by lia. apply Z.mod_small. lia.
Qed.

Lemma byte_swap32_bytes a b c d : is_byte a -> is_byte b -> is_byte c -> is_byte d ->
  byte_swap32 (a + 2 ^ 8 * b + 2 ^ 16 * c + 2 ^ 24 * d)
  = d + 2 ^ 8 * c + 2 ^ 16 * b + 2 ^ 24 * a.
Proof.
  unfold is_byte, byte_swap32, u32. intros Ha Hb Hc Hd.
  set (x := a + 2 ^ 8 * b + 2 ^ 16 * c + 2 ^ 24 * d).
  assert (x / 2 ^ 8 = b + 2 ^ 8 * c + 2 ^ 16 * d) as E8
    by (subst x; div_is a).
  assert (x / 2 ^ 16 = c + 2 ^ 8 * d) as E16
    by (subst x; div_is (a + 2 ^ 8 * b)).
  assert (x / 2 ^ 24 = d) as E24
    by (subst x; div_is (a + 2 ^ 8 * b + 2 ^ 16 * c)).
  change 0x00FF0000 with (255 * 2 ^ 16). change 0x0000FF00 with (255 * 2 ^ 8).
  rewrite !land_255_shift by lia. rewrite E8, E16.
  rewrite !Z.shiftr_div_pow2, !Z.shiftl_mul_pow2, E24 by lia.
  replace ((c + 2 ^ 8 * d) mod 2 ^ 8) with c
    by (mod_is d).
  replace ((b + 2 ^ 8 * c + 2 ^ 16 * d) mod 2 ^ 8) with b
    by (mod_is (c + 2 ^ 8 * d)).
  replace (c * 2 ^ 16 / 2 ^ 8) with (c * 2 ^ 8)
    by (div_is 0).
  replace (b * 2 ^ 8 * 2 ^ 8) with (b * 2 ^ 16) by lia.
  rewrite (lor_disjoint 8) by lia.
  rewrite (lor_disjoint 16) by lia.
  rewrite (lor_disjoint 24) by lia.
  subst x. mod_is (b + 2 ^ 8 * c + 2 ^ 16 * d).
Qed.

Section ByteOrderLemmas.
Context `{Native}.

Ltac order := unfold to_little16, to_little32, from_little16, from_little32,
  to_big16, to_big32, from_big16, from_big32, load16, load32, store16, store32;
  destruct native.

(** Reading a little-endian (big-endian) field gives the same number on
    every machine. *)
Lemma from_little16_load16 l o : Forall is_byte l -> from_little16 (load16 l o) = le16 l o.
Proof.
  intros Hl. order; [done|]. unfold be16.
  rewrite Z.add_comm, byte_swap16_bytes by auto with words. unfold le16. lia.
Qed.
Lemma from_big16_load16 l o : Forall is_byte l -> from_big16 (load16 l o) = be16 l o.
Proof.
  intros Hl. order; [|done]. unfold le16.
  rewrite byte_swap16_bytes by auto with words. unfold be16. lia.
Qed.
Lemma from_little32_load32 l o : Forall is_byte l -> from_little32 (load32 l o) = le32 l o.
Proof.
  intros Hl. order; [done|]. unfold be32.
  replace (_ + _ + _ + _) with (byte_at l (o + 3) + 2 ^ 8 * byte_at l (o + 2)
    + 2 ^ 16 * byte_at l (o + 1) + 2 ^ 24 * byte_at l o) by lia.
  rewrite byte_swap32_bytes by auto with words. unfold le32. lia.
Qed.
Lemma from_big32_load32 l o : Forall is_byte l -> from_big32 (load32 l o) = be32 l o.
Proof.
  intros Hl. order; [|done]. unfold le32.
  rewrite byte_swap32_bytes by auto with words. unfold be32. lia.
Qed.

Lemma swap16_split x : is_u16 x ->
  byte_swap16 x = x / 2 ^ 8 mod 2 ^ 8 + 2 ^ 8 * (x mod 2 ^ 8).
Proof.
  unfold is_u16. intros Hx.
  replace x with (x mod 2 ^ 8 + 2 ^ 8 * (x / 2 ^ 8 mod 2 ^ 8)) at 1.
  - apply byte_swap16_bytes; apply u8_range.
  - rewrite (Z.mod_small (x / 2 ^ 8)); Z.to_euclidean_division_equations; lia.
Qed.

Lemma split32 x : is_u32 x ->
  x = x mod 2 ^ 8 + 2 ^ 8 * (x / 2 ^ 8 mod 2 ^ 8) + 2 ^ 16 * (x / 2 ^ 16 mod 2 ^ 8)
      + 2 ^ 24 * (x / 2 ^ 24 mod 2 ^ 8).
Proof. unfold is_u32. intros Hx. Z.to_euclidean_division_equations. lia. Qed.

Lemma swap32_split x : is_u32 x ->
  byte_swap32 x = x / 2 ^ 24 mod 2 ^ 8 + 2 ^ 8 * (x / 2 ^ 16 mod 2 ^ 8)
    + 2 ^ 16 * (x / 2 ^ 8 mod 2 ^ 8) + 2 ^ 24 * (x mod 2 ^ 8).
Proof.
  intros Hx. rewrite (split32 x Hx) at 1. apply byte_swap32_bytes; apply u8_range.
Qed.

(** The bytes of [a + 256 b] (and of four bytes), in either order. *)
Lemma be16_bytes_of a b : is_byte a -> is_byte b -> be16_bytes (b + 2 ^ 8 * a) = [a; b].
Proof.
  unfold is_byte, be16_bytes. intros Ha Hb. f_equal; [|f_equal].
  - rewrite (Z.mul_comm (2 ^ 8)), Z.div_add, (Z.div_small b) by lia.
    apply Z.mod_small. lia.
  - mod_is a.
Qed.
Lemma le16_bytes_of a b : is_byte a -> is_byte b -> le16_bytes (a + 2 ^ 8 * b) = [a; b].
Proof.
  intros Ha Hb. pose proof (be16_bytes_of b a Hb Ha) as E.
  unfold be16_bytes in E. unfold le16_bytes. congruence.
Qed.

Lemma le32_bytes_of a b c d : is_byte a -> is_byte b -> is_byte c -> is_byte d ->
  le32_bytes (a + 2 ^ 8 * b + 2 ^ 16 * c + 2 ^ 24 * d) = [a; b; c; d].
Proof.
  unfold is_byte, le32_bytes. intros Ha Hb Hc Hd.
  set (x := a + 2 ^ 8 * b + 2 ^ 16 * c + 2 ^ 24 * d).
  assert (x / 2 ^ 8 = b + 2 ^ 8 * c + 2 ^ 16 * d) as -> by (subst x; div_is a).
  assert (x / 2 ^ 16 = c + 2 ^ 8 * d) as -> by (subst x; div_is (a + 2 ^ 8 * b)).
  assert (x / 2 ^ 24 = d) as -> by (subst x; div_is (a + 2 ^ 8 * b + 2 ^ 16 * c)).
  subst x. f_equal; [|f_equal; [|f_equal; [|f_equal]]].
  - mod_is (b + 2 ^ 8 * c + 2 ^ 16 * d).
  - mod_is (c + 2 ^ 8 * d).
  - mod_is d.
  - apply Z.mod_small. lia.
Qed.

Lemma be32_bytes_of a b c d : is_byte a -> is_byte b -> is_byte c -> is_byte d ->
  be32_bytes (d + 2 ^ 8 * c + 2 ^ 16 * b + 2 ^ 24 * a) = [a; b; c; d].
Proof.
  intros Ha Hb Hc Hd. pose proof (le32_bytes_of d c b a Hd Hc Hb Ha) as E.
  unfold le32_bytes in E. unfold be32_bytes. congruence.
Qed.

(** Writing a field through [to_little]/[to_big] gives the documented
    bytes on every machine. *)
Lemma store16_to_little16 x : is_u16 x -> store16 (to_little16 x) = le16_bytes x.
Proof.
  intros Hx. order; [done|]. rewrite swap16_split by done.
  apply be16_bytes_of; apply u8_range.
Qed.
Lemma store16_to_big16 x : is_u16 x -> store16 (to_big16 x) = be16_bytes x.
Proof.
  intros Hx. order; [|done]. rewrite swap16_split by done.
  apply le16_bytes_of; apply u8_range.
Qed.
Lemma store32_to_little32 x : is_u32 x -> store32 (to_little32 x) = le32_bytes x.
Proof.
  intros Hx. order; [done|]. rewrite swap32_split by done.
  apply be32_bytes_of; apply u8_range.
Qed.
Lemma store32_to_big32 x : is_u32 x -> store32 (to_big32 x) = be32_bytes x.
Proof.
  intros Hx. order; [|done]. rewrite swap32_split by done.
  apply le32_bytes_of; apply u8_range.
Qed.
End ByteOrderLemmas.

(** *** Reading back what was written *)

Lemma le16_bytes_byte x : Forall is_byte (le16_bytes x).
Proof. repeat constructor; apply u8_range. Qed.
Lemma le32_bytes_byte x : Forall is_byte (le32_bytes x).
Proof. repeat constructor; apply u8_range. Qed.
Lemma be16_bytes_byte x : Forall is_byte (be16_bytes x).
Proof. repeat constructor; apply u8_range. Qed.
Lemma be32_bytes_byte x : Forall is_byte (be32_bytes x).
Proof. repeat constructor; apply u8_range. Qed.

Lemma byte_at_app_r l k i : byte_at (l ++ k) (length l + i) = byte_at k i.
Proof. unfold byte_at. rewrite app_nth2 by lia. f_equal. lia. Qed.
Lemma le16_app_r (a b : bytes) i : le16 (a ++ b) (length a + i) = le16 b i.
Proof. unfold le16. rewrite byte_at_app_r. by rewrite <- Nat.add_assoc, byte_at_app_r. Qed.
Lemma le32_app_r (a b : bytes) i : le32 (a ++ b) (length a + i) = le32 b i.
Proof. unfold le32. by rewrite <- !Nat.add_assoc, !byte_at_app_r. Qed.
Lemma byte_at_app_l l k i : (i < length l)%nat -> byte_at (l ++ k) i = byte_at l i.
Proof. unfold byte_at. intros. by apply app_nth1. Qed.

Lemma le16_roundtrip x l : is_u16 x -> le16 (le16_bytes x ++ l) 0 = x.
Proof.
  unfold is_u16, le16, le16_bytes, byte_at. simpl. intros Hx.
  Z.to_euclidean_division_equations. lia.
Qed.
Lemma be16_roundtrip x l : is_u16 x -> be16 (be16_bytes x ++ l) 0 = x.
Proof.
  unfold is_u16, be16, be16_bytes, byte_at. simpl. intros Hx.
  Z.to_euclidean_division_equations. lia.
Qed.
Lemma le32_roundtrip x l : is_u32 x -> le32 (le32_bytes x ++ l) 0 = x.
Proof.
  unfold le32, le32_bytes, byte_at. simpl. intros Hx. pose proof (split32 x Hx). lia.
Qed.
Lemma be32_roundtrip x l : is_u32 x -> be32 (be32_bytes x ++ l) 0 = x.
Proof.
  unfold be32, be32_bytes, byte_at. simpl. intros Hx. pose proof (split32 x Hx). lia.
Qed.

(** *** Case conversion *)

Lemma ascii_to_upper_byte c : is_byte c -> is_byte (ascii_to_upper c).
Proof. unfold is_byte, ascii_to_upper. intros. case_match; lia. Qed.
Lemma ascii_to_upper_idemp c : ascii_to_upper (ascii_to_upper c) = ascii_to_upper c.
Proof. unfold ascii_to_upper. repeat case_match; lia. Qed.
Lemma ascii_to_upper_lower c : ascii_to_upper (ascii_to_lower c) = ascii_to_upper c.
Proof. unfold ascii_to_upper, ascii_to_lower. repeat case_match; lia. Qed.
Lemma ascii_to_lower_upper c : ascii_to_lower (ascii_to_upper c) = ascii_to_lower c.
Proof. unfold ascii_to_upper, ascii_to_lower. repeat case_match; lia. Qed.
Create Rewrite HintDb words_rw.
#[export] Hint Rewrite ascii_to_upper_idemp ascii_to_upper_lower ascii_to_lower_upper : words_rw.
#[export] Hint Resolve le16_bytes_byte le32_bytes_byte be16_bytes_byte be32_bytes_byte
  ascii_to_upper_byte : words.
