(* ===== verification/Checksum.v ===== *)
(** * Checksum: the two checksums of the server

    [bsd_checksum] (netmount-server.cpp) protects the NetMount messages;
    [internet_checksum] (slip_udp_serial.cpp) protects the IPv4 headers the
    built-in SLIP stack sends and receives. *)
From S2P Require Import Prelude Words.

(** ** The BSD checksum *)

(** One turn of the loop: rotate right by one bit, add the byte, both in
    [uint16_t]. *)
Definition bsd_step (res byte : Z) : Z :=
  u16 (u16 (Z.lor (Z.shiftl res 15) (Z.shiftr res 1)) + byte).

Definition bsd_checksum (addr : bytes) (len : Z) : Z :=
  foldl bsd_step 0 (take (Z.to_nat (u16 len)) addr).

(** ** The Internet checksum *)

Section Internet.
Context `{Native}.

(** The two loops that add the 16-bit words and the left-over byte. *)
Fixpoint sum_words (l : bytes) (sum : Z) : Z :=
  match l with
  | a :: b :: l => sum_words l (u32 (sum + load16 [a; b] 0))
  | [a] => u32 (sum + a)
  | [] => sum
  end.

(** [while ((sum >> 16) != 0) sum = (sum & 0xFFFF) + (sum >> 16);] *)
Fixpoint fold_carries (fuel : nat) (sum : Z) : Z :=
  match fuel with
  | O => sum
  | S fuel =>
      if Z.shiftr sum 16 =? 0 then sum
      else fold_carries fuel (u32 (Z.land sum 0xFFFF + Z.shiftr sum 16))
  end.

Definition internet_checksum (addr : bytes) (len : Z) : Z :=
  u16 (Z.lnot (fold_carries 3 (sum_words (take (Z.to_nat (u16 len)) addr) 0))).
End Internet.

(** ** Properties of the BSD checksum *)

Lemma rotate_eq res : is_u16 res ->
  u16 (Z.lor (Z.shiftl res 15) (Z.shiftr res 1)) = res / 2 + res mod 2 * 2 ^ 15.
Proof.
  unfold is_u16, u16. intros Hr.
  rewrite Z.lor_comm, Z.shiftr_div_pow2, Z.shiftl_mul_pow2 by lia. change (2 ^ 1) with 2.
  rewrite lor_disjoint by (Z.to_euclidean_division_equations; lia).
  mod_is (res / 2).
Qed.

Lemma bsd_step_range res b : is_u16 (bsd_step res b).
Proof. apply u16_range. Qed.

Lemma u16_add_inj x y b : is_u16 x -> is_u16 y -> u16 (x + b) = u16 (y + b) -> x = y.
Proof. unfold is_u16, u16. intros. Z.to_euclidean_division_equations. lia. Qed.

Lemma bsd_step_inj_res r r' b : is_u16 r -> is_u16 r' ->
  bsd_step r b = bsd_step r' b -> r = r'.
Proof.
  unfold bsd_step. intros Hr Hr' E. apply u16_add_inj in E; [|apply u16_range..].
  rewrite !rotate_eq in E by done. unfold is_u16 in *.
  Z.to_euclidean_division_equations. lia.
Qed.

Lemma bsd_step_inj_byte r b b' : is_byte b -> is_byte b' ->
  bsd_step r b = bsd_step r b' -> b = b'.
Proof.
  unfold bsd_step. intros Hb Hb' E. rewrite (Z.add_comm _ b), (Z.add_comm _ b') in E.
  apply u16_add_inj in E; unfold is_byte, is_u16 in *; lia.
Qed.

Lemma foldl_bsd_range l r : is_u16 r -> is_u16 (foldl bsd_step r l).
Proof. revert r. induction l; simpl; auto using bsd_step_range. Qed.

Lemma foldl_bsd_inj l r r' : is_u16 r -> is_u16 r' ->
  foldl bsd_step r l = foldl bsd_step r' l -> r = r'.
Proof.
  revert r r'. induction l as [|b l IH]; simpl; [done|]. intros r r' Hr Hr' E.
  eapply bsd_step_inj_res; [done..|]. eapply IH; eauto using bsd_step_range.
Qed.

Lemma bsd_checksum_range l n : is_u16 (bsd_checksum l n).
Proof. apply foldl_bsd_range. unfold is_u16. lia. Qed.

(** The checksum of a whole buffer. *)
Lemma bsd_checksum_all l : zlen l < 2 ^ 16 ->
  bsd_checksum l (zlen l) = foldl bsd_step 0 l.
Proof.
  intros Hl. unfold bsd_checksum. rewrite u16_id by (unfold is_u16; lia).
  by rewrite Nat2Z.id, firstn_all.
Qed.

(** One byte is determined by the checksum and the others. *)
Lemma bsd_checksum_byte_inj p b b' q : is_byte b -> is_byte b' -> zlen (p ++ b :: q) < 2 ^ 16 ->
  bsd_checksum (p ++ b :: q) (zlen (p ++ b :: q))
  = bsd_checksum (p ++ b' :: q) (zlen (p ++ b :: q)) -> b = b'.
Proof.
  intros Hb Hb' Hlen.
  assert (length (p ++ b :: q) = length (p ++ b' :: q)) as L by (by rewrite !length_app).
  rewrite L at 2. rewrite !bsd_checksum_all by (rewrite <- ?L; lia).
  rewrite !foldl_app. simpl. intros E.
  apply foldl_bsd_inj in E; [|apply bsd_step_range..]. by apply bsd_step_inj_byte in E.
Qed.

(** Any change of a single byte of a message changes its BSD checksum. *)
Theorem bsd_checksum_detects_byte p b b' q :
  is_byte b -> is_byte b' -> b <> b' -> zlen (p ++ b :: q) < 2 ^ 16 ->
  bsd_checksum (p ++ b :: q) (zlen (p ++ b :: q))
  <> bsd_checksum (p ++ b' :: q) (zlen (p ++ b' :: q)).
Proof.
  intros Hb Hb' Hne Hlen. assert (length (p ++ b' :: q) = length (p ++ b :: q)) as ->
    by (by rewrite !length_app).
  intros E. by apply bsd_checksum_byte_inj in E.
Qed.

Lemma bsd_checksum_detects_byte_witness :
  bsd_checksum ([1; 2] ++ 3 :: [4]) (zlen ([1; 2] ++ 3 :: [4]))
  <> bsd_checksum ([1; 2] ++ 7 :: [4]) (zlen ([1; 2] ++ 7 :: [4])).
Proof.
  apply (bsd_checksum_detects_byte [1; 2] 3 7 [4]);
    [unfold is_byte; lia | unfold is_byte; lia | lia | simpl; lia].
Defined.

(** ** Properties of the Internet checksum *)

(** Folding the carries keeps the sum modulo 65535. *)
Lemma fold_mod s : (s mod 2 ^ 16 + s / 2 ^ 16) mod 65535 = s mod 65535.
Proof.
  assert (s = s mod 2 ^ 16 + s / 2 ^ 16 + s / 2 ^ 16 * 65535) as E.
  { pose proof (Z.div_mod s (2 ^ 16) ltac:(lia)) as D; clear -D; lia. }
  generalize dependent (s mod 2 ^ 16). intros a E. revert E.
  generalize (s / 2 ^ 16). intros b E. subst s.
  rewrite Z.mod_add; [reflexivity | discriminate].
Qed.

Section InternetLemmas.
Context `{Native}.

Lemma fold_carries_done n sum : 0 <= sum < 2 ^ 32 ->
  0 <= fold_carries (3 + n) sum < 2 ^ 16
  /\ fold_carries (3 + n) sum mod 65535 = sum mod 65535
  /\ (0 < sum -> 0 < fold_carries (3 + n) sum).
Proof.
  assert (forall s, 0 <= s < 2 ^ 32 ->
    let s' := u32 (Z.land s 0xFFFF + Z.shiftr s 16) in
    s' = s mod 2 ^ 16 + s / 2 ^ 16 /\ s' mod 65535 = s mod 65535) as St.
  { intros s Hs s'. subst s'. change (Z.land s 0xFFFF) with (Z.land s (Z.ones 16)).
    rewrite Z.land_ones, Z.shiftr_div_pow2 by lia.
    rewrite u32_id by (unfold is_u32; Z.to_euclidean_division_equations; lia).
    split; [reflexivity | apply fold_mod]. }
  intros Hs. cbn [fold_carries Nat.add].
  destruct (St sum Hs) as [E1 M1]. set (s1 := u32 _) in *.
  assert (0 <= s1 < 2 ^ 32) as H1 by (Z.to_euclidean_division_equations; lia).
  destruct (St s1 H1) as [E2 M2]. set (s2 := u32 (Z.land s1 _ + _)) in *.
  assert (0 <= s2 < 2 ^ 16) as H2 by (Z.to_euclidean_division_equations; lia).
  assert (Z.shiftr s2 16 = 0) as Z2
    by (rewrite Z.shiftr_div_pow2 by lia; apply Z.div_small; lia).
  rewrite Z2, Z.eqb_refl.
  assert (forall s, 0 <= s -> Z.shiftr s 16 = 0 -> s < 2 ^ 16) as Small.
  { intros s Hp. rewrite Z.shiftr_div_pow2 by lia. intros Hz.
    Z.to_euclidean_division_equations; lia. }
  destruct (Z.eqb_spec (Z.shiftr sum 16) 0) as [Hz|_];
    [specialize (Small sum ltac:(lia) Hz); repeat split; [lia|lia|done]|].
  assert (0 < sum -> 0 < s1) as P1 by (Z.to_euclidean_division_equations; lia).
  assert (0 < s1 -> 0 < s2) as P2 by (Z.to_euclidean_division_equations; lia).
  destruct (Z.eqb_spec (Z.shiftr s1 16) 0) as [Hz|_].
  - specialize (Small s1). lia.
  - repeat split; [lia|lia|congruence|auto].
Qed.

(** The unbounded sum of the words of an even-length buffer. *)
Fixpoint words_sum (l : bytes) : Z :=
  match l with a :: b :: l => load16 [a; b] 0 + words_sum l | _ => 0 end.

Lemma load16_pair_range a b : is_byte a -> is_byte b -> is_u16 (load16 [a; b] 0).
Proof.
  unfold is_byte, is_u16, load16, le16, be16, byte_at. intros. case_match; simpl; lia.
Qed.

Inductive even_bytes : bytes -> Prop :=
  | even_nil : even_bytes []
  | even_cons a b l : is_byte a -> is_byte b -> even_bytes l -> even_bytes (a :: b :: l).

Lemma even_bytes_app l k : even_bytes l -> even_bytes k -> even_bytes (l ++ k).
Proof. induction 1; simpl; auto using even_bytes. Qed.

Lemma words_sum_app l k : even_bytes l -> words_sum (l ++ k) = words_sum l + words_sum k.
Proof. induction 1; cbn [words_sum app]; lia. Qed.

Lemma words_sum_bound l : even_bytes l -> 0 <= words_sum l <= zlen l * 32768.
Proof.
  induction 1 as [|a b l Ha Hb Hl IH]; cbn [words_sum length]; [lia|].
  pose proof (load16_pair_range a b Ha Hb) as R. unfold is_u16 in R. lia.
Qed.

Lemma sum_words_spec l s : even_bytes l -> 0 <= s -> s + words_sum l < 2 ^ 32 ->
  sum_words l s = s + words_sum l.
Proof.
  intros Hl. revert s. induction Hl as [|a b l Ha Hb Hl IH];
    intros s Hs Hlt; cbn [sum_words words_sum] in *; [lia|].
  pose proof (load16_pair_range a b Ha Hb) as R. unfold is_u16 in R.
  pose proof (words_sum_bound l Hl).
  rewrite u32_id by (unfold is_u32; lia). rewrite IH by lia. lia.
Qed.

Lemma internet_checksum_eq l : even_bytes l -> zlen l < 2 ^ 16 ->
  internet_checksum l (zlen l) = 65535 - fold_carries 3 (words_sum l).
Proof.
  intros Hl Hlen. unfold internet_checksum.
  rewrite (u16_id (zlen l)) by (unfold is_u16; lia). rewrite Nat2Z.id, firstn_all.
  pose proof (words_sum_bound l Hl).
  rewrite sum_words_spec by (lia || done). rewrite Z.add_0_l.
  destruct (fold_carries_done 0 (words_sum l)) as [R _]; [lia|].
  change (3 + 0)%nat with 3%nat in R. unfold u16, Z.lnot. mod_is (-1).
Qed.

(** What the receiver's test means: the words add up to a positive multiple
    of 65535. *)
Lemma internet_checksum_zero l : even_bytes l -> zlen l < 2 ^ 16 ->
  internet_checksum l (zlen l) = 0 <-> 0 < words_sum l /\ words_sum l mod 65535 = 0.
Proof.
  intros Hl Hlen. rewrite internet_checksum_eq by done.
  pose proof (words_sum_bound l Hl).
  destruct (fold_carries_done 0 (words_sum l)) as (R & Mo & P); [lia|].
  change (3 + 0)%nat with 3%nat in *. set (f := fold_carries 3 (words_sum l)) in *.
  split.
  - intros E. assert (f = 65535) as Ef by (clear -E R; lia). rewrite Ef in Mo.
    split; [|by rewrite <- Mo].
    destruct (Z.eq_dec (words_sum l) 0) as [W|]; [|lia].
    subst f. rewrite W in Ef. vm_compute in Ef. discriminate.
  - intros [Hp Hm]. specialize (P Hp). rewrite Hm in Mo.
    Z.to_euclidean_division_equations; lia.
Qed.

Lemma load16_store16 x : is_u16 x -> load16 (store16 x) 0 = x.
Proof.
  intros Hx. unfold load16, store16.
  pose proof (le16_roundtrip x [] Hx). pose proof (be16_roundtrip x [] Hx).
  by case_match.
Qed.

Lemma store16_even x : even_bytes (store16 x).
Proof.
  unfold store16. case_match;
    (apply even_cons; [apply u8_range | apply u8_range | constructor]).
Qed.

Lemma words_sum_store16 x k : is_u16 x -> words_sum (store16 x ++ k) = x + words_sum k.
Proof.
  intros Hx. pose proof (load16_store16 x Hx) as E. pose proof (store16_even x) as Ev.
  rewrite words_sum_app by done.
  assert (words_sum (store16 x) = x) as ->; [|done].
  inversion Ev as [Hn|a b l Ha Hb Hl Hab]; subst.
  - exfalso. unfold store16 in Hn. by destruct native.
  - assert (length (a :: b :: l) = 2%nat) as L
      by (rewrite Hab; unfold store16; by destruct native).
    destruct l; [|done]. rewrite <- Hab in E. cbn [words_sum]. lia.
Qed.

(** A header completed with its own checksum passes the receiver's test. *)
Lemma internet_checksum_verifies p q :
  even_bytes p -> even_bytes q -> Z.of_nat (length p + 2 + length q) < 2 ^ 16 ->
  let n := Z.of_nat (length p + 2 + length q) in
  let csum := internet_checksum (p ++ store16 0 ++ q) n in
  is_u16 csum /\ internet_checksum (p ++ store16 csum ++ q) n = 0.
Proof.
  intros Hp Hq Hlen n csum.
  assert (forall x, length (store16 x) = 2%nat) as L2
    by (intros; unfold store16; by destruct native).
  assert (forall x, even_bytes (p ++ store16 x ++ q)) as Ev
    by (intros; auto using even_bytes_app, store16_even).
  assert (forall x, Z.of_nat (length (p ++ store16 x ++ q)) = n) as Ln
    by (intros; rewrite !length_app, L2; subst n; lia).
  assert (is_u16 csum) as Hc by apply u16_range. split; [done|].
  rewrite <- (Ln csum). apply internet_checksum_zero; [done|rewrite Ln; subst n; lia|].
  rewrite words_sum_app, words_sum_store16 by done.
  subst csum. rewrite <- (Ln 0).
  rewrite internet_checksum_eq by (done || rewrite Ln; subst n; lia).
  rewrite words_sum_app, words_sum_store16 by (done || unfold is_u16; lia).
  pose proof (words_sum_bound p Hp). pose proof (words_sum_bound q Hq).
  set (s := words_sum p + (0 + words_sum q)).
  destruct (fold_carries_done 0 s) as (R & Mo & P); [subst s; lia|].
  change (3 + 0)%nat with 3%nat in *. set (f := fold_carries 3 s) in *. split.
  - destruct (Z.eq_dec s 0) as [Hs|Hs]; [|subst s; lia].
    assert (f = 0) by (subst f; rewrite Hs; reflexivity). subst s; lia.
  - replace (words_sum p + (65535 - f + words_sum q)) with (s - f + 1 * 65535)
      by (subst s; lia).
    rewrite (Z.mod_add _ 1 65535) by lia. rewrite Zminus_mod, Mo, Z.sub_diag. done.
Qed.
End InternetLemmas.
