(* ===== verification/Slip.v ===== *)
(** * Slip: the built-in SLIP, IPv4 and UDP stack (slip_udp_serial.cpp)

    [SlipUdpSerial] is the record of the class's data members.  The serial
    line is a parameter of each call: the receiver is given the sequence of
    results of [SerialPort::read_byte], the sender a function for the value
    [SerialPort::write_bytes] returns.  The dotted-decimal strings of the two
    last addresses are left out: they are only logged. *)
From S2P Require Import Prelude Words Checksum.

Definition MTU : Z := 1500.
Definition SLIP_END : Z := 0xC0.
Definition SLIP_ESC : Z := 0xDB.
Definition SLIP_ESC_END : Z := 0xDC.
Definition SLIP_ESC_ESC : Z := 0xDD.
Definition IPV4_PROTOCOL_UDP : Z := 17.

(** [sizeof(ipv4_hdr)], [sizeof(udp_hdr)] and [sizeof(net_headers)], packed. *)
Definition sizeof_ipv4_hdr : Z := 20.
Definition sizeof_udp_hdr : Z := 8.
Definition sizeof_net_headers : Z := 28.

(** ** The data members *)

Record SlipUdpSerial := mkSlip {
  rx_buffer : bytes;
  last_udp_data_len : Z;
  (** [last_rx_udp_data], as an offset into [rx_buffer]; [None] is nullptr *)
  last_rx_udp_data : option nat;
  tx_buffer_size : Z;
  last_remote_ip : Z;
  last_remote_port : Z;
  last_dst_ip : Z;
  last_dst_port : Z;
  last_sent_packet_id : Z;
}.

(** The constructor sizes the buffers; the members without an initialiser
    start with the values [d], which nothing reads before [receive] sets them. *)
Definition SlipUdpSerial_init (d : Z) : SlipUdpSerial :=
  mkSlip (replicate (Z.to_nat MTU) 0) d None (MTU * 2) d d d d 0.

(** The members the class exposes after a successful [receive]. *)
Definition get_last_rx_data (st : SlipUdpSerial) : bytes :=
  match last_rx_udp_data st with
  | Some off => take (Z.to_nat (last_udp_data_len st)) (drop off (rx_buffer st))
  | None => []
  end.

(** ** Sending *)

Fixpoint encode_slip_block (data : bytes) : bytes :=
  match data with
  | [] => []
  | data_byte :: data =>
      if data_byte =? SLIP_END then SLIP_ESC :: SLIP_ESC_END :: encode_slip_block data
      else if data_byte =? SLIP_ESC then SLIP_ESC :: SLIP_ESC_ESC :: encode_slip_block data
      else data_byte :: encode_slip_block data
  end.

Definition encode_slip (headers data : bytes) : bytes :=
  SLIP_END :: encode_slip_block headers ++ encode_slip_block data ++ [SLIP_END].

Section Slip.
Context `{Native}.

(** The IPv4 header with a given checksum field. *)
Definition ipv4_header (total_len id src_ip dst_ip hdr_csum : Z) : bytes :=
  [u8 (Z.lor (Z.shiftl 4 4) (sizeof_ipv4_hdr / 4)); 0]
  ++ store16 (to_big16 total_len)
  ++ store16 (to_big16 id)
  ++ store16 (to_big16 (Z.shiftl 0x2 13))
  ++ [64; IPV4_PROTOCOL_UDP]
  ++ store16 hdr_csum
  ++ store32 (to_big32 src_ip)
  ++ store32 (to_big32 dst_ip).

Definition udp_header (src_port dst_port length : Z) : bytes :=
  store16 (to_big16 src_port) ++ store16 (to_big16 dst_port)
  ++ store16 (to_big16 length) ++ store16 0.

(** [build_headers]: the headers and the incremented packet id. *)
Definition build_headers (last_sent_packet_id src_ip dst_ip src_port dst_port length : Z)
  : bytes * Z :=
  let id := u16 (last_sent_packet_id + 1) in
  let total_len := u16 (sizeof_net_headers + length) in
  let hdr_csum :=
    internet_checksum (ipv4_header total_len id src_ip dst_ip 0) sizeof_ipv4_hdr in
  (ipv4_header total_len id src_ip dst_ip hdr_csum
   ++ udp_header src_port dst_port (u16 (sizeof_udp_hdr + length)), id).

Inductive send_outcome :=
  | Sent (frame : bytes)     (** the frame was written completely *)
  | SendError                (** a [std::runtime_error] was thrown *)
  | TxOverflow.              (** [encode_slip] wrote past the end of [tx_buffer] *)

(** [SlipUdpSerial::send].  [write_bytes tx] is the number of bytes the
    serial port accepts, [None] when it throws. *)
Definition send (write_bytes : bytes -> option Z) (st : SlipUdpSerial)
    (src_ip dst_ip src_port dst_port : Z) (data : bytes) : send_outcome * SlipUdpSerial :=
  if MTU <? zlen data then (SendError, st)
  else
    let '(headers, id) :=
      build_headers (last_sent_packet_id st) src_ip dst_ip src_port dst_port (zlen data) in
    let st := mkSlip (rx_buffer st) (last_udp_data_len st) (last_rx_udp_data st)
      (tx_buffer_size st) (last_remote_ip st) (last_remote_port st) (last_dst_ip st)
      (last_dst_port st) id in
    let tx := encode_slip headers data in
    if tx_buffer_size st <? zlen tx then (TxOverflow, st)
    else match write_bytes tx with
         | None => (SendError, st)
         | Some written => if written =? zlen tx then (Sent tx, st) else (SendError, st)
         end.

Definition send_reply (write_bytes : bytes -> option Z) (st : SlipUdpSerial) (data : bytes)
  : send_outcome * SlipUdpSerial :=
  send write_bytes st (last_dst_ip st) (last_remote_ip st) (last_dst_port st)
    (last_remote_port st) data.
End Slip.

(** ** Receiving *)

(** What one call of [serial.read_byte] does. *)
Inductive read :=
  | RByte (b : Z)    (** returns 1 and the byte *)
  | RTimeout         (** returns 0 *)
  | RError.          (** throws *)

(** [recv_decode_slip]: the [while] loop, given the reads still to come, the
    flag [started] and the [len] bytes stored so far.  The result is the value
    of [len] on return, the stored bytes and the reads not consumed; running
    out of reads counts as a timeout.  [size] is [rx_buffer.size()]. *)
Fixpoint recv_loop (size : Z) (reads : list read) (started : bool) (stored : bytes)
  : result Z * bytes * list read :=
  match reads with
  | [] => (Ok (zlen stored), stored, [])
  | RTimeout :: reads => (Ok (zlen stored), stored, reads)
  | RError :: reads => (Throw RuntimeError, stored, reads)
  | RByte rcv_byte :: reads =>
      if rcv_byte =? SLIP_END then
        if started && (0 <? zlen stored) then (Ok (zlen stored), stored, reads)
        else recv_loop size reads true stored
      else if negb started then recv_loop size reads started stored
      else if zlen stored =? size then (Ok 0, stored, reads)
      else if rcv_byte =? SLIP_ESC then
        match reads with
        | [] => (Ok (zlen stored), stored, [])
        | RTimeout :: reads => (Ok (zlen stored), stored, reads)
        | RError :: reads => (Throw RuntimeError, stored, reads)
        | RByte rcv_byte :: reads =>
            if rcv_byte =? SLIP_ESC_END then
              recv_loop size reads started (stored ++ [SLIP_END])
            else if rcv_byte =? SLIP_ESC_ESC then
              recv_loop size reads started (stored ++ [SLIP_ESC])
            else recv_loop size reads started stored
        end
      else recv_loop size reads started (stored ++ [rcv_byte])
  end.

Definition set_rx_buffer (buf : bytes) (st : SlipUdpSerial) : SlipUdpSerial :=
  mkSlip buf (last_udp_data_len st) (last_rx_udp_data st) (tx_buffer_size st)
    (last_remote_ip st) (last_remote_port st) (last_dst_ip st) (last_dst_port st)
    (last_sent_packet_id st).

Definition recv_decode_slip (st : SlipUdpSerial) (reads : list read)
  : result Z * SlipUdpSerial * list read :=
  let '(len, stored, reads) := recv_loop (zlen (rx_buffer st)) reads false [] in
  (len, set_rx_buffer (stored ++ drop (length stored) (rx_buffer st)) st, reads).

Section Receive.
Context `{Native}.

Definition parse_udp_packet (st : SlipUdpSerial) (rx_packet_len : Z) : Z * SlipUdpSerial :=
  let buf := rx_buffer st in
  if rx_packet_len <? sizeof_net_headers then (0, st)
  else if negb (Z.land (byte_at buf 0) 0xF0 =? Z.shiftl 4 4) then (0, st)
  else if negb (Z.land (byte_at buf 0) 0x0F =? sizeof_ipv4_hdr / 4) then (0, st)
  else if negb (internet_checksum buf sizeof_ipv4_hdr =? 0) then (0, st)
  else if negb (byte_at buf 9 =? IPV4_PROTOCOL_UDP) then (0, st)
  else if rx_packet_len <? from_big16 (load16 buf 2) then (0, st)
  else
    let st := mkSlip buf (last_udp_data_len st) (last_rx_udp_data st) (tx_buffer_size st)
      (from_big32 (load32 buf 12)) (from_big16 (load16 buf 20))
      (from_big32 (load32 buf 16)) (from_big16 (load16 buf 22))
      (last_sent_packet_id st) in
    let udp_len := from_big16 (load16 buf 24) in
    if udp_len <? sizeof_udp_hdr then (0, st)
    else if rx_packet_len <? sizeof_ipv4_hdr + udp_len then (0, st)
    else
      let data_len := u16 (udp_len - sizeof_udp_hdr) in
      (data_len,
       mkSlip buf data_len (Some (Z.to_nat sizeof_net_headers)) (tx_buffer_size st)
         (last_remote_ip st) (last_remote_port st) (last_dst_ip st) (last_dst_port st)
         (last_sent_packet_id st)).

(** [SlipUdpSerial::receive]: 0 is a timeout or a datagram that is dropped. *)
Definition receive (st : SlipUdpSerial) (reads : list read)
  : result Z * SlipUdpSerial * list read :=
  match recv_decode_slip st reads with
  | (Throw e, st, reads) => (Throw e, st, reads)
  | (Ok rx_length, st, reads) =>
      if rx_length =? 0 then (Ok 0, st, reads)
      else let '(len, st) := parse_udp_packet st rx_length in (Ok len, st, reads)
  end.
End Receive.

(** ** SLIP framing *)

Lemma encode_slip_block_app l k :
  encode_slip_block (l ++ k) = encode_slip_block l ++ encode_slip_block k.
Proof. induction l; simpl; [done|]. by repeat case_match; simpl; f_equal; rewrite ?IHl. Qed.

Lemma encode_slip_block_length l :
  (length l <= length (encode_slip_block l) <= 2 * length l)%nat.
Proof. induction l; simpl; [lia|]. repeat case_match; simpl; lia. Qed.

Lemma encode_slip_block_no_end l : Forall (fun b => b <> SLIP_END) (encode_slip_block l).
Proof.
  induction l as [|b l IH]; simpl; [constructor|].
  repeat case_match; repeat constructor; auto; try discriminate.
  by apply Z.eqb_neq.
Qed.

Lemma recv_loop_block size data reads stored : zlen stored + zlen data <= size ->
  recv_loop size ((RByte <$> encode_slip_block data) ++ reads) true stored
  = recv_loop size reads true (stored ++ data).
Proof.
  revert stored. induction data as [|b data IH]; intros stored Hlen; simpl.
  { by rewrite app_nil_r. }
  cbn [length] in Hlen.
  assert ((zlen stored =? size) = false) as Hs by (apply Z.eqb_neq; lia).
  assert (forall c, recv_loop size ((RByte <$> encode_slip_block data) ++ reads) true
            (stored ++ [c]) = recv_loop size reads true (stored ++ c :: data)) as Next.
  { intros c. rewrite IH by (rewrite length_app; simpl; lia). by rewrite <- app_assoc. }
  destruct (Z.eqb_spec b SLIP_END) as [->|He]; [|destruct (Z.eqb_spec b SLIP_ESC) as [->|Hc]];
    simpl; rewrite Hs; simpl; auto.
  by rewrite (proj2 (Z.eqb_neq _ _) He), (proj2 (Z.eqb_neq _ _) Hc).
Qed.

Lemma recv_loop_junk size junk reads : Forall (fun b => b <> SLIP_END) junk ->
  recv_loop size ((RByte <$> junk) ++ reads) false [] = recv_loop size reads false [].
Proof.
  induction 1 as [|b junk Hb _ IH]; simpl; [done|].
  by rewrite (proj2 (Z.eqb_neq _ _) Hb).
Qed.

(** A frame that fits the buffer is received intact, whatever noise came
    before its first [SLIP_END]; the reads after it are left on the line. *)
Lemma recv_loop_frame size junk headers data reads :
  Forall (fun b => b <> SLIP_END) junk -> 0 < zlen (headers ++ data) <= size ->
  recv_loop size ((RByte <$> junk ++ encode_slip headers data) ++ reads) false []
  = (Ok (zlen (headers ++ data)), headers ++ data, reads).
Proof.
  intros Hj Hlen. rewrite fmap_app, <- app_assoc, recv_loop_junk by done.
  unfold encode_slip. rewrite app_assoc, <- encode_slip_block_app.
  simpl. rewrite fmap_app, <- app_assoc, recv_loop_block by (simpl; lia).
  simpl. by rewrite (proj2 (Z.ltb_lt _ _) (proj1 Hlen)).
Qed.

(** The receiver never stores more than the buffer holds. *)
Lemma recv_loop_bound size reads started stored len out rest :
  zlen stored <= size -> recv_loop size reads started stored = (len, out, rest) ->
  zlen out <= size /\ (forall n, len = Ok n -> n = 0 \/ n = zlen out).
Proof.
  revert started stored. induction reads as [reads IH] using list_length_ind.
  intros started stored Hs E.
  destruct reads as [|[b| |] reads]; simpl in E; simplify_eq; try (split; [done|intros n Hn; inversion Hn; auto; fail]).
  assert ((zlen stored =? size) = false -> zlen (stored ++ [0]) <= size) as Grow.
  { intros Hf%Z.eqb_neq. rewrite length_app. simpl. lia. }
  assert (forall c d : Z, zlen (stored ++ [c]) = zlen (stored ++ [d])) as Same
    by (intros; by rewrite !length_app).
  repeat case_match; simplify_eq; try (split; [done|intros n Hn; inversion Hn; auto; fail]);
    (eapply IH; [| |eassumption]); simpl; rewrite ?(Same _ 0); auto; lia.
Qed.

(** ** IPv4/UDP round trip *)

Lemma encode_slip_length h d :
  (length h + length d + 2 <= length (encode_slip h d) <= 2 * (length h + length d) + 2)%nat.
Proof.
  pose proof (encode_slip_block_length h). pose proof (encode_slip_block_length d).
  unfold encode_slip. simpl. rewrite !length_app. simpl. lia.
Qed.

Section Udp.
Context `{Native}.

(** The headers, field by field, as the bytes on the line. *)
Definition header_bytes (total_len id src_ip dst_ip csum src_port dst_port udp_len : Z)
  : bytes :=
  [0x45; 0] ++ be16_bytes total_len ++ be16_bytes id ++ [0x40; 0; 64; 17]
  ++ store16 csum ++ be32_bytes src_ip ++ be32_bytes dst_ip
  ++ be16_bytes src_port ++ be16_bytes dst_port ++ be16_bytes udp_len ++ [0; 0].

Lemma store16_0 : store16 0 = [0; 0].
Proof. unfold store16. by case_match. Qed.

Lemma store16_bytes x : exists a b, store16 x = [a; b] /\ is_byte a /\ is_byte b.
Proof.
  unfold store16. case_match; eexists _, _; (split; [reflexivity|split; apply u8_range]).
Qed.

Lemma ipv4_header_eq total_len id src dst c :
  is_u16 total_len -> is_u16 id -> is_u32 src -> is_u32 dst ->
  ipv4_header total_len id src dst c
  = [0x45; 0] ++ be16_bytes total_len ++ be16_bytes id ++ [0x40; 0; 64; 17]
    ++ store16 c ++ be32_bytes src ++ be32_bytes dst.
Proof.
  intros. unfold ipv4_header.
  rewrite !store16_to_big16, !store32_to_big32 by (done || split; vm_compute; congruence).
  done.
Qed.

Lemma udp_header_eq sp dp n : is_u16 sp -> is_u16 dp -> is_u16 n ->
  udp_header sp dp n = be16_bytes sp ++ be16_bytes dp ++ be16_bytes n ++ [0; 0].
Proof. intros. unfold udp_header. by rewrite !store16_to_big16, store16_0. Qed.

Lemma build_headers_eq id0 src dst sp dp n :
  is_u32 src -> is_u32 dst -> is_u16 sp -> is_u16 dp -> 0 <= n <= MTU ->
  exists csum, is_u16 csum
    /\ build_headers id0 src dst sp dp n
       = (header_bytes (28 + n) (u16 (id0 + 1)) src dst csum sp dp (8 + n), u16 (id0 + 1))
    /\ internet_checksum
         (take 20 (header_bytes (28 + n) (u16 (id0 + 1)) src dst csum sp dp (8 + n))) 20 = 0.
Proof.
  unfold MTU. intros Hs Hd Hsp Hdp Hn.
  assert (is_u16 (28 + n)) as H28 by (unfold is_u16; lia).
  assert (is_u16 (8 + n)) as H8 by (unfold is_u16; lia).
  assert (is_u16 (u16 (id0 + 1))) as Hid by apply u16_range.
  set (id := u16 (id0 + 1)) in *.
  set (p := [0x45; 0] ++ be16_bytes (28 + n) ++ be16_bytes id ++ [0x40; 0; 64; 17]).
  set (q := be32_bytes src ++ be32_bytes dst).
  assert (even_bytes p /\ even_bytes q) as [Hp Hq].
  { subst p q. unfold be16_bytes, be32_bytes. simpl.
    split; repeat constructor; (apply u8_range || (unfold is_byte; lia)). }
  destruct (internet_checksum_verifies p q Hp Hq) as [Hc Hv]; [vm_compute; done|].
  change (Z.of_nat (length p + 2 + length q)) with 20 in *.
  set (csum := internet_checksum (p ++ store16 0 ++ q) 20) in *.
  exists csum. split; [done|]. split.
  - unfold build_headers. fold id.
    rewrite !u16_id by (unfold sizeof_net_headers, sizeof_udp_hdr; done).
    rewrite !ipv4_header_eq, udp_header_eq by done.
    change (internet_checksum _ _) with csum.
    unfold header_bytes. by rewrite <- !app_assoc.
  - destruct (store16_bytes csum) as (a & b & E & _).
    rewrite <- Hv. f_equal. unfold header_bytes. rewrite E. reflexivity.
Qed.

Lemma header_bytes_byte tl id src dst c sp dp ul :
  Forall is_byte (header_bytes tl id src dst c sp dp ul).
Proof.
  destruct (store16_bytes c) as (a & b & E & Ha & Hb). unfold header_bytes. rewrite E.
  repeat (apply Forall_app; split); auto with words;
    repeat constructor; auto; unfold is_byte; lia.
Qed.

(** The receiver's view of a datagram with the sender's headers. *)
Lemma parse_header_bytes st id src dst c sp dp data old :
  is_u16 id -> is_u32 src -> is_u32 dst -> is_u16 sp -> is_u16 dp ->
  Forall is_byte data -> Forall is_byte old -> zlen data <= 1472 ->
  let n := zlen data in
  let hb := header_bytes (28 + n) id src dst c sp dp (8 + n) in
  internet_checksum (take 20 hb) 20 = 0 ->
  rx_buffer st = hb ++ data ++ old ->
  parse_udp_packet st (28 + n)
  = (n, mkSlip (rx_buffer st) n (Some 28%nat) (tx_buffer_size st) src sp dst dp
          (last_sent_packet_id st)).
Proof.
  intros Hid Hsrc Hdst Hsp Hdp Hdata Hold Hlen n hb Hsum Hbuf.
  assert (Forall is_byte (hb ++ data ++ old)) as Hby
    by (subst hb; auto using Forall_app_2, header_bytes_byte).
  unfold parse_udp_packet. rewrite Hbuf.
  rewrite !from_big16_load16, !from_big32_load32 by done.
  assert (internet_checksum (hb ++ data ++ old) sizeof_ipv4_hdr = 0) as ->.
  { rewrite <- Hsum. unfold internet_checksum, hb. do 4 f_equal.
    destruct (store16_bytes c) as (a & b & E & _). unfold header_bytes. by rewrite E. }
  assert (0 <= n) by (subst n; lia).
  destruct (store16_bytes c) as (a & b & E & Ha & Hb).
  subst hb. unfold header_bytes, be16, be32, byte_at. rewrite E. cbn [app nth be16_bytes be32_bytes].
  pose proof (be16_roundtrip (28 + n) []) as R28. pose proof (be16_roundtrip (8 + n) []) as R8.
  pose proof (be16_roundtrip sp []) as Rsp. pose proof (be16_roundtrip dp []) as Rdp.
  pose proof (be32_roundtrip src []) as Rs. pose proof (be32_roundtrip dst []) as Rd.
  unfold be16, be32, byte_at in R28, R8, Rsp, Rdp, Rs, Rd.
  cbn [app nth be16_bytes be32_bytes Nat.add] in R28, R8, Rsp, Rdp, Rs, Rd.
  cbn [Nat.add nth].
  rewrite R28, R8, Rsp, Rdp, Rs, Rd by (done || unfold is_u16; lia).
  unfold sizeof_net_headers, sizeof_ipv4_hdr, sizeof_udp_hdr, IPV4_PROTOCOL_UDP.
  rewrite (proj2 (Z.ltb_ge (28 + n) 28)) by lia.
  rewrite (proj2 (Z.ltb_ge (28 + n) (28 + n))) by lia.
  rewrite (proj2 (Z.ltb_ge (8 + n) 8)), (proj2 (Z.ltb_ge (28 + n) (20 + (8 + n)))) by lia.
  rewrite u16_id by (unfold is_u16; lia).
  cbn. by replace (8 + n - 8) with n by lia.
Qed.
End Udp.

(** ** The class's contract *)

Section Contract.
Context `{Native}.

Lemma parse_udp_packet_bounds st len n st' :
  0 <= len -> parse_udp_packet st len = (n, st') ->
  rx_buffer st' = rx_buffer st
  /\ (n = 0 \/ (28 + n <= len /\ last_udp_data_len st' = n /\ 0 <= n
                /\ last_rx_udp_data st' = Some 28%nat)).
Proof.
  intros Hl. unfold parse_udp_packet, sizeof_net_headers, sizeof_ipv4_hdr, sizeof_udp_hdr.
  set (ul := from_big16 (load16 (rx_buffer st) 24)).
  intros E. repeat case_match; simplify_eq; simpl; auto.
  split; [done|]. right.
  repeat match goal with h : (_ <? _) = false |- _ => apply Z.ltb_ge in h end.
  assert (u16 (ul - 8) <= ul - 8) by (unfold u16; apply Z.mod_le; lia).
  pose proof (u16_range (ul - 8)) as [? _]. split_and!; auto. lia.
Qed.

Lemma recv_decode_slip_bounds st reads len st' rest :
  recv_decode_slip st reads = (len, st', rest) ->
  zlen (rx_buffer st') = zlen (rx_buffer st)
  /\ (forall n, len = Ok n -> 0 <= n <= zlen (rx_buffer st)).
Proof.
  unfold recv_decode_slip. destruct (recv_loop _ _ _ _) as [[l out] r] eqn:E.
  intros. simplify_eq. apply recv_loop_bound in E as [Ho Hn]; [|simpl; lia].
  split.
  - simpl. rewrite length_app, length_drop. lia.
  - intros n ->. destruct (Hn n eq_refl) as [->| ->]; lia.
Qed.

(** What [receive] leaves in the buffer. *)
Lemma receive_props st reads len st' rest :
  receive st reads = (len, st', rest) ->
  zlen (rx_buffer st') = zlen (rx_buffer st)
  /\ (forall n, len = Ok n -> n <> 0 ->
        28 + n <= zlen (rx_buffer st) /\ zlen (get_last_rx_data st') = n).
Proof.
  unfold receive. destruct (recv_decode_slip st reads) as [[l s1] r] eqn:E1.
  apply recv_decode_slip_bounds in E1 as [B1 B2].
  destruct l as [n1|e]; [|intros; simplify_eq; split; [lia|intros ? [=]]].
  specialize (B2 n1 eq_refl). case_match; [intros; simplify_eq; split; [lia|intros ? [= <-] ?; done]|].
  destruct (parse_udp_packet s1 n1) as [n2 s2] eqn:E2.
  apply parse_udp_packet_bounds in E2 as [B3 B4]; [|lia]. rewrite <- B3 in B1.
  intros. simplify_eq. split; [lia|]. intros n [= ->] Hn.
  destruct B4 as [->|(L & Ud & P & Off)]; [done|]. split; [lia|].
  unfold get_last_rx_data. rewrite Off, Ud, length_take, length_drop. lia.
Qed.

(** C36: for any sequence of bytes, timeouts and errors on the serial line, a
    call of [receive] never stores outside the receive buffer, and a datagram
    it reports lies inside that buffer, headers included. *)
Theorem receive_in_bounds st reads len st' rest :
  receive st reads = (len, st', rest) ->
  zlen (rx_buffer st') = zlen (rx_buffer st)
  /\ (forall n, len = Ok n -> n <> 0 ->
        28 + n <= zlen (rx_buffer st) /\ zlen (get_last_rx_data st') = n).
Proof. apply receive_props. Qed.

(** A datagram on its way over the line. *)
Lemma receive_sent tx rx write src dst sp dp data junk rest frame tx' :
  is_u32 src -> is_u32 dst -> is_u16 sp -> is_u16 dp ->
  Forall is_byte data -> 0 < zlen data <= 1472 ->
  zlen (rx_buffer rx) = MTU -> Forall is_byte (rx_buffer rx) ->
  Forall (fun b => b <> SLIP_END) junk ->
  send write tx src dst sp dp data = (Sent frame, tx') ->
  exists rx', receive rx ((RByte <$> junk ++ frame) ++ rest) = (Ok (zlen data), rx', rest)
    /\ get_last_rx_data rx' = data
    /\ last_remote_ip rx' = src /\ last_remote_port rx' = sp
    /\ last_dst_ip rx' = dst /\ last_dst_port rx' = dp.
Proof.
  intros Hs Hd Hsp Hdp Hb Hlen Hsz Hold Hj. unfold send, MTU in *.
  rewrite (proj2 (Z.ltb_ge 1500 (zlen data))) by lia.
  destruct (build_headers_eq (last_sent_packet_id tx) src dst sp dp (zlen data))
    as (c & Hc & -> & Hsum); [done..|unfold MTU; lia|].
  intros E. repeat case_match; simplify_eq.
  set (hb := header_bytes _ _ _ _ _ _ _ _) in *.
  assert (length hb = 28%nat) as L28
    by (destruct (store16_bytes c) as (a & b & E' & _); subst hb;
        unfold header_bytes; by rewrite E').
  unfold receive, recv_decode_slip.
  rewrite recv_loop_frame by (done || rewrite length_app; lia).
  rewrite (proj2 (Z.eqb_neq _ _)) by (rewrite length_app; lia).
  replace (zlen (hb ++ data)) with (28 + zlen data) by (rewrite length_app; lia).
  set (old := drop (length (hb ++ data)) (rx_buffer rx)).
  assert (Forall is_byte old) as Hob by (by apply Forall_drop).
  set (rx1 := set_rx_buffer _ rx).
  assert (rx_buffer rx1 = hb ++ data ++ old) as Hbuf
    by (simpl; by rewrite <- app_assoc).
  rewrite (parse_header_bytes rx1 _ src dst c sp dp data old (u16_range _)
             Hs Hd Hsp Hdp Hb Hob ltac:(lia) Hsum Hbuf).
  eexists. split; [done|]. split; [|done].
  unfold get_last_rx_data. cbn [last_rx_udp_data last_udp_data_len rx_buffer].
  by rewrite Nat2Z.id, Hbuf, <- L28, drop_app_length, take_app_length.
Qed.

(** A datagram sent by one end of the line is delivered unchanged by the
    other end, with its addresses and ports, on machines of either byte
    order, even after noise on the line, and the receiver leaves the bytes
    that follow the frame for the next call. *)
Theorem udp_slip_roundtrip tx rx write src dst sp dp data junk rest frame tx' :
  is_u32 src -> is_u32 dst -> is_u16 sp -> is_u16 dp ->
  Forall is_byte data -> 0 < zlen data <= 1472 ->
  zlen (rx_buffer rx) = MTU -> Forall is_byte (rx_buffer rx) ->
  Forall (fun b => b <> SLIP_END) junk ->
  send write tx src dst sp dp data = (Sent frame, tx') ->
  exists rx', receive rx ((RByte <$> junk ++ frame) ++ rest) = (Ok (zlen data), rx', rest)
    /\ get_last_rx_data rx' = data
    /\ last_remote_ip rx' = src /\ last_remote_port rx' = sp
    /\ last_dst_ip rx' = dst /\ last_dst_port rx' = dp.
Proof. apply receive_sent. Qed.

(** A payload of at most 1471 bytes always fits the transmit buffer of
    [2 * MTU] bytes, escapes included. *)
Lemma send_fits_tx_buffer write st src dst sp dp data :
  tx_buffer_size st = MTU * 2 -> zlen data <= 1471 ->
  is_u32 src -> is_u32 dst -> is_u16 sp -> is_u16 dp ->
  (send write st src dst sp dp data).1 <> TxOverflow.
Proof.
  intros Hsz Hlen Hs Hd Hsp Hdp. unfold send, MTU in *.
  rewrite (proj2 (Z.ltb_ge 1500 (zlen data))) by lia.
  destruct (build_headers_eq (last_sent_packet_id st) src dst sp dp (zlen data))
    as (c & _ & -> & _); [done..|unfold MTU; lia|].
  set (hb := header_bytes _ _ _ _ _ _ _ _).
  assert (length hb = 28%nat) as L28
    by (destruct (store16_bytes c) as (a & b & E' & _); subst hb;
        unfold header_bytes; by rewrite E').
  pose proof (encode_slip_length hb data). simpl (tx_buffer_size _).
  rewrite Hsz, (proj2 (Z.ltb_ge (1500 * 2) _)) by lia. by repeat case_match.
Qed.

(** The size check of [send] ([length <= MTU]) does not protect the
    transmit buffer: with a payload of 1500 [SLIP_END] bytes, which passes
    the check, [encode_slip] writes past the end of [tx_buffer]. *)
Lemma send_overflows_tx_buffer write st src dst sp dp :
  tx_buffer_size st = MTU * 2 ->
  zlen (replicate 1500 SLIP_END) <= MTU
  /\ (send write st src dst sp dp (replicate 1500 SLIP_END)).1 = TxOverflow.
Proof.
  intros Hsz. split; [vm_compute; congruence|]. unfold send.
  replace (MTU <? zlen (replicate 1500 SLIP_END)) with false by reflexivity.
  destruct (build_headers _ _ _ _ _ _) as [h id]. simpl (tx_buffer_size _).
  pose proof (encode_slip_block_length h).
  replace (tx_buffer_size st <? _) with true; [done|].
  symmetry. apply Z.ltb_lt. rewrite Hsz. unfold encode_slip. simpl length.
  rewrite !length_app. change (length (encode_slip_block (replicate 1500 SLIP_END))) with 3000%nat.
  unfold MTU. simpl. lia.
Qed.

End Contract.

(** *** Concrete runs *)

Lemma receive_in_bounds_witness :
  let r := receive (H := little) (SlipUdpSerial_init 0) [RByte 0xC0; RByte 1; RTimeout] in
  zlen (rx_buffer r.1.2) = 1500.
Proof.
  intros r. destruct r as [[len st'] rest] eqn:E.
  destruct (receive_in_bounds (H := little) _ _ _ _ _ E) as [B _]. exact B.
Defined.

Lemma udp_slip_roundtrip_witness :
  exists frame tx' rx',
    send (H := big) (fun tx => Some (zlen tx)) (SlipUdpSerial_init 7)
      0x0A000001 0x0A000002 1024 12200 [0xC0; 0xDB; 5] = (Sent frame, tx')
    /\ receive (H := big) (SlipUdpSerial_init 0) ((RByte <$> [1] ++ frame) ++ [RTimeout])
       = (Ok 3, rx', [RTimeout])
    /\ get_last_rx_data rx' = [0xC0; 0xDB; 5].
Proof.
  destruct (send (H := big) (fun tx => Some (zlen tx)) (SlipUdpSerial_init 7)
    0x0A000001 0x0A000002 1024 12200 [0xC0; 0xDB; 5]) as [[frame| |] tx'] eqn:E;
    [|vm_compute in E; discriminate..].
  destruct (udp_slip_roundtrip (H := big) (SlipUdpSerial_init 7) (SlipUdpSerial_init 0)
    (fun tx => Some (zlen tx)) 0x0A000001 0x0A000002 1024 12200 [0xC0; 0xDB; 5] [1]
    [RTimeout] frame tx') as (rx' & R & D & _).
  1-4: split; vm_compute; congruence.
  - repeat constructor; vm_compute; congruence.
  - split; vm_compute; congruence.
  - reflexivity.
  - apply Forall_replicate. split; vm_compute; congruence.
  - repeat constructor. discriminate.
  - exact E.
  - exists frame, tx', rx'. split; [reflexivity|]. split; [exact R|exact D].
Defined.
