(* ===== verification/Unicode.v ===== *)
(** * Unicode: transliteration of server file names (unicode_to_ascii.cpp)

    The global [transliteration_map] is a [gmap] from code points to byte
    strings, threaded through [load_transliteration_map].  A [string_view] of
    that function is a pointer and a length: the pointer is the list of bytes
    from it to the end of the line (the line's terminating NUL follows), or
    [None] for the null pointer of an empty view. *)
From stdpp Require Import gmap.
From S2P Require Import Prelude Words.

Abbreviation translit_map := (gmap Z bytes) (only parsing).

(** ** String views *)

Record string_view := mkView { sv_data : option bytes; sv_size : nat }.

(** The characters of the view. *)
Definition sv_chars (v : string_view) : bytes :=
  match sv_data v with Some d => take (sv_size v) d | None => [] end.

(** Byte [i] from the pointer.  [None]: the pointer is null. *)
Definition sv_byte (v : string_view) (i : nat) : option Z :=
  match sv_data v with Some d => Some (byte_at d i) | None => None end.

Definition is_blank (c : Z) : bool := existsb (Z.eqb c) [32; 9; 13; 10].

(** [find_first_not_of] / [find_last_not_of]: [None] is [npos]. *)
Fixpoint find_first (p : Z -> bool) (s : bytes) : option nat :=
  match s with
  | [] => None
  | c :: s => if p c then Some O else S <$> find_first p s
  end.

Fixpoint find_last (p : Z -> bool) (s : bytes) : option nat :=
  match s with
  | [] => None
  | c :: s =>
      match find_last p s with
      | Some i => Some (S i)
      | None => if p c then Some O else None
      end
  end.

Definition clean_token (token : string_view) : string_view :=
  let chars := sv_chars token in
  match find_first (fun c => negb (is_blank c)) chars,
        find_last (fun c => negb (is_blank c)) chars, sv_data token with
  | Some start, Some last, Some data =>
      let '(first, past) :=
        if (1 <=? last - start)%nat && (byte_at data start =? CH_QUOTE)
           && (byte_at data last =? CH_QUOTE)
        then (S start, last) else (start, S last) in
      mkView (Some (drop first data)) (past - first)
  | _, _, _ => mkView None 0
  end.

(** ** Code points *)

(** [utf8_to_codepoint]: [None] when the function dereferences a null
    pointer, which it does for an empty view without data. *)
Definition utf8_to_codepoint (utf8_char : string_view) : option (Z * bool) :=
  let len := sv_size utf8_char in
  match sv_data utf8_char with
  | None => None
  | Some d =>
      let b i := byte_at d i in
      Some
        (if (len =? 1)%nat then (b 0%nat, true)
         else if (Z.land (b 0%nat) 0xE0 =? 0xC0) && (2 <=? len)%nat then
           (Z.lor (Z.shiftl (Z.land (b 0%nat) 0x1F) 6) (Z.land (b 1%nat) 0x3F), true)
         else if (Z.land (b 0%nat) 0xF0 =? 0xE0) && (3 <=? len)%nat then
           (Z.lor (Z.lor (Z.shiftl (Z.land (b 0%nat) 0x0F) 12)
                         (Z.shiftl (Z.land (b 1%nat) 0x3F) 6))
                  (Z.land (b 2%nat) 0x3F), true)
         else if (Z.land (b 0%nat) 0xF8 =? 0xF0) && (4 <=? len)%nat then
           (Z.lor (Z.lor (Z.lor (Z.shiftl (Z.land (b 0%nat) 0x07) 18)
                                (Z.shiftl (Z.land (b 1%nat) 0x3F) 12))
                         (Z.shiftl (Z.land (b 2%nat) 0x3F) 6))
                  (Z.land (b 3%nat) 0x3F), true)
         else (0xFFFD, false))
  end.

Definition in_range (lo hi cp : Z) : bool := (lo <=? cp) && (cp <=? hi).

Definition is_combining_mark (cp : Z) : bool :=
  in_range 0x0300 0x036F cp || in_range 0x1AB0 0x1AFF cp || in_range 0x1DC0 0x1DFF cp
  || in_range 0x20D0 0x20FF cp || in_range 0xFE20 0xFE2F cp.

(** ** Loading the map *)

(** One line of the file, after the comment test: [None] is undefined
    behaviour (an iterator before the beginning of the line when the colon is
    missing, a null pointer when the key is blank). *)
Definition load_line (m : translit_map) (line : bytes) : option translit_map :=
  match line with
  | [] => Some m
  | c :: _ =>
      if c =? CH_HASH then Some m
      else
        match find_first (fun c => c =? CH_COLON) line with
        | None => None
        | Some colon =>
            let key := clean_token (mkView (Some line) colon) in
            let value := clean_token
              (mkView (Some (drop (S colon) line)) (length line - S colon)) in
            match utf8_to_codepoint key with
            | None => None
            | Some (cp, _) =>
                (* try_emplace: the first entry of a key stays *)
                match m !! cp with
                | Some _ => Some m
                | None => Some (<[cp := sv_chars value]> m)
                end
            end
        end
  end.

(** [std::getline]: the lines of the file, without the newlines; a file that
    ends with a newline has no line after it. *)
Fixpoint getlines_from (cur : bytes) (file : bytes) : list bytes :=
  match file with
  | [] => match cur with [] => [] | _ => [cur] end
  | c :: file => if c =? 10 then cur :: getlines_from [] file
                 else getlines_from (cur ++ [c]) file
  end.
Definition getlines (file : bytes) : list bytes := getlines_from [] file.

Fixpoint load_lines (m : translit_map) (lines : list bytes) : option translit_map :=
  match lines with
  | [] => Some m
  | l :: lines => match load_line m l with
                  | Some m => load_lines m lines
                  | None => None
                  end
  end.

(** [load_transliteration_map] on the contents of the file ([None]: it cannot
    be opened).  The outcomes are the exception, undefined behaviour and the
    new map. *)
Inductive load_outcome :=
  | Loaded (m : translit_map)
  | LoadThrow
  | LoadUndefined.

Definition load_transliteration_map (m : translit_map) (contents : option bytes)
  : load_outcome :=
  match contents with
  | None => LoadThrow
  | Some file => match load_lines m (getlines file) with
                 | Some m => Loaded m
                 | None => LoadUndefined
                 end
  end.

(** ** Converting names *)

Definition codepoint_to_ascii (m : translit_map) (cp : Z) : bytes :=
  if is_combining_mark cp then []
  else match m !! cp with Some s => s | None => [CH_UNDERSCORE] end.

(** The characters a multi-byte sequence contributes. *)
Definition convert_sequence (m : translit_map) (s : bytes) : bytes :=
  match utf8_to_codepoint (mkView (Some s) (length s)) with
  | Some (cp, _) => codepoint_to_ascii m cp
  | None => []
  end.

(** [convert_utf8_to_ascii]: the lead byte gives the length of the sequence;
    a sequence cut off by the end of the name ends the conversion. *)
Fixpoint convert_utf8_to_ascii (m : translit_map) (input : bytes) : bytes :=
  match input with
  | [] => []
  | c :: s1 =>
      if Z.land c 0x80 =? 0 then c :: convert_utf8_to_ascii m s1
      else if Z.land c 0xE0 =? 0xC0 then
        match s1 with
        | b1 :: s2 => convert_sequence m [c; b1] ++ convert_utf8_to_ascii m s2
        | _ => []
        end
      else if Z.land c 0xF0 =? 0xE0 then
        match s1 with
        | b1 :: b2 :: s3 => convert_sequence m [c; b1; b2] ++ convert_utf8_to_ascii m s3
        | _ => []
        end
      else if Z.land c 0xF8 =? 0xF0 then
        match s1 with
        | b1 :: b2 :: b3 :: s4 =>
            convert_sequence m [c; b1; b2; b3] ++ convert_utf8_to_ascii m s4
        | _ => []
        end
      else CH_UNDERSCORE :: convert_utf8_to_ascii m s1
  end.

(** [convert_windows_unicode_to_ascii] on UTF-16 code units. *)
Definition convert_unit (m : translit_map) (wc : Z) : bytes :=
  if wc <=? 0x7F then [wc] else codepoint_to_ascii m wc.

Fixpoint convert_windows_unicode_to_ascii (m : translit_map) (input : bytes) : bytes :=
  match input with
  | [] => []
  | wc :: s1 =>
      match s1 with
      | wc2 :: s2 =>
          if in_range 0xD800 0xDBFF wc && in_range 0xDC00 0xDFFF wc2 then
            codepoint_to_ascii m
              (Z.lor (Z.shiftl (wc - 0xD800) 10) (wc2 - 0xDC00) + 0x10000)
            ++ convert_windows_unicode_to_ascii m s2
          else convert_unit m wc ++ convert_windows_unicode_to_ascii m s1
      | [] => convert_unit m wc ++ convert_windows_unicode_to_ascii m s1
      end
  end.

(** ** Specification: UTF-8 and UTF-16 *)

(** Unicode scalar values. *)
Definition is_scalar (cp : Z) : Prop :=
  0 <= cp < 0xD800 \/ 0xE000 <= cp < 0x110000.

Definition utf8_encode (cp : Z) : bytes :=
  if cp <? 0x80 then [cp]
  else if cp <? 0x800 then [0xC0 + cp / 2 ^ 6; 0x80 + cp mod 2 ^ 6]
  else if cp <? 0x10000 then
    [0xE0 + cp / 2 ^ 12; 0x80 + cp / 2 ^ 6 mod 2 ^ 6; 0x80 + cp mod 2 ^ 6]
  else [0xF0 + cp / 2 ^ 18; 0x80 + cp / 2 ^ 12 mod 2 ^ 6; 0x80 + cp / 2 ^ 6 mod 2 ^ 6;
        0x80 + cp mod 2 ^ 6].

Definition utf16_encode (cp : Z) : bytes :=
  if cp <? 0x10000 then [cp]
  else [0xD800 + (cp - 0x10000) / 2 ^ 10; 0xDC00 + (cp - 0x10000) mod 2 ^ 10].

(** What one character of a name becomes. *)
Definition char_to_ascii (m : translit_map) (cp : Z) : bytes :=
  if cp <? 0x80 then [cp] else codepoint_to_ascii m cp.

(** ** Decoding *)

Lemma lead2 x : 0 <= x < 32 ->
  (Z.land (0xC0 + x) 0x80 =? 0) = false /\ Z.land (0xC0 + x) 0xE0 = 0xC0
  /\ Z.land (0xC0 + x) 0x1F = x.
Proof.
  intros Hx. pose proof (by_enum 32 (fun x => negb (Z.land (0xC0 + x) 0x80 =? 0)
    && (Z.land (0xC0 + x) 0xE0 =? 0xC0) && (Z.land (0xC0 + x) 0x1F =? x))
    ltac:(reflexivity) x Hx) as E. simpl in E. lia.
Qed.

Lemma lead3 x : 0 <= x < 16 ->
  (Z.land (0xE0 + x) 0x80 =? 0) = false /\ (Z.land (0xE0 + x) 0xE0 =? 0xC0) = false
  /\ Z.land (0xE0 + x) 0xF0 = 0xE0 /\ Z.land (0xE0 + x) 0x0F = x.
Proof.
  intros Hx. pose proof (by_enum 16 (fun x => negb (Z.land (0xE0 + x) 0x80 =? 0)
    && negb (Z.land (0xE0 + x) 0xE0 =? 0xC0) && (Z.land (0xE0 + x) 0xF0 =? 0xE0)
    && (Z.land (0xE0 + x) 0x0F =? x)) ltac:(reflexivity) x Hx) as E. simpl in E. lia.
Qed.

Lemma lead4 x : 0 <= x < 8 ->
  (Z.land (0xF0 + x) 0x80 =? 0) = false /\ (Z.land (0xF0 + x) 0xE0 =? 0xC0) = false
  /\ (Z.land (0xF0 + x) 0xF0 =? 0xE0) = false
  /\ Z.land (0xF0 + x) 0xF8 = 0xF0 /\ Z.land (0xF0 + x) 0x07 = x.
Proof.
  intros Hx. pose proof (by_enum 8 (fun x => negb (Z.land (0xF0 + x) 0x80 =? 0)
    && negb (Z.land (0xF0 + x) 0xE0 =? 0xC0) && negb (Z.land (0xF0 + x) 0xF0 =? 0xE0)
    && (Z.land (0xF0 + x) 0xF8 =? 0xF0)
    && (Z.land (0xF0 + x) 0x07 =? x)) ltac:(reflexivity) x Hx) as E. simpl in E. lia.
Qed.

Lemma continuation x : 0 <= x < 64 -> Z.land (0x80 + x) 0x3F = x.
Proof.
  intros Hx. pose proof (by_enum 64 (fun x => Z.land (0x80 + x) 0x3F =? x)
    ltac:(reflexivity) x Hx) as E. simpl in E. lia.
Qed.

Lemma ascii_test cp : 0 <= cp < 0x80 -> (Z.land cp 0x80 =? 0) = true.
Proof.
  apply (by_enum 0x80 (fun cp => Z.land cp 0x80 =? 0)). reflexivity.
Qed.

(** [(a << n) | b] for a [b] of [n] bits. *)
Lemma shift_or n a b : 0 <= n -> 0 <= b < 2 ^ n -> Z.lor (Z.shiftl a n) b = a * 2 ^ n + b.
Proof.
  intros Hn Hb. rewrite Z.lor_comm, Z.shiftl_mul_pow2, lor_disjoint by lia. lia.
Qed.

Lemma utf8_decode2 x y rest : 0 <= x < 32 -> 0 <= y < 64 ->
  utf8_to_codepoint (mkView (Some (0xC0 + x :: 0x80 + y :: rest)) 2) = Some (x * 2 ^ 6 + y, true).
Proof.
  intros Hx Hy. destruct (lead2 x Hx) as (_ & L & V).
  unfold utf8_to_codepoint, byte_at. cbn [sv_data sv_size nth Nat.eqb Nat.leb].
  rewrite L, V, continuation by done. cbn. by rewrite shift_or by lia.
Qed.

Lemma utf8_decode3 x y z rest : 0 <= x < 16 -> 0 <= y < 64 -> 0 <= z < 64 ->
  utf8_to_codepoint (mkView (Some (0xE0 + x :: 0x80 + y :: 0x80 + z :: rest)) 3)
  = Some (x * 2 ^ 12 + y * 2 ^ 6 + z, true).
Proof.
  intros Hx Hy Hz. destruct (lead3 x Hx) as (_ & N2 & L & V).
  unfold utf8_to_codepoint, byte_at. cbn [sv_data sv_size nth Nat.eqb Nat.leb].
  rewrite N2, L, V, !continuation by done. cbn [andb Z.eqb Pos.eqb].
  rewrite (Z.shiftl_mul_pow2 y), shift_or by lia.
  replace (x * 2 ^ 12 + y * 2 ^ 6) with (Z.shiftl (x * 2 ^ 6 + y) 6)
    by (rewrite Z.shiftl_mul_pow2; lia).
  rewrite shift_or by lia. do 2 f_equal. rewrite Z.shiftl_mul_pow2; lia.
Qed.

Lemma utf8_decode4 x y z w rest : 0 <= x < 8 -> 0 <= y < 64 -> 0 <= z < 64 -> 0 <= w < 64 ->
  utf8_to_codepoint (mkView (Some (0xF0 + x :: 0x80 + y :: 0x80 + z :: 0x80 + w :: rest)) 4)
  = Some (x * 2 ^ 18 + y * 2 ^ 12 + z * 2 ^ 6 + w, true).
Proof.
  intros Hx Hy Hz Hw. destruct (lead4 x Hx) as (_ & N2 & N3 & L & V).
  unfold utf8_to_codepoint, byte_at. cbn [sv_data sv_size nth Nat.eqb Nat.leb].
  rewrite N2, N3, L, V, !continuation by done. cbn [andb Z.eqb Pos.eqb].
  rewrite (Z.shiftl_mul_pow2 y), shift_or by lia.
  replace (x * 2 ^ 18 + y * 2 ^ 12) with (Z.shiftl (x * 2 ^ 6 + y) 12)
    by (rewrite Z.shiftl_mul_pow2; lia).
  rewrite (Z.shiftl_mul_pow2 z), shift_or by lia.
  replace ((x * 2 ^ 6 + y) * 2 ^ 12 + z * 2 ^ 6) with (Z.shiftl (x * 2 ^ 12 + y * 2 ^ 6 + z) 6)
    by (rewrite Z.shiftl_mul_pow2; lia).
  rewrite shift_or by lia. do 2 f_equal. rewrite !Z.shiftl_mul_pow2; lia.
Qed.

Lemma codepoint_split2 cp : cp = cp / 2 ^ 6 * 2 ^ 6 + cp mod 2 ^ 6.
Proof. Z.to_euclidean_division_equations; lia. Qed.
Lemma codepoint_split3 cp : 0 <= cp ->
  cp = cp / 2 ^ 12 * 2 ^ 12 + cp / 2 ^ 6 mod 2 ^ 6 * 2 ^ 6 + cp mod 2 ^ 6.
Proof. intros. Z.to_euclidean_division_equations; lia. Qed.
Lemma codepoint_split4 cp : 0 <= cp ->
  cp = cp / 2 ^ 18 * 2 ^ 18 + cp / 2 ^ 12 mod 2 ^ 6 * 2 ^ 12
       + cp / 2 ^ 6 mod 2 ^ 6 * 2 ^ 6 + cp mod 2 ^ 6.
Proof. intros. Z.to_euclidean_division_equations; lia. Qed.

Lemma utf8_decode_encode cp rest : 0 <= cp < 0x110000 ->
  utf8_to_codepoint (mkView (Some (utf8_encode cp ++ rest)) (length (utf8_encode cp)))
  = Some (cp, true).
Proof.
  intros R. unfold utf8_encode. repeat case_match;
    repeat match goal with
           | h : (_ <? _) = true |- _ => apply Z.ltb_lt in h
           | h : (_ <? _) = false |- _ => apply Z.ltb_ge in h
           end.
  - reflexivity.
  - rewrite (codepoint_split2 cp) at 5. etrans; [|apply utf8_decode2]; [reflexivity|..];
      Z.to_euclidean_division_equations; lia.
  - rewrite (codepoint_split3 cp) at 7 by lia.
    etrans; [|apply utf8_decode3]; [reflexivity|..]; Z.to_euclidean_division_equations; lia.
  - rewrite (codepoint_split4 cp) at 9 by lia.
    etrans; [|apply utf8_decode4]; [reflexivity|..]; Z.to_euclidean_division_equations; lia.
Qed.

(** [utf8_to_codepoint] inverts UTF-8 encoding, for sequences of every
    length, whatever bytes follow the sequence in the name. *)
Theorem utf8_to_codepoint_encode cp rest : is_scalar cp ->
  utf8_to_codepoint (mkView (Some (utf8_encode cp ++ rest)) (length (utf8_encode cp)))
  = Some (cp, true).
Proof. intros [H|H]; apply utf8_decode_encode; lia. Qed.

Lemma utf8_to_codepoint_encode_witness :
  utf8_to_codepoint (mkView (Some ([0xF0; 0x9F; 0x98; 0x80] ++ [0x2E])) 4)
  = Some (0x1F600, true).
Proof. apply (utf8_to_codepoint_encode 0x1F600 [0x2E]). right. lia. Defined.

(** ** Conversion of whole names *)

Lemma convert_sequence_encode m cp : 0x80 <= cp < 0x110000 ->
  convert_sequence m (utf8_encode cp) = codepoint_to_ascii m cp.
Proof.
  intros R. unfold convert_sequence.
  pose proof (utf8_decode_encode cp [] ltac:(lia)) as E. rewrite app_nil_r in E.
  by rewrite E.
Qed.

Lemma convert_utf8_char m cp rest : 0 <= cp < 0x110000 ->
  convert_utf8_to_ascii m (utf8_encode cp ++ rest)
  = char_to_ascii m cp ++ convert_utf8_to_ascii m rest.
Proof.
  intros R. unfold char_to_ascii.
  pose proof (convert_sequence_encode m cp) as Seq. unfold utf8_encode in *.
  destruct (Z.ltb_spec cp 0x80).
  { cbn [app convert_utf8_to_ascii]. by rewrite ascii_test by lia. }
  rewrite <- Seq by lia. repeat case_match;
    repeat match goal with
           | h : (_ <? _) = true |- _ => apply Z.ltb_lt in h
           | h : (_ <? _) = false |- _ => apply Z.ltb_ge in h
           end; cbn [app convert_utf8_to_ascii].
  - destruct (lead2 (cp / 2 ^ 6)) as (-> & -> & _); [|done].
    Z.to_euclidean_division_equations; lia.
  - destruct (lead3 (cp / 2 ^ 12)) as (-> & -> & -> & _); [|done].
    Z.to_euclidean_division_equations; lia.
  - destruct (lead4 (cp / 2 ^ 18)) as (-> & -> & -> & -> & _); [|done].
    Z.to_euclidean_division_equations; lia.
Qed.

(** On well-formed UTF-8, [convert_utf8_to_ascii] translates character by
    character: ASCII is kept, combining marks are dropped, mapped characters
    become their replacement and the others an underscore. *)
Theorem convert_utf8_spec m cps : Forall is_scalar cps ->
  convert_utf8_to_ascii m (cps ≫= utf8_encode) = cps ≫= char_to_ascii m.
Proof.
  induction 1 as [|cp cps Hcp _ IH]; [done|].
  cbn [mbind list_bind]. rewrite convert_utf8_char by (destruct Hcp; lia). by f_equal.
Qed.

Lemma convert_utf8_spec_witness :
  convert_utf8_to_ascii (<[0xE9 := str "e"]> ∅) ([0x63; 0xE9; 0x301; 0x4E2D] ≫= utf8_encode)
  = str "ce_".
Proof.
  etrans; [apply convert_utf8_spec; repeat constructor; unfold is_scalar; lia|].
  vm_compute. reflexivity.
Defined.

Lemma convert_utf16_char m cp rest : is_scalar cp ->
  convert_windows_unicode_to_ascii m (utf16_encode cp ++ rest)
  = char_to_ascii m cp ++ convert_windows_unicode_to_ascii m rest.
Proof.
  intros R. unfold utf16_encode. case_match eqn:E.
  - apply Z.ltb_lt in E. cbn [app convert_windows_unicode_to_ascii].
    assert (in_range 0xD800 0xDBFF cp = false) as ->
      by (unfold in_range; destruct R; lia).
    assert (convert_unit m cp = char_to_ascii m cp) as ->
      by (unfold convert_unit, char_to_ascii; repeat case_match; lia || done).
    by destruct rest.
  - apply Z.ltb_ge in E. cbn [app convert_windows_unicode_to_ascii].
    set (hi := (cp - 0x10000) / 2 ^ 10). set (lo := (cp - 0x10000) mod 2 ^ 10).
    assert (0 <= hi < 0x400 /\ 0 <= lo < 0x400 /\ cp - 0x10000 = hi * 2 ^ 10 + lo)
      as (Hh & Hl & Hs)
      by (subst hi lo; destruct R; Z.to_euclidean_division_equations; lia).
    assert (in_range 0xD800 0xDBFF (0xD800 + hi) && in_range 0xDC00 0xDFFF (0xDC00 + lo) = true)
      as -> by (unfold in_range; lia).
    replace (0xD800 + hi - 0xD800) with hi by lia.
    replace (0xDC00 + lo - 0xDC00) with lo by lia.
    rewrite shift_or by lia. rewrite <- Hs.
    replace (cp - 0x10000 + 0x10000) with cp by lia.
    unfold char_to_ascii. by rewrite (proj2 (Z.ltb_ge cp 0x80)) by lia.
Qed.

(** C39: the Windows build (UTF-16 names) and the POSIX build (UTF-8 names)
    transliterate the same file name to the same ASCII string. *)
Theorem windows_posix_conversion_agree m cps : Forall is_scalar cps ->
  convert_windows_unicode_to_ascii m (cps ≫= utf16_encode)
  = convert_utf8_to_ascii m (cps ≫= utf8_encode).
Proof.
  induction 1 as [|cp cps Hcp _ IH]; [done|]. cbn [mbind list_bind].
  rewrite convert_utf16_char, convert_utf8_char by (done || destruct Hcp; lia).
  by rewrite IH.
Qed.

Lemma windows_posix_conversion_agree_witness :
  convert_windows_unicode_to_ascii ∅ ([0x41; 0x1F600] ≫= utf16_encode)
  = convert_utf8_to_ascii ∅ ([0x41; 0x1F600] ≫= utf8_encode).
Proof.
  apply windows_posix_conversion_agree. repeat constructor; unfold is_scalar; lia.
Defined.

(** *** The result is ASCII, even for names that are not UTF-8 *)

Definition ascii_string (s : bytes) : Prop := Forall (fun c => 0 <= c < 0x80) s.

Lemma codepoint_to_ascii_ascii (m : translit_map) cp :
  map_Forall (fun _ s => ascii_string s) m -> ascii_string (codepoint_to_ascii m cp).
Proof.
  intros Hm. unfold codepoint_to_ascii. case_match; [constructor|].
  case_match; [by eapply Hm|]. repeat constructor; lia.
Qed.

Lemma land_0x80_ascii c : is_byte c -> (Z.land c 0x80 =? 0) = true -> 0 <= c < 0x80.
Proof.
  unfold is_byte. intros Hc E.
  pose proof (by_enum 256 (fun c => implb (Z.land c 0x80 =? 0) (c <? 0x80))
    ltac:(reflexivity) c Hc) as T. simpl in T. rewrite E in T. simpl in T. lia.
Qed.

Lemma convert_sequence_ascii (m : translit_map) s :
  map_Forall (fun _ s => ascii_string s) m -> ascii_string (convert_sequence m s).
Proof.
  intros Hm. unfold convert_sequence. repeat case_match;
    auto using codepoint_to_ascii_ascii; constructor.
Qed.

(** With a map of ASCII strings, every file name, valid UTF-8 or not, is
    converted to an ASCII string. *)
Theorem convert_utf8_ascii (m : translit_map) input :
  map_Forall (fun _ s => ascii_string s) m -> Forall is_byte input ->
  ascii_string (convert_utf8_to_ascii m input).
Proof.
  intros Hm. pose proof (convert_sequence_ascii m) as Seq.
  assert (ascii_string [CH_UNDERSCORE]) as Hu by (repeat constructor; lia).
  induction input as [input IH] using list_length_ind. intros Hin.
  destruct input as [|c s1]; [constructor|]. inversion Hin as [|? ? Hc H1]; subst.
  cbn [convert_utf8_to_ascii].
  destruct (Z.land c 0x80 =? 0) eqn:E0.
  { apply Forall_cons_2; [by apply land_0x80_ascii | apply IH; [simpl; lia | done]]. }
  repeat case_match; subst;
    repeat match goal with h : Forall is_byte (_ :: _) |- _ => inversion h; subst; clear h end;
    try (apply Forall_nil_2); try (apply Forall_app_2; [by apply Seq|]);
    try (apply (Forall_app_2 _ [_]); [done|]); apply IH; simpl; auto; lia.
Qed.

Lemma convert_utf8_ascii_witness :
  ascii_string (convert_utf8_to_ascii ∅ [0xFF; 0xC3; 0x41; 0xE2]).
Proof.
  apply convert_utf8_ascii; [apply map_Forall_empty | repeat constructor; unfold is_byte; lia].
Defined.

(** ** Loading the map: when the behaviour is defined *)

Lemma find_first_None p s : find_first p s = None <-> Forall (fun c => p c = false) s.
Proof.
  induction s as [|c s IH]; simpl; [split; auto|].
  destruct (p c) eqn:E; simpl.
  - split; [done|]. intros H. inversion H. congruence.
  - rewrite fmap_None, IH, Forall_cons. naive_solver.
Qed.

Lemma find_first_Some p s i : find_first p s = Some i ->
  exists l c r, s = l ++ c :: r /\ i = length l /\ p c = true /\ Forall (fun c => p c = false) l.
Proof.
  revert i. induction s as [|c s IH]; simpl; [done|]. intros i.
  destruct (p c) eqn:E; intros H; simplify_eq.
  - exists [], c, s. auto.
  - destruct (find_first p s) as [j|] eqn:F; simplify_eq/=.
    destruct (IH j eq_refl) as (l & d & r & -> & -> & Hd & Hl).
    exists (c :: l), d, r. auto.
Qed.

Lemma find_last_None p s : find_last p s = None <-> Forall (fun c => p c = false) s.
Proof.
  induction s as [|c s IH]; simpl; [split; auto|]. rewrite Forall_cons, <- IH.
  destruct (find_last p s); [naive_solver|]. destruct (p c); naive_solver.
Qed.

Lemma clean_token_data v d : sv_data v = Some d ->
  sv_data (clean_token v) = None <-> Forall (fun c => is_blank c = true) (sv_chars v).
Proof.
  intros Hd. unfold clean_token. rewrite Hd.
  assert (forall l, Forall (fun c => is_blank c = true) l
    <-> Forall (fun c => negb (is_blank c) = false) l) as B.
  { intros l. apply Forall_iff. intros c. by destruct (is_blank c). }
  rewrite B, <- find_first_None.
  destruct (find_first _ (sv_chars v)) eqn:F.
  - destruct (find_last _ (sv_chars v)) eqn:L; [by repeat case_match|].
    apply find_last_None, find_first_None in L. congruence.
  - split; by repeat case_match.
Qed.

(** A line the loader handles: blank, a comment, or [key:value] with a key
    that is not all white space. *)
Definition well_formed_line (line : bytes) : Prop :=
  line = [] \/ head line = Some CH_HASH
  \/ exists key value, line = key ++ CH_COLON :: value
       /\ Forall (fun c => c <> CH_COLON) key /\ ~ Forall (fun c => is_blank c = true) key.

Lemma load_line_defined m line : is_Some (load_line m line) <-> well_formed_line line.
Proof.
  unfold well_formed_line. destruct line as [|c line]; [simpl; naive_solver|].
  unfold load_line. destruct (Z.eqb_spec c CH_HASH) as [->|Hh]; [simpl; naive_solver|].
  destruct (find_first _ (c :: line)) as [colon|] eqn:F.
  - apply find_first_Some in F as (l & d & r & E & -> & Hd & Hl).
    apply Z.eqb_eq in Hd. subst d. rewrite E.
    assert (Forall (fun c => c <> CH_COLON) l) as Hl'
      by (eapply Forall_impl; [exact Hl|]; intros ? ?%Z.eqb_neq; done).
    pose proof (clean_token_data (mkView (Some (l ++ CH_COLON :: r)) (length l)) _ eq_refl) as C.
    unfold sv_chars in C. simpl in C. rewrite take_app_length in C.
    unfold utf8_to_codepoint.
    destruct (sv_data (clean_token (mkView (Some (l ++ CH_COLON :: r)) (length l)))) eqn:S.
    + split; [intros _|by repeat case_match].
      right; right. exists l, r. split_and!; [done..|]. naive_solver.
    + split; [intros [? [=]]|]. intros [H|[H|(k & v & Ek & Hk & Hb)]].
      * by destruct l.
      * destruct l; simplify_eq/=; simplify_eq.
      * destruct (app_sep_inj _ _ _ _ _ Ek Hl' Hk) as [-> _]. naive_solver.
  - apply find_first_None in F. split; [intros [? [=]]|].
    intros [H|[H|(k & v & Ek & Hk & Hb)]]; [done|by simplify_eq/=|].
    rewrite Ek in F. apply Forall_app in F as [_ F]. inversion F. done.
Qed.

(** Loading a transliteration map has defined behaviour exactly when every
    line is blank, a comment, or a [key:value] pair with a non-blank key: on a
    line without a colon, or with a blank key, the loader only logs an error
    and then dereferences an invalid pointer. *)
Theorem load_transliteration_map_defined m file :
  load_transliteration_map m (Some file) <> LoadUndefined
  <-> Forall well_formed_line (getlines file).
Proof.
  unfold load_transliteration_map.
  generalize (getlines file). intros lines. revert m.
  induction lines as [|l lines IH]; intros m; simpl; [naive_solver|].
  rewrite Forall_cons, <- (load_line_defined m l).
  destruct (load_line m l) as [m'|]; [rewrite IH; naive_solver|].
  split; [done|]. intros [[? [=]] _].
Qed.

(** Entries already present are never changed: the first line of a key wins. *)
Lemma load_line_mono (m m' : translit_map) line : load_line m line = Some m' -> m ⊆ m'.
Proof.
  unfold load_line. repeat case_match; intros; simplify_eq; try done.
  by apply insert_subseteq.
Qed.
