(* ===== verification/Fcb.v ===== *)
(** * Fcb: DOS 8.3 names (fs.cpp, fcb_file_name in shared/dos.h)

    An [fcb_file_name] is two arrays of characters, the blank-padded name and
    extension.  The [std::set<fcb_file_name>] of the names in use is the list
    of its elements; [set_insert] is [insert(...).second] under the order of
    [operator<=>]. *)
From stdpp Require Import gmap.
From S2P Require Import Prelude Words Unicode.

Record fcb_file_name := mkFcb {
  name_blank_padded : bytes;
  ext_blank_padded : bytes;
}.

#[export] Instance fcb_eq_dec : EqDecision fcb_file_name.
Proof. solve_decision. Defined.

Definition sizeof_name : nat := 8.
Definition sizeof_ext : nat := 3.

(** The arrays have their C sizes. *)
Definition fcb_wf (f : fcb_file_name) : Prop :=
  length (name_blank_padded f) = sizeof_name /\ length (ext_blank_padded f) = sizeof_ext.

(** ** Ordering and equality *)

(** [strncmp] on arrays of [unsigned char]. *)
Fixpoint strncmp (a b : bytes) (n : nat) : Z :=
  match n, a, b with
  | S n, x :: a, y :: b =>
      if x =? y then (if x =? CH_NUL then 0 else strncmp a b n) else x - y
  | _, _, _ => 0
  end.

Definition fcb_compare (lhs rhs : fcb_file_name) : comparison :=
  let ret := strncmp (name_blank_padded lhs) (name_blank_padded rhs) sizeof_name in
  let ret := if ret =? 0
             then strncmp (ext_blank_padded lhs) (ext_blank_padded rhs) sizeof_ext else ret in
  if ret =? 0 then Eq else if ret <? 0 then Lt else Gt.

Definition fcb_eqb (lhs rhs : fcb_file_name) : bool :=
  match fcb_compare lhs rhs with Eq => true | _ => false end.

Definition set_contains (s : list fcb_file_name) (f : fcb_file_name) : bool :=
  existsb (fcb_eqb f) s.
Definition set_insert (f : fcb_file_name) (s : list fcb_file_name) : list fcb_file_name * bool :=
  if set_contains s f then (s, false) else (f :: s, true).
Definition set_erase (f : fcb_file_name) (s : list fcb_file_name) : list fcb_file_name :=
  filter (fun g => fcb_eqb f g = false) s.

(** ** Matching against a mask *)

Fixpoint match_chars (mask name : bytes) : bool :=
  match name, mask with
  | n :: name, m :: mask =>
      if negb (ascii_to_upper n =? ascii_to_upper m) && negb (m =? CH_QMARK)
      then false else match_chars mask name
  | _, _ => true
  end.

Definition match_fcb_name_to_mask (mask name : fcb_file_name) : bool :=
  if match_chars (name_blank_padded mask) (name_blank_padded name)
  then match_chars (ext_blank_padded mask) (ext_blank_padded name)
  else false.

(** ** Short names sent by the client *)

(** The loop that copies leading dots, at most [room] of them: the dots and
    the rest of the name. *)
Fixpoint leading_dots (room : nat) (s : bytes) : bytes * bytes :=
  match room, s with
  | S room, c :: s' =>
      if c =? CH_DOT then let '(dots, rest) := leading_dots room s' in (CH_DOT :: dots, rest)
      else ([], s)
  | _, _ => ([], s)
  end.

(** The loops that copy characters in upper case up to a dot or the end of
    the field. *)
Fixpoint copy_to_dot (room : nat) (s : bytes) : bytes * bytes :=
  match room, s with
  | S room, c :: s' =>
      if c =? CH_DOT then ([], s)
      else let '(out, rest) := copy_to_dot room s' in (ascii_to_upper c :: out, rest)
  | _, _ => ([], s)
  end.

Definition pad_to (n : nat) (s : bytes) : bytes := s ++ replicate (n - length s) CH_SPACE.

(** "move to dot", "skip the dot" *)
Fixpoint after_dot (s : bytes) : bytes :=
  match s with
  | [] => []
  | c :: s => if c =? CH_DOT then s else after_dot s
  end.

Definition short_name_to_fcb (short_name : bytes) : fcb_file_name :=
  let '(dots, it) := leading_dots 2 short_name in
  let '(out, it) := copy_to_dot (sizeof_name - length dots) it in
  let '(ext, _) := copy_to_dot sizeof_ext (after_dot it) in
  mkFcb (pad_to sizeof_name (dots ++ out)) (pad_to sizeof_ext ext).

(** ** Long names on the server *)

Definition allowed_special (c : Z) : bool :=
  existsb (Z.eqb c) (str "!#$%&'()-@^_`{}~").

(** [idx < last_non_space_idx], where [None] is [npos]. *)
Definition before_last (idx : nat) (last_non_space_idx : option nat) : bool :=
  match last_non_space_idx with Some i => (idx <? i)%nat | None => true end.

(** The character written for [ch] at position [idx]. *)
Definition sanitize_char (last_non_space_idx : option nat) (idx : nat) (ch : Z) : Z :=
  if in_range CH_A CH_Z ch || in_range CH_0 CH_9 ch || allowed_special ch then ch
  else if in_range CH_a CH_z ch then ch - CH_a + CH_A
  else if (ch =? CH_SPACE) && before_last idx last_non_space_idx then ch
  else CH_UNDERSCORE.

(** The loop: the characters written, and whether the buffer was too small. *)
Fixpoint sanitize_loop (last : option nat) (idx : nat) (room : nat) (inp : bytes)
  : bytes * bool :=
  match inp with
  | [] => ([], false)
  | ch :: inp =>
      match room with
      | O => ([], true)
      | S room =>
          let '(out, shortened) := sanitize_loop last (S idx) room inp in
          (sanitize_char last idx ch :: out, shortened)
      end
  end.

(** [sanitize_short_name]: the contents of [out_buf], [out_len] and
    "shortened". *)
Definition sanitize_short_name (inp : bytes) (buf_size : nat) : bytes * nat * bool :=
  let last_non_space_idx := find_last (fun c => negb (c =? CH_SPACE)) inp in
  let '(out, shortened) := sanitize_loop last_non_space_idx 0 buf_size inp in
  (pad_to buf_size out, length out, shortened).

Definition counter_len (counter : Z) : nat :=
  if 999 <? counter then 4 else if 99 <? counter then 3 else if 9 <? counter then 2 else 1.

(** The decimal digits [std::to_chars] writes. *)
Fixpoint digits_from (fuel : nat) (n : Z) (acc : bytes) : bytes :=
  match fuel with
  | O => acc
  | S fuel =>
      let acc := CH_0 + n mod 10 :: acc in
      if n <? 10 then acc else digits_from fuel (n / 10) acc
  end.
Definition decimal_digits (n : Z) : bytes := digits_from 10 n [].

(** Overwrite [l] from position [off]. *)
Definition write_at (off : nat) (bs : bytes) (l : bytes) : bytes :=
  take off l ++ bs ++ drop (off + length bs) l.

(** [std::to_chars(it_first, it_last, counter)] into the name array: nothing
    is specified to be written when the digits do not fit. *)
Definition to_chars (first : nat) (counter : Z) (name : bytes) : bytes :=
  let digits := decimal_digits counter in
  if (length digits <=? sizeof_name - first)%nat then write_at first digits name else name.

(** The loop that adds "~<counter>", for the [n] counters from [counter]. *)
Fixpoint suffix_loop (n : nat) (counter : Z) (base_len : nat) (name ext : bytes)
    (used_names : list fcb_file_name) : fcb_file_name * list fcb_file_name * bool :=
  match n with
  | O => (mkFcb name ext, used_names, false)
  | S n =>
      let cl := counter_len counter in
      let base_len :=
        if (sizeof_name - 1 <? base_len + cl)%nat then (sizeof_name - 1 - cl)%nat else base_len in
      let name := write_at base_len [CH_TILDE] name in
      let name := to_chars (base_len + 1) counter name in
      let '(used_names, inserted) := set_insert (mkFcb name ext) used_names in
      if inserted then (mkFcb name ext, used_names, true)
      else suffix_loop n (counter + 1) base_len name ext used_names
  end.

(** [for (counter = 1; counter < 9999; ++counter)] *)
Definition max_suffixes : nat := Z.to_nat 9998.

Definition file_name_to_83 (m : translit_map) (orig_name : bytes)
    (used_names : list fcb_file_name) : fcb_file_name * list fcb_file_name * bool :=
  let long_name := convert_utf8_to_ascii m orig_name in
  let '(base, ext) :=
    match find_last (fun c => c =? CH_DOT) long_name with
    | Some dot_pos => (take dot_pos long_name, drop (S dot_pos) long_name)
    | None => (long_name, [])
    end in
  let '(name, base_len, base_shortened) := sanitize_short_name base sizeof_name in
  let '(ext, _, ext_shortened) := sanitize_short_name ext sizeof_ext in
  let f := mkFcb name ext in
  let '(used, inserted) :=
    if negb base_shortened && negb ext_shortened then set_insert f used_names
    else (used_names, false) in
  if inserted then (f, used, true)
  else suffix_loop max_suffixes 1 base_len name ext used_names.

(** ** Examples from the server's documentation *)

Example data_tar_gz : (file_name_to_83 ∅ (str "data.tar.gz") []).1.1
  = mkFcb (str "DATA_TAR") (str "GZ ").
Proof. vm_compute. reflexivity. Qed.
Example long_name1 : (file_name_to_83 ∅ (str "long_name1.txt") []).1.1
  = mkFcb (str "LONG_N~1") (str "TXT").
Proof. vm_compute. reflexivity. Qed.
Example long_name2 :
  (file_name_to_83 ∅ (str "long_name2.txt") [mkFcb (str "LONG_N~1") (str "TXT")]).1.1
  = mkFcb (str "LONG_N~2") (str "TXT").
Proof. vm_compute. reflexivity. Qed.

(** ** Matching *)

Definition char_matches (m n : Z) : Prop :=
  m = CH_QMARK \/ ascii_to_upper n = ascii_to_upper m.

Lemma match_chars_spec mask name : length mask = length name ->
  match_chars mask name = true <-> Forall2 char_matches mask name.
Proof.
  revert name. induction mask as [|m mask IH]; intros [|n name] Hl; try done; simpl.
  unfold char_matches. rewrite Forall2_cons. injection Hl as Hl. rewrite <- IH by done.
  destruct (Z.eqb_spec (ascii_to_upper n) (ascii_to_upper m)); simpl; [naive_solver|].
  destruct (Z.eqb_spec m CH_QMARK); simpl; naive_solver.
Qed.

(** An FCB name matches an FCB mask exactly when every character of name
    and extension equals the mask's, ASCII case ignored, or the mask has a
    question mark there. *)
Theorem match_fcb_name_to_mask_spec mask name : fcb_wf mask -> fcb_wf name ->
  match_fcb_name_to_mask mask name = true
  <-> Forall2 char_matches (name_blank_padded mask) (name_blank_padded name)
      /\ Forall2 char_matches (ext_blank_padded mask) (ext_blank_padded name).
Proof.
  intros [M1 M2] [N1 N2]. unfold match_fcb_name_to_mask.
  rewrite <- !match_chars_spec by congruence. case_match; naive_solver.
Qed.

Lemma match_fcb_name_to_mask_spec_witness :
  match_fcb_name_to_mask (short_name_to_fcb (str "re?d??.txt"))
    (short_name_to_fcb (str "README.TXT")) = true
  <-> Forall2 char_matches (str "RE?D??  ") (str "README  ")
      /\ Forall2 char_matches (str "TXT") (str "TXT").
Proof.
  apply (match_fcb_name_to_mask_spec (short_name_to_fcb (str "re?d??.txt"))
           (short_name_to_fcb (str "README.TXT"))); split; reflexivity.
Defined.

(** ** The order of [operator<=>] *)

Lemma strncmp_refl a n : strncmp a a n = 0.
Proof.
  revert n. induction a; intros [|n]; simpl; auto. rewrite Z.eqb_refl. by case_match.
Qed.

Lemma strncmp_antisym a b n : strncmp b a n = - strncmp a b n.
Proof.
  revert b n. induction a as [|x a IH]; intros [|y b] [|n]; simpl; try done.
  rewrite (Z.eqb_sym y x). destruct (Z.eqb_spec x y) as [->|]; [|lia].
  case_match; [done | apply IH].
Qed.

(** Case analysis on every integer test of the goal and the hypotheses. *)
Ltac eqb_cases :=
  repeat match goal with
         | |- context [?x =? ?y] => destruct (Z.eqb_spec x y); subst
         | h : context [?x =? ?y] |- _ => destruct (Z.eqb_spec x y); subst
         end.

(** Transitivity, with the equal cases tracked, for arrays of one length. *)
Lemma strncmp_trans a b c n : length a = length b -> length b = length c ->
  strncmp a b n <= 0 -> strncmp b c n <= 0 ->
  strncmp a c n <= 0 /\ (strncmp a c n = 0 -> strncmp a b n = 0 /\ strncmp b c n = 0).
Proof.
  revert b c n. induction a as [|x a IH]; intros [|y b] [|z c] [|n]; simpl;
    intros Lab Lbc; try done.
  eqb_cases; auto; try lia.
Qed.

Definition fcb_diff (f g : fcb_file_name) : Z :=
  let r := strncmp (name_blank_padded f) (name_blank_padded g) sizeof_name in
  if r =? 0 then strncmp (ext_blank_padded f) (ext_blank_padded g) sizeof_ext else r.

Lemma fcb_compare_lt f g : fcb_compare f g = Lt <-> fcb_diff f g < 0.
Proof.
  unfold fcb_compare. fold (fcb_diff f g). simpl.
  repeat case_match; naive_solver lia.
Qed.

Lemma fcb_eqb_diff f g : fcb_eqb f g = true <-> fcb_diff f g = 0.
Proof.
  unfold fcb_eqb, fcb_compare. fold (fcb_diff f g). simpl.
  repeat case_match; naive_solver lia.
Qed.

Lemma fcb_diff_antisym f g : fcb_diff g f = - fcb_diff f g.
Proof.
  unfold fcb_diff. rewrite (strncmp_antisym (name_blank_padded f)).
  repeat case_match; try lia. apply strncmp_antisym.
Qed.

Lemma fcb_diff_trans f g h : fcb_wf f -> fcb_wf g -> fcb_wf h ->
  fcb_diff f g <= 0 -> fcb_diff g h <= 0 ->
  fcb_diff f h <= 0 /\ (fcb_diff f h = 0 -> fcb_diff f g = 0 /\ fcb_diff g h = 0).
Proof.
  intros [F1 F2] [G1 G2] [H1 H2]. unfold fcb_diff. intros A B.
  assert (strncmp (name_blank_padded f) (name_blank_padded g) sizeof_name <= 0)
    by (eqb_cases; lia).
  assert (strncmp (name_blank_padded g) (name_blank_padded h) sizeof_name <= 0)
    by (eqb_cases; lia).
  destruct (strncmp_trans (name_blank_padded f) (name_blank_padded g) (name_blank_padded h)
    sizeof_name) as [N1 N2]; [congruence..|done|done|].
  pose proof (strncmp_trans (ext_blank_padded f) (ext_blank_padded g) (ext_blank_padded h)
    sizeof_ext ltac:(congruence) ltac:(congruence)) as E.
  eqb_cases; naive_solver lia.
Qed.

(** [operator<=>] on FCB names is a strict weak order with [operator==]
    as its equivalence, which is what [std::set] requires of it. *)
Theorem fcb_order_strict_weak f g h : fcb_wf f -> fcb_wf g -> fcb_wf h ->
  fcb_compare f f = Eq
  /\ (fcb_compare f g = Lt <-> fcb_compare g f = Gt)
  /\ (fcb_compare f g = Lt -> fcb_compare g h = Lt -> fcb_compare f h = Lt)
  /\ (fcb_eqb f g = true -> fcb_compare g h = fcb_compare f h).
Proof.
  intros Wf Wg Wh.
  assert (forall a b, fcb_compare a b = (if fcb_diff a b =? 0 then Eq
            else if fcb_diff a b <? 0 then Lt else Gt)) as C by done.
  assert (fcb_diff f f = 0) as R by (unfold fcb_diff; by rewrite !strncmp_refl).
  pose proof (fcb_diff_antisym f g) as A1. pose proof (fcb_diff_antisym g h) as A2.
  pose proof (fcb_diff_antisym f h) as A3.
  pose proof (fcb_diff_trans f g h Wf Wg Wh) as T1.
  pose proof (fcb_diff_trans g f h Wg Wf Wh) as T2.
  pose proof (fcb_diff_trans h g f Wh Wg Wf) as T3.
  pose proof (fcb_diff_trans h f g Wh Wf Wg) as T4.
  rewrite fcb_eqb_diff, !C. rewrite R, A1.
  repeat match goal with
         | |- context [?x =? 0] => destruct (Z.eqb_spec x 0)
         | |- context [?x <? 0] => destruct (Z.ltb_spec x 0)
         end; split_and!; intros; try done; try lia; naive_solver lia.
Qed.

Lemma fcb_order_strict_weak_witness :
  let f c := mkFcb (str "AAAAAAA" ++ [c]) (str "TXT") in
  fcb_compare (f 65) (f 66) = Lt /\ fcb_compare (f 65) (f 67) = Lt.
Proof.
  intros f.
  assert (forall c, fcb_wf (f c)) as W by (intros; split; reflexivity).
  destruct (fcb_order_strict_weak (f 65) (f 66) (f 67) (W _) (W _) (W _)) as (_ & _ & T & _).
  split; [reflexivity|]. apply T; reflexivity.
Defined.

(** ** DOS characters *)

(** The characters of the names the server invents: upper-case letters, digits,
    the special characters DOS allows, the underscore and the space. *)
Definition dos_char (c : Z) : bool :=
  in_range CH_A CH_Z c || in_range CH_0 CH_9 c || allowed_special c
  || (c =? CH_UNDERSCORE) || (c =? CH_SPACE).

Definition dos_name (f : fcb_file_name) : Prop :=
  fcb_wf f /\ Forall (fun c => dos_char c = true) (name_blank_padded f ++ ext_blank_padded f).

Lemma allowed_special_range c : allowed_special c = true -> 0 <= c < 128.
Proof.
  intros (x & Hx & ->%Z.eqb_eq)%existsb_exists.
  assert (forallb (fun x => (0 <=? x) && (x <? 128)) (str "!#$%&'()-@^_`{}~") = true) as F
    by reflexivity.
  rewrite forallb_forall in F. specialize (F x Hx). lia.
Qed.

Lemma dos_char_facts c : dos_char c = true ->
  0 < c < 128 /\ c <> CH_DOT /\ c <> CH_SLASH /\ c <> CH_BACKSLASH /\ c <> CH_QMARK
  /\ ascii_to_upper c = c.
Proof.
  unfold dos_char, in_range. intros H.
  assert (0 <= c < 128) as R.
  { destruct (allowed_special c) eqn:A; [by apply allowed_special_range|lia]. }
  pose proof (by_enum 128 (fun c => implb (dos_char c) ((0 <? c) && negb (c =? CH_DOT)
    && negb (c =? CH_SLASH) && negb (c =? CH_BACKSLASH) && negb (c =? CH_QMARK)
    && (ascii_to_upper c =? c))) ltac:(vm_compute; reflexivity) c R) as E.
  simpl in E. unfold dos_char, in_range in E. rewrite H in E. simpl in E. lia.
Qed.

(** On names without NUL, equality of FCB names is equality of their arrays. *)
Lemma strncmp_eq a b : Forall (fun c => dos_char c = true) a ->
  length a = length b -> strncmp a b (length a) = 0 -> a = b.
Proof.
  intros Ha. revert b. induction Ha as [|x a Hx Ha IH]; intros [|y b] L; try done.
  simpl. intros E. apply dos_char_facts in Hx. eqb_cases; try lia.
  f_equal. apply IH; auto.
Qed.

Lemma fcb_eqb_eq f g : dos_name f -> fcb_wf g -> fcb_eqb f g = true <-> f = g.
Proof.
  intros [[W1 W2] [D1 D2]%Forall_app] [G1 G2]. rewrite fcb_eqb_diff. split.
  - unfold fcb_diff. intros E. destruct f as [fn fe], g as [gn ge]; simpl in *.
    rewrite <- W1, <- W2 in E.
    destruct (Z.eqb_spec (strncmp fn gn (length fn)) 0); [|done].
    f_equal; apply strncmp_eq; auto; congruence.
  - intros ->. unfold fcb_diff. by rewrite !strncmp_refl.
Qed.

Lemma fcb_eqb_refl f : fcb_eqb f f = true.
Proof. apply fcb_eqb_diff. unfold fcb_diff. by rewrite !strncmp_refl. Qed.

Lemma fcb_eqb_sym f g : fcb_eqb f g = fcb_eqb g f.
Proof.
  apply eq_true_iff_eq. rewrite !fcb_eqb_diff, (fcb_diff_antisym f g). lia.
Qed.

Lemma set_contains_In f used : Forall fcb_wf used -> dos_name f ->
  set_contains used f = true <-> f ∈ used.
Proof.
  intros Hu Hf. unfold set_contains. rewrite existsb_exists, Forall_forall in *.
  setoid_rewrite <- list_elem_of_In. split.
  - intros (g & Hg & E). apply fcb_eqb_eq in E as ->; auto.
  - intros H. exists f. split; [done|]. apply fcb_eqb_refl.
Qed.

(** ** Parsing short names *)

Lemma pad_to_length n s : (length s <= n)%nat -> length (pad_to n s) = n.
Proof. intros. unfold pad_to. rewrite length_app, length_replicate. lia. Qed.

Lemma leading_dots_length room s : (length (leading_dots room s).1 <= room)%nat.
Proof.
  revert s. induction room as [|room IH]; intros [|c s]; simpl; try lia.
  case_match; [|simpl; lia]. specialize (IH s).
  destruct (leading_dots room s). simpl in *. lia.
Qed.

Lemma copy_to_dot_length room s : (length (copy_to_dot room s).1 <= room)%nat.
Proof.
  revert s. induction room as [|room IH]; intros [|c s]; simpl; try lia.
  case_match; [simpl; lia|]. specialize (IH s).
  destruct (copy_to_dot room s). simpl in *. lia.
Qed.

Lemma short_name_to_fcb_wf s : fcb_wf (short_name_to_fcb s).
Proof.
  unfold short_name_to_fcb, fcb_wf.
  pose proof (leading_dots_length 2 s). destruct (leading_dots 2 s) as [dots it].
  pose proof (copy_to_dot_length (sizeof_name - length dots) it).
  destruct (copy_to_dot _ it) as [out it2].
  pose proof (copy_to_dot_length sizeof_ext (after_dot it2)).
  destruct (copy_to_dot sizeof_ext _) as [ext it3].
  unfold sizeof_name, sizeof_ext in *. simpl in *.
  split; apply pad_to_length; rewrite ?length_app; lia.
Qed.
#[export] Hint Resolve short_name_to_fcb_wf : core.

Definition no_dot (s : bytes) : Prop := Forall (fun c => c <> CH_DOT) s.

Lemma copy_to_dot_app room s rest : no_dot s -> (rest = [] \/ head rest = Some CH_DOT) ->
  copy_to_dot room (s ++ rest) = (ascii_to_upper <$> take room s, drop room s ++ rest).
Proof.
  intros Hs Hr. revert room. induction Hs as [|c s Hc Hs IH]; intros [|room]; try done; simpl.
  - destruct rest as [|d rest]; [done|]. destruct Hr as [|[= ->]]; [done|].
    by rewrite Z.eqb_refl.
  - rewrite (proj2 (Z.eqb_neq _ _) Hc), IH. done.
Qed.

Lemma after_dot_app s rest : no_dot s -> after_dot (s ++ CH_DOT :: rest) = rest.
Proof.
  induction 1 as [|c s Hc Hs IH]; simpl; [done|]. by rewrite (proj2 (Z.eqb_neq _ _) Hc).
Qed.

Lemma after_dot_none s : no_dot s -> after_dot s = [].
Proof.
  induction 1 as [|c s Hc Hs IH]; simpl; [done|]. by rewrite (proj2 (Z.eqb_neq _ _) Hc).
Qed.

Lemma leading_dots_none room c s : c <> CH_DOT -> leading_dots room (c :: s) = ([], c :: s).
Proof. intros Hc. destruct room; simpl; [done|]. by rewrite (proj2 (Z.eqb_neq _ _) Hc). Qed.

Lemma no_dot_drop n s : no_dot s -> no_dot (drop n s).
Proof. apply Forall_drop. Qed.

(** A name with an extension, and one without, parsed field by field. *)
Lemma short_name_to_fcb_parse base ext : no_dot base -> no_dot ext -> base <> [] ->
  short_name_to_fcb (base ++ CH_DOT :: ext)
  = mkFcb (pad_to sizeof_name (ascii_to_upper <$> take sizeof_name base))
      (pad_to sizeof_ext (ascii_to_upper <$> take sizeof_ext ext)).
Proof.
  intros Hb He Hne. unfold short_name_to_fcb.
  destruct base as [|c base]; [done|].
  assert (leading_dots 2 ((c :: base) ++ CH_DOT :: ext) = ([], (c :: base) ++ CH_DOT :: ext))
    as -> by (apply leading_dots_none; by inversion Hb).
  rewrite copy_to_dot_app by auto. rewrite after_dot_app by (by apply no_dot_drop).
  pose proof (copy_to_dot_app sizeof_ext ext [] He (or_introl eq_refl)) as E.
  rewrite app_nil_r in E. by rewrite E.
Qed.

Lemma short_name_to_fcb_parse_noext base : no_dot base -> base <> [] ->
  short_name_to_fcb base
  = mkFcb (pad_to sizeof_name (ascii_to_upper <$> take sizeof_name base)) (pad_to sizeof_ext []).
Proof.
  intros Hb Hne. unfold short_name_to_fcb. destruct base as [|c base]; [done|].
  rewrite leading_dots_none by (by inversion Hb).
  pose proof (copy_to_dot_app sizeof_name (c :: base) [] Hb (or_introl eq_refl)) as E.
  rewrite !app_nil_r in E. change (sizeof_name - length [])%nat with sizeof_name.
  rewrite E.
  by rewrite after_dot_none by (by apply no_dot_drop).
Qed.

(** *** Printing an FCB name as the client writes it: the name without its
    padding, then the extension after a dot. *)
Fixpoint rtrim (s : bytes) : bytes :=
  match s with
  | [] => []
  | c :: s => match rtrim s with
              | [] => if c =? CH_SPACE then [] else [c]
              | t => c :: t
              end
  end.

(** Nothing but blanks. *)
Definition blank (s : bytes) : Prop := Forall (fun c => c = CH_SPACE) s.

Lemma rtrim_blank s : rtrim s = [] -> blank s.
Proof.
  induction s as [|c s IH]; [constructor|]. simpl. destruct (rtrim s) as [|d t]; [|done].
  destruct (Z.eqb_spec c CH_SPACE) as [->|]; [|done]. intros _. constructor; [done|by apply IH].
Qed.

Definition fcb_to_short_name (f : fcb_file_name) : bytes :=
  rtrim (name_blank_padded f)
  ++ match rtrim (ext_blank_padded f) with [] => [] | e => CH_DOT :: e end.

Lemma rtrim_pad s : pad_to (length s) (rtrim s) = s.
Proof.
  induction s as [|c s IH]; [done|]. unfold pad_to in *. simpl.
  destruct (rtrim s) as [|d t] eqn:E.
  - rewrite Nat.sub_0_r in IH. simpl in IH.
    destruct (Z.eqb_spec c CH_SPACE) as [->|]; simpl;
      rewrite ?Nat.sub_0_r; simpl; by f_equal.
  - simpl in *. by f_equal.
Qed.

Lemma rtrim_length s : (length (rtrim s) <= length s)%nat.
Proof. induction s as [|c s IH]; simpl; [lia|]. repeat case_match; simpl in *; lia. Qed.

Lemma rtrim_Forall P s : Forall P s -> Forall P (rtrim s).
Proof. induction 1; simpl; [constructor|]. repeat case_match; auto. Qed.

Lemma upper_lower_dos s : Forall (fun c => dos_char c = true) s ->
  ascii_to_upper <$> (ascii_to_lower <$> s) = s.
Proof.
  induction 1 as [|c s Hc _ IH]; [done|]. cbn [fmap list_fmap].
  rewrite ascii_to_upper_lower. f_equal; [|exact IH]. by apply dos_char_facts.
Qed.

Lemma lower_no_dot s : Forall (fun c => dos_char c = true) s -> no_dot (ascii_to_lower <$> s).
Proof.
  intros Hs. apply Forall_fmap. eapply Forall_impl; [exact Hs|].
  intros c Hc. simpl. apply dos_char_facts in Hc. unfold ascii_to_lower. case_match; lia.
Qed.

Lemma field_roundtrip n s : length s = n -> Forall (fun c => dos_char c = true) s ->
  pad_to n (ascii_to_upper <$> take n (ascii_to_lower <$> rtrim s)) = s.
Proof.
  intros <- Hs. pose proof (rtrim_length s).
  rewrite take_ge by (by rewrite length_fmap).
  rewrite upper_lower_dos by (by apply rtrim_Forall). apply rtrim_pad.
Qed.

Lemma fcb_short_name_roundtrip f : dos_name f -> rtrim (name_blank_padded f) <> [] ->
  short_name_to_fcb (ascii_to_lower <$> fcb_to_short_name f) = f.
Proof.
  intros [[W1 W2] [D1 D2]%Forall_app] Hne. unfold fcb_to_short_name. rewrite fmap_app.
  assert (no_dot (ascii_to_lower <$> rtrim (name_blank_padded f))) as Nb
    by (by apply lower_no_dot, rtrim_Forall).
  assert (no_dot (ascii_to_lower <$> rtrim (ext_blank_padded f))) as Ne
    by (by apply lower_no_dot, rtrim_Forall).
  assert (ascii_to_lower <$> rtrim (name_blank_padded f) <> []) as Hne'
    by (by destruct (rtrim (name_blank_padded f))).
  pose proof (field_roundtrip _ _ W1 D1) as F1. pose proof (field_roundtrip _ _ W2 D2) as F2.
  destruct (rtrim (ext_blank_padded f)) as [|e es] eqn:E.
  - cbn [fmap list_fmap] in *. rewrite app_nil_r, short_name_to_fcb_parse_noext by done.
    rewrite F1. destruct f as [fn fe]. f_equal. exact F2.
  - cbn [fmap list_fmap] in *. change (ascii_to_lower CH_DOT) with CH_DOT.
    rewrite short_name_to_fcb_parse by done. rewrite F1, F2. by destruct f.
Qed.

(** ** Sanitising *)

Lemma dos_char_sanitize last idx ch : dos_char (sanitize_char last idx ch) = true.
Proof.
  unfold sanitize_char.
  destruct (in_range CH_A CH_Z ch || in_range CH_0 CH_9 ch || allowed_special ch) eqn:E.
  { unfold dos_char. by rewrite E. }
  unfold in_range. destruct ((CH_a <=? ch) && (ch <=? CH_z)) eqn:E2.
  { unfold dos_char, in_range.
    replace ((CH_A <=? ch - CH_a + CH_A) && (ch - CH_a + CH_A <=? CH_Z)) with true by lia. done. }
  destruct (Z.eqb_spec ch CH_SPACE) as [->|]; [|done]. by destruct (before_last idx last).
Qed.

Lemma sanitize_loop_dos last idx room inp :
  Forall (fun c => dos_char c = true) (sanitize_loop last idx room inp).1.
Proof.
  revert idx room. induction inp as [|ch inp IH]; intros idx [|room]; simpl; try constructor.
  specialize (IH (S idx) room). destruct (sanitize_loop _ _ room inp). simpl in *.
  constructor; [apply dos_char_sanitize | done].
Qed.

Lemma sanitize_loop_length last idx room inp :
  (length (sanitize_loop last idx room inp).1 <= room)%nat.
Proof.
  revert idx room. induction inp as [|ch inp IH]; intros idx [|room]; simpl; try lia.
  specialize (IH (S idx) room). destruct (sanitize_loop _ _ room inp). simpl in *. lia.
Qed.

Lemma pad_to_dos n s : Forall (fun c => dos_char c = true) s ->
  Forall (fun c => dos_char c = true) (pad_to n s).
Proof. intros. apply Forall_app. split; [done|]. by apply Forall_replicate. Qed.

(** What the callers use of [sanitize_short_name]: a legal field, blank from
    the returned length on. *)
(** A blank is written for a blank only. *)
Lemma sanitize_char_blank last idx ch : sanitize_char last idx ch = CH_SPACE -> ch = CH_SPACE.
Proof.
  unfold sanitize_char. destruct (in_range CH_A CH_Z ch || in_range CH_0 CH_9 ch || allowed_special ch);
    [done|]. unfold in_range. destruct ((CH_a <=? ch) && (ch <=? CH_z)) eqn:E; [lia|].
  destruct (Z.eqb_spec ch CH_SPACE); [done|]. by cbn.
Qed.

Lemma sanitize_loop_blank last idx room inp out :
  sanitize_loop last idx room inp = (out, false) -> blank out -> blank inp.
Proof.
  revert idx room out. induction inp as [|ch inp IH]; intros idx room out; [constructor|].
  destruct room as [|room]; simpl; [done|]. destruct (sanitize_loop last (S idx) room inp) as [out' sh] eqn:E. intros [= <- ->].
  intros [Hc Ho]%Forall_cons. constructor; [by eapply sanitize_char_blank|by eapply IH].
Qed.

Lemma sanitize_blank inp n name len sh : sanitize_short_name inp n = (name, len, sh) ->
  sh = false -> blank name -> blank inp.
Proof.
  unfold sanitize_short_name. destruct (sanitize_loop _ 0 n inp) as [out sh'] eqn:E.
  intros [= <- _ <-] ->. unfold pad_to. intros [Ho _]%Forall_app. by eapply sanitize_loop_blank.
Qed.

Lemma sanitize_short_name_spec inp n name len sh :
  sanitize_short_name inp n = (name, len, sh) ->
  length name = n /\ Forall (fun c => dos_char c = true) name
  /\ (len <= n)%nat /\ drop len name = replicate (n - len) CH_SPACE.
Proof.
  unfold sanitize_short_name.
  pose proof (sanitize_loop_dos (find_last (fun c => negb (c =? CH_SPACE)) inp) 0 n inp) as D.
  pose proof (sanitize_loop_length (find_last (fun c => negb (c =? CH_SPACE)) inp) 0 n inp) as L.
  destruct (sanitize_loop _ 0 n inp) as [out b]. simpl in *. intros [= <- <- <-].
  split_and!; [by apply pad_to_length | by apply pad_to_dos | done |].
  unfold pad_to. by rewrite drop_app_length.
Qed.

(** ** The numbered names *)

(** The position of the tilde, and the name with the suffix [~c], in terms of
    the sanitised name. *)
Definition suffix_pos (base_len : nat) (c : Z) : nat :=
  Nat.min base_len (sizeof_name - 1 - counter_len c).

Definition candidate (base_len : nat) (name : bytes) (c : Z) : bytes :=
  let b := suffix_pos base_len c in
  take b name ++ CH_TILDE :: decimal_digits c ++ drop (b + 1 + counter_len c) name.

Definition is_digit (c : Z) : bool := in_range CH_0 CH_9 c.

(** The digits, checked for every counter the loop reaches. *)
Lemma decimal_digits_facts c : 1 <= c < 9999 ->
  length (decimal_digits c) = counter_len c
  /\ Forall (fun d => is_digit d = true) (decimal_digits c)
  /\ foldl (fun n d => 10 * n + (d - CH_0)) 0 (decimal_digits c) = c.
Proof.
  intros Hc.
  pose proof (by_enum 9999 (fun c => (c =? 0) || ((length (decimal_digits c) =? counter_len c)%nat
    && forallb is_digit (decimal_digits c)
    && (foldl (fun n d => 10 * n + (d - CH_0)) 0 (decimal_digits c) =? c)))
    ltac:(vm_compute; reflexivity) c ltac:(lia)) as E. simpl in E.
  apply orb_prop in E as [E|E]; [lia|].
  apply andb_prop in E as [[E1 E2]%andb_prop E3]. split_and!.
  - by apply Nat.eqb_eq.
  - rewrite forallb_forall in E2. apply Forall_forall. intros d Hd. by apply E2, list_elem_of_In.
  - lia.
Qed.

Lemma counter_len_range c : (1 <= counter_len c <= 4)%nat.
Proof. unfold counter_len. repeat case_match; lia. Qed.

Lemma counter_len_mono c d : c <= d -> (counter_len c <= counter_len d)%nat.
Proof.
  unfold counter_len. intros.
  repeat match goal with |- context [?x <? ?y] => destruct (Z.ltb_spec x y) end; lia.
Qed.

Lemma digit_dos d : is_digit d = true -> dos_char d = true /\ d <> CH_TILDE /\ d <> CH_SPACE.
Proof.
  unfold is_digit, dos_char, in_range. intros. split; [|lia].
  replace ((CH_0 <=? d) && (d <=? CH_9)) with true by lia.
  by rewrite orb_true_r.
Qed.

Lemma write_at_app off bs (l : bytes) : (off <= length l)%nat ->
  take off (write_at off bs l) = take off l.
Proof.
  intros. unfold write_at. by rewrite take_app_le, take_take, Nat.min_id
    by (rewrite length_take; lia).
Qed.

(** One round of the loop writes the candidate, whatever earlier rounds left
    between the tilde and the end of the digits. *)
Lemma suffix_step base_len name0 name c :
  1 <= c < 9999 -> length name0 = sizeof_name -> (base_len <= sizeof_name)%nat ->
  let b := suffix_pos base_len c in
  take b name = take b name0 ->
  drop (b + 1 + counter_len c) name = drop (b + 1 + counter_len c) name0 ->
  length name = sizeof_name ->
  to_chars (b + 1) c (write_at b [CH_TILDE] name) = candidate base_len name0 c.
Proof.
  intros Hc L0 Hb b T D L. destruct (decimal_digits_facts c Hc) as (Ld & _).
  pose proof (counter_len_range c). unfold sizeof_name in *.
  assert (b <= 7 - counter_len c)%nat as Hb' by (subst b; unfold suffix_pos, sizeof_name; lia).
  unfold to_chars. rewrite Ld. unfold sizeof_name.
  replace (counter_len c <=? 8 - (b + 1))%nat with true by (symmetry; apply Nat.leb_le; lia).
  unfold candidate. fold b. unfold write_at at 1. rewrite Ld.
  assert (length (take b name) = b) as Lt by (rewrite length_take; lia).
  assert (write_at b [CH_TILDE] name = (take b name ++ [CH_TILDE]) ++ drop (b + 1) name) as W.
  { unfold write_at. rewrite <- app_assoc. done. }
  rewrite W.
  rewrite take_app_length' by (rewrite length_app, Lt; simpl; lia).
  rewrite (drop_app_ge _ _ (b + 1 + counter_len c)) by (rewrite length_app, Lt; simpl; lia).
  rewrite length_app, Lt. cbn [length]. rewrite drop_drop.
  replace (b + 1 + (b + 1 + counter_len c - (b + 1)))%nat with (b + 1 + counter_len c)%nat by lia.
  rewrite D, T, <- app_assoc. done.
Qed.

Lemma candidate_length base_len name c : 1 <= c < 9999 ->
  length name = sizeof_name -> length (candidate base_len name c) = sizeof_name.
Proof.
  intros Hc L. destruct (decimal_digits_facts c Hc) as (Ld & _).
  pose proof (counter_len_range c). unfold candidate, suffix_pos.
  rewrite length_app. cbn [length]. rewrite length_app, length_take, length_drop, Ld, L.
  unfold sizeof_name. lia.
Qed.

(** A candidate agrees with the sanitised name outside the places the later
    rounds overwrite. *)
Lemma candidate_agrees base_len name c : 1 <= c < 9999 -> length name = sizeof_name ->
  let b := suffix_pos base_len (c + 1) in
  take b (candidate base_len name c) = take b name
  /\ drop (b + 1 + counter_len (c + 1)) (candidate base_len name c)
     = drop (b + 1 + counter_len (c + 1)) name.
Proof.
  intros Hc L b. destruct (decimal_digits_facts c Hc) as (Ld & _).
  pose proof (counter_len_range c). pose proof (counter_len_range (c + 1)).
  pose proof (counter_len_mono c (c + 1) ltac:(lia)).
  assert (b <= suffix_pos base_len c)%nat by (subst b; unfold suffix_pos; lia).
  assert (suffix_pos base_len c + counter_len c <= b + counter_len (c + 1))%nat
    by (subst b; unfold suffix_pos, sizeof_name; lia).
  assert (suffix_pos base_len c <= 7)%nat by (unfold suffix_pos, sizeof_name; lia).
  unfold candidate. split.
  - rewrite take_app_le by (rewrite length_take, L; unfold sizeof_name; lia).
    rewrite take_take. f_equal. lia.
  - rewrite app_comm_cons, app_assoc.
    rewrite drop_app_ge
      by (rewrite length_app, length_take; cbn [length]; rewrite Ld, L; unfold sizeof_name; lia).
    rewrite length_app, length_take. cbn [length]. rewrite Ld, L.
    rewrite drop_drop. f_equal. unfold sizeof_name. lia.
Qed.

(** The loop tries the candidates in order and takes the first one that is
    not in use. *)
Lemma suffix_loop_spec n c base_len0 base_len name0 name ext used f used' ok :
  length name0 = sizeof_name -> (base_len0 <= sizeof_name)%nat ->
  1 <= c -> c + Z.of_nat n <= 9999 ->
  (n <> O -> Nat.min base_len (sizeof_name - 1 - counter_len c) = suffix_pos base_len0 c) ->
  length name = sizeof_name ->
  (let b := suffix_pos base_len0 c in
   take b name = take b name0
   /\ drop (b + 1 + counter_len c) name = drop (b + 1 + counter_len c) name0) ->
  suffix_loop n c base_len name ext used = (f, used', ok) ->
  (if ok then
     exists k, c <= k < c + Z.of_nat n /\ f = mkFcb (candidate base_len0 name0 k) ext
       /\ set_contains used f = false /\ used' = f :: used
   else used' = used
     /\ forall k, c <= k < c + Z.of_nat n ->
          set_contains used (mkFcb (candidate base_len0 name0 k) ext) = true)
  /\ ((exists k, 1 <= k < 9999 /\ f = mkFcb (candidate base_len0 name0 k) ext)
      \/ n = O /\ f = mkFcb name ext).
Proof.
  intros L0 B0. revert c base_len name. induction n as [|n IH];
    intros c base_len name C1 C2 Hmin L HT; cbn [suffix_loop].
  { intros [= <- <- <-]. split; [|by right]. split; [done|]. intros. lia. }
  destruct HT as [T D].
  assert ((if (sizeof_name - 1 <? base_len + counter_len c)%nat
           then (sizeof_name - 1 - counter_len c)%nat else base_len) = suffix_pos base_len0 c) as E.
  { rewrite <- Hmin by done. destruct (Nat.ltb_spec (sizeof_name - 1) (base_len + counter_len c));
      unfold sizeof_name in *; lia. }
  rewrite E, (suffix_step base_len0 name0 name c) by (done || lia).
  unfold set_insert.
  destruct (set_contains used (mkFcb (candidate base_len0 name0 c) ext)) eqn:Hc.
  - intros Hl. apply IH in Hl; [| lia | lia | | by apply candidate_length; lia
      | by apply candidate_agrees; lia].
    + destruct Hl as [Hl Hf]. split.
      * destruct ok.
        { destruct Hl as (k & ? & ?). exists k. split; [lia|done]. }
        destruct Hl as [-> Hl]. split; [done|]. intros k Hk.
        destruct (decide (k = c)) as [->|]; [done|]. apply Hl. lia.
      * destruct Hf as [Hf | [_ ->]]; [by left|]. left. exists c. split; [lia|done].
    + intros _. pose proof (counter_len_mono c (c + 1) ltac:(lia)).
      unfold suffix_pos, sizeof_name. lia.
  - intros [= <- <- <-]. split; [|left; exists c; split; [lia|done]].
    exists c. split_and!; [lia | lia | done | done | done].
Qed.

Lemma candidate_dos base_len name c : 1 <= c < 9999 ->
  Forall (fun c => dos_char c = true) name ->
  Forall (fun c => dos_char c = true) (candidate base_len name c).
Proof.
  intros Hc Hn. destruct (decimal_digits_facts c Hc) as (_ & Hd & _).
  apply Forall_app. split; [by apply Forall_take|]. constructor; [done|].
  apply Forall_app. split; [|by apply Forall_drop].
  eapply Forall_impl; [exact Hd|]. intros d ?. by apply digit_dos.
Qed.

(** What follows the digits of a candidate is padding. *)
Lemma candidate_tail base_len name c : 1 <= c < 9999 -> length name = sizeof_name ->
  (base_len <= sizeof_name)%nat ->
  drop base_len name = replicate (sizeof_name - base_len) CH_SPACE ->
  exists n, candidate base_len name c
    = take (suffix_pos base_len c) name
      ++ CH_TILDE :: decimal_digits c ++ replicate n CH_SPACE.
Proof.
  intros Hc L Hb Hp. unfold candidate.
  destruct (decide (base_len <= sizeof_name - 1 - counter_len c)%nat).
  - exists (sizeof_name - (base_len + 1 + counter_len c))%nat.
    replace (suffix_pos base_len c) with base_len by (unfold suffix_pos; lia).
    replace (base_len + 1 + counter_len c)%nat with (base_len + (1 + counter_len c))%nat at 1 by lia.
    rewrite <- drop_drop, Hp, drop_replicate. do 4 f_equal. lia.
  - exists 0%nat. rewrite drop_ge; [done|]. rewrite L. pose proof (counter_len_range c).
    unfold suffix_pos, sizeof_name in *. lia.
Qed.

(** Different counters give different names. *)
Lemma candidate_inj base_len name c d : 1 <= c < 9999 -> 1 <= d < 9999 ->
  length name = sizeof_name -> (base_len <= sizeof_name)%nat ->
  drop base_len name = replicate (sizeof_name - base_len) CH_SPACE ->
  candidate base_len name c = candidate base_len name d -> c = d.
Proof.
  intros Hc Hd L Hb Hp E.
  destruct (candidate_tail base_len name c Hc L Hb Hp) as [n En].
  destruct (candidate_tail base_len name d Hd L Hb Hp) as [m Em].
  rewrite En, Em in E. apply (f_equal reverse) in E.
  rewrite !reverse_app, !reverse_cons, <- !app_assoc in E.
  destruct (decimal_digits_facts c Hc) as (_ & Dc & <-).
  destruct (decimal_digits_facts d Hd) as (_ & Dd & <-).
  set (x := decimal_digits c) in *. set (y := decimal_digits d) in *.
  assert (forall z k, Forall (fun d => is_digit d = true) z ->
    Forall (fun x => x <> CH_TILDE) (reverse (z ++ replicate k CH_SPACE))) as NT.
  { intros z k Hz. apply Forall_reverse, Forall_app. split.
    - eapply Forall_impl; [exact Hz|]. by intros e [_ [? _]]%digit_dos.
    - by apply Forall_replicate. }
  apply app_sep_inj in E as [E _]; [|by apply NT..].
  apply (f_equal reverse) in E. rewrite !reverse_involutive in E.
  assert (forall z k, Forall (fun d => is_digit d = true) z ->
    filter (fun c => c <> CH_SPACE) (z ++ replicate k CH_SPACE) = z) as FS.
  { intros z k Hz. rewrite filter_app.
    assert (filter (fun c => c <> CH_SPACE) (replicate k CH_SPACE) = []) as ->
      by (by induction k).
    rewrite app_nil_r. induction Hz as [|e z He _ IH]; [done|].
    rewrite filter_cons_True by (apply (digit_dos e He)). by f_equal. }
  rewrite <- (FS x n), <- (FS y m), E by done. done.
Qed.

(** ** The names the server invents *)

Lemma set_contains_false f used : set_contains used f = false -> f ∉ used.
Proof.
  intros H Hin. assert (set_contains used f = true); [|congruence].
  apply existsb_exists. exists f. split; [by apply list_elem_of_In | apply fcb_eqb_refl].
Qed.

(** Nine thousand nine hundred and ninety-eight distinct candidates do not fit
    in a shorter list. *)
Lemma candidates_exhaust used base_len name ext : Forall fcb_wf used ->
  length name = sizeof_name -> (base_len <= sizeof_name)%nat ->
  drop base_len name = replicate (sizeof_name - base_len) CH_SPACE ->
  Forall (fun c => dos_char c = true) name ->
  length ext = sizeof_ext -> Forall (fun c => dos_char c = true) ext ->
  (forall k, 1 <= k < 9999 -> set_contains used (mkFcb (candidate base_len name k) ext) = true) ->
  (max_suffixes <= length used)%nat.
Proof.
  intros Hu L Hb Hp Hn Le He Hall.
  transitivity (length ((fun k => mkFcb (candidate base_len name k) ext) <$> seqZ 1 9998)).
  { rewrite length_fmap, length_seqZ. unfold max_suffixes. done. }
  apply submseteq_length, NoDup_submseteq.
  - apply NoDup_fmap_2_strong; [|apply NoDup_seqZ].
    intros a b Ha%elem_of_seqZ Hb'%elem_of_seqZ [= E].
    apply candidate_inj in E; try done; lia.
  - intros f (k & -> & Hk%elem_of_seqZ)%list_elem_of_fmap.
    apply set_contains_In; [done| |apply Hall; lia].
    split; [split; [by apply candidate_length; [lia|] | done]|].
    apply Forall_app. split; [apply candidate_dos; [lia|done] | done].
Qed.

Section FileNameTo83.
Context (m : translit_map).

(** The part of a name before its last dot. *)
Definition base_part (long_name : bytes) : bytes :=
  match find_last (fun c => c =? CH_DOT) long_name with
  | Some dot_pos => take dot_pos long_name
  | None => long_name
  end.

(** Only a name with nothing but blanks before its last dot gets a blank base. *)
Lemma blank_base name used f used' ok : file_name_to_83 m name used = (f, used', ok) ->
  blank (name_blank_padded f) -> blank (base_part (convert_utf8_to_ascii m name)).
Proof.
  unfold file_name_to_83, base_part.
  destruct (match find_last _ _ with Some _ => _ | None => _ end) as [base ext0] eqn:Eb.
  assert (match find_last (fun c => c =? CH_DOT) (convert_utf8_to_ascii m name) with
          | Some dot_pos => take dot_pos (convert_utf8_to_ascii m name)
          | None => convert_utf8_to_ascii m name end = base) as ->
    by (destruct (find_last _ _); by injection Eb).
  destruct (sanitize_short_name base sizeof_name) as [[n len] sh1] eqn:E1.
  destruct (sanitize_short_name ext0 sizeof_ext) as [[ext elen] sh2] eqn:E2.
  pose proof (sanitize_blank _ _ _ _ _ E1) as Hblank.
  apply sanitize_short_name_spec in E1 as (L1 & D1 & B1 & P1).
  apply sanitize_short_name_spec in E2 as (L2 & D2 & _ & _).
  destruct (if negb sh1 && negb sh2 then _ else _) as [used1 ins] eqn:Ei. destruct ins.
  { intros [= <- <- <-]. apply Hblank. destruct sh1; [|done]. by injection Ei. }
  intros Hl. apply (suffix_loop_spec _ _ len) with (name0 := n) in Hl;
    [|done|done|lia|unfold max_suffixes; lia|done|done|done].
  destruct Hl as [_ [(k & _ & ->)|[H0 _]]]; [|done]. cbn [name_blank_padded].
  unfold blank, candidate. intros [_ [H _]%Forall_cons]%Forall_app. done.
Qed.

(** Everything the rest of the development uses of [file_name_to_83]. *)
Lemma file_name_to_83_props name used f used' ok :
  file_name_to_83 m name used = (f, used', ok) ->
  dos_name f
  /\ (if ok then set_contains used f = false /\ used' = f :: used else used' = used)
  /\ (Forall fcb_wf used -> (length used < max_suffixes)%nat -> ok = true).
Proof.
  unfold file_name_to_83.
  destruct (match find_last _ _ with Some _ => _ | None => _ end) as [base ext0].
  destruct (sanitize_short_name base sizeof_name) as [[n len] sh1] eqn:E1.
  destruct (sanitize_short_name ext0 sizeof_ext) as [[ext elen] sh2] eqn:E2.
  apply sanitize_short_name_spec in E1 as (L1 & D1 & B1 & P1).
  apply sanitize_short_name_spec in E2 as (L2 & D2 & _ & _).
  assert (dos_name (mkFcb n ext)) as Hd by (split; [done|]; by apply Forall_app).
  assert (forall k, 1 <= k < 9999 -> dos_name (mkFcb (candidate len n k) ext)) as Hk.
  { intros k Hk. split; [split; [by apply candidate_length|done]|].
    apply Forall_app. split; [by apply candidate_dos|done]. }
  destruct (if negb sh1 && negb sh2 then _ else _) as [used1 ins] eqn:Ei.
  assert (if ins then set_contains used (mkFcb n ext) = false /\ used1 = mkFcb n ext :: used
          else used1 = used) as Hins.
  { unfold set_insert in Ei. repeat case_match; naive_solver. }
  destruct ins.
  { intros [= <- <- <-]. destruct Hins as [? ->]. auto. }
  intros Hl. apply (suffix_loop_spec _ _ len) with (name0 := n) in Hl;
    [|done|done|lia|unfold max_suffixes; lia|done|done|done].
  destruct Hl as [Hl Hf]. split_and!.
  - destruct Hf as [(k & ? & ->) | [_ ->]]; auto.
  - destruct ok; naive_solver.
  - intros Hw Hlen. destruct ok; [done|]. destruct Hl as [_ Hl].
    pose proof (candidates_exhaust used len n ext Hw L1 B1 P1 D1 L2 D2) as Hx.
    ospecialize (Hx _); [|lia].
    intros k Hk'. apply Hl. unfold max_suffixes. lia.
Qed.

(** C34: every short name the server invents has a base of eight and an extension
    of three characters that DOS allows in names, padded with blanks; its base
    is not blank unless the file's own name has nothing but blanks before its
    last dot, as .git has; when the function reports success the name differs
    from every name in use and is recorded as used; and it always succeeds
    while fewer than 9998 names are in use. *)
Theorem file_name_to_83_fresh name used f used' ok :
  file_name_to_83 m name used = (f, used', ok) ->
  dos_name f
  /\ (blank (name_blank_padded f) -> blank (base_part (convert_utf8_to_ascii m name)))
  /\ (ok = true -> (f ∉ used) /\ used' = f :: used)
  /\ (ok = false -> used' = used)
  /\ (Forall fcb_wf used -> (length used < max_suffixes)%nat -> ok = true).
Proof.
  intros H. pose proof (blank_base _ _ _ _ _ H) as B.
  apply file_name_to_83_props in H as (D & P & T). split_and!; [done|done| |by destruct ok|done].
  intros ->. destruct P. split; [by apply set_contains_false | done].
Qed.

(** C35: the short name of a file that has something other than blanks before
    its last dot, printed the way DOS shows it (padding removed, extension
    after a dot) and sent back by the client in any letter case the server
    folds to, is parsed to the same FCB name, so the listing entry can be
    found again. *)
Theorem short_name_addresses_entry name used f used' ok :
  file_name_to_83 m name used = (f, used', ok) ->
  ~ blank (base_part (convert_utf8_to_ascii m name)) ->
  short_name_to_fcb (ascii_to_lower <$> fcb_to_short_name f) = f.
Proof.
  intros H Hne. pose proof (blank_base _ _ _ _ _ H) as B.
  apply file_name_to_83_props in H as (D & _). apply fcb_short_name_roundtrip; [done|].
  intros E%rtrim_blank. auto.
Qed.
End FileNameTo83.

Lemma file_name_to_83_fresh_witness :
  let used := [mkFcb (str "LONG_N~1") (str "TXT")] in
  (mkFcb (str "LONG_N~2") (str "TXT") ∉ used)
  /\ dos_name (mkFcb (str "LONG_N~2") (str "TXT")).
Proof.
  intros used.
  destruct (file_name_to_83_fresh ∅ (str "long_name2.txt") used
    (mkFcb (str "LONG_N~2") (str "TXT")) (mkFcb (str "LONG_N~2") (str "TXT") :: used) true)
    as (D & _ & F & _ & _); [vm_compute; reflexivity|].
  split; [by apply F | exact D].
Defined.

Lemma short_name_addresses_entry_witness :
  short_name_to_fcb (str "long_n~1.txt") = mkFcb (str "LONG_N~1") (str "TXT").
Proof.
  pose proof (short_name_addresses_entry ∅ (str "long_name1.txt") []
    (mkFcb (str "LONG_N~1") (str "TXT")) [mkFcb (str "LONG_N~1") (str "TXT")] true) as H.
  apply H; [vm_compute; reflexivity|]. intros Hb. vm_compute in Hb. by inversion Hb.
Defined.

(** A dot file whose remaining name fits an extension gets a blank base name,
    and what DOS shows for it is parsed as a different name. *)
Example dotfile_not_addressable :
  let f := (file_name_to_83 ∅ (str ".git") []).1.1 in
  f = mkFcb (str "        ") (str "GIT")
  /\ short_name_to_fcb (fcb_to_short_name f) = mkFcb (str ".GIT    ") (str "   ").
Proof. vm_compute. split; reflexivity. Qed.

(** Three dots are parsed as the FCB name of the parent directory. *)
Example three_dots_is_parent :
  short_name_to_fcb (str "...") = short_name_to_fcb (str "..").
Proof. vm_compute. reflexivity. Qed.
