(* ===== verification/Paths.v ===== *)
(** * Paths: std::filesystem::path and the checks on client paths

    A path is its native POSIX string.  The part of [std::filesystem::path]
    the server uses is modelled as the C++ standard defines it for POSIX:
    iteration ([elements]), [operator/], [filename], [parent_path],
    [relative_path] and [operator==].  On top of it are [check_path_depth]
    (fs.cpp) and [create_relative_path] (netmount-server.cpp). *)
From S2P Require Import Prelude Words.

Abbreviation path := bytes (only parsing).

(** ** std::filesystem::path *)

Definition is_slash (c : Z) : bool := c =? CH_SLASH.

(** The strings between the separators. *)
Fixpoint split_slash (s : bytes) : list bytes :=
  match s with
  | [] => [[]]
  | c :: s =>
      if is_slash c then [] :: split_slash s
      else match split_slash s with
           | part :: parts => (c :: part) :: parts
           | [] => [[c]]
           end
  end.

Definition nonempty (s : bytes) : bool := match s with [] => false | _ => true end.

(** [is_absolute()]: the path has a root directory. *)
Definition is_absolute (p : path) : bool :=
  match p with c :: _ => is_slash c | [] => false end.

(** The names of a path. *)
Definition names (p : path) : list bytes := filter nonempty (split_slash p).

(** [p] ends with a separator that follows a name. *)
Definition trailing (p : path) : list bytes :=
  match last p, names p with
  | Some c, _ :: _ => if is_slash c then [[]] else []
  | _, _ => []
  end.

(** The range [begin()] .. [end()]. *)
Definition elements (p : path) : list bytes :=
  (if is_absolute p then [[CH_SLASH]] else []) ++ names p ++ trailing p.

(** [operator==] compares element by element. *)
Definition path_eqb (p q : path) : bool := bool_decide (elements p = elements q).

Fixpoint drop_while (f : Z -> bool) (s : bytes) : bytes :=
  match s with
  | c :: s' => if f c then drop_while f s' else s
  | [] => []
  end.
Fixpoint take_while (f : Z -> bool) (s : bytes) : bytes :=
  match s with
  | c :: s' => if f c then c :: take_while f s' else []
  | [] => []
  end.

Definition relative_path (p : path) : path := drop_while is_slash p.

Definition filename (p : path) : path :=
  reverse (take_while (fun c => negb (is_slash c)) (reverse p)).

Definition parent_path (p : path) : path :=
  match relative_path p with
  | [] => p
  | _ :: _ =>
      let q := drop_while (fun c => negb (is_slash c)) (reverse p) in
      match drop_while is_slash q with
      | [] => if is_absolute p then [CH_SLASH] else []
      | q => reverse q
      end
  end.

(** [operator/]: a separator is added when the left side has a file name. *)
Definition path_append (p q : path) : path :=
  if is_absolute q then q
  else match last p with
       | None => q
       | Some c => if is_slash c then p ++ q else p ++ CH_SLASH :: q
       end.

(** ** Checks on client paths *)

Definition DOT : bytes := [CH_DOT].
Definition DOTDOT : bytes := [CH_DOT; CH_DOT].

(** The loop of [check_path_depth] from the given depth. *)
Fixpoint check_depth_loop (depth : Z) (parts : list bytes) : Z :=
  match parts with
  | [] => depth
  | part :: parts =>
      if negb (nonempty part) || bool_decide (part = DOT) || bool_decide (part = [CH_SLASH])
      then check_depth_loop depth parts
      else if bool_decide (part = DOTDOT) then
             if depth =? 0 then -1 else check_depth_loop (depth - 1) parts
           else check_depth_loop (depth + 1) parts
  end.

Definition check_path_depth (p : path) : Z := check_depth_loop 0 (elements p).

Definition create_relative_path (buff : bytes) : path :=
  let search_template := ascii_to_lower <$> buff in
  let search_template :=
    (fun c => if c =? CH_BACKSLASH then CH_SLASH else c) <$> search_template in
  relative_path search_template.

(** ** Lemmas on elements *)

Lemma split_slash_ne s : split_slash s <> [].
Proof. destruct s; simpl; repeat case_match; done. Qed.

Lemma split_slash_app s t : split_slash (s ++ CH_SLASH :: t) = split_slash s ++ split_slash t.
Proof.
  induction s as [|c s IH]; [done|]. cbn [app split_slash].
  destruct (is_slash c); [by rewrite IH|]. rewrite IH.
  pose proof (split_slash_ne s). by destruct (split_slash s).
Qed.

Lemma names_app s t : names (s ++ CH_SLASH :: t) = names s ++ names t.
Proof. unfold names. by rewrite split_slash_app, filter_app. Qed.

Lemma names_relative c s : is_slash c = false -> names (c :: s) <> [].
Proof.
  intros Hc. unfold names. cbn [split_slash]. rewrite Hc.
  pose proof (split_slash_ne s). destruct (split_slash s) as [|p ps]; [done|].
  by rewrite filter_cons_True.
Qed.

Lemma split_slash_no_slash s : Forall (fun c => is_slash c = false) s -> split_slash s = [s].
Proof. induction 1 as [|c s Hc _ IH]; [done|]. cbn [split_slash]. by rewrite Hc, IH. Qed.

(** A file name: what a directory contains. *)
Definition is_filename (s : bytes) : Prop :=
  s <> [] /\ Forall (fun c => is_slash c = false) s.

Lemma names_filename s : is_filename s -> names s = [s].
Proof.
  intros [Hne Hs]. unfold names. rewrite split_slash_no_slash by done.
  by destruct s.
Qed.

Lemma is_filename_relative s : is_filename s -> is_absolute s = false.
Proof. intros [? Hs]. destruct Hs; [done|]. done. Qed.

Lemma is_filename_last s c : is_filename s -> last s = Some c -> is_slash c = false.
Proof. 
  intros [? Hs] Hl. rewrite Forall_forall in Hs. apply Hs. by apply last_Some_elem_of.
Qed.

(** A path something can be appended to name by name: not empty, and either
    the root directory or without a trailing separator. *)
Definition directory_path (p : path) : Prop :=
  p = [CH_SLASH] \/ exists c, last p = Some c /\ is_slash c = false.

Lemma directory_path_ne p : directory_path p -> p <> [].
Proof. intros [-> | (c & Hc & _)]; [done|]. by intros ->. Qed.

Lemma elements_directory p : directory_path p ->
  elements p = (if is_absolute p then [[CH_SLASH]] else []) ++ names p.
Proof.
  unfold elements, trailing. intros [-> | (c & -> & Hc)]; [done|].
  rewrite Hc. destruct (names p); by rewrite ?app_nil_r.
Qed.

Lemma elements_append p q : directory_path p -> q <> [] -> is_absolute q = false ->
  elements (path_append p q) = elements p ++ elements q.
Proof.
  intros Hp Hq Ha. rewrite (elements_directory p Hp). unfold path_append. rewrite Ha.
  destruct q as [|a q]; [done|]. simpl in Ha.
  pose proof (names_relative a q Ha) as Hn.
  assert (elements (a :: q) = names (a :: q) ++ trailing (a :: q)) as -> by
    (unfold elements, is_absolute; by rewrite Ha).
  assert (forall s, is_absolute (s ++ CH_SLASH :: a :: q)
            = (match s with [] => true | c :: _ => is_slash c end)) as A by (by intros []).
  assert (forall s, trailing (s ++ CH_SLASH :: a :: q) = trailing (a :: q)) as T.
  { intros s. unfold trailing. rewrite names_app, last_app.
    change (last (CH_SLASH :: a :: q)) with (last (a :: q)).
    destruct (last (a :: q)) eqn:E; [|by apply last_None in E].
    destruct (names (a :: q)); [done|]. by destruct (names s). }
  destruct Hp as [-> | (c & Hl & Hc)].
  - change ([CH_SLASH] ++ a :: q) with ([] ++ CH_SLASH :: a :: q).
    cbn [last]. change (is_slash CH_SLASH) with true. cbn iota.
    change ([CH_SLASH] ++ a :: q) with ([] ++ CH_SLASH :: a :: q).
    unfold elements. rewrite A, T, names_app. done.
  - rewrite Hl, Hc. unfold elements. rewrite A, T, names_app.
    destruct p; [done|]. by rewrite <- !app_assoc.
Qed.

Lemma directory_path_append p q : directory_path p -> is_filename q ->
  directory_path (path_append p q).
Proof.
  intros Hp Hq. right. unfold path_append. rewrite is_filename_relative by done.
  destruct (last q) as [d|] eqn:El; [|by apply last_None in El; destruct Hq].
  exists d. split; [|by eapply is_filename_last].
  destruct (last p); [case_match|]; rewrite ?last_app, ?last_cons, El; done.
Qed.

Lemma elements_append_name p q : directory_path p -> is_filename q ->
  elements (path_append p q) = elements p ++ [q].
Proof.
  intros Hp Hq. rewrite elements_append; [|done|by destruct Hq|by apply is_filename_relative].
  f_equal. unfold elements. rewrite is_filename_relative, names_filename by done.
  unfold trailing. rewrite names_filename by done.
  destruct (last q) eqn:El; [|by rewrite app_nil_r].
  by rewrite (is_filename_last q _ Hq El).
Qed.

Lemma path_eqb_eq p q : path_eqb p q = true <-> elements p = elements q.
Proof. apply bool_decide_eq_true. Qed.

(** ** The depth check *)

(** How a component changes the depth below the root of the share. *)
Definition climb (part : bytes) : Z :=
  if negb (nonempty part) || bool_decide (part = DOT) || bool_decide (part = [CH_SLASH]) then 0
  else if bool_decide (part = DOTDOT) then -1 else 1.

Definition level (parts : list bytes) : Z := foldr (fun part n => climb part + n) 0 parts.

Lemma level_app l k : level (l ++ k) = level l + level k.
Proof. unfold level. induction l as [|a l IH]; [done|]. cbn [app foldr]. lia. Qed.

Lemma check_depth_loop_spec depth parts : 0 <= depth ->
  (check_depth_loop depth parts = -1 /\ exists k, depth + level (take k parts) < 0)
  \/ (check_depth_loop depth parts = depth + level parts
      /\ forall k, 0 <= depth + level (take k parts)).
Proof.
  revert depth. induction parts as [|part parts IH]; intros depth Hd.
  { right. cbn. split; [lia|]. intros k. rewrite take_nil. cbn. lia. }
  assert (forall d, 0 <= d -> depth + climb part = d ->
    check_depth_loop depth (part :: parts) = check_depth_loop d parts ->
    (check_depth_loop depth (part :: parts) = -1
       /\ exists k, depth + level (take k (part :: parts)) < 0)
    \/ (check_depth_loop depth (part :: parts) = depth + level (part :: parts)
        /\ forall k, 0 <= depth + level (take k (part :: parts)))) as Step.
  { intros d Hd' <- ->. change (level (part :: parts)) with (climb part + level parts).
    destruct (IH (depth + climb part) Hd') as [[E (k & Hk)] | [E Hk]].
    - left. split; [done|]. exists (S k). cbn [take level foldr]. fold (level (take k parts)). lia.
    - right. split; [lia|]. intros [|k]; [cbn; lia|]. cbn [take level foldr].
      fold (level (take k parts)). specialize (Hk k). lia. }
  unfold climb in Step. cbn [check_depth_loop] in *.
  destruct (negb (nonempty part) || _ || _).
  { apply (Step depth); [done|lia|done]. }
  destruct (bool_decide (part = DOTDOT)) eqn:Edd.
  - destruct (Z.eqb_spec depth 0) as [->|].
    + left. split; [done|]. exists 1%nat. apply bool_decide_eq_true in Edd as ->. done.
    + apply (Step (depth - 1)); [lia|lia|done].
  - apply (Step (depth + 1)); [lia|lia|done].
Qed.

(** [check_path_depth] answers -1 exactly for the paths that leave the root
    at some point while their components are followed one by one; for every
    other path it answers the depth the path ends at, the number of names minus
    the number of [..] components. *)
Theorem check_path_depth_spec p :
  (check_path_depth p = -1 <-> exists k, level (take k (elements p)) < 0)
  /\ (check_path_depth p <> -1 ->
      check_path_depth p = level (elements p)
      /\ forall k, 0 <= level (take k (elements p))).
Proof.
  unfold check_path_depth.
  destruct (check_depth_loop_spec 0 (elements p) ltac:(lia)) as [[-> (k & Hk)] | [-> Hk]].
  - split; [|done]. split; [|done]. intros _. exists k. lia.
  - split; [|intros _; split; [lia|]; intros k; specialize (Hk k); lia].
    pose proof (Hk (length (elements p))) as Hall. rewrite firstn_all in Hall.
    split; [lia|]. intros (k & ?). specialize (Hk k). lia.
Qed.

Lemma check_path_depth_spec_witness :
  check_path_depth (str "games/../doom/wads") = 2
  /\ (forall k, 0 <= level (take k (elements (str "games/../doom/wads")))).
Proof.
  destruct (check_path_depth_spec (str "games/../doom/wads")) as [_ H].
  destruct H as [E H]; [vm_compute; discriminate|]. split; [rewrite E; vm_compute; reflexivity|].
  exact H.
Defined.

(** ** Client paths *)

(** The characters a normalised client path has. *)
Definition client_char (c : Z) : Prop := c <> CH_BACKSLASH /\ ascii_to_lower c = c.

Definition fold_char (c : Z) : Z :=
  let c := ascii_to_lower c in if c =? CH_BACKSLASH then CH_SLASH else c.

Lemma create_relative_path_fold buff :
  create_relative_path buff = relative_path (fold_char <$> buff).
Proof. unfold create_relative_path. by rewrite <- list_fmap_compose. Qed.

Lemma fold_char_client c : client_char (fold_char c).
Proof.
  unfold fold_char, client_char. destruct (Z.eqb_spec (ascii_to_lower c) CH_BACKSLASH); [done|].
  split; [done|]. unfold ascii_to_lower.
  repeat match goal with |- context [if ?b then _ else _] => destruct b eqn:? end; lia.
Qed.

Lemma fold_char_id c : client_char c -> fold_char c = c.
Proof.
  unfold fold_char, client_char. intros [? ->]. by destruct (Z.eqb_spec c CH_BACKSLASH).
Qed.

Lemma drop_while_Forall P f s : Forall P s -> Forall P (drop_while f s).
Proof. induction 1; simpl; [constructor|]. case_match; [done|by constructor]. Qed.

Lemma relative_path_relative s : is_absolute (relative_path s) = false.
Proof.
  unfold relative_path. induction s as [|c s IH]; [done|]. simpl.
  destruct (is_slash c) eqn:E; [done|]. by simpl.
Qed.

Lemma relative_path_id s : is_absolute s = false -> relative_path s = s.
Proof. destruct s as [|c s]; [done|]. simpl. unfold relative_path. simpl. by intros ->. Qed.

Lemma create_relative_path_client buff :
  is_absolute (create_relative_path buff) = false
  /\ Forall client_char (create_relative_path buff).
Proof.
  rewrite create_relative_path_fold. split; [apply relative_path_relative|].
  apply drop_while_Forall, Forall_fmap, Forall_true. intros c. apply fold_char_client.
Qed.

(** C33: the path made of a client's buffer is relative, so it is always
    appended below the root of the share, has no upper-case letter and no
    backslash, and a buffer that already has this form is taken as it is. *)
Theorem create_relative_path_normal buff :
  is_absolute (create_relative_path buff) = false
  /\ Forall client_char (create_relative_path buff)
  /\ create_relative_path (create_relative_path buff) = create_relative_path buff
  /\ (is_absolute buff = false -> Forall client_char buff -> create_relative_path buff = buff).
Proof.
  assert (forall b, is_absolute b = false -> Forall client_char b -> create_relative_path b = b)
    as Id.
  { intros b Ha Hb. rewrite create_relative_path_fold.
    assert (fold_char <$> b = b) as ->; [|by apply relative_path_id].
    clear Ha. induction Hb as [|c b Hc _ IH]; [done|]. cbn [fmap list_fmap].
    rewrite fold_char_id by done. by f_equal. }
  destruct (create_relative_path_client buff). auto.
Qed.

Lemma create_relative_path_normal_witness :
  create_relative_path (str "\GAMES\Doom") = str "games/doom"
  /\ create_relative_path (str "games/doom") = str "games/doom".
Proof.
  split; [reflexivity|].
  destruct (create_relative_path_normal (str "games/doom")) as (_ & _ & _ & H).
  apply H; [reflexivity|]. by repeat constructor.
Defined.

(** ** Staying below the root of a share *)

(** [p] is the root followed by components that never climb above it and end
    [n] levels below it. *)
Definition at_level (root p : path) (n : Z) : Prop :=
  exists rel, elements p = elements root ++ rel
              /\ (forall k, 0 <= level (take k rel)) /\ level rel = n.

Definition within (root p : path) : Prop := exists n, at_level root p n.

Lemma at_level_root root : at_level root root 0.
Proof. exists []. split_and!; [by rewrite app_nil_r| |done]. intros k. by rewrite take_nil. Qed.

Lemma at_level_nonneg root p n : at_level root p n -> 0 <= n.
Proof. intros (rel & _ & H & <-). specialize (H (length rel)). by rewrite firstn_all in H. Qed.

Lemma level_snoc_prefix rel q : (forall k, 0 <= level (take k rel)) -> 0 <= level rel + climb q ->
  forall k, 0 <= level (take k (rel ++ [q])).
Proof.
  intros Hk Hq k. destruct (decide (k <= length rel)%nat).
  - by rewrite take_app_le.
  - rewrite take_ge by (rewrite length_app; simpl; lia). rewrite level_app. cbn. lia.
Qed.

Lemma at_level_append root p n q : directory_path p -> at_level root p n -> is_filename q ->
  0 <= n + climb q -> at_level root (path_append p q) (n + climb q).
Proof.
  intros Hp (rel & E & Hk & <-) Hq Hc. exists (rel ++ [q]). split_and!.
  - rewrite elements_append_name by done. by rewrite E, app_assoc.
  - by apply level_snoc_prefix.
  - rewrite level_app. cbn. lia.
Qed.

Lemma path_append_nil p : directory_path p ->
  path_append p [] = p ++ (if bool_decide (p = [CH_SLASH]) then [] else [CH_SLASH]).
Proof.
  intros [-> | (c & Hl & Hc)]; [done|]. unfold path_append. simpl. rewrite Hl, Hc.
  rewrite bool_decide_false; [done|]. intros ->. by simplify_eq/=.
Qed.

Lemma elements_append_nil p : directory_path p ->
  elements (path_append p []) = elements p \/ elements (path_append p []) = elements p ++ [[]].
Proof.
  intros Hp. rewrite path_append_nil by done. destruct (bool_decide _) eqn:E.
  - left. by rewrite app_nil_r.
  - destruct Hp as [-> | (c & Hl & Hc)]; [done|].
    rewrite (elements_directory p) by (right; eauto).
    assert (names (p ++ [CH_SLASH]) = names p) as Hn by (rewrite names_app; apply app_nil_r).
    assert (is_absolute (p ++ [CH_SLASH]) = is_absolute p) as Ha by (by destruct p).
    unfold elements. rewrite Hn, Ha. unfold trailing. rewrite Hn, last_app. simpl.
    destruct (names p); [left|right; by rewrite <- app_assoc]. done.
Qed.

Lemma at_level_append_nil root p n : directory_path p -> at_level root p n ->
  at_level root (path_append p []) n.
Proof.
  intros Hp (rel & E & Hk & <-). destruct (elements_append_nil p Hp) as [E'|E'].
  - exists rel. by rewrite E'.
  - exists (rel ++ [[]]). split_and!; [by rewrite E', E, app_assoc| |].
    + apply level_snoc_prefix; [done|]. specialize (Hk (length rel)). rewrite firstn_all in Hk.
      cbn. lia.
    + rewrite level_app. cbn. lia.
Qed.

(** A client path with a depth, appended below the root. *)
Lemma at_level_client root p : directory_path root -> p <> [] -> is_absolute p = false ->
  0 <= check_path_depth p -> at_level root (path_append root p) (check_path_depth p).
Proof.
  intros Hr Hp Ha Hd. exists (elements p). rewrite elements_append by done.
  split; [done|]. unfold check_path_depth in *.
  destruct (check_depth_loop_spec 0 (elements p) ltac:(lia)) as [[E _]|[E Hk]]; [lia|].
  rewrite E. split; [|lia]. intros k. specialize (Hk k). lia.
Qed.

(** *** The components of a relative path *)

Lemma split_slash_parts s : Forall (Forall (fun c => is_slash c = false)) (split_slash s).
Proof.
  induction s as [|c s IH]; [by repeat constructor|]. cbn [split_slash].
  destruct (is_slash c) eqn:Hc; [by constructor|].
  destruct (split_slash s); [by repeat constructor|]. inversion IH. by repeat constructor.
Qed.

Lemma names_are_filenames p : Forall is_filename (names p).
Proof.
  unfold names. pose proof (split_slash_parts p) as H. induction H as [|part parts Hp _ IH]; [done|].
  destruct part as [|c part]; [exact IH|].
  rewrite filter_cons_True by done. by constructor.
Qed.

Lemma elements_relative p : is_absolute p = false ->
  Forall (fun part => part = [] \/ is_filename part) (elements p).
Proof.
  intros Ha. unfold elements. rewrite Ha. cbn [app]. apply Forall_app. split.
  - eapply Forall_impl; [apply names_are_filenames|]. by right.
  - unfold trailing. repeat case_match; repeat constructor.
Qed.

(** *** The parent of a path *)

Lemma drop_while_app_all f s t : Forall (fun c => f c = true) s ->
  drop_while f (s ++ t) = drop_while f t.
Proof. induction 1 as [|c s Hc _ IH]; [done|]. simpl. by rewrite Hc. Qed.

Lemma drop_while_stop f s c : f c = false -> drop_while f (c :: s) = c :: s.
Proof. simpl. by intros ->. Qed.

(** The parent of a path made of a directory and a last part, which may be
    empty. *)
Lemma parent_path_append p q : directory_path p -> (q = [] \/ is_filename q) ->
  parent_path (path_append p q) = p.
Proof.
  intros Hp Hq.
  assert (Forall (fun c => negb (is_slash c) = true) q) as Hs.
  { destruct Hq as [->|[_ Hq]]; [done|]. eapply Forall_impl; [exact Hq|]. by intros c ->. }
  assert (is_absolute q = false) as Ha by (destruct Hq; [by subst|by apply is_filename_relative]).
  unfold path_append. rewrite Ha.
  destruct Hp as [-> | (c & Hl & Hc)].
  - cbn [last]. change (is_slash CH_SLASH) with true. cbn iota. unfold parent_path.
    destruct q as [|a q]; [done|].
    assert (relative_path ([CH_SLASH] ++ a :: q) = a :: q) as ->.
    { unfold relative_path. simpl. simpl in Ha. by rewrite Ha. }
    rewrite reverse_app, drop_while_app_all by (rewrite Forall_reverse; exact Hs). done.
  - rewrite Hl, Hc. unfold parent_path.
    apply last_Some in Hl as [p' ->].
    assert (relative_path ((p' ++ [c]) ++ CH_SLASH :: q) <> []) as Hne.
    { unfold relative_path. clear -Hc. induction p' as [|a p' IH]; simpl.
      - by rewrite Hc.
      - by destruct (is_slash a). }
    destruct (relative_path _) eqn:Er; [done|]. clear Hne Er.
    rewrite reverse_app, reverse_cons, <- app_assoc.
    rewrite drop_while_app_all by (rewrite Forall_reverse; exact Hs).
    rewrite reverse_snoc. cbn [app drop_while]. change (is_slash CH_SLASH) with true.
    cbn [negb drop_while]. change (is_slash CH_SLASH) with true. cbn iota. rewrite Hc.
    by rewrite reverse_cons, reverse_involutive.
Qed.

(** *** The parent of any path with a name *)

Lemma take_drop_while f s : s = take_while f s ++ drop_while f s.
Proof. induction s as [|c s IH]; [done|]. simpl. destruct (f c); [|done]. simpl. by f_equal. Qed.

Lemma take_while_all f s : Forall (fun c => f c = true) (take_while f s).
Proof. induction s as [|c s IH]; [constructor|]. simpl. case_match; by constructor. Qed.

Lemma drop_while_head f s c t : drop_while f s = c :: t -> f c = false.
Proof.
  induction s as [|d s IH]; [done|]. simpl. destruct (f d) eqn:E; [done|]. by intros [= <- <-].
Qed.

Lemma all_slashes s : Forall (fun c => is_slash c = true) s -> s = replicate (length s) CH_SLASH.
Proof.
  induction 1 as [|c s Hc _ IH]; [done|]. simpl. apply Z.eqb_eq in Hc. by rewrite Hc, <- IH.
Qed.

Lemma names_slash s : names (CH_SLASH :: s) = names s.
Proof. apply (names_app [] s). Qed.

Lemma names_slashes k s : names (replicate k CH_SLASH ++ s) = names s.
Proof.
  induction k as [|k IH]; [done|]. cbn [replicate app].
  by rewrite names_slash.
Qed.

Lemma names_last p c : last p = Some c -> is_slash c = false -> names p <> [].
Proof.
  intros Hl Hc. induction p as [|d p IH]; [done|]. destruct (is_slash d) eqn:Hd.
  - apply Z.eqb_eq in Hd as ->. rewrite names_slash.
    destruct p; [by simplify_eq/=|]. by apply IH.
  - by apply names_relative.
Qed.

(** A path is a directory part, separators and a part without separators. *)
Lemma path_decompose p : exists a k b,
  p = a ++ replicate k CH_SLASH ++ b
  /\ Forall (fun c => is_slash c = false) b
  /\ (a = [] \/ exists c, last a = Some c /\ is_slash c = false)
  /\ drop_while (fun c => negb (is_slash c)) (reverse p) = replicate k CH_SLASH ++ reverse a
  /\ drop_while is_slash (replicate k CH_SLASH ++ reverse a) = reverse a
  /\ (k = O -> a = []).
Proof.
  set (r := reverse p). set (ns := fun c => negb (is_slash c)).
  pose proof (take_drop_while ns r) as E1.
  pose proof (take_drop_while is_slash (drop_while ns r)) as E2.
  pose proof (take_while_all ns r) as A1.
  pose proof (all_slashes _ (take_while_all is_slash (drop_while ns r))) as A2.
  exists (reverse (drop_while is_slash (drop_while ns r))),
    (length (take_while is_slash (drop_while ns r))), (reverse (take_while ns r)).
  rewrite reverse_involutive, <- A2, <- E2. split_and!.
  - apply (inj reverse). rewrite !reverse_app, !reverse_involutive.
    rewrite A2 at 1. rewrite reverse_replicate, <- A2, <- app_assoc, <- E2. exact E1.
  - rewrite Forall_reverse. eapply Forall_impl; [exact A1|]. subst ns. simpl.
    intros c. by destruct (is_slash c).
  - destruct (drop_while is_slash (drop_while ns r)) as [|c t] eqn:E; [by left|].
    right. exists c. rewrite reverse_cons, last_snoc. split; [done|]. by eapply drop_while_head.
  - done.
  - done.
  - intros E. apply nil_length_inv in E. destruct (drop_while ns r) as [|c t] eqn:Ed; [done|].
    apply drop_while_head in Ed. subst ns. simpl in *. by destruct (is_slash c).
Qed.

Lemma elements_parent p : relative_path p <> [] ->
  exists x, elements p = elements (parent_path p) ++ [x].
Proof.
  intros Hr. unfold parent_path. destruct (relative_path p) eqn:Er; [done|]. clear Hr.
  destruct (path_decompose p) as (a & k & b & Hp & Hb & Ha & -> & -> & Hk).
  assert (b = [] \/ is_filename b) as Hb' by (destruct b; [by left|right; by split]).
  assert (names p = names a ++ names b) as Hn.
  { destruct k as [|k].
    - rewrite (Hk eq_refl) in *. by rewrite Hp.
    - rewrite Hp. cbn [replicate app]. rewrite names_app. f_equal. apply names_slashes. }
  assert (trailing p = if nonempty b then [] else match names a with [] => [] | _ => [[]] end) as Ht.
  { unfold trailing. rewrite Hn. destruct Hb' as [-> | Hb'].
    - rewrite app_nil_r. simpl. rewrite Hp, app_nil_r. destruct k as [|k].
      + rewrite (Hk eq_refl). done.
      + rewrite replicate_S_end, app_assoc, last_snoc. by destruct (names a).
    - rewrite (names_filename b) by done. rewrite Hp, !last_app.
      destruct (last b) as [d|] eqn:El; [|by apply last_None in El; destruct Hb'].
      rewrite (is_filename_last b d) by done. destruct b; [by destruct Hb'|].
      simpl. by destruct (names a). }
  destruct Ha as [-> | (c & Hc & Hs)].
  - cbn [reverse rev_append]. unfold elements at 1. rewrite Hn, Ht. simpl.
    destruct Hb' as [-> | Hb'].
    + exfalso. rewrite Hp, app_nil_r in Er. unfold relative_path in Er. simpl in Er.
      clear -Er. by induction k.
    + rewrite names_filename by done. destruct b as [|d b]; [by destruct Hb'|].
      destruct (is_absolute p); by eexists.
  - assert (directory_path a) as Hd by (right; eauto).
    destruct (reverse a) as [|x r] eqn:Ea.
    { apply (f_equal length) in Ea. rewrite length_reverse in Ea. by destruct a. }
    rewrite <- Ea, reverse_involutive.
    rewrite (elements_directory a Hd). unfold elements. rewrite Hn, Ht.
    assert (is_absolute p = is_absolute a) as -> by (rewrite Hp; by destruct a).
    pose proof (names_last a c Hc Hs). destruct Hb' as [-> | Hb'].
    + simpl. rewrite app_nil_r. destruct (names a); [done|]. exists []. by rewrite <- app_assoc.
    + rewrite (names_filename b) by done. destruct b as [|d b]; [by destruct Hb'|].
      simpl. exists (d :: b). by rewrite app_nil_r, <- app_assoc.
Qed.

Lemma elements_ne p : p <> [] -> elements p <> [].
Proof.
  destruct p as [|c p]; [done|]. intros _. unfold elements, is_absolute.
  destruct (is_slash c) eqn:Hc; [done|]. intros [_ [E _]%app_eq_nil]%app_eq_nil.
  by apply (names_relative c p Hc).
Qed.

Lemma elements_no_relative p : relative_path p = [] -> elements p = [] \/ elements p = [[CH_SLASH]].
Proof.
  intros Hr. pose proof (take_drop_while is_slash p) as E. unfold relative_path in Hr.
  rewrite Hr, app_nil_r in E.
  rewrite (all_slashes _ (take_while_all is_slash p)) in E. rewrite E.
  assert (names (replicate (length (take_while is_slash p)) CH_SLASH) = []) as Hn.
  { pose proof (names_slashes (length (take_while is_slash p)) []) as N.
    by rewrite app_nil_r in N. }
  unfold elements, trailing. rewrite Hn.
  destruct (length (take_while is_slash p)); [by left|right].
  by destruct (last _).
Qed.

Lemma parent_path_directory p : relative_path p <> [] ->
  parent_path p = [] \/ directory_path (parent_path p).
Proof.
  intros Hr. unfold parent_path. destruct (relative_path p); [done|].
  destruct (path_decompose p) as (a & k & b & _ & _ & Ha & -> & -> & _).
  destruct Ha as [-> | (c & Hc & Hs)].
  - cbn [reverse rev_append]. destruct (is_absolute p); [right; by left|by left].
  - apply last_Some in Hc as [a' ->]. rewrite reverse_snoc. right. right.
    exists c. rewrite reverse_cons, last_snoc. done.
Qed.

(** The parent of a path below the root, other than the root, is below it. *)
Lemma within_parent root p n : directory_path root -> at_level root p n ->
  elements p <> elements root ->
  within root (parent_path p) /\ directory_path (parent_path p) /\ parent_path p <> [].
Proof.
  intros Hr (rel & E & Hk & _) Hne.
  pose proof (elements_ne root (directory_path_ne _ Hr)) as Hne'.
  destruct rel as [|x rel _] using rev_ind; [by rewrite app_nil_r in E|].
  assert (relative_path p <> []) as Hp.
  { intros [Hp|Hp]%elements_no_relative; rewrite Hp in E.
    - symmetry in E. apply app_eq_nil in E as [_ E]. by apply app_eq_nil in E as [_ ?].
    - destruct (elements root) as [|e es]; [done|]. injection E as _ E.
      symmetry in E. apply app_eq_nil in E as [_ E]. by apply app_eq_nil in E as [_ ?]. }
  destruct (elements_parent p Hp) as [y Hy]. rewrite Hy, app_assoc in E.
  apply app_inj_tail in E as [E _].
  assert (parent_path p <> []) as Hpp.
  { intros Hpp. rewrite Hpp in E. change (elements []) with (@nil bytes) in E.
    by destruct (elements root). }
  split_and!; [|by destruct (parent_path_directory p Hp)|done].
  exists (level rel), rel. split_and!; [done| |done].
  intros k. destruct (decide (k <= length rel)%nat).
  - specialize (Hk k). by rewrite take_app_le in Hk.
  - specialize (Hk (length rel)). rewrite take_app_le, firstn_all in Hk by lia.
    by rewrite take_ge by lia.
Qed.

Example elements_examples :
  elements (str "/srv/dos/") = [str "/"; str "srv"; str "dos"; []]
  /\ elements (str "a//b") = [str "a"; str "b"]
  /\ parent_path (str "/srv/dos") = str "/srv" /\ parent_path (str "a/") = str "a"
  /\ parent_path (str "/srv") = str "/" /\ parent_path (str "a") = []
  /\ filename (str "a/b.txt") = str "b.txt" /\ filename (str "a/") = []
  /\ path_append (str "/srv") (str "a/b") = str "/srv/a/b"
  /\ path_append (str "/") (str "a") = str "/a".
Proof. by repeat split. Qed.
