(* ===== verification/FatTime.v ===== *)
(** * FatTime: FAT timestamps (time_to_fat, fat_to_time in fs.cpp)

    [localtime] and [mktime] belong to the C library: they are the parameter
    [Calendar], and a property that needs their documented field ranges says
    so. *)
From S2P Require Import Prelude.

(** The fields of [struct tm] the server reads or writes. *)
Record tm := mkTm {
  tm_year : Z;
  tm_mon : Z;
  tm_mday : Z;
  tm_hour : Z;
  tm_min : Z;
  tm_sec : Z;
  tm_isdst : Z;
}.

Class Calendar := {
  localtime : Z -> tm;
  mktime : tm -> Z;
}.

(** Assignment of an [int] to a [uint32_t] after a shift, and [|=]. *)
Definition shl32 (x n : Z) : Z := u32 (Z.shiftl x n).
Definition or32 (x y : Z) : Z := Z.lor x (u32 y).

Definition FAT_TIME_MIN : Z := Z.shiftl (Z.shiftl 1 5 + 1) 16.
Definition FAT_TIME_MAX : Z :=
  Z.shiftl (Z.shiftl 0x7F 9 + Z.shiftl 12 5 + 31) 16 + Z.shiftl 23 11 + Z.shiftl 59 5
  + Z.shiftr 58 1.

(** The packing of a broken-down time. *)
Definition tm_to_fat (ltime : tm) : Z :=
  if tm_year ltime <? 80 then FAT_TIME_MIN
  else if 207 <? tm_year ltime then FAT_TIME_MAX
  else
    let res := u32 (tm_year ltime - 80) in
    let res := shl32 res 4 in
    let res := or32 res (tm_mon ltime + 1) in
    let res := shl32 res 5 in
    let res := or32 res (tm_mday ltime) in
    let res := shl32 res 5 in
    let res := or32 res (tm_hour ltime) in
    let res := shl32 res 6 in
    let res := or32 res (tm_min ltime) in
    let res := shl32 res 5 in
    or32 res (Z.quot (tm_sec ltime) 2).

Definition time_to_fat `{Calendar} (t : Z) : Z := tm_to_fat (localtime t).

Definition fat_to_tm (date_time : Z) : tm :=
  let sec := Z.land date_time 0x1f * 2 in
  let date_time := Z.shiftr date_time 5 in
  let min := Z.land date_time 0x3f in
  let date_time := Z.shiftr date_time 6 in
  let hour := Z.land date_time 0x1f in
  let date_time := Z.shiftr date_time 5 in
  let mday := Z.land date_time 0x1f in
  let date_time := Z.shiftr date_time 5 in
  let mon := Z.land date_time 0x0f - 1 in
  let date_time := Z.shiftr date_time 4 in
  mkTm (date_time + 80) mon mday hour min sec (-1).

Definition fat_to_time `{Calendar} (date_time : Z) : Z := mktime (fat_to_tm date_time).

(** ** Packing as arithmetic *)

(** The documented ranges of the fields. *)
Record tm_ok (t : tm) : Prop := {
  ok_mon : 0 <= tm_mon t <= 11;
  ok_mday : 1 <= tm_mday t <= 31;
  ok_hour : 0 <= tm_hour t <= 23;
  ok_min : 0 <= tm_min t <= 59;
  ok_sec : 0 <= tm_sec t <= 60;
}.

(** The years a FAT timestamp can hold. *)
Definition fat_year (t : tm) : Prop := 80 <= tm_year t <= 207.

(** The mixed-radix number the packing computes. *)
Definition fat_number (year mon mday hour min sec2 : Z) : Z :=
  ((((year * 2 ^ 4 + mon) * 2 ^ 5 + mday) * 2 ^ 5 + hour) * 2 ^ 6 + min) * 2 ^ 5 + sec2.

Lemma pack_field x y n k : 0 <= n -> 0 <= y < 2 ^ n -> 0 <= x < 2 ^ k -> 0 <= k -> n + k <= 32 ->
  or32 (shl32 x n) y = x * 2 ^ n + y /\ 0 <= x * 2 ^ n + y < 2 ^ (k + n).
Proof.
  intros Hn Hy Hx Hk Hnk. rewrite Z.pow_add_r by lia.
  assert (0 < 2 ^ n) by (apply Z.pow_pos_nonneg; lia).
  assert (2 ^ (k + n) <= 2 ^ 32) as Hm by (apply Z.pow_le_mono_r; lia).
  rewrite Z.pow_add_r in Hm by lia.
  assert (2 ^ n <= 2 ^ 32) by (apply Z.pow_le_mono_r; lia).
  split; [|nia]. unfold or32, shl32. rewrite Z.shiftl_mul_pow2 by lia.
  rewrite (u32_id (x * 2 ^ n)) by (unfold is_u32; nia).
  rewrite (u32_id y) by (unfold is_u32; lia).
  rewrite Z.lor_comm, lor_disjoint by lia. lia.
Qed.

Lemma tm_to_fat_number t : tm_ok t -> fat_year t ->
  tm_to_fat t = fat_number (tm_year t - 80) (tm_mon t + 1) (tm_mday t) (tm_hour t) (tm_min t)
                  (tm_sec t / 2)
  /\ is_u32 (tm_to_fat t).
Proof.
  intros [] Hy. unfold fat_year in Hy. unfold tm_to_fat, fat_number.
  replace (tm_year t <? 80) with false by lia. replace (207 <? tm_year t) with false by lia.
  rewrite Z.quot_div_nonneg by lia.
  assert (0 <= tm_sec t / 2 < 2 ^ 5) by (change (2 ^ 5) with 32; split; [apply Z.div_pos|apply Z.div_lt_upper_bound]; lia).
  rewrite (u32_id (tm_year t - 80)) by (unfold is_u32; lia).
  destruct (pack_field (tm_year t - 80) (tm_mon t + 1) 4 7) as [-> R1]; [lia..|].
  destruct (pack_field _ (tm_mday t) 5 11 ltac:(lia) ltac:(lia) R1) as [-> R2]; [lia..|].
  destruct (pack_field _ (tm_hour t) 5 16 ltac:(lia) ltac:(lia) R2) as [-> R3]; [lia..|].
  destruct (pack_field _ (tm_min t) 6 21 ltac:(lia) ltac:(lia) R3) as [-> R4]; [lia..|].
  destruct (pack_field _ (tm_sec t / 2) 5 27 ltac:(lia) ltac:(lia) R4) as [-> R5]; [lia..|].
  split; [done|]. exact R5.
Qed.

Lemma unpack_field x y n m : 0 <= n -> m = Z.ones n -> 0 <= y < 2 ^ n ->
  Z.land (x * 2 ^ n + y) m = y /\ Z.shiftr (x * 2 ^ n + y) n = x.
Proof.
  intros Hn -> Hy. rewrite Z.land_ones, Z.shiftr_div_pow2 by lia.
  rewrite Z.add_comm, Z.mod_add, Z.div_add, Z.mod_small, Z.div_small by lia. lia.
Qed.

Lemma fat_to_tm_number year mon mday hour min sec2 :
  0 <= year < 128 -> 0 <= mon < 16 -> 0 <= mday < 32 -> 0 <= hour < 32 -> 0 <= min < 64 ->
  0 <= sec2 < 32 ->
  fat_to_tm (fat_number year mon mday hour min sec2)
  = mkTm (year + 80) (mon - 1) mday hour min (sec2 * 2) (-1).
Proof.
  intros. unfold fat_to_tm, fat_number.
  repeat (match goal with
          | |- context [Z.land (?x * 2 ^ ?n + ?y) ?m] =>
              destruct (unpack_field x y n m) as [-> ->]; [lia|reflexivity|lia|]
          end).
  done.
Qed.

(** The time with the seconds FAT can store, as [mktime] is given it. *)
Definition floor_seconds (t : tm) : tm :=
  mkTm (tm_year t) (tm_mon t) (tm_mday t) (tm_hour t) (tm_min t) (tm_sec t / 2 * 2) (-1).

Section Time.
Context `{Calendar}.

(** The two conversions are inverse up to the two-second resolution of
    FAT: for a time between 1980 and 2107 the timestamp unpacks to the
    broken-down time it was made of, with the seconds rounded down to an even
    number, and that is the time [mktime] is asked for. *)
Theorem fat_time_roundtrip t : tm_ok (localtime t) -> fat_year (localtime t) ->
  is_u32 (time_to_fat t)
  /\ fat_to_tm (time_to_fat t) = floor_seconds (localtime t)
  /\ fat_to_time (time_to_fat t) = mktime (floor_seconds (localtime t)).
Proof.
  intros Hok Hy. destruct (tm_to_fat_number _ Hok Hy) as [E R].
  assert (fat_to_tm (time_to_fat t) = floor_seconds (localtime t)) as F.
  { unfold time_to_fat. rewrite E. destruct Hok. unfold fat_year in Hy.
    assert (0 <= tm_sec (localtime t) / 2 < 32)
      by (split; [apply Z.div_pos|apply Z.div_lt_upper_bound]; lia).
    rewrite fat_to_tm_number by lia. unfold floor_seconds. f_equal; lia. }
  split_and!; [exact R | exact F |]. unfold fat_to_time. by rewrite F.
Qed.

Definition time_key (x : Z) : Z :=
  fat_number (tm_year (localtime x)) (tm_mon (localtime x) + 1) (tm_mday (localtime x))
    (tm_hour (localtime x)) (tm_min (localtime x)) (tm_sec (localtime x) / 2).

(** The number of a time lies within its year. *)
Lemma time_key_bounds x : tm_ok (localtime x) -> tm_sec (localtime x) <= 59 ->
  FAT_TIME_MIN <= time_key x - tm_year (localtime x) * 2 ^ 25 <= FAT_TIME_MAX - 127 * 2 ^ 25.
Proof.
  intros [] Hs. unfold time_key, fat_number.
  assert (0 <= tm_sec (localtime x) / 2 <= 29)
    by (split; [apply Z.div_pos; lia | apply Z.lt_succ_r, Z.div_lt_upper_bound; lia]).
  change FAT_TIME_MIN with 2162688. change (FAT_TIME_MAX - 127 * 2 ^ 25) with 27246461. lia.
Qed.

Lemma time_to_fat_cases x : tm_ok (localtime x) ->
  (tm_year (localtime x) < 80 /\ time_to_fat x = FAT_TIME_MIN)
  \/ (207 < tm_year (localtime x) /\ time_to_fat x = FAT_TIME_MAX)
  \/ (fat_year (localtime x) /\ time_to_fat x = time_key x - 80 * 2 ^ 25).
Proof.
  intros Hx. unfold time_to_fat, fat_year.
  destruct (Z.ltb_spec (tm_year (localtime x)) 80) as [?|?];
    [left; split; [done|]; unfold tm_to_fat; by replace (_ <? 80) with true by lia|].
  destruct (Z.ltb_spec 207 (tm_year (localtime x))) as [?|?].
  - right. left. split; [done|]. unfold tm_to_fat.
    replace (_ <? 80) with false by lia. by replace (207 <? _) with true by lia.
  - right. right. split; [lia|].
    destruct (tm_to_fat_number _ Hx) as [-> _]; [unfold fat_year; lia|].
    unfold time_key, fat_number. lia.
Qed.

(** Timestamps are ordered like the times they stand for, the times
    outside 1980-2107 included, which are clamped to the ends of the range:
    an earlier broken-down time, compared field by field from the year down
    with seconds in pairs, never has a later timestamp. *)
Theorem time_to_fat_monotone t u : tm_ok (localtime t) -> tm_ok (localtime u) ->
  tm_sec (localtime t) <= 59 -> tm_sec (localtime u) <= 59 ->
  time_key t <= time_key u ->
  FAT_TIME_MIN <= time_to_fat t <= time_to_fat u /\ time_to_fat u <= FAT_TIME_MAX.
Proof.
  intros Ht Hu St Su Hk. unfold fat_year.
  pose proof (time_key_bounds t Ht St). pose proof (time_key_bounds u Hu Su).
  change FAT_TIME_MIN with 2162688 in *. change FAT_TIME_MAX with 4288659325 in *.
  destruct (time_to_fat_cases t Ht) as [[Yt ->] | [[Yt ->] | [Yt ->]]];
    destruct (time_to_fat_cases u Hu) as [[Yu ->] | [[Yu ->] | [Yu ->]]];
    change FAT_TIME_MIN with 2162688 in *; change FAT_TIME_MAX with 4288659325 in *;
    unfold fat_year in *; lia.
Qed.
End Time.

(** A calendar for the concrete runs: thirty-one-day months, counted from
    1970 in UTC. *)
Definition toy_calendar : Calendar := {|
  localtime t :=
    mkTm (70 + t / 32140800) (t / 2678400 mod 12) (t / 86400 mod 31 + 1) (t / 3600 mod 24)
      (t / 60 mod 60) (t mod 60) 0;
  mktime t :=
    (((((tm_year t - 70) * 12 + tm_mon t) * 31 + tm_mday t - 1) * 24 + tm_hour t) * 60
     + tm_min t) * 60 + tm_sec t
|}.

Lemma toy_ok t : 0 <= t -> @tm_ok (@localtime toy_calendar t).
Proof.
  intros. split; cbn [localtime toy_calendar tm_mon tm_mday tm_hour tm_min tm_sec];
    match goal with
    | |- context [?x mod ?m] => pose proof (Z.mod_pos_bound x m ltac:(lia)); lia
    end.
Defined.

Lemma fat_time_roundtrip_witness :
  @time_to_fat toy_calendar 1700000001 = 1433842090
  /\ @fat_to_time toy_calendar (@time_to_fat toy_calendar 1700000001) = 1700000000.
Proof.
  split; [vm_compute; reflexivity|].
  destruct (@fat_time_roundtrip toy_calendar 1700000001) as (_ & _ & ->).
  - apply toy_ok. lia.
  - split; vm_compute; discriminate.
  - vm_compute. reflexivity.
Defined.

Lemma time_to_fat_monotone_witness :
  FAT_TIME_MIN <= @time_to_fat toy_calendar 0 <= @time_to_fat toy_calendar 1700000001
  /\ @time_to_fat toy_calendar 1700000001 <= FAT_TIME_MAX.
Proof.
  apply (@time_to_fat_monotone toy_calendar 0 1700000001);
    [apply toy_ok; lia | apply toy_ok; lia | vm_compute; discriminate..].
Defined.
