(* ===== verification/Host.v ===== *)
(** * Host: the operating system and std::filesystem, as a parameter

    The server's effects go through the C library, the POSIX system calls and
    [std::filesystem].  None of that code is part of the repository, so it is
    the class [Host]: an abstract state [W] of the machine, queries on it and
    operations that change it.  What the C++ library derives from a primitive
    query ([exists], [is_directory], [is_symlink], with and without an
    [error_code]) is defined here from [status] and [symlink_status] the way
    the C++ standard defines it.  [HostLaws] collects the documented behaviour
    the proofs rely on. *)
From S2P Require Import Prelude Paths FatTime.

(** [std::filesystem::file_type], as far as the server tells types apart. *)
Inductive file_type := not_found | regular | directory | symlink | other_type.

#[export] Instance file_type_eq_dec : EqDecision file_type.
Proof. solve_decision. Defined.

Class Host (W : Type) := {
  (** [time(NULL)] *)
  time : W -> Z;

  (** [status(p)] and [symlink_status(p)]: the type, or the error. *)
  status : W -> path -> errc + file_type;
  symlink_status : W -> path -> errc + file_type;
  (** [directory_iterator(p)]: the file names in iteration order and the error
      that ended the iteration, if one did. *)
  directory_iterator : W -> path -> list bytes * option errc;
  (** [last_write_time(p, ec)] as a [time_t], [file_size(p, ec)] and
      [equivalent(p, q, ec)]; [None] when [ec] is set. *)
  last_write_time : W -> path -> option Z;
  file_size : W -> path -> option Z;
  equivalent : W -> path -> path -> option bool;
  (** [space(p)]: capacity and free bytes. *)
  space : W -> path -> errc + Z * Z;
  (** [fopen(p, "rb")] succeeds; [fseek] to an offset succeeds; the bytes
      [fread] returns from an offset. *)
  fopen_rb : W -> path -> bool;
  fseek : W -> path -> Z -> bool;
  fread : W -> path -> Z -> Z -> bytes;
  (** [fopen(p, "r+b")] succeeds. *)
  fopen_rw : W -> path -> bool;
  (** [std::fstream(p, mode)] opens, for reading only or for both. *)
  fstream_open : W -> path -> bool -> bool;
  (** [current_path(p)]: the working directory is not part of [W]. *)
  chdir : W -> path -> option errc;
  (** [canonical(p)] *)
  canonical : W -> path -> errc + path;

  (** [fwrite] at an offset: the number of bytes written. *)
  fwrite : path -> Z -> bytes -> W -> Z * W;
  (** [fopen(p, "wb")]: create or truncate. *)
  fopen_wb : path -> W -> bool * W;
  (** [truncate(p, size)] *)
  truncate : path -> Z -> W -> bool * W;
  (** [create_directory(p)]: whether a directory was created. *)
  create_directory : path -> W -> (errc + bool) * W;
  (** [remove(p)]: whether something was removed. *)
  remove : path -> W -> (errc + bool) * W;
  rename : path -> path -> W -> option errc * W;
  (** [last_write_time(p, time)] *)
  set_last_write_time : path -> Z -> W -> option errc * W;
}.

Section Host.
Context {W : Type} `{!Host W}.

(** A standard-library call that reports failure by throwing. *)
Definition std_throw {A} (r : errc + A) : result A :=
  match r with inl e => Throw (StdFilesystemError e) | inr a => Ok a end.

(** [exists(status(p))], [is_directory(status(p))]; the type [none] of a
    failed query is neither. *)
Definition type_exists (r : errc + file_type) : bool :=
  match r with inr not_found | inl _ => false | inr _ => true end.
Definition type_is (t : file_type) (r : errc + file_type) : bool :=
  match r with inr t' => bool_decide (t = t') | inl _ => false end.

(** [exists(p, ec)], [is_directory(p, ec)], [is_symlink(p, ec)] *)
Definition exists_ec (w : W) (p : path) : bool := type_exists (status w p).
Definition is_directory_ec (w : W) (p : path) : bool := type_is directory (status w p).
Definition is_symlink_ec (w : W) (p : path) : bool := type_is symlink (symlink_status w p).

(** The forms that throw when the status cannot be determined. *)
Definition exists_ (w : W) (p : path) : result bool :=
  std_throw (match status w p with inl e => inl e | r => inr (type_exists r) end).
Definition is_directory (w : W) (p : path) : result bool :=
  std_throw (match status w p with inl e => inl e | r => inr (type_is directory r) end).
Definition is_symlink (w : W) (p : path) : result bool :=
  std_throw (match symlink_status w p with inl e => inl e | r => inr (type_is symlink r) end).

(** An operation that throws, and one that reports through an
    [error_code]. *)
Definition call {A} (f : W -> (errc + A) * W) : M W A :=
  fun w => let '(r, w') := f w in (std_throw r, w').
Definition call_unit (f : W -> option errc * W) : M W unit :=
  fun w => let '(r, w') := f w in
    (match r with Some e => Throw (StdFilesystemError e) | None => Ok tt end, w').
(** An operation of the C library. *)
Definition c_call {A} (f : W -> A * W) : M W A := fun w => let '(a, w') := f w in (Ok a, w').

(** The documented behaviour of the host the proofs rely on. *)
Class HostLaws : Prop := {
  (** A directory iterator yields file names and skips the dot entries. *)
  directory_iterator_names w p :
    Forall (fun n => is_filename n /\ n <> DOT /\ n <> DOTDOT) (directory_iterator w p).1;
  (** [fread] returns at most what was asked for; [fwrite] writes at most
      what it was given. *)
  fread_length w p off len : 0 <= len -> zlen (fread w p off len) <= len;
  fwrite_count p off data w : 0 <= (fwrite p off data w).1 <= zlen data;
  (** The dot entries of a directory are directories. *)
  status_dot w p name : name = DOT \/ name = DOTDOT ->
    match status w (path_append p name) with
    | inr t => t = directory \/ t = not_found
    | inl _ => True
    end;
  symlink_status_dot w p name : name = DOT \/ name = DOTDOT ->
    match symlink_status w (path_append p name) with
    | inr t => t = directory \/ t = not_found
    | inl _ => True
    end;
  (** A canonical path is absolute and ends in a name, or is the root. *)
  canonical_directory w p q : canonical w p = inr q ->
    is_absolute q = true /\ directory_path q;
}.

(** ** The operations that change the machine, as steps

    [host_step P] relates two states when one operation on a path (or, for
    [rename], on two paths) that satisfies [P] leads from one to the other;
    [attr] is the step of setting attributes, which each platform has its
    own calls for. *)
Inductive host_step (attr : path -> W -> W -> Prop) (P : path -> Prop) (w : W) : W -> Prop :=
  | step_fwrite p off data : P p -> host_step attr P w (fwrite p off data w).2
  | step_fopen_wb p : P p -> host_step attr P w (fopen_wb p w).2
  | step_truncate p size : P p -> host_step attr P w (truncate p size w).2
  | step_create_directory p : P p -> host_step attr P w (create_directory p w).2
  | step_remove p : P p -> host_step attr P w (remove p w).2
  | step_rename p q : P p -> P q -> host_step attr P w (rename p q w).2
  | step_last_write_time p t : P p -> host_step attr P w (set_last_write_time p t w).2
  | step_attrs p w' : P p -> attr p w w' -> host_step attr P w w'.

Lemma host_step_impl attr (P Q : path -> Prop) w w' : (forall p, P p -> Q p) ->
  host_step attr P w w' -> host_step attr Q w w'.
Proof. intros HPQ []; econstructor; eauto. Qed.
End Host.
Arguments HostLaws W {_}.
