(* ===== verification/Attrs.v ===== *)
(** * Attrs: storage of DOS attributes (fs_linux.cpp, fs_freebsd.cpp,
    fs_macos.cpp, fs_win.cpp, fs_posix.cpp)

    The server reaches the attribute store through the functions declared at
    the end of fs.hpp; which of them exist is decided by the macros of
    config.hpp.  [DosAttrs] is that interface.  Each platform file is an
    instance of it over the system calls it makes, which are parameters, and
    its theorems show what the rest of the server relies on: only the four
    storable attributes come back, and what is stored is what is read. *)
From S2P Require Import Prelude Paths FatTime Host.

(** ** FAT attributes (fs.hpp) *)

Abbreviation FAT_NONE := 0x00 (only parsing).
Abbreviation FAT_RO := 0x01 (only parsing).
Abbreviation FAT_HIDDEN := 0x02 (only parsing).
Abbreviation FAT_SYSTEM := 0x04 (only parsing).
Abbreviation FAT_VOLUME := 0x08 (only parsing).
Abbreviation FAT_DIRECTORY := 0x10 (only parsing).
Abbreviation FAT_ARCHIVE := 0x20 (only parsing).
Abbreviation FAT_DEVICE := 0x40 (only parsing).
Abbreviation FAT_ERROR_ATTR := 0xFF (only parsing).

(** [flags & bit], as a condition. *)
Definition has (flags bit : Z) : bool := negb (Z.land flags bit =? 0).

(** [FAT_ARCHIVE | FAT_HIDDEN | FAT_RO | FAT_SYSTEM] *)
Definition STORED_ATTRS : Z :=
  Z.lor (Z.lor (Z.lor FAT_ARCHIVE FAT_HIDDEN) FAT_RO) FAT_SYSTEM.

Inductive AttrsMode := AUTO | IGNORE | NATIVE | IN_EXTENDED.

#[export] Instance AttrsMode_eq_dec : EqDecision AttrsMode.
Proof. solve_decision. Defined.

(** ** The interface *)

Class DosAttrs (W : Type) := {
  DOS_ATTRS_NATIVE : bool;
  DOS_ATTRS_IN_EXTENDED : bool;
  is_dos_attrs_native_supported : W -> path -> bool;
  get_dos_attrs_native : W -> path -> result Z;
  set_dos_attrs_native : path -> Z -> M W unit;
  is_dos_attrs_in_extended_supported : W -> path -> bool;
  get_dos_attrs_from_extended : W -> path -> result Z;
  set_dos_attrs_to_extended : path -> Z -> M W unit;
}.

(** A step of the store on a path. *)
Definition attr_step {W} `{!DosAttrs W} (p : path) (w w' : W) : Prop :=
  exists attrs, w' = (set_dos_attrs_native p attrs w).2
                \/ w' = (set_dos_attrs_to_extended p attrs w).2.

(** What a store promises its client: only storable attributes come back, and
    the storable attributes of what was set successfully are read. *)
Class DosAttrsLaws (W : Type) `{!DosAttrs W} : Prop := {
  native_stored w p a : get_dos_attrs_native w p = Ok a -> Z.land a STORED_ATTRS = a;
  extended_stored w p a : get_dos_attrs_from_extended w p = Ok a -> Z.land a STORED_ATTRS = a;
  native_roundtrip p a w w' : is_byte a -> set_dos_attrs_native p a w = (Ok tt, w') ->
    get_dos_attrs_native w' p = Ok (Z.land a STORED_ATTRS);
  extended_roundtrip p a w w' : is_byte a -> set_dos_attrs_to_extended p a w = (Ok tt, w') ->
    get_dos_attrs_from_extended w' p = Ok (Z.land a STORED_ATTRS);
}.

(** ** Flag words of the platforms *)

(** The bits a platform has for the four attributes. *)
Record attr_bits := mkBits { bit_ro : Z; bit_hidden : Z; bit_sys : Z; bit_arch : Z }.

(** [if (from & bit) ret |= bit'], for the four attributes in turn. *)
Definition add_bit (from bit ret bit' : Z) : Z := if has from bit then Z.lor ret bit' else ret.

Definition flags_to_attrs (b : attr_bits) (flags : Z) : Z :=
  let attrs := FAT_NONE in
  let attrs := add_bit flags (bit_ro b) attrs FAT_RO in
  let attrs := add_bit flags (bit_hidden b) attrs FAT_HIDDEN in
  let attrs := add_bit flags (bit_sys b) attrs FAT_SYSTEM in
  add_bit flags (bit_arch b) attrs FAT_ARCHIVE.

Definition attrs_to_flags (b : attr_bits) (attrs : Z) : Z :=
  let flags := 0 in
  let flags := add_bit attrs FAT_RO flags (bit_ro b) in
  let flags := add_bit attrs FAT_HIDDEN flags (bit_hidden b) in
  let flags := add_bit attrs FAT_SYSTEM flags (bit_sys b) in
  add_bit attrs FAT_ARCHIVE flags (bit_arch b).

Definition bits_mask (b : attr_bits) : Z :=
  Z.lor (Z.lor (Z.lor (bit_ro b) (bit_hidden b)) (bit_sys b)) (bit_arch b).

Lemma flags_to_attrs_stored b flags :
  Z.land (flags_to_attrs b flags) STORED_ATTRS = flags_to_attrs b flags.
Proof. unfold flags_to_attrs, add_bit. repeat case_match; reflexivity. Qed.

Lemma has_mask flags bit mask : Z.land mask bit = bit ->
  has (Z.land flags mask) bit = has flags bit.
Proof. intros H. unfold has. by rewrite <- Z.land_assoc, H. Qed.

(** The four bits of a platform are inside its mask, and packing and unpacking
    are inverse on every byte; both are checked by evaluation. *)
Definition bits_ok (b : attr_bits) : bool :=
  forallb (fun bit => Z.land (bits_mask b) bit =? bit)
    [bit_ro b; bit_hidden b; bit_sys b; bit_arch b]
  && forallb (fun a => flags_to_attrs b (attrs_to_flags b a) =? Z.land a STORED_ATTRS)
       (seqZ 0 256).

Lemma flags_to_attrs_mask b flags : bits_ok b = true ->
  flags_to_attrs b (Z.land flags (bits_mask b)) = flags_to_attrs b flags.
Proof.
  unfold bits_ok. cbn [forallb]. intros H. unfold flags_to_attrs, add_bit.
  rewrite !has_mask by lia. done.
Qed.

Lemma attrs_roundtrip b flags a : bits_ok b = true -> is_byte a ->
  Z.land flags (bits_mask b) = Z.land (attrs_to_flags b a) (bits_mask b) ->
  flags_to_attrs b flags = Z.land a STORED_ATTRS.
Proof.
  intros Hb Ha E. rewrite <- flags_to_attrs_mask, E, flags_to_attrs_mask by done.
  unfold bits_ok in Hb. apply andb_prop in Hb as [_ Hb].
  apply Z.eqb_eq. exact (by_enum 256 _ Hb a Ha).
Qed.

Lemma land_stored a : Z.land (Z.land a STORED_ATTRS) STORED_ATTRS = Z.land a STORED_ATTRS.
Proof. by rewrite <- Z.land_assoc. Qed.

(** ** Attributes in extended attributes

    Linux, macOS and FreeBSD store a byte under a name of their own; the
    platform files repeat the same code over [getxattr] and its relatives. *)
Inductive ea_result :=
  | EaValue (value : bytes)   (* the value *)
  | EaNone                    (* ENODATA, ENOATTR: no such attribute *)
  | EaNotSup                  (* ENOTSUP *)
  | EaError.                  (* any other error *)

Class Xattr (W : Type) := {
  getxattr : W -> path -> ea_result;
  setxattr : path -> bytes -> W -> bool * W;
  (** [EaValue] stands for success. *)
  removexattr : path -> W -> ea_result * W;
}.

Section Extended.
Context {W : Type} `{!Host W, !Xattr W}.

(** The value read into [uint8_t attrs[8] = {0}]; a longer value is an error
    for [getxattr] (ERANGE), while [extattr_get_file] cuts it ([cuts]). *)
Definition read_ea (cuts : bool) (value : bytes) : option Z :=
  if negb cuts && (8 <? length value)%nat then None else Some (default 0 (head value)).

Definition get_ea (cuts : bool) (w : W) (p : path) : result Z :=
  match getxattr w p with
  | EaNone =>
      match is_directory w p with
      | Ok d => Ok (if d then FAT_NONE else FAT_ARCHIVE)
      | Throw e => Throw e
      end
  | EaNotSup | EaError => Throw RuntimeError
  | EaValue value =>
      match read_ea cuts value with
      | None => Throw RuntimeError
      | Some attr => Ok (Z.land attr STORED_ATTRS)
      end
  end.

Definition set_ea (p : path) (attrs : Z) : M W unit :=
  let attrs := Z.land attrs STORED_ATTRS in
  let* default_attrs :=
    if attrs =? FAT_NONE then query (fun w => is_directory w p)
    else if attrs =? FAT_ARCHIVE then
      let* d := query (fun w => is_directory w p) in ret (negb d)
    else ret false in
  if default_attrs then
    let* r := c_call (removexattr p) in
    match r with
    | EaValue _ | EaNone => ret tt
    | EaNotSup | EaError => throw RuntimeError
    end
  else
    let* ok := c_call (setxattr p [attrs]) in
    if ok then ret tt else throw RuntimeError.

(** Linux and macOS: everything but ENOTSUP counts as supported. *)
Definition ea_supported_unless_notsup (w : W) (p : path) : bool :=
  match getxattr w p with EaNotSup => false | _ => true end.
(** FreeBSD: only a value or its absence counts. *)
Definition ea_supported_freebsd (w : W) (p : path) : bool :=
  match getxattr w p with EaValue _ | EaNone => true | _ => false end.

(** Documented behaviour of the calls: what was set is read, what was
    removed is gone, a failed call changes nothing that is read, and the
    type of a file is not an attribute of it. *)
Class XattrLaws : Prop := {
  getxattr_set p v w : (setxattr p v w).1 = true -> getxattr (setxattr p v w).2 p = EaValue v;
  getxattr_remove p w :
    match (removexattr p w).1 with EaValue _ | EaNone => True | _ => False end ->
    getxattr (removexattr p w).2 p = EaNone;
  status_setxattr p v w : status (setxattr p v w).2 p = status w p;
  status_removexattr p w : status (removexattr p w).2 p = status w p;
}.

Lemma get_ea_stored cuts w p a : get_ea cuts w p = Ok a -> Z.land a STORED_ATTRS = a.
Proof.
  unfold get_ea. repeat case_match; intros [= <-]; try done; apply land_stored.
Qed.

Lemma set_get_ea `{!XattrLaws} cuts p attrs w w' :
  set_ea p attrs w = (Ok tt, w') -> get_ea cuts w' p = Ok (Z.land attrs STORED_ATTRS).
Proof.
  unfold set_ea. set (a := Z.land attrs STORED_ATTRS).
  assert (Z.land a STORED_ATTRS = a) as Ha by apply land_stored.
  assert (forall d, is_directory w p = Ok d ->
    (a = if d then FAT_NONE else FAT_ARCHIVE) ->
    (let* r := c_call (removexattr p) in
     match r with EaValue _ | EaNone => ret tt | _ => throw RuntimeError end) w = (Ok tt, w') ->
    get_ea cuts w' p = Ok a) as Default.
  { intros d Hd -> Hr. unfold bind, c_call in Hr.
    pose proof (getxattr_remove p w) as G. pose proof (status_removexattr p w) as S.
    destruct (removexattr p w) as [r w1]. simpl in G, S.
    assert (w1 = w' /\ getxattr w' p = EaNone) as [-> G'].
    { destruct r; cbv [ret throw] in Hr; simplify_eq; split; auto. }
    unfold get_ea. rewrite G'. unfold is_directory in *. rewrite S, Hd. done. }
  assert ((let* ok := c_call (setxattr p [a]) in
           if ok then ret tt else throw RuntimeError) w = (Ok tt, w') ->
          get_ea cuts w' p = Ok a) as Store.
  { unfold bind, c_call. pose proof (getxattr_set p [a] w) as G.
    destruct (setxattr p [a] w) as [[] w1]; [|done]. intros [= ->]. simpl in G.
    unfold get_ea, read_ea. rewrite G by done. rewrite andb_false_r. simpl. by rewrite Ha. }
  unfold bind in *. destruct (Z.eqb_spec a FAT_NONE) as [E|E].
  - unfold query. destruct (is_directory w p) as [[]|] eqn:Hd; [|exact Store|done].
    by apply (Default true).
  - destruct (Z.eqb_spec a FAT_ARCHIVE) as [E2|E2].
    + unfold query. destruct (is_directory w p) as [[]|] eqn:Hd; [exact Store| |done].
      by apply (Default false).
    + exact Store.
Qed.
End Extended.
Arguments XattrLaws W {_ _}.

(** ** Linux (fs_linux.cpp): FAT ioctls and extended attributes *)

Class FatIoctl (W : Type) := {
  (** [open(p, O_RDONLY)] succeeds. *)
  open_rdonly : W -> path -> bool;
  fat_ioctl_get : W -> path -> option Z;
  fat_ioctl_set : path -> Z -> W -> bool * W;
}.

(** ATTR_RO, ATTR_HIDDEN, ATTR_SYS, ATTR_ARCH of linux/msdos_fs.h. *)
Definition linux_bits : attr_bits := mkBits 1 2 4 32.

Section Linux.
Context {W : Type} `{!Host W, !Xattr W, !FatIoctl W}.

Definition linux_native_supported (w : W) (p : path) : bool :=
  open_rdonly w p && match fat_ioctl_get w p with Some _ => true | None => false end.

Definition linux_get_native (w : W) (p : path) : result Z :=
  if open_rdonly w p then
    match fat_ioctl_get w p with
    | None => Throw RuntimeError
    | Some fat_attrs => Ok (flags_to_attrs linux_bits fat_attrs)
    end
  else Throw RuntimeError.

Definition linux_set_native (p : path) (attrs : Z) : M W unit :=
  let* opened := gets (fun w => open_rdonly w p) in
  if opened then
    let* ok := c_call (fat_ioctl_set p (attrs_to_flags linux_bits attrs)) in
    if ok then ret tt else throw RuntimeError
  else throw RuntimeError.

Definition linux_attrs : DosAttrs W := {|
  DOS_ATTRS_NATIVE := true;
  DOS_ATTRS_IN_EXTENDED := true;
  is_dos_attrs_native_supported := linux_native_supported;
  get_dos_attrs_native := linux_get_native;
  set_dos_attrs_native := linux_set_native;
  is_dos_attrs_in_extended_supported := ea_supported_unless_notsup;
  get_dos_attrs_from_extended := get_ea false;
  set_dos_attrs_to_extended := set_ea;
|}.

(** The ioctl stores the four attribute bits of a file it could open. *)
Class FatIoctlLaws : Prop := {
  fat_ioctl_set_get p f w : (fat_ioctl_set p f w).1 = true ->
    exists f', fat_ioctl_get (fat_ioctl_set p f w).2 p = Some f'
      /\ Z.land f' (bits_mask linux_bits) = Z.land f (bits_mask linux_bits);
  fat_ioctl_open p f w : open_rdonly (fat_ioctl_set p f w).2 p = open_rdonly w p;
}.

Lemma linux_native_roundtrip `{!FatIoctlLaws} p attrs w w' : is_byte attrs ->
  linux_set_native p attrs w = (Ok tt, w') ->
  linux_get_native w' p = Ok (Z.land attrs STORED_ATTRS).
Proof.
  intros Ha. unfold linux_set_native, linux_get_native, bind, gets, c_call.
  pose proof (fat_ioctl_set_get p (attrs_to_flags linux_bits attrs) w) as G.
  pose proof (fat_ioctl_open p (attrs_to_flags linux_bits attrs) w) as O.
  destruct (open_rdonly w p); [|done].
  destruct (fat_ioctl_set _ _ w) as [[] w1]; [|done]. intros [= ->]. simpl in *.
  destruct (G eq_refl) as (f' & -> & E). rewrite O.
  f_equal. by apply attrs_roundtrip.
Qed.
End Linux.
Arguments linux_attrs W {_ _ _}.
Arguments FatIoctlLaws W {_}.

(** ** FreeBSD (fs_freebsd.cpp): file flags and extended attributes *)

Class BsdFlags (W : Type) := {
  (** The name of the file system of a path. *)
  statfs_fstypename : W -> path -> option bytes;
  st_flags : W -> path -> option Z;
  chflags : path -> Z -> W -> bool * W;
}.

(** UF_READONLY, UF_HIDDEN, UF_SYSTEM, UF_ARCHIVE of sys/stat.h. *)
Definition freebsd_bits : attr_bits := mkBits 0x1000 0x8000 0x80 0x800.

Section FreeBSD.
Context {W : Type} `{!Host W, !Xattr W, !BsdFlags W}.

Definition is_on_fat (w : W) (p : path) : bool :=
  match statfs_fstypename w p with
  | None => false
  | Some name => bool_decide (name = str "msdosfs")
  end.

Definition freebsd_get_native (w : W) (p : path) : result Z :=
  match st_flags w p with
  | None => Throw RuntimeError
  | Some flags => Ok (flags_to_attrs freebsd_bits flags)
  end.

Definition freebsd_set_native (p : path) (attrs : Z) : M W unit :=
  let* ok := c_call (chflags p (attrs_to_flags freebsd_bits attrs)) in
  if ok then ret tt else throw RuntimeError.

Definition freebsd_attrs : DosAttrs W := {|
  DOS_ATTRS_NATIVE := true;
  DOS_ATTRS_IN_EXTENDED := true;
  is_dos_attrs_native_supported := is_on_fat;
  get_dos_attrs_native := freebsd_get_native;
  set_dos_attrs_native := freebsd_set_native;
  is_dos_attrs_in_extended_supported := ea_supported_freebsd;
  get_dos_attrs_from_extended := get_ea true;
  set_dos_attrs_to_extended := set_ea;
|}.

Class BsdFlagsLaws : Prop := {
  chflags_st_flags p f w : (chflags p f w).1 = true ->
    exists f', st_flags (chflags p f w).2 p = Some f'
      /\ Z.land f' (bits_mask freebsd_bits) = Z.land f (bits_mask freebsd_bits);
}.

Lemma freebsd_native_roundtrip `{!BsdFlagsLaws} p attrs w w' : is_byte attrs ->
  freebsd_set_native p attrs w = (Ok tt, w') ->
  freebsd_get_native w' p = Ok (Z.land attrs STORED_ATTRS).
Proof.
  intros Ha. unfold freebsd_set_native, freebsd_get_native, bind, c_call.
  pose proof (chflags_st_flags p (attrs_to_flags freebsd_bits attrs) w) as G.
  destruct (chflags _ _ w) as [[] w1]; [|done]. intros [= ->]. simpl in *.
  destruct (G eq_refl) as (f' & -> & E). f_equal. by apply attrs_roundtrip.
Qed.
End FreeBSD.
Arguments freebsd_attrs W {_ _ _}.
Arguments BsdFlagsLaws W {_}.

(** ** macOS (fs_macos.cpp): extended attributes only *)

Definition macos_attrs W `{!Host W, !Xattr W} : DosAttrs W := {|
  DOS_ATTRS_NATIVE := false;
  DOS_ATTRS_IN_EXTENDED := true;
  is_dos_attrs_native_supported _ _ := false;
  get_dos_attrs_native _ _ := Throw RuntimeError;
  set_dos_attrs_native _ _ := throw RuntimeError;
  is_dos_attrs_in_extended_supported := ea_supported_unless_notsup;
  get_dos_attrs_from_extended := get_ea false;
  set_dos_attrs_to_extended := set_ea;
|}.

(** ** Windows (fs_win.cpp): file attributes *)

Class WinAttrs (W : Type) := {
  GetFileAttributesW : W -> path -> option Z;
  SetFileAttributesW : path -> Z -> W -> bool * W;
}.

(** FILE_ATTRIBUTE_READONLY, _HIDDEN, _SYSTEM, _ARCHIVE *)
Definition win_bits : attr_bits := mkBits 0x1 0x2 0x4 0x20.

Section Windows.
Context {W : Type} `{!WinAttrs W}.

Definition win_get_native (w : W) (p : path) : result Z :=
  match GetFileAttributesW w p with
  | None => Throw RuntimeError
  | Some attrs => Ok (flags_to_attrs win_bits attrs)
  end.

Definition win_set_native (p : path) (attrs : Z) : M W unit :=
  let* result := c_call (SetFileAttributesW p (attrs_to_flags win_bits attrs)) in
  if result then ret tt else throw RuntimeError.

Definition win_attrs : DosAttrs W := {|
  DOS_ATTRS_NATIVE := true;
  DOS_ATTRS_IN_EXTENDED := false;
  is_dos_attrs_native_supported _ _ := true;
  get_dos_attrs_native := win_get_native;
  set_dos_attrs_native := win_set_native;
  is_dos_attrs_in_extended_supported _ _ := false;
  get_dos_attrs_from_extended _ _ := Throw RuntimeError;
  set_dos_attrs_to_extended _ _ := throw RuntimeError;
|}.

Class WinAttrsLaws : Prop := {
  SetFileAttributesW_get p f w : (SetFileAttributesW p f w).1 = true ->
    exists f', GetFileAttributesW (SetFileAttributesW p f w).2 p = Some f'
      /\ Z.land f' (bits_mask win_bits) = Z.land f (bits_mask win_bits);
}.

Lemma win_native_roundtrip `{!WinAttrsLaws} p attrs w w' : is_byte attrs ->
  win_set_native p attrs w = (Ok tt, w') ->
  win_get_native w' p = Ok (Z.land attrs STORED_ATTRS).
Proof.
  intros Ha. unfold win_set_native, win_get_native, bind, c_call.
  pose proof (SetFileAttributesW_get p (attrs_to_flags win_bits attrs) w) as G.
  destruct (SetFileAttributesW _ _ w) as [[] w1]; [|done]. intros [= ->]. simpl in *.
  destruct (G eq_refl) as (f' & -> & E). f_equal. by apply attrs_roundtrip.
Qed.
End Windows.
Arguments win_attrs W {_}.
Arguments WinAttrsLaws W {_}.

(** ** The POSIX build (fs_posix.cpp): no attribute store *)

Definition posix_attrs W : DosAttrs W := {|
  DOS_ATTRS_NATIVE := false;
  DOS_ATTRS_IN_EXTENDED := false;
  is_dos_attrs_native_supported _ _ := false;
  get_dos_attrs_native _ _ := Throw RuntimeError;
  set_dos_attrs_native _ _ := throw RuntimeError;
  is_dos_attrs_in_extended_supported _ _ := false;
  get_dos_attrs_from_extended _ _ := Throw RuntimeError;
  set_dos_attrs_to_extended _ _ := throw RuntimeError;
|}.

(** ** Every platform keeps the promises of the interface *)

Section Platforms.
Context {W : Type} `{!Host W, !Xattr W, !FatIoctl W, !BsdFlags W, !WinAttrs W}.
Context `{!XattrLaws W, !FatIoctlLaws W, !BsdFlagsLaws W, !WinAttrsLaws W}.

Lemma platforms_lawful :
  @DosAttrsLaws W (linux_attrs W) /\ @DosAttrsLaws W (freebsd_attrs W)
  /\ @DosAttrsLaws W (macos_attrs W) /\ @DosAttrsLaws W (win_attrs W)
  /\ @DosAttrsLaws W (posix_attrs W).
Proof.
  split_and!; split; cbn [get_dos_attrs_native get_dos_attrs_from_extended
    set_dos_attrs_native set_dos_attrs_to_extended linux_attrs freebsd_attrs macos_attrs
    win_attrs posix_attrs]; try done;
    try (intros w p a; apply get_ea_stored);
    try (intros p a w w' _; apply set_get_ea).
  - intros w p a. unfold linux_get_native. repeat case_match; intros [= <-].
    apply flags_to_attrs_stored.
  - intros p a w w'. apply linux_native_roundtrip.
  - intros w p a. unfold freebsd_get_native. repeat case_match; intros [= <-].
    apply flags_to_attrs_stored.
  - intros p a w w'. apply freebsd_native_roundtrip.
  - intros w p a. unfold win_get_native. repeat case_match; intros [= <-].
    apply flags_to_attrs_stored.
  - intros p a w w'. apply win_native_roundtrip.
Qed.

(** C38: on Linux, FreeBSD, macOS, Windows and in the POSIX build the
    attribute store keeps the promises of the interface: only the
    read-only, hidden, system and archive attributes are ever read, and
    after attributes were set successfully exactly their storable part is
    read back, whether it is kept in FAT attributes, file flags or an
    extended attribute, which is removed when the attributes are the
    default ones. *)
Theorem platform_attrs_lawful :
  @DosAttrsLaws W (linux_attrs W) /\ @DosAttrsLaws W (freebsd_attrs W)
  /\ @DosAttrsLaws W (macos_attrs W) /\ @DosAttrsLaws W (win_attrs W)
  /\ @DosAttrsLaws W (posix_attrs W).
Proof. exact platforms_lawful. Qed.
End Platforms.
