(* ===== verification/MemFs.v ===== *)
(** * MemFs: a small machine for the concrete runs

    Nothing here models the repository: it is one implementation of the
    classes of Host.v and Attrs.v, a file system in memory without symbolic
    links, at which the theorems about the server are applied. *)
From S2P Require Import Prelude Paths FatTime Host Attrs.

Inductive contents := Dir | File (data : bytes).

#[export] Instance contents_eq_dec : EqDecision contents.
Proof. solve_decision. Defined.

Record node := mkNode {
  node_contents : contents;
  node_mtime : Z;
  node_ea : option bytes;
  node_flags : Z;
}.

(** Files by the names that lead to them from the root directory. *)
Record mem := mkMem {
  mem_files : list (list bytes * node);
  mem_clock : Z;
}.

Definition file (data : bytes) : node := mkNode (File data) 0 None 0.
Definition dir : node := mkNode Dir 0 None 0.

Fixpoint norm_from (acc : list bytes) (parts : list bytes) : list bytes :=
  match parts with
  | [] => reverse acc
  | part :: parts =>
      if negb (nonempty part) || bool_decide (part = DOT) || bool_decide (part = [CH_SLASH])
      then norm_from acc parts
      else if bool_decide (part = DOTDOT) then norm_from (tail acc) parts
      else norm_from (part :: acc) parts
  end.

Definition norm (p : path) : list bytes := norm_from [] (elements p).

Definition alookup (k : list bytes) (l : list (list bytes * node)) : option node :=
  match k with
  | [] => Some dir
  | _ => snd <$> find (fun e => bool_decide (e.1 = k)) l
  end.
Definition aupdate (k : list bytes) (f : node -> node) (l : list (list bytes * node)) :=
  (fun e => if bool_decide (e.1 = k) then (e.1, f e.2) else e) <$> l.

Definition lookup_path (w : mem) (p : path) : option node := alookup (norm p) (mem_files w).
Definition update_path (p : path) (f : node -> node) (w : mem) : mem :=
  mkMem (aupdate (norm p) f (mem_files w)) (mem_clock w).
Definition set_files (w : mem) (l : list (list bytes * node)) : mem := mkMem l (mem_clock w).

Definition is_dir (w : mem) (k : list bytes) : bool :=
  match alookup k (mem_files w) with Some n => bool_decide (node_contents n = Dir) | None => false end.
Definition node_type (n : node) : file_type :=
  match node_contents n with Dir => directory | File _ => regular end.
Definition data_of (w : mem) (p : path) : option bytes :=
  match lookup_path w p with Some (mkNode (File d) _ _ _) => Some d | _ => None end.
Definition set_data (d : bytes) (n : node) : node :=
  mkNode (File d) (node_mtime n) (node_ea n) (node_flags n).

(** The children of a directory. *)
Definition child_name (k : list bytes) (e : list bytes) : option bytes :=
  match last e with
  | Some n =>
      if bool_decide (e = k ++ [n]) && bool_decide (is_filename n)
         && negb (bool_decide (n = DOT)) && negb (bool_decide (n = DOTDOT))
      then Some n else None
  | None => None
  end.

(** The path ends in a dot component. *)
Definition ends_in_dot (p : path) : bool :=
  match last (split_slash p) with
  | Some n => bool_decide (n = DOT) || bool_decide (n = DOTDOT)
  | None => false
  end.

(** A dot component of something that is no directory does not exist. *)
Definition mem_status (w : mem) (p : path) : errc + file_type :=
  inr (match lookup_path w p with
       | Some n => match node_type n with
                   | directory => directory
                   | t => if ends_in_dot p then not_found else t
                   end
       | None => not_found
       end).

Definition write_data (off : Z) (new old : bytes) : bytes :=
  let off := Z.to_nat off in
  take off (old ++ replicate (off - length old) CH_NUL) ++ new ++ drop (off + length new) old.

Definition mem_create (k : list bytes) (n : node) (w : mem) : mem :=
  set_files w (mem_files w ++ [(k, n)]).

Definition parent_is_dir (w : mem) (k : list bytes) : bool :=
  is_dir w (take (length k - 1) k).

(** The path that leads to a list of names. *)
Definition path_of (k : list bytes) : path :=
  match k with [] => [CH_SLASH] | _ => concat ((fun n => CH_SLASH :: n) <$> k) end.

Lemma path_of_directory k : Forall is_filename k ->
  is_absolute (path_of k) = true /\ directory_path (path_of k).
Proof.
  intros Hk. unfold path_of. destruct k as [|n k]; [by split; [|left]|]. split; [done|right].
  destruct (exists_last (l:=n :: k) ltac:(done)) as (l & m & E). rewrite E in *.
  apply Forall_app in Hk as [_ [[Hm Hs] _]%Forall_cons].
  rewrite fmap_app, concat_app. cbn. rewrite app_nil_r.
  destruct (exists_last Hm) as (m' & c & ->). exists c. split.
  - by rewrite app_comm_cons, app_assoc, last_snoc.
  - apply Forall_app in Hs as [_ [Hc _]%Forall_cons]. done.
Qed.

Definition rename_key (from to : list bytes) (e : list bytes * node) : list bytes * node :=
  if bool_decide (take (length from) e.1 = from) then (to ++ drop (length from) e.1, e.2) else e.

#[export] Instance mem_host : Host mem := {|
  time := mem_clock;
  status := mem_status;
  symlink_status := mem_status;
  directory_iterator w p :=
    if is_dir w (norm p) then (omap (child_name (norm p)) (fst <$> mem_files w), None)
    else ([], Some no_such_file_or_directory);
  last_write_time w p := node_mtime <$> lookup_path w p;
  file_size w p := (fun d : bytes => zlen d) <$> data_of w p;
  equivalent w p q :=
    match lookup_path w p, lookup_path w q with
    | Some _, Some _ => Some (bool_decide (norm p = norm q))
    | _, _ => None
    end;
  space _ _ := inr (2 ^ 30, 2 ^ 29);
  fopen_rb w p := match data_of w p with Some _ => true | None => false end;
  fseek _ _ _ := true;
  fread w p off len :=
    take (Z.to_nat len) (drop (Z.to_nat off) (default [] (data_of w p)));
  fopen_rw w p := match data_of w p with Some _ => true | None => false end;
  fstream_open w p _ := match data_of w p with Some _ => true | None => false end;
  chdir w p := if is_dir w (norm p) then None else Some no_such_file_or_directory;
  canonical w p :=
    match lookup_path w p with
    | Some _ => if forallb (fun n => bool_decide (is_filename n)) (norm p)
                then inr (path_of (norm p)) else inl no_such_file_or_directory
    | None => inl no_such_file_or_directory
    end;
  fwrite p off new w :=
    (zlen new, update_path p (fun n => match node_contents n with
                                       | File d => set_data (write_data off new d) n
                                       | Dir => n
                                       end) w);
  fopen_wb p w :=
    match lookup_path w p with
    | Some (mkNode (File _) _ _ _) => (true, update_path p (set_data []) w)
    | Some _ => (false, w)
    | None => if parent_is_dir w (norm p) then (true, mem_create (norm p) (file []) w) else (false, w)
    end;
  truncate p size w :=
    match data_of w p with
    | Some d => (true, update_path p
                         (set_data (take (Z.to_nat size)
                            (d ++ replicate (Z.to_nat size - length d) CH_NUL))) w)
    | None => (false, w)
    end;
  create_directory p w :=
    match lookup_path w p with
    | Some _ => (inr false, w)
    | None => if parent_is_dir w (norm p) then (inr true, mem_create (norm p) dir w)
              else (inl no_such_file_or_directory, w)
    end;
  remove p w :=
    match lookup_path w p with
    | None => (inr false, w)
    | Some _ =>
        if forallb (fun e => negb (bool_decide (take (length (norm p)) e.1 = norm p))
                             || bool_decide (e.1 = norm p)) (mem_files w)
        then (inr true, set_files w (filter (fun e => e.1 <> norm p) (mem_files w)))
        else (inl directory_not_empty, w)
    end;
  rename p q w :=
    match lookup_path w p with
    | None => (Some no_such_file_or_directory, w)
    | Some _ =>
        if parent_is_dir w (norm q)
        then (None, set_files w (rename_key (norm p) (norm q)
                                 <$> filter (fun e => e.1 <> norm q) (mem_files w)))
        else (Some no_such_file_or_directory, w)
    end;
  set_last_write_time p t w :=
    match lookup_path w p with
    | Some _ => (None, update_path p (fun n => mkNode (node_contents n) t (node_ea n) (node_flags n)) w)
    | None => (Some no_such_file_or_directory, w)
    end;
|}.

Lemma ends_in_dot_append p name : name = DOT \/ name = DOTDOT ->
  ends_in_dot (path_append p name) = true.
Proof.
  intros Hn. assert (last (split_slash (path_append p name)) = Some name) as E.
  { assert (split_slash name = [name] /\ is_absolute name = false) as [S A]
      by (by destruct Hn as [-> | ->]).
    unfold path_append. rewrite A. destruct (last p) as [c|] eqn:El; [|by rewrite S].
    destruct (is_slash c) eqn:Hc.
    - apply Z.eqb_eq in Hc as ->. apply last_Some in El as [p' ->].
      rewrite <- app_assoc. cbn [app]. by rewrite split_slash_app, S, last_snoc.
    - by rewrite split_slash_app, S, last_snoc. }
  unfold ends_in_dot. rewrite E. by destruct Hn as [-> | ->].
Qed.

Lemma mem_status_dot w p name : name = DOT \/ name = DOTDOT ->
  match mem_status w (path_append p name) with
  | inr t => t = directory \/ t = not_found
  | inl _ => True
  end.
Proof.
  intros Hn. unfold mem_status. rewrite ends_in_dot_append by done.
  destruct (lookup_path _ _) as [n|]; [|by right]. destruct (node_type n); auto.
Qed.

#[export] Instance mem_host_laws : HostLaws mem.
Proof.
  split.
  - intros w p. cbn. case_match; [|constructor]. apply Forall_forall.
    intros n (e & _ & Hn)%list_elem_of_omap. unfold child_name in Hn.
    destruct (last e); [|done]. case_match eqn:E; simplify_eq.
    apply andb_prop in E as [[[_ E2]%andb_prop E3]%andb_prop E4].
    rewrite bool_decide_eq_true in E2. rewrite negb_true_iff, bool_decide_eq_false in E3.
    rewrite negb_true_iff, bool_decide_eq_false in E4. done.
  - intros. cbn. rewrite length_take. lia.
  - intros. cbn. lia.
  - exact mem_status_dot.
  - exact mem_status_dot.
  - intros w p q. cbn. case_match; [|done]. case_match eqn:E; [|done]. intros [= <-].
    apply path_of_directory, Forall_forall. intros x Hn%list_elem_of_In.
    rewrite forallb_forall in E. apply E in Hn. by apply bool_decide_eq_true in Hn.
Qed.

(** ** The attribute stores of the platforms *)

#[export] Instance mem_xattr : Xattr mem := {|
  getxattr w p :=
    match lookup_path w p with
    | Some n => match node_ea n with Some v => EaValue v | None => EaNone end
    | None => EaError
    end;
  setxattr p v w :=
    match lookup_path w p, norm p with
    | Some _, _ :: _ => (true, update_path p (fun n => mkNode (node_contents n) (node_mtime n) (Some v)
                                                        (node_flags n)) w)
    | _, _ => (false, w)
    end;
  removexattr p w :=
    match lookup_path w p with
    | Some n =>
        match node_ea n with
        | Some v => (EaValue v, update_path p (fun n => mkNode (node_contents n) (node_mtime n) None
                                                          (node_flags n)) w)
        | None => (EaNone, w)
        end
    | None => (EaError, w)
    end;
|}.

Definition mem_set_flags (p : path) (f : Z) (w : mem) : bool * mem :=
  match lookup_path w p, norm p with
  | Some _, _ :: _ => (true, update_path p (fun n => mkNode (node_contents n) (node_mtime n)
                                                       (node_ea n) f) w)
  | _, _ => (false, w)
  end.

#[export] Instance mem_fat_ioctl : FatIoctl mem := {|
  open_rdonly w p := match lookup_path w p with Some _ => true | None => false end;
  fat_ioctl_get w p := node_flags <$> lookup_path w p;
  fat_ioctl_set := mem_set_flags;
|}.
#[export] Instance mem_bsd_flags : BsdFlags mem := {|
  statfs_fstypename _ _ := Some (str "msdosfs");
  st_flags w p := node_flags <$> lookup_path w p;
  chflags := mem_set_flags;
|}.
#[export] Instance mem_win_attrs : WinAttrs mem := {|
  GetFileAttributesW w p := node_flags <$> lookup_path w p;
  SetFileAttributesW := mem_set_flags;
|}.

(** Looking a path up after its node was changed. *)
Lemma lookup_update p f w : norm p <> [] -> lookup_path (update_path p f w) p = f <$> lookup_path w p.
Proof.
  intros Hp. unfold lookup_path, update_path. cbn [mem_files].
  induction (mem_files w) as [|[k n] l IH]; unfold alookup in *; destruct (norm p) as [|a r]; try done.
  cbn [aupdate fmap list_fmap find fst snd]. destruct (bool_decide (k = a :: r)) eqn:E;
    cbn [find fst]; rewrite E; [done|]. exact IH.
Qed.

Lemma lookup_set_flags p f w : (mem_set_flags p f w).1 = true ->
  exists n, lookup_path w p = Some n
    /\ lookup_path (mem_set_flags p f w).2 p
       = Some (mkNode (node_contents n) (node_mtime n) (node_ea n) f).
Proof.
  unfold mem_set_flags. destruct (lookup_path w p) as [n|] eqn:E; [|done].
  destruct (norm p) as [|a r] eqn:En; [done|]. intros _. exists n. split; [done|].
  cbn [snd]. rewrite lookup_update by congruence. by rewrite E.
Qed.

#[export] Instance mem_xattr_laws : XattrLaws mem.
Proof.
  assert (forall p f w n, lookup_path w p = Some n -> norm p <> [] ->
    (forall n, node_contents (f n) = node_contents n) ->
    mem_status (update_path p f w) p = mem_status w p) as St.
  { intros p f w n E En Hf. unfold mem_status. rewrite lookup_update, E by done.
    simpl. unfold node_type. by rewrite Hf. }
  split; cbn.
  - intros p v w. destruct (lookup_path w p) as [n|] eqn:E; [|done].
    destruct (norm p) eqn:En; [done|]. intros _. cbn [snd].
    rewrite lookup_update by congruence. by rewrite E.
  - intros p w. destruct (lookup_path w p) as [n|] eqn:E; [|done].
    destruct (node_ea n) eqn:Ea; cbn [fst snd]; intros _; [|by rewrite E, Ea].
    rewrite lookup_update; [by rewrite E|]. intros En. unfold lookup_path in E. rewrite En in E.
    by simplify_eq/=.
  - intros p v w. destruct (lookup_path w p) as [n|] eqn:E; [|done].
    destruct (norm p) eqn:En; [done|]. cbn [snd]. eapply St; [done|congruence|done].
  - intros p w. destruct (lookup_path w p) as [n|] eqn:E; [|done].
    destruct (node_ea n) eqn:Ea; cbn [snd]; [|done]. eapply St; [done| |done].
    intros En. unfold lookup_path in E. rewrite En in E. by simplify_eq/=.
Qed.

#[export] Instance mem_fat_ioctl_laws : FatIoctlLaws mem.
Proof.
  split; cbn.
  - intros p f w (n & _ & ->)%lookup_set_flags. by eexists.
  - intros p f w. destruct (mem_set_flags p f w).1 eqn:E.
    + destruct (lookup_set_flags _ _ _ E) as (n & -> & ->). done.
    + unfold mem_set_flags in *. destruct (lookup_path w p) eqn:El;
        [destruct (norm p)|]; cbn [snd fst] in *; by rewrite ?El.
Qed.
#[export] Instance mem_bsd_flags_laws : BsdFlagsLaws mem.
Proof. split; cbn. intros p f w (n & _ & ->)%lookup_set_flags. by eexists. Qed.
#[export] Instance mem_win_attrs_laws : WinAttrsLaws mem.
Proof. split; cbn. intros p f w (n & _ & ->)%lookup_set_flags. by eexists. Qed.

Lemma platform_attrs_lawful_witness :
  let w := mkMem [([str "a"], file [])] 0 in
  let w' := (set_ea (str "/a") 0x27 w).2 in
  @get_dos_attrs_from_extended mem (linux_attrs mem) w' (str "/a") = Ok 0x27.
Proof.
  intros w w'. destruct (@platform_attrs_lawful mem _ _ _ _ _ _ _ _ _) as (L & _).
  apply (@extended_roundtrip mem (linux_attrs mem) L (str "/a") 0x27 w w');
    [split; [discriminate|reflexivity]|].
  vm_compute. reflexivity.
Defined.
