(* ===== verification/Files.v ===== *)
(** * Files: the free functions of fs.cpp on the server's file system

    The operations [Drive] calls on paths of the server: attributes and
    properties of a file, and the creation, opening, resizing, renaming and
    removal of files and directories, with the checks made before each. *)
From stdpp Require Import relations.
From S2P Require Import Prelude Words Paths FatTime Host Attrs Unicode Fcb.

(** ** DOS error codes (shared/dos.h) *)

Abbreviation DOS_EXTERR_NO_ERROR := 0 (only parsing).
Abbreviation DOS_EXTERR_FUNC_NUM_INVALID := 1 (only parsing).
Abbreviation DOS_EXTERR_FILE_NOT_FOUND := 2 (only parsing).
Abbreviation DOS_EXTERR_PATH_NOT_FOUND := 3 (only parsing).
Abbreviation DOS_EXTERR_TOO_MANY_OPEN_FILES := 4 (only parsing).
Abbreviation DOS_EXTERR_ACCESS_DENIED := 5 (only parsing).
Abbreviation DOS_EXTERR_INVALID_HANDLE := 6 (only parsing).
Abbreviation DOS_EXTERR_NO_MORE_FILES := 18 (only parsing).
Abbreviation DOS_EXTERR_DISK_WRITE_PROTECTED := 19 (only parsing).
Abbreviation DOS_EXTERR_SEEK_ERROR := 25 (only parsing).
Abbreviation DOS_EXTERR_FILE_ALREADY_EXISTS := 80 (only parsing).

(** ** Open modes (fs.hpp) *)

Abbreviation OPEN_MODE_RDONLY := 0x00 (only parsing).
Abbreviation OPEN_MODE_WRONLY := 0x01 (only parsing).
Abbreviation OPEN_MODE_RDWR := 0x02 (only parsing).

Record DosFileProperties := mkProps {
  fcb_name : fcb_file_name;
  size : Z;
  time_date : Z;
  attrs : Z;
  server_name : path;
}.

(** The element [get_path_dos_properties] names the file after: the last one
    that is not empty, going back from the end of the path. *)
Definition last_component (p : path) : bytes :=
  match filter nonempty (reverse (elements p)) with
  | name :: _ => name
  | [] => default [] (head (elements p))
  end.

Section Files.
Context {W : Type} `{!Host W, !DosAttrs W, CAL : !Calendar}.

Definition is_dangling_symlink (w : W) (p : path) : bool :=
  if negb (is_symlink_ec w p) then false
  else if negb (exists_ec w p) then true
  else false.

(** ** Attributes and properties *)

Definition get_item_attrs (w : W) (p : path) (mode : AttrsMode) : result Z :=
  if is_dangling_symlink w p then Ok 0
  else if DOS_ATTRS_NATIVE && bool_decide (mode = NATIVE) then get_dos_attrs_native w p
  else if DOS_ATTRS_IN_EXTENDED && bool_decide (mode = IN_EXTENDED)
  then get_dos_attrs_from_extended w p
  else match is_directory w p with
       | Ok d => Ok (if d then 0 else FAT_ARCHIVE)
       | Throw e => Throw e
       end.

Definition set_item_attrs (p : path) (attrs : Z) (mode : AttrsMode) : M W unit :=
  let* dangling := gets (fun w => is_dangling_symlink w p) in
  if dangling then throw (FilesystemError DOS_EXTERR_ACCESS_DENIED)
  else
    do* (if DOS_ATTRS_NATIVE && bool_decide (mode = NATIVE)
         then set_dos_attrs_native p attrs else ret tt) in
    if DOS_ATTRS_IN_EXTENDED && bool_decide (mode = IN_EXTENDED)
    then set_dos_attrs_to_extended p attrs else ret tt.

(** The properties that are filled in, and the value that is returned. *)
Definition get_path_dos_properties (w : W) (p : path) (mode : AttrsMode)
  : DosFileProperties * Z :=
  let attrs := if is_directory_ec w p then FAT_DIRECTORY else 0 in
  let fcb := short_name_to_fcb (last_component p) in
  let seconds := default 0 (last_write_time w p) in
  let time_date := time_to_fat seconds in
  let size :=
    if attrs =? FAT_DIRECTORY then 0
    else match file_size w p with Some n => u32 n | None => 0 end in
  match get_item_attrs w p mode with
  | Ok a => (mkProps fcb size time_date (Z.lor attrs a) [], Z.lor attrs a)
  | Throw _ => (mkProps fcb size time_date attrs [], FAT_ERROR_ATTR)
  end.

(** ** Directories *)

Definition make_dir (p : path) : M W unit :=
  let* dangling := gets (fun w => is_dangling_symlink w p) in
  if dangling then throw (FilesystemError DOS_EXTERR_ACCESS_DENIED)
  else
    let* created := call (create_directory p) in
    if negb created then throw (FilesystemError DOS_EXTERR_ACCESS_DENIED) else ret tt.

Definition delete_dir (p : path) : M W unit :=
  let* dangling := gets (fun w => is_dangling_symlink w p) in
  if dangling then throw (FilesystemError DOS_EXTERR_ACCESS_DENIED)
  else
    let* there := query (fun w => exists_ w p) in
    if negb there then throw (FilesystemError DOS_EXTERR_PATH_NOT_FOUND)
    else
      let* d := query (fun w => is_directory w p) in
      if negb d then throw (FilesystemError DOS_EXTERR_ACCESS_DENIED)
      else do* call (remove p) in ret tt.

(** [change_dir]: whether the working directory can be changed. *)
Definition change_dir (p : path) : M W unit :=
  let* dangling := gets (fun w => is_dangling_symlink w p) in
  if dangling then throw (FilesystemError DOS_EXTERR_PATH_NOT_FOUND)
  else query (fun w => match chdir w p with
                       | Some e => Throw (StdFilesystemError e)
                       | None => Ok tt
                       end).

(** ** Files *)

Definition create_or_truncate_file (p : path) (attrs : Z) (mode : AttrsMode)
  : M W DosFileProperties :=
  let* dangling := gets (fun w => is_dangling_symlink w p) in
  if dangling then throw (FilesystemError DOS_EXTERR_ACCESS_DENIED)
  else
    let* opened := c_call (fopen_wb p) in
    if negb opened then throw (FilesystemError DOS_EXTERR_ACCESS_DENIED)
    else
      do* (if bool_decide (mode = IGNORE) then ret tt
           else try_catch (set_item_attrs p attrs mode) (fun _ => ret tt)) in
      gets (fun w => (get_path_dos_properties w p mode).1).

Definition try_open_file (p : path) (open_mode : Z) : M W unit :=
  let* dangling := gets (fun w => is_dangling_symlink w p) in
  if dangling then throw (FilesystemError DOS_EXTERR_ACCESS_DENIED)
  else
    let access := Z.land open_mode 0x03 in
    let* writable :=
      if access =? OPEN_MODE_RDONLY then ret false
      else if access =? OPEN_MODE_WRONLY then ret true
      else if access =? OPEN_MODE_RDWR then ret true
      else throw (FilesystemError DOS_EXTERR_FUNC_NUM_INVALID) in
    let* opened := gets (fun w => fstream_open w p writable) in
    if negb opened then throw (FilesystemError DOS_EXTERR_ACCESS_DENIED) else ret tt.

Definition resize_file (p : path) (new_size : Z) : M W unit :=
  let* ok := c_call (truncate p new_size) in
  if negb ok then throw (FilesystemError DOS_EXTERR_ACCESS_DENIED) else ret tt.

Definition delete_file (p : path) : M W unit :=
  let* there := query (fun w => exists_ w p) in
  let* link := if there then ret false else query (fun w => is_symlink w p) in
  if negb there && negb link then throw (FilesystemError DOS_EXTERR_FILE_NOT_FOUND)
  else
    let* d := query (fun w => is_directory w p) in
    if d then throw (FilesystemError DOS_EXTERR_ACCESS_DENIED)
    else do* call (remove p) in ret tt.

Definition rename_file (old_name new_name : path) : M W unit :=
  call_unit (rename old_name new_name).

(** [std::filesystem::remove(p, ec)], its result ignored but for the log. *)
Definition remove_ec (p : path) : M W unit :=
  do* c_call (remove p) in ret tt.

Definition fs_space_info (w : W) (p : path) : result (Z * Z) := std_throw (space w p).

(** ** The steps each operation makes *)

Abbreviation step P := (rtc (host_step attr_step P)).

Lemma keeps_call {A} P (f : W -> (errc + A) * W) :
  (forall w, host_step attr_step P w (f w).2) -> keeps (step P) (call f).
Proof.
  intros Hf w. unfold call. specialize (Hf w). destruct (f w) as [r w']. by apply rtc_once.
Qed.
Lemma keeps_call_unit P (f : W -> option errc * W) :
  (forall w, host_step attr_step P w (f w).2) -> keeps (step P) (call_unit f).
Proof.
  intros Hf w. unfold call_unit. specialize (Hf w). destruct (f w) as [[] w']; by apply rtc_once.
Qed.
Lemma keeps_c_call {A} P (f : W -> A * W) :
  (forall w, host_step attr_step P w (f w).2) -> keeps (step P) (c_call f).
Proof.
  intros Hf w. unfold c_call. specialize (Hf w). destruct (f w) as [r w']. by apply rtc_once.
Qed.

Lemma keeps_set_native P p a : P p -> keeps (step P) (set_dos_attrs_native p a).
Proof. intros HP w. apply rtc_once, (step_attrs _ _ _ p); [done|]. exists a. by left. Qed.
Lemma keeps_set_extended P p a : P p -> keeps (step P) (set_dos_attrs_to_extended p a).
Proof. intros HP w. apply rtc_once, (step_attrs _ _ _ p); [done|]. exists a. by right. Qed.

Hint Resolve keeps_call keeps_call_unit keeps_c_call keeps_set_native keeps_set_extended : keeps.
Hint Constructors host_step : keeps.

Lemma keeps_set_item_attrs P p a mode : P p -> keeps (step P) (set_item_attrs p a mode).
Proof. intros. unfold set_item_attrs. keeps_tac. Qed.
Hint Resolve keeps_set_item_attrs : keeps.
Lemma keeps_make_dir P p : P p -> keeps (step P) (make_dir p).
Proof. intros. unfold make_dir. keeps_tac. Qed.
Lemma keeps_delete_dir P p : P p -> keeps (step P) (delete_dir p).
Proof. intros. unfold delete_dir. keeps_tac. Qed.
Lemma keeps_change_dir P p : keeps (step P) (change_dir p).
Proof. unfold change_dir. keeps_tac. Qed.
Lemma keeps_create_or_truncate P p a mode : P p -> keeps (step P) (create_or_truncate_file p a mode).
Proof. intros. unfold create_or_truncate_file. keeps_tac. Qed.
Lemma keeps_try_open P p mode : keeps (step P) (try_open_file p mode).
Proof. unfold try_open_file. keeps_tac. Qed.
Lemma keeps_resize P p n : P p -> keeps (step P) (resize_file p n).
Proof. intros. unfold resize_file. keeps_tac. Qed.
Lemma keeps_delete_file P p : P p -> keeps (step P) (delete_file p).
Proof. intros. unfold delete_file. keeps_tac. Qed.
Lemma keeps_rename_file P p q : P p -> P q -> keeps (step P) (rename_file p q).
Proof. intros. unfold rename_file. keeps_tac. Qed.
Lemma keeps_remove_ec P p : P p -> keeps (step P) (remove_ec p).
Proof. intros. unfold remove_ec. keeps_tac. Qed.
End Files.

#[export] Hint Resolve keeps_set_item_attrs keeps_make_dir keeps_delete_dir keeps_change_dir
  keeps_create_or_truncate keeps_try_open keeps_resize keeps_delete_file keeps_rename_file
  keeps_remove_ec keeps_call keeps_call_unit keeps_c_call : keeps.
#[export] Hint Constructors host_step : keeps.
