(* ===== verification/Drive.v ===== *)
(** * Drive: a shared drive, its handles and its directory lists (class Drive
    of fs.hpp and fs.cpp)

    The state of the class is the record [Drive]; its methods are computations
    over [st], which holds the drive beside the machine and the working
    directory of the process.  This file has the state, the handle table, the
    directory lists and the translation of client paths; DriveOps.v has the
    operations clients ask for. *)
From S2P Require Import Prelude Words Paths FatTime Host Attrs Unicode Fcb Files.

(** ** State *)

Inductive FileNameConversion := OFF | RAM.

#[export] Instance FileNameConversion_eq_dec : EqDecision FileNameConversion.
Proof. solve_decision. Defined.

(** [MAX_HANDLE_COUNT]; computed only by evaluation in [Z]. *)
Definition MAX_HANDLE_COUNT : Z := 0xFFFF.

(** [Drive::Item] *)
Record Item := mkItem {
  item_path : path;
  last_used_time : Z;
  directory_list : list DosFileProperties;
  fcb_names : list fcb_file_name;
}.

(** The members of [class Drive]. *)
Record Drive := mkDrive {
  used : bool;
  root : path;
  read_only : bool;
  use_client_timestamp : bool;
  volume_label : fcb_file_name;
  has_volume_label : bool;
  attrs_mode : AttrsMode;
  name_conversion : FileNameConversion;
  items : list Item;
}.

(** [Drive() = default] of a static object. *)
Definition Drive_default : Drive :=
  mkDrive false [] false true (mkFcb (replicate sizeof_name 0) (replicate sizeof_ext 0)) false
    AUTO RAM [].

Definition set_items (its : list Item) (d : Drive) : Drive :=
  mkDrive (used d) (root d) (read_only d) (use_client_timestamp d) (volume_label d)
    (has_volume_label d) (attrs_mode d) (name_conversion d) its.

Definition set_root (new_root : path) (d : Drive) : result Drive :=
  if used d then Throw RuntimeError
  else Ok (mkDrive true new_root (read_only d) (use_client_timestamp d) (volume_label d)
             (has_volume_label d) (attrs_mode d) (name_conversion d) (items d)).

(** The label padded like an FCB name: eight characters, then three. *)
Definition set_volume_label (label : bytes) (d : Drive) : Drive :=
  match label with
  | [] => mkDrive (used d) (root d) (read_only d) (use_client_timestamp d) (volume_label d)
            false (attrs_mode d) (name_conversion d) (items d)
  | _ =>
      let name := take sizeof_name label in
      let ext := take sizeof_ext (drop sizeof_name label) in
      mkDrive (used d) (root d) (read_only d) (use_client_timestamp d)
        (mkFcb (pad_to sizeof_name name) (pad_to sizeof_ext ext))
        true (attrs_mode d) (name_conversion d) (items d)
  end.

(** The state the methods run on. *)
Record st (W : Type) := mkSt { world : W; cwd : path; drive : Drive }.
Arguments mkSt {W}. Arguments world {W}. Arguments cwd {W}. Arguments drive {W}.

Definition put_drive {W} (d : Drive) (s : st W) : st W := mkSt (world s) (cwd s) d.
Definition put_items {W} (its : list Item) (s : st W) : st W :=
  put_drive (set_items its (drive s)) s.

(** A function on the machine alone. *)
Definition lift_w {W A} (m : M W A) : M (st W) A :=
  fun s => let '(r, w) := m (world s) in (r, mkSt w (cwd s) (drive s)).

(** ** The handle table *)

Definition touch (now : Z) (i : Item) : Item :=
  mkItem (item_path i) now (directory_list i) (fcb_names i).
Definition drop_list (i : Item) : Item :=
  mkItem (item_path i) (last_used_time i) [] (fcb_names i).
Definition assign (p : path) (now : Z) (i : Item) : Item :=
  mkItem p now (directory_list i) (fcb_names i).
Definition clear_item (i : Item) : Item := mkItem [] (last_used_time i) [] (fcb_names i).
Definition empty_item : Item := mkItem [] 0 [] [].

(** "Directory list is too old": kept for an hour. *)
Definition expire (now : Z) (i : Item) : Item :=
  if 3600 <? now - last_used_time i
  then match directory_list i with [] => i | _ => drop_list i end
  else i.

Definition time_of (its : list Item) (h : nat) : Z :=
  match its !! h with Some i => last_used_time i | None => 0 end.

(** The loop of [get_handle], [n] items before the end: the handle found, or
    [first_free] and [oldest]. *)
Fixpoint get_handle_scan (n handle : nat) (its : list Item) (first_free oldest : nat)
    (now : Z) (server_path : path) : list Item * (nat + nat * nat) :=
  match n with
  | O => (its, inr (first_free, oldest))
  | S n =>
      match its !! handle with
      | None => (its, inr (first_free, oldest))
      | Some cur_item =>
          if path_eqb (item_path cur_item) server_path
          then (<[handle := touch now cur_item]> its, inl handle)
          else
            let its := <[handle := expire now cur_item]> its in
            if (first_free =? length its)%nat then
              if negb (nonempty (item_path cur_item))
              then get_handle_scan n (S handle) its handle oldest now server_path
              else if last_used_time cur_item <? time_of its oldest
              then get_handle_scan n (S handle) its first_free handle now server_path
              else get_handle_scan n (S handle) its first_free oldest now server_path
            else get_handle_scan n (S handle) its first_free oldest now server_path
      end
  end.

(** The handle and the table [get_handle] leaves. *)
Definition get_handle_items (now : Z) (its : list Item) (server_path : path)
  : nat * list Item :=
  let size := length its in
  match get_handle_scan size 0 its size 0 now server_path with
  | (its, inl handle) => (handle, its)
  | (its, inr (first_free, oldest)) =>
      let '(first_free, its) :=
        if (first_free =? size)%nat then
          if Z.of_nat first_free <? MAX_HANDLE_COUNT then (first_free, its ++ [empty_item])
          else (oldest, alter clear_item oldest its)
        else (first_free, its) in
      (first_free, alter (assign server_path now) first_free its)
  end.

Section Drive.
Context {W : Type} `{!Host W, !DosAttrs W, CAL : !Calendar}.
(** The transliteration map loaded at start. *)
Context (tmap : translit_map).

Definition get_handle (server_path : path) : M (st W) nat :=
  let* now := gets (fun s => time (world s)) in
  let* its := gets (fun s => items (drive s)) in
  let '(handle, its) := get_handle_items now its server_path in
  do* modify (put_items its) in
  ret handle.

Definition get_item (handle : nat) : M (st W) Item :=
  let* its := gets (fun s => items (drive s)) in
  match its !! handle with
  | None => throw (FilesystemError DOS_EXTERR_INVALID_HANDLE)
  | Some item =>
      if negb (nonempty (item_path item)) then throw (FilesystemError DOS_EXTERR_INVALID_HANDLE)
      else ret item
  end.

Definition update_item (handle : nat) (f : Item -> Item) : M (st W) unit :=
  modify (fun s => put_items (alter f handle (items (drive s))) s).

Definition update_last_used_timestamp (handle : nat) : M (st W) unit :=
  let* now := gets (fun s => time (world s)) in
  update_item handle (touch now).

Definition get_handle_path (handle : nat) : M (st W) path :=
  let* item := get_item handle in
  do* update_last_used_timestamp handle in
  ret (item_path item).

(** ** Directory lists *)

Definition converts (d : Drive) : bool := negb (bool_decide (name_conversion d = OFF)).

Definition volume_entry (d : Drive) : DosFileProperties :=
  mkProps (volume_label d) 0 0 FAT_VOLUME [].

(** The properties of a file, under the given FCB name and, when names are
    converted, the given server name. *)
Definition entry_for (w : W) (d : Drive) (p : path) (fcb : fcb_file_name) (name : path)
  : DosFileProperties :=
  let props := (get_path_dos_properties w p (attrs_mode d)).1 in
  mkProps fcb (size props) (time_date props) (attrs props)
    (if converts d then name else server_name props).

Definition dot_entries (w : W) (d : Drive) (p : path) : list DosFileProperties :=
  (fun name => entry_for w d (path_append p name) (short_name_to_fcb name) name)
    <$> [DOT; DOTDOT].

(** The entries before the next one: an error, the end because the list is
    full, or the list to append to. *)
Inductive list_head := HeadError | HeadFull | Head (dl : list DosFileProperties).

Definition head_entries (w : W) (d : Drive) (p : path) (dl : list DosFileProperties)
  : list_head :=
  match dl with
  | [] =>
      match equivalent w p (root d) with
      | None => HeadError
      | Some true => Head (if has_volume_label d then [volume_entry d] else [])
      | Some false => Head (dot_entries w d p)
      end
  | _ => if zlen dl =? 0xFFFF then HeadFull else Head dl
  end.

(** How the loop over the directory ends: by the early [return -1], by the
    [break] at a full list, or after the last name. *)
Inductive list_end := Failed | Full | Exhausted.

(** The loop: the list, the names in use, and how it ended. *)
Fixpoint list_entries (w : W) (d : Drive) (p : path) (names : list bytes)
    (dl : list DosFileProperties) (used_names : list fcb_file_name)
  : list DosFileProperties * list fcb_file_name * list_end :=
  match names with
  | [] => (dl, used_names, Exhausted)
  | name :: names =>
      match head_entries w d p dl with
      | HeadError => (dl, used_names, Failed)
      | HeadFull => (dl, used_names, Full)
      | Head dl =>
          let dentry := path_append p name in
          let filename := filename dentry in
          let '(fcb, used_names) :=
            if converts d then
              let '(fcb, used_names, _) := file_name_to_83 tmap filename used_names in
              (fcb, used_names)
            else (short_name_to_fcb (last_component dentry), used_names) in
          list_entries w d p names (dl ++ [entry_for w d dentry fcb filename]) used_names
      end
  end.

(** [Item::create_directory_list]: the item afterwards and the result, the
    number of entries or -1. *)
Definition list_directory (w : W) (d : Drive) (i : Item) : Item * Z :=
  let '(names, err) := directory_iterator w (item_path i) in
  let '(dl, used_names, ended) := list_entries w d (item_path i) names [] [] in
  match ended, err with
  | Full, _ | Exhausted, None => (mkItem (item_path i) (time w) dl used_names, zlen dl)
  | _, _ => (mkItem (item_path i) (last_used_time i) dl used_names, -1)
  end.

Definition create_directory_list (handle : nat) : M (st W) Z :=
  let* s := gets id in
  match items (drive s) !! handle with
  | None => ret (-1)
  | Some i =>
      let '(i, count) := list_directory (world s) (drive s) i in
      do* modify (put_items (<[handle := i]> (items (drive s)))) in
      ret count
  end.

(** ** Searching a directory list *)

Definition FIND_ATTRS : Z :=
  Z.lor (Z.lor (Z.lor FAT_HIDDEN FAT_SYSTEM) FAT_VOLUME) FAT_DIRECTORY.

(** The entry is returned for the mask and "at most the specified
    combination of hidden, system, and directory attributes". *)
Definition entry_matches (tmpl : fcb_file_name) (attr : Z) (e : DosFileProperties) : bool :=
  match_fcb_name_to_mask tmpl (Files.fcb_name e)
  && (Z.lor attr (Z.land (attrs e) FIND_ATTRS) =? attr).

(** The loop from position [n]. *)
Fixpoint find_entry (tmpl : fcb_file_name) (attr : Z) (n : nat) (dl : list DosFileProperties)
  : option (nat * DosFileProperties) :=
  match dl with
  | [] => None
  | e :: dl => if entry_matches tmpl attr e then Some (n, e) else find_entry tmpl attr (S n) dl
  end.

(** [find_file]: the properties and the new [nth]. *)
Definition find_file (handle : nat) (tmpl : fcb_file_name) (attr : Z) (nth : nat)
  : M (st W) (option (DosFileProperties * nat)) :=
  if attr =? FAT_VOLUME then
    let* d := gets drive in
    if (nth =? 0)%nat then
      if negb (has_volume_label d) then ret None
      else if negb (match_fcb_name_to_mask tmpl (volume_label d)) then ret None
      else ret (Some (mkProps (volume_label d) 0 0 FAT_VOLUME [], 1%nat))
    else ret None
  else
    let* item := get_item handle in
    let* count :=
      if (nth =? 0)%nat || bool_decide (directory_list item = [])
      then create_directory_list handle else ret 0 in
    if count <? 0 then ret None
    else
      let* dl := gets (fun s => match items (drive s) !! handle with
                                | Some i => directory_list i
                                | None => []
                                end) in
      match find_entry tmpl attr nth (drop nth dl) with
      | Some (n, e) => ret (Some (e, S n))
      | None => ret None
      end.

(** ** Client paths *)

(** The entry of a directory list [get_server_name] looks for. *)
Definition names_entry (fcb : fcb_file_name) (e : DosFileProperties) : bool :=
  negb (attrs e =? FAT_VOLUME) && fcb_eqb (Files.fcb_name e) fcb.

(** The name of the entry on the server, or an empty path. *)
Definition get_server_name (handle : nat) (fcb : fcb_file_name) (recreate : bool)
  : M (st W) path :=
  let* stale := gets (fun s => match items (drive s) !! handle with
                               | Some i => bool_decide (directory_list i = [])
                               | None => false
                               end) in
  do* (if recreate || stale then create_directory_list handle else ret 0) in
  let* item := gets (fun s => default empty_item (items (drive s) !! handle)) in
  match list_find (fun e => names_entry fcb e = true) (directory_list item) with
  | None => ret []
  | Some (n, e) =>
      let server_path := path_append (item_path item) (server_name e) in
      let* there := query (fun s => exists_ (world s) server_path) in
      let* link := if there then ret false
                   else query (fun s => is_symlink (world s) server_path) in
      if negb there && negb link then
        do* update_item handle (fun i =>
              mkItem (item_path i) (last_used_time i) (delete n (directory_list i))
                (set_erase fcb (fcb_names i))) in
        ret []
      else ret (server_name e)
  end.

(** The loop over the components of a client path. *)
Fixpoint walk (server_path : path) (parts : list bytes) (recreate : bool)
  : M (st W) (path * bool) :=
  match parts with
  | [] => ret (server_path, true)
  | part :: rest =>
      let* handle := get_handle server_path in
      let* name := get_server_name handle (short_name_to_fcb part) recreate in
      if negb (nonempty name) then
        match rest with
        | [] => ret (path_append server_path part, false)
        | _ => throw (FilesystemError DOS_EXTERR_PATH_NOT_FOUND)
        end
      else
        match rest with
        | [] => ret (path_append server_path name, true)
        | _ => walk (path_append server_path name) rest recreate
        end
  end.

Definition create_server_path (client_path : path) (recreate : bool) : M (st W) (path * bool) :=
  let* d := gets drive in
  match client_path with
  | [] => ret (root d, true)
  | _ =>
      let depth := check_path_depth client_path in
      if depth <? 0 then throw (FilesystemError DOS_EXTERR_PATH_NOT_FOUND)
      else if depth =? 0 then ret (root d, true)
      else if bool_decide (name_conversion d = OFF) then
        let server_path := path_append (root d) client_path in
        let* parent := query (fun s => exists_ (world s) (parent_path server_path)) in
        if negb parent then throw (FilesystemError DOS_EXTERR_PATH_NOT_FOUND)
        else
          let* there := query (fun s => exists_ (world s) server_path) in
          let* link := if there then ret true
                       else query (fun s => is_symlink (world s) server_path) in
          ret (server_path, link)
      else walk (root d) (elements client_path) recreate
  end.
End Drive.
