(* ===== verification/Handles.v ===== *)
(** * Handles: the handle table of a drive

    What clients and the rest of the server rely on in [Drive::get_handle]:
    one handle per path, handles below 0xFFFF, a handle keeps its path until
    the table is full, and then the least recently used one is replaced. *)
From S2P Require Import Prelude Words Paths FatTime Host Attrs Unicode Fcb Files Drive.

(** The invariant of the table. *)
Record table_ok (its : list Item) : Prop := {
  table_size : zlen its <= MAX_HANDLE_COUNT;
  table_paths : Forall (fun i => item_path i <> []) its;
  table_unique : NoDup ((fun i => elements (item_path i)) <$> its);
  table_lists : Forall (fun i => zlen (directory_list i) <= 0xFFFF) its;
}.

(** What the scan may do to an item it passes. *)
Record aged (i i' : Item) : Prop := {
  aged_path : item_path i' = item_path i;
  aged_time : last_used_time i' = last_used_time i;
  aged_names : fcb_names i' = fcb_names i;
  aged_list : directory_list i' = directory_list i \/ directory_list i' = [];
}.

#[export] Instance aged_refl : Reflexive aged.
Proof. intros i. by split; [..|left]. Qed.

Lemma expire_aged now i : aged i (expire now i).
Proof.
  unfold expire. case_match; [|done]. destruct (directory_list i) eqn:E; [done|].
  split; try done. by right.
Qed.

Lemma aged_trans i j k : aged i j -> aged j k -> aged i k.
Proof. intros [P1 T1 N1 L1] [P2 T2 N2 L2]. split; try congruence. naive_solver congruence. Qed.

(** *** The scan *)

Section Scan.
Context (now : Z) (p : path).

Abbreviation unmatched its lo hi :=
  (forall j i, (lo <= j < hi)%nat -> its !! j = Some i -> path_eqb (item_path i) p = false).
Abbreviation all_aged its its' :=
  (forall j i, its !! j = Some i -> exists i', its' !! j = Some i' /\ aged i i').

(** The outcome of the scan from [h]. *)
Definition scan_outcome (h oldest : nat) (its its' : list Item) (r : nat + nat * nat) : Prop :=
  match r with
  | inl k =>
      (h <= k < length its)%nat /\ unmatched its h k
      /\ (exists i, its !! k = Some i /\ path_eqb (item_path i) p = true
                    /\ its' !! k = Some (touch now i))
      /\ (forall j i, j <> k -> its !! j = Some i -> exists i', its' !! j = Some i' /\ aged i i')
  | inr (ff, o) =>
      ff = length its /\ unmatched its h (length its) /\ all_aged its its'
      /\ (o = oldest \/ h <= o < length its)%nat
      /\ time_of its o <= time_of its oldest
      /\ (forall j, (h <= j < length its)%nat -> time_of its o <= time_of its j)
  end.

Lemma scan_spec n h its oldest its' r :
  (n + h)%nat = length its -> Forall (fun i => item_path i <> []) its ->
  get_handle_scan n h its (length its) oldest now p = (its', r) ->
  length its' = length its /\ scan_outcome h oldest its its' r.
Proof.
  revert h its oldest. induction n as [|n IH]; intros h its oldest Hn Hp;
    cbn [get_handle_scan].
  { intros [= <- <-]. split; [done|]. cbn. split_and!; [done| | |by left|lia|].
    - intros j i Hj _. lia.
    - intros j i ->. eauto using aged_refl.
    - intros j Hj. lia. }
  destruct (lookup_lt_is_Some_2 its h ltac:(lia)) as [cur Hc]. rewrite Hc.
  destruct (path_eqb (item_path cur) p) eqn:Epath.
  { intros [= <- <-]. rewrite length_insert. split; [done|]. cbn. split_and!; [lia|lia| | |].
    - intros j i Hj. lia.
    - exists cur. rewrite list_lookup_insert_eq by lia. done.
    - intros j i Hj Hi. rewrite list_lookup_insert_ne by done. eauto using aged_refl. }
  assert (nonempty (item_path cur) = true) as ->.
  { rewrite Forall_lookup in Hp. specialize (Hp _ _ Hc). by destruct (item_path cur). }
  rewrite length_insert, Nat.eqb_refl. cbn [negb].
  set (its1 := <[h:=expire now cur]> its).
  assert (length its1 = length its) as L1 by apply length_insert.
  assert (forall j, time_of its1 j = time_of its j) as Ht.
  { intros j. unfold time_of, its1. destruct (decide (j = h)) as [->|].
    - rewrite list_lookup_insert_eq, Hc by lia. apply aged_time, expire_aged.
    - by rewrite list_lookup_insert_ne. }
  assert (Forall (fun i => item_path i <> []) its1) as Hp1.
  { apply Forall_insert; [done|]. rewrite (aged_path _ _ (expire_aged now cur)).
    rewrite Forall_lookup in Hp. by apply (Hp h). }
  assert (all_aged its its1) as A1.
  { intros j i Hi. unfold its1. destruct (decide (j = h)) as [->|].
    - rewrite list_lookup_insert_eq by lia. simplify_eq. eauto using expire_aged.
    - rewrite list_lookup_insert_ne by done. eauto using aged_refl. }
  assert (forall j i, (h <= j)%nat -> its !! j = Some i ->
    (j <> h -> its1 !! j = Some i) /\ (j = h -> i = cur)) as Back.
  { intros j i _ Hi. split; [|by intros ->; simplify_eq].
    intros. unfold its1. by rewrite list_lookup_insert_ne. }
  assert (forall oldest', (oldest' = oldest \/ oldest' = h) ->
    time_of its oldest' <= time_of its oldest -> time_of its oldest' <= time_of its h ->
    get_handle_scan n (S h) its1 (length its) oldest' now p = (its', r) ->
    length its' = length its /\ scan_outcome h oldest its its' r) as Step.
  { intros oldest' Ho T1 T2 Hscan. rewrite <- L1 in Hscan.
    apply IH in Hscan; [|lia|done]. rewrite L1 in Hscan. destruct Hscan as [-> Hout].
    split; [done|]. destruct r as [k|[ff o]]; cbn in *; rewrite ?L1 in *.
    - destruct Hout as (Hk & Hu & (i & Hi & Hm & Hi') & Ha). split_and!; [lia|lia| | |].
      + intros j i' Hj Hi2. destruct (decide (j = h)) as [->|].
        * by simplify_eq.
        * apply (Hu j); [lia|]. by apply (Back j i'); [lia| |].
      + exists i. split; [|done]. unfold its1 in Hi. by rewrite list_lookup_insert_ne in Hi by lia.
      + intros j i' Hj Hi2. destruct (A1 j i' Hi2) as (i1 & Hi1 & Ag).
        destruct (Ha j i1 Hj Hi1) as (i2 & ? & ?). eauto using aged_trans.
    - destruct Hout as (-> & Hu & Ha & Hor & HT & Hall). rewrite !Ht in *.
      split_and!; [done| | |destruct Ho, Hor; subst; lia|lia|].
      + intros j i' Hj Hi2. destruct (decide (j = h)) as [->|].
        * by simplify_eq.
        * apply (Hu j); [lia|]. by apply (Back j i'); [lia| |].
      + intros j i' Hi2. destruct (A1 j i' Hi2) as (i1 & Hi1 & Ag).
        destruct (Ha j i1 Hi1) as (i2 & ? & ?). eauto using aged_trans.
      + intros j Hj. destruct (decide (j = h)) as [->|]; [lia|].
        specialize (Hall j ltac:(lia)). rewrite Ht in Hall. lia. }
  assert (time_of its h = last_used_time cur) as Hh by (unfold time_of; by rewrite Hc).
  fold its1. rewrite Ht. destruct (Z.ltb_spec (last_used_time cur) (time_of its oldest)).
  - apply Step; [by right|lia|lia].
  - apply Step; [by left|lia|lia].
Qed.
End Scan.

(** *** The invariant, item by item *)

Lemma table_ok_lookup its : table_ok its <->
  zlen its <= MAX_HANDLE_COUNT
  /\ (forall j i, its !! j = Some i -> item_path i <> [] /\ zlen (directory_list i) <= 0xFFFF)
  /\ (forall j k i i', its !! j = Some i -> its !! k = Some i' ->
        elements (item_path i) = elements (item_path i') -> j = k).
Proof.
  split.
  - intros [S P U L]. rewrite Forall_lookup in P, L. split_and!; eauto.
    rewrite NoDup_alt in U. intros j k i i' Hj Hk E. apply (U j k (elements (item_path i)));
      rewrite list_lookup_fmap; [by rewrite Hj | rewrite Hk; simpl; by rewrite E].
  - intros (S & PL & U). split; [done| | |]; rewrite ?Forall_lookup.
    + intros j i Hj. by apply (PL j).
    + apply NoDup_alt. intros j k e. rewrite !list_lookup_fmap.
      destruct (its !! j) as [i|] eqn:Hj, (its !! k) as [i'|] eqn:Hk; simpl; try done.
      intros [= E] [= E']. apply (U j k i i'); congruence.
    + intros j i Hj. by apply (PL j).
Qed.

Lemma aged_short i i' : aged i i' -> zlen (directory_list i) <= 0xFFFF ->
  zlen (directory_list i') <= 0xFFFF.
Proof. intros [_ _ _ [-> | ->]]; [done|]. simpl. lia. Qed.

(** What [get_handle] does to the table. *)
Record handle_outcome (now : Z) (its : list Item) (p : path) (h : nat) (its' : list Item)
  : Prop := {
  outcome_lt : Z.of_nat h < MAX_HANDLE_COUNT;
  (** the handle denotes the path and was used now *)
  outcome_item : exists i, its' !! h = Some i /\ path_eqb (item_path i) p = true
                           /\ last_used_time i = now;
  (** a path that has a handle keeps it *)
  outcome_found : forall k i, its !! k = Some i -> path_eqb (item_path i) p = true -> h = k;
  (** every other handle keeps its path *)
  outcome_others : forall k i, its !! k = Some i -> k <> h ->
    exists i', its' !! k = Some i' /\ aged i i';
  (** a handle is only taken away from another path when the table is full,
      and then it is one of the least recently used *)
  outcome_evicts : forall i, its !! h = Some i -> path_eqb (item_path i) p = false ->
    zlen its = MAX_HANDLE_COUNT
    /\ Forall (fun j => last_used_time i <= last_used_time j) its;
  (** no handle appears besides the one returned *)
  outcome_new : forall k i', its' !! k = Some i' -> k <> h -> exists i, its !! k = Some i /\ aged i i';
  outcome_list : forall i', its' !! h = Some i' ->
    directory_list i' = [] \/ (exists i, its !! h = Some i /\ path_eqb (item_path i) p = true
                                         /\ directory_list i' = directory_list i);
  outcome_length : (length its <= length its')%nat /\ zlen its' <= MAX_HANDLE_COUNT;
}.

Lemma time_of_lookup its h i : its !! h = Some i -> time_of its h = last_used_time i.
Proof. unfold time_of. by intros ->. Qed.

Lemma path_eqb_refl p : path_eqb p p = true.
Proof. by apply path_eqb_eq. Qed.

(** The found case, the new slot and the replaced slot. *)
Lemma outcome_of_found now its p k its' : table_ok its -> length its' = length its ->
  scan_outcome now p 0 0 its its' (inl k) -> handle_outcome now its p k its'.
Proof.
  intros Hok L (Hk & _ & (i & Hi & Hm & Hi') & Ha).
  apply table_ok_lookup in Hok as (S & _ & U).
  assert (forall j e, its' !! j = Some e -> is_Some (its !! j)) as Back.
  { intros j e Hj%lookup_lt_Some. apply lookup_lt_is_Some. lia. }
  split.
  - lia.
  - by exists (touch now i).
  - intros j i2 Hj Hm2. apply (U k j i i2); [done|done|].
    apply path_eqb_eq in Hm, Hm2. congruence.
  - intros j i2 Hj Hne. eauto.
  - intros i2 Hi2 Hm2. congruence.
  - intros j i' Hj Hne. destruct (Back _ _ Hj) as [i2 Hi2].
    destruct (Ha j i2 Hne Hi2) as (i3 & ? & ?). simplify_eq. eauto.
  - intros i2 Hi2. simplify_eq. right. exists i. done.
  - split; lia.
Qed.

Lemma outcome_of_new now its p its' : table_ok its -> length its' = length its ->
  zlen its < MAX_HANDLE_COUNT ->
  (forall j i, its !! j = Some i -> path_eqb (item_path i) p = false) ->
  (forall j i, its !! j = Some i -> exists i', its' !! j = Some i' /\ aged i i') ->
  handle_outcome now its p (length its) (its' ++ [assign p now empty_item]).
Proof.
  intros Hok L Hlt Hu Ha. split.
  - done.
  - exists (assign p now empty_item). rewrite <- L, list_lookup_middle by done.
    split_and!; [done|apply path_eqb_refl|done].
  - intros k i Hk Hm. specialize (Hu _ _ Hk). congruence.
  - intros k i Hk Hne. destruct (Ha _ _ Hk) as (i' & Hi' & ?). exists i'.
    split; [by apply lookup_app_l_Some|done].
  - intros i Hi%lookup_lt_Some. lia.
  - intros k i' Hk Hne. apply lookup_app_Some in Hk as [Hk|[? Hk]].
    + destruct (lookup_lt_is_Some_2 its k) as [i Hi]; [apply lookup_lt_Some in Hk; lia|].
      destruct (Ha _ _ Hi) as (i2 & ? & ?). simplify_eq. eauto.
    + apply list_lookup_singleton_Some in Hk as [? _]. lia.
  - intros i'. rewrite <- L, list_lookup_middle by done. intros [= <-]. by left.
  - rewrite length_app. simpl. lia.
Qed.

Lemma outcome_of_evicted now its p its' o i : table_ok its -> length its' = length its ->
  zlen its = MAX_HANDLE_COUNT -> its !! o = Some i ->
  (forall j i, its !! j = Some i -> path_eqb (item_path i) p = false) ->
  (forall j i, its !! j = Some i -> exists i', its' !! j = Some i' /\ aged i i') ->
  (forall j, (j < length its)%nat -> time_of its o <= time_of its j) ->
  handle_outcome now its p o (alter (assign p now) o (alter clear_item o its')).
Proof.
  intros Hok L Hfull Ho Hu Ha Hold.
  destruct (Ha _ _ Ho) as (i' & Hi' & _).
  assert (alter (assign p now) o (alter clear_item o its') !! o
          = Some (assign p now (clear_item i'))) as Hat
    by (by rewrite !list_lookup_alter_eq, Hi').
  assert (forall k, k <> o -> alter (assign p now) o (alter clear_item o its') !! k = its' !! k)
    as Hne by (intros; by rewrite !list_lookup_alter_ne).
  split.
  - apply lookup_lt_Some in Ho. lia.
  - rewrite Hat. eexists. split_and!; [done|apply path_eqb_refl|done].
  - intros k j Hk Hm. specialize (Hu _ _ Hk). congruence.
  - intros k j Hk Hk'. rewrite Hne by done. eauto.
  - intros j Hj _. split; [done|]. apply Forall_lookup. intros k j' Hj'.
    specialize (Hold k). rewrite (time_of_lookup _ _ _ Hj), (time_of_lookup _ _ _ Hj') in Hold.
    apply Hold. by eapply lookup_lt_Some.
  - intros k j Hk Hk'. rewrite Hne in Hk by done.
    destruct (lookup_lt_is_Some_2 its k) as [e He]; [apply lookup_lt_Some in Hk; lia|].
    destruct (Ha _ _ He) as (e' & ? & ?). simplify_eq. eauto.
  - intros j. rewrite Hat. intros [= <-]. by left.
  - rewrite !length_alter. lia.
Qed.

Lemma get_handle_items_outcome now its p h its' : table_ok its ->
  get_handle_items now its p = (h, its') -> handle_outcome now its p h its'.
Proof.
  intros Hok. unfold get_handle_items.
  destruct (get_handle_scan (length its) 0 its (length its) 0 now p) as [its1 r] eqn:Es.
  apply scan_spec in Es as [L Hout]; [|lia|apply Hok].
  destruct r as [k|[ff o]].
  - intros [= <- <-]. by apply outcome_of_found.
  - destruct Hout as (-> & Hu & Ha & Hor & _ & Hold). rewrite Nat.eqb_refl.
    assert (forall j i, its !! j = Some i -> path_eqb (item_path i) p = false) as Hu'.
    { intros j i Hj. apply (Hu j); [|done]. apply lookup_lt_Some in Hj. lia. }
    destruct (Z.ltb_spec (zlen its) MAX_HANDLE_COUNT) as [Hlt|Hge].
    + intros [= <- <-]. rewrite <- L at 2. rewrite alter_app_r_alt by lia.
      rewrite L, Nat.sub_diag. by apply outcome_of_new.
    + pose proof (table_size _ Hok) as Hsz.
      destruct (lookup_lt_is_Some_2 its o) as [i Hi].
      { unfold MAX_HANDLE_COUNT in *. lia. }
      intros [= <- <-]. eapply outcome_of_evicted; try done; [lia|].
      intros j Hj. apply Hold. lia.
Qed.

Lemma handle_outcome_ok now its p h its' : p <> [] -> table_ok its ->
  handle_outcome now its p h its' -> table_ok its'.
Proof.
  intros Hp Hok [Hlt (e & He & Hm & _) Hfound Hothers _ Hnew Hlist [_ Hlen]].
  apply table_ok_lookup in Hok as (_ & PL & U). apply table_ok_lookup. split_and!; [done| |].
  - intros j i' Hj. destruct (decide (j = h)) as [->|Hne].
    + assert (e = i') as -> by congruence. split.
      * intros E. apply path_eqb_eq in Hm. rewrite E in Hm. by apply (elements_ne p).
      * destruct (Hlist _ Hj) as [-> | (i & Hi & _ & ->)]; [simpl; lia|]. by eapply PL.
    + destruct (Hnew _ _ Hj Hne) as (i & Hi & Ag). destruct (PL _ _ Hi).
      split; [by rewrite (aged_path _ _ Ag) | by eapply aged_short].
  - intros j k i i' Hj Hk E.
    destruct (decide (j = h)) as [->|Hj'], (decide (k = h)) as [->|Hk']; [done| | |].
    + destruct (Hnew _ _ Hk Hk') as (i2 & Hi2 & Ag). simplify_eq.
      apply (Hfound k i2 Hi2). apply path_eqb_eq in Hm. apply path_eqb_eq.
      rewrite <- (aged_path _ _ Ag). congruence.
    + destruct (Hnew _ _ Hj Hj') as (i2 & Hi2 & Ag). simplify_eq. symmetry.
      apply (Hfound j i2 Hi2). apply path_eqb_eq in Hm. apply path_eqb_eq.
      rewrite <- (aged_path _ _ Ag). congruence.
    + destruct (Hnew _ _ Hj Hj') as (i2 & Hi2 & Ag2), (Hnew _ _ Hk Hk') as (i3 & Hi3 & Ag3).
      apply (U j k i2 i3 Hi2 Hi3). rewrite <- (aged_path _ _ Ag2), <- (aged_path _ _ Ag3). done.
Qed.

(** C32: [get_handle] keeps the table well formed (at most 65535 handles, all
    for different paths) and answers a handle below 0xFFFF that denotes the
    path and counts as used now; a path that has a handle gets that one again;
    every other handle keeps its path; and a handle that denoted another path
    is reused only when all 65535 handles are taken, in which case it is one
    that was not used for the longest time. *)
Theorem get_handle_spec now its p h its' : table_ok its -> p <> [] ->
  get_handle_items now its p = (h, its') ->
  table_ok its'
  /\ Z.of_nat h < 0xFFFF
  /\ (exists i, its' !! h = Some i /\ elements (item_path i) = elements p /\ last_used_time i = now)
  /\ (forall k i, its !! k = Some i -> elements (item_path i) = elements p -> h = k)
  /\ (forall k i, its !! k = Some i -> k <> h ->
        exists i', its' !! k = Some i' /\ item_path i' = item_path i)
  /\ (forall i, its !! h = Some i -> elements (item_path i) <> elements p ->
        zlen its = 0xFFFF /\ Forall (fun j => last_used_time i <= last_used_time j) its).
Proof.
  intros Hok Hp Hg. apply get_handle_items_outcome in Hg; [|done].
  pose proof (handle_outcome_ok _ _ _ _ _ Hp Hok Hg) as Hok'. destruct Hg.
  split_and!; [done|done| | | |].
  - destruct outcome_item0 as (i & ? & Hm%path_eqb_eq & ?). eauto.
  - intros k i Hk Hm%path_eqb_eq. eauto.
  - intros k i Hk Hne. destruct (outcome_others0 k i Hk Hne) as (i' & ? & Ag).
    exists i'. by destruct Ag.
  - intros i Hi Hne. apply outcome_evicts0; [done|].
    destruct (path_eqb (item_path i) p) eqn:E; [by apply path_eqb_eq in E|done].
Qed.

Lemma get_handle_spec_witness :
  let its := [mkItem (str "/srv") 10 [] []; mkItem (str "/srv/a") 20 [] []] in
  table_ok its /\ Z.of_nat (get_handle_items 30 its (str "/srv/b")).1 < 0xFFFF.
Proof.
  intros its.
  assert (table_ok its) as Hok.
  { split; [vm_compute; discriminate| | |].
    - repeat constructor; discriminate.
    - apply (bool_decide_unpack _). vm_compute. exact I.
    - repeat constructor; vm_compute; discriminate. }
  split; [exact Hok|].
  destruct (get_handle_items 30 its (str "/srv/b")) as [h its'] eqn:E.
  destruct (get_handle_spec 30 its (str "/srv/b") h its') as (_ & H & _);
    [exact Hok | discriminate | exact E | exact H].
Defined.
