(* ===== verification/DriveOps.v ===== *)
(** * DriveOps: the operations of a shared drive (class Drive of fs.cpp)

    Every method a client request reaches, with its checks in the order of the
    code: the read-only drive first, then the translation of the client path,
    the root directory, existence, attributes, and the operation itself. *)
From S2P Require Import Prelude Words Paths FatTime Host Attrs Unicode Fcb Files Drive.

Section DriveOps.
Context {W : Type} `{!Host W, !DosAttrs W, CAL : !Calendar}.
Context (tmap : translit_map).

Abbreviation create_server_path := (create_server_path tmap).

(** The guard of the operations that write. *)
Definition check_writable : M (st W) unit :=
  let* d := gets drive in
  if read_only d then throw (FilesystemError DOS_EXTERR_DISK_WRITE_PROTECTED) else ret tt.

(** "Security alert: client attempted to ... root directory" *)
Definition check_not_root (server_path : path) : M (st W) unit :=
  let* d := gets drive in
  if path_eqb server_path (root d) then throw (FilesystemError DOS_EXTERR_ACCESS_DENIED)
  else ret tt.

(** ** Directories *)

Definition make_dir (client_path : path) : M (st W) unit :=
  do* check_writable in
  let* '(server_path, exist1) := create_server_path client_path false in
  do* check_not_root server_path in
  if exist1 then throw (FilesystemError DOS_EXTERR_ACCESS_DENIED)
  else
    do* lift_w (Files.make_dir server_path) in
    do* create_server_path client_path true in
    ret tt.

Definition delete_dir (client_path : path) : M (st W) unit :=
  do* check_writable in
  let* '(server_path, exist1) := create_server_path client_path false in
  do* check_not_root server_path in
  if negb exist1 then throw (FilesystemError DOS_EXTERR_PATH_NOT_FOUND)
  else
    do* lift_w (Files.delete_dir server_path) in
    do* create_server_path client_path true in
    ret tt.

Definition change_dir (client_path : path) : M (st W) unit :=
  let* '(server_path, exist1) := create_server_path client_path false in
  if negb exist1 then throw (FilesystemError DOS_EXTERR_PATH_NOT_FOUND)
  else
    do* lift_w (Files.change_dir server_path) in
    modify (fun s => mkSt (world s) server_path (drive s)).

(** ** Attributes *)

Definition set_item_attrs (client_path : path) (attrs : Z) : M (st W) unit :=
  do* check_writable in
  let* d := gets drive in
  if bool_decide (attrs_mode d = IGNORE) then ret tt
  else
    let* '(server_path, exist1) := create_server_path client_path false in
    do* check_not_root server_path in
    do* lift_w (Files.set_item_attrs server_path attrs (attrs_mode d)) in
    do* create_server_path client_path true in
    ret tt.

Definition get_server_path_attrs (server_path : path) : M (st W) Z :=
  query (fun s => get_item_attrs (world s) server_path (attrs_mode (drive s))).

Definition get_server_path_dos_properties (server_path : path)
  : M (st W) (DosFileProperties * Z) :=
  gets (fun s => get_path_dos_properties (world s) server_path (attrs_mode (drive s))).

Definition get_dos_properties (client_path : path) : M (st W) (DosFileProperties * Z) :=
  let* '(server_path, exist1) := create_server_path client_path false in
  do* check_not_root server_path in
  if negb exist1 then throw (FilesystemError DOS_EXTERR_FILE_NOT_FOUND)
  else
    let* '(props, attrs) := get_server_path_dos_properties server_path in
    if attrs =? FAT_ERROR_ATTR then throw (FilesystemError DOS_EXTERR_FILE_NOT_FOUND)
    else ret (props, attrs).

(** ** Renaming and deleting *)

Definition rename_file (old_client_path new_client_path : path) : M (st W) unit :=
  do* check_writable in
  let* '(old_server_path, _) := create_server_path old_client_path false in
  do* check_not_root old_server_path in
  let* '(new_server_path, new_exists) :=
    try_catch (create_server_path new_client_path false)
      (fun e => match e with
                | FilesystemError code =>
                    if code =? DOS_EXTERR_PATH_NOT_FOUND
                    then throw (FilesystemError DOS_EXTERR_FILE_NOT_FOUND) else throw e
                | _ => throw e
                end) in
  do* check_not_root new_server_path in
  if new_exists then throw (FilesystemError DOS_EXTERR_ACCESS_DENIED)
  else
    do* lift_w (Files.rename_file old_server_path new_server_path) in
    do* create_server_path new_client_path true in
    ret tt.

(** [attrs = 0; try { attrs = get_server_path_attrs(p); } catch ...] *)
Definition attrs_or_zero (p : path) : M (st W) Z :=
  try_catch (get_server_path_attrs p) (fun _ => ret 0).

(** The loop over the directory itself, when names are not converted. *)
Fixpoint delete_in_directory (filfcb : fcb_file_name) (directory : path) (names : list bytes)
  : M (st W) unit :=
  match names with
  | [] => ret tt
  | name :: names =>
      let dentry := path_append directory name in
      let* is_dir := query (fun s => is_directory (world s) dentry) in
      do* (if is_dir then ret tt
           else if match_fcb_name_to_mask filfcb (short_name_to_fcb dentry) then
             let* attrs := attrs_or_zero dentry in
             if has attrs FAT_RO then ret tt else lift_w (remove_ec dentry)
           else ret tt) in
      delete_in_directory filfcb directory names
  end.

(** The loop over the directory list. *)
Fixpoint delete_in_list (filfcb : fcb_file_name) (directory : path)
    (dl : list DosFileProperties) : M (st W) unit :=
  match dl with
  | [] => ret tt
  | e :: dl =>
      do* (if has (attrs e) FAT_DIRECTORY then ret tt
           else if match_fcb_name_to_mask filfcb (Files.fcb_name e) then
             let path := path_append directory (server_name e) in
             let* attrs := attrs_or_zero path in
             if has attrs FAT_RO then ret tt
             else try_catch (lift_w (delete_file path)) (fun _ => ret tt)
           else ret tt) in
      delete_in_list filfcb directory dl
  end.

Definition delete_files (client_pattern : path) : M (st W) unit :=
  do* check_writable in
  let* '(server_path, exist1) := create_server_path client_pattern false in
  do* check_not_root server_path in
  if exist1 : bool then
    let* attrs := attrs_or_zero server_path in
    if has attrs FAT_RO then throw (FilesystemError DOS_EXTERR_ACCESS_DENIED)
    else lift_w (delete_file server_path)
  else
    let is_pattern := existsb (Z.eqb CH_QMARK) server_path in
    if negb is_pattern then throw (FilesystemError DOS_EXTERR_FILE_NOT_FOUND)
    else
      let directory := parent_path server_path in
      let filfcb := short_name_to_fcb (filename client_pattern) in
      let* d := gets drive in
      if bool_decide (name_conversion d = OFF) then
        let* '(names, err) := gets (fun s => directory_iterator (world s) directory) in
        do* delete_in_directory filfcb directory names in
        match err with Some e => throw (StdFilesystemError e) | None => ret tt end
      else
        let* handle := get_handle directory in
        let* item := gets (fun s => default empty_item (items (drive s) !! handle)) in
        delete_in_list filfcb directory (directory_list item).

(** ** Creating and opening *)

Definition create_or_truncate_file (server_path : path) (requested_attrs current_attrs : Z)
  : M (st W) DosFileProperties :=
  do* check_writable in
  do* (if negb (current_attrs =? FAT_ERROR_ATTR) then
         if has current_attrs (Z.lor FAT_VOLUME FAT_DIRECTORY)
         then throw (FilesystemError DOS_EXTERR_ACCESS_DENIED)
         else if has current_attrs FAT_RO
         then throw (FilesystemError DOS_EXTERR_ACCESS_DENIED)
         else if has current_attrs FAT_SYSTEM && negb (has requested_attrs FAT_SYSTEM)
         then throw (FilesystemError DOS_EXTERR_ACCESS_DENIED)
         else ret tt
       else ret tt) in
  let* d := gets drive in
  lift_w (Files.create_or_truncate_file server_path requested_attrs (attrs_mode d)).

Definition try_open_file (server_path : path) (open_mode current_attrs : Z) : M (st W) unit :=
  let writes := has open_mode (Z.lor OPEN_MODE_WRONLY OPEN_MODE_RDWR) in
  let* d := gets drive in
  if read_only d && writes then throw (FilesystemError DOS_EXTERR_DISK_WRITE_PROTECTED)
  else if has current_attrs (Z.lor FAT_VOLUME FAT_DIRECTORY)
  then throw (FilesystemError DOS_EXTERR_ACCESS_DENIED)
  else if has current_attrs FAT_RO && writes
  then throw (FilesystemError DOS_EXTERR_ACCESS_DENIED)
  else lift_w (Files.try_open_file server_path open_mode).

Definition space_info : M (st W) (Z * Z) :=
  let* d := gets drive in
  match root d with
  | [] => throw RuntimeError
  | _ => query (fun s => fs_space_info (world s) (root d))
  end.

(** ** Operations on handles *)

(** The bytes read into the buffer; their number is the result. *)
Definition read_file (handle : nat) (offset len : Z) : M (st W) bytes :=
  let* item := get_item handle in
  do* update_last_used_timestamp handle in
  let fname := item_path item in
  let* dangling := gets (fun s => is_dangling_symlink (world s) fname) in
  if dangling then throw (FilesystemError DOS_EXTERR_ACCESS_DENIED)
  else
    let* opened := gets (fun s => fopen_rb (world s) fname) in
    if negb opened then throw (FilesystemError DOS_EXTERR_ACCESS_DENIED)
    else
      let* sought := gets (fun s => fseek (world s) fname offset) in
      if negb sought then throw (FilesystemError DOS_EXTERR_SEEK_ERROR)
      else gets (fun s => fread (world s) fname offset len).

(** The number of bytes written. *)
Definition write_file (buffer : bytes) (handle : nat) (offset : Z) : M (st W) Z :=
  do* check_writable in
  let* item := get_item handle in
  do* update_last_used_timestamp handle in
  let fname := item_path item in
  let* dangling := gets (fun s => is_dangling_symlink (world s) fname) in
  if dangling then throw (FilesystemError DOS_EXTERR_ACCESS_DENIED)
  else if zlen buffer =? 0 then
    do* lift_w (resize_file fname offset) in ret 0
  else
    let* opened := gets (fun s => fopen_rw (world s) fname) in
    if negb opened then throw (FilesystemError DOS_EXTERR_ACCESS_DENIED)
    else
      let* sought := gets (fun s => fseek (world s) fname offset) in
      if negb sought then throw (FilesystemError DOS_EXTERR_SEEK_ERROR)
      else lift_w (c_call (fwrite fname offset buffer)).

(** [fprops.size] is unsigned, the result is signed. *)
Definition get_file_size (handle : nat) : M (st W) Z :=
  let* item := get_item handle in
  let* '(fprops, attrs) :=
    gets (fun s => get_path_dos_properties (world s) (item_path item) IGNORE) in
  if attrs =? FAT_ERROR_ATTR then ret (-1)
  else
    do* update_last_used_timestamp handle in
    ret (i32 (size fprops)).

Definition set_file_date_time (handle : nat) (date_time : Z) : M (st W) bool :=
  let* item := get_item handle in
  let* d := gets drive in
  if read_only d then ret false
  else if negb (use_client_timestamp d) then ret false
  else
    let seconds := fat_to_time date_time in
    do* lift_w (call_unit (set_last_write_time (item_path item) seconds)) in
    do* update_last_used_timestamp handle in
    ret true.
End DriveOps.
