(* ===== verification/DriveInv.v ===== *)
(** * DriveInv: what every operation of a drive preserves

    For a drive with a fixed configuration: the handle table stays well
    formed, every handle and every path the drive computes stays below the
    root, and the machine changes only by host operations on paths below the
    root, or not at all when the drive is read-only. *)
From stdpp Require Import relations.
From S2P Require Import Prelude Words Paths FatTime Host Attrs Unicode Fcb Files Drive Handles.
From S2P Require Import DriveOps.

(** The configuration of a drive: everything but its items. *)
Definition config (d : Drive) : Drive := set_items [] d.

(** What [list_entries] puts into a list of converted names: the volume label,
    the dot entries, and files under names the server invented. *)
Inductive entry_ok (e : DosFileProperties) : Prop :=
  | entry_volume : attrs e = FAT_VOLUME -> server_name e = [] -> entry_ok e
  | entry_dot n : n = DOT \/ n = DOTDOT -> fcb_name e = short_name_to_fcb n ->
      server_name e = n -> entry_ok e
  | entry_file : dos_name (fcb_name e) -> is_filename (server_name e) ->
      climb (server_name e) = 1 -> entry_ok e.

(** A client path is plain when only [.] and [..] themselves have the FCB names
    of the dot entries. *)
Definition plain_part (part : bytes) : Prop :=
  (fcb_eqb (short_name_to_fcb DOT) (short_name_to_fcb part) = true -> part = DOT)
  /\ (fcb_eqb (short_name_to_fcb DOTDOT) (short_name_to_fcb part) = true -> part = DOTDOT).
Definition plain_path (p : path) : Prop := Forall plain_part (elements p).

#[export] Instance plain_part_dec part : Decision (plain_part part).
Proof. apply _. Defined.
#[export] Instance plain_path_dec p : Decision (plain_path p).
Proof. apply _. Defined.

Lemma climb_le_1 part : climb part <= 1.
Proof. unfold climb. repeat case_match; lia. Qed.

Lemma climb_filename n : is_filename n -> n <> DOT -> n <> DOTDOT -> climb n = 1.
Proof.
  intros [Hne Hs] ? ?. unfold climb. destruct n as [|c n]; [done|].
  rewrite !bool_decide_false; try done. intros [= -> ->]. by inversion Hs.
Qed.

Section Inv.
Context {W : Type} `{!Host W, !DosAttrs W, CAL : !Calendar, !HostLaws W}.
Context (tmap : translit_map) (cfg : Drive).
(** Whether the paths are followed to stay below the root, which needs
    ordinary requests, or only to be usable. *)
Context (strict : bool).

(** The paths of the share. *)
Definition below (p : path) : Prop := p <> [] /\ (strict = true -> within (root cfg) p).

Record item_ok (i : Item) : Prop := {
  item_below : below (item_path i);
  item_entries : converts cfg = true -> Forall entry_ok (directory_list i);
  item_fcbs : Forall (fun e => fcb_wf (fcb_name e)) (directory_list i);
}.

Record drive_ok (s : st W) : Prop := {
  ok_config : config (drive s) = config cfg;
  ok_table : table_ok (items (drive s));
  ok_items : Forall item_ok (items (drive s));
}.

(** What may happen to the machine. *)
Definition machine_step (s s' : st W) : Prop :=
  if read_only cfg then world s' = world s
  else rtc (host_step attr_step below) (world s) (world s').

#[export] Instance machine_step_preorder : PreOrder machine_step.
Proof.
  unfold machine_step. destruct (read_only cfg); split; intros ?; try done.
  - intros y z -> ->. done.
  - intros y z H1 H2. by etrans.
Qed.

Lemma machine_same s s' : world s' = world s -> machine_step s s'.
Proof. unfold machine_step. intros ->. by case_match. Qed.

Abbreviation runs m Q := (triple drive_ok machine_step m Q).

Lemma ok_root s : drive_ok s -> root (drive s) = root cfg.
Proof. intros [H _ _]. by injection H. Qed.

(** *** The primitives *)

Lemma put_items_runs its : table_ok its -> Forall item_ok its ->
  runs (modify (put_items its)) (fun _ => True).
Proof.
  intros Ht Hi. apply triple_modify; [|done]. intros s [Hc _ _]. split; [|by apply machine_same].
  split; [|done|done]. exact Hc.
Qed.

Lemma gets_drive_runs : runs (gets drive) (fun d => config d = config cfg).
Proof. apply triple_gets; [apply _|]. by intros s []. Qed.

Lemma gets_items_runs :
  runs (gets (fun s => items (drive s))) (fun its => table_ok its /\ Forall item_ok its).
Proof. apply triple_gets; [apply _|]. by intros s []. Qed.

Lemma get_item_runs h :
  runs (get_item (W:=W) h) (fun i => item_ok i /\ zlen (directory_list i) <= 0xFFFF).
Proof.
  unfold get_item. eapply triple_bind; [apply _|apply gets_items_runs|].
  intros its [Ht Hi]. destruct (its !! h) as [i|] eqn:E; [|apply triple_throw; apply _].
  destruct (negb _); [apply triple_throw; apply _|]. apply triple_ret; [apply _|].
  rewrite Forall_lookup in Hi. split; [by eapply Hi|].
  apply table_ok_lookup in Ht as (_ & Ht & _). by eapply Ht.
Qed.

Lemma update_item_runs h f :
  (forall i, item_path (f i) = item_path i) ->
  (forall i, (length (directory_list (f i)) <= length (directory_list i))%nat) ->
  (forall i P, Forall P (directory_list i) -> Forall P (directory_list (f i))) ->
  runs (update_item (W:=W) h f) (fun _ => True).
Proof.
  intros Hp Hl He. unfold update_item. apply triple_modify; [|done].
  intros s [Hc Ht Hi]. split; [|by apply machine_same].
  split; [exact Hc| |]; cbn [put_items put_drive drive items set_items].
  - apply table_ok_lookup in Ht as (S & PL & U). apply table_ok_lookup.
    rewrite length_alter. split; [done|].
    assert (forall j i, alter f h (items (drive s)) !! j = Some i -> exists i',
      items (drive s) !! j = Some i' /\ item_path i = item_path i'
      /\ (length (directory_list i) <= length (directory_list i'))%nat) as A.
    { intros j i. rewrite list_lookup_alter. destruct (decide (h = j)) as [->|].
      - destruct (items (drive s) !! j) as [i'|] eqn:E; [|done]. intros [= <-]. eauto.
      - eauto. }
    split.
    + intros j i (i' & Hj & -> & Hll)%A. destruct (PL j i' Hj). split; [done|lia].
    + intros j k i i' (x & Hx & -> & _)%A (y & Hy & -> & _)%A. by apply U.
  - apply Forall_lookup. intros j i. rewrite Forall_lookup in Hi.
    rewrite list_lookup_alter. destruct (decide (h = j)) as [->|].
    + destruct (items (drive s) !! j) as [i'|] eqn:E; [|done]. intros [= <-].
      destruct (Hi _ _ E). split; [by rewrite Hp|auto|auto].
    + eauto.
Qed.

Lemma touch_runs h : runs (update_last_used_timestamp (W:=W) h) (fun _ => True).
Proof.
  unfold update_last_used_timestamp. eapply triple_bind with (P := fun _ => True); [apply _| |].
  - by apply triple_gets; [apply _|].
  - intros now _. by apply update_item_runs.
Qed.

Lemma get_handle_runs p : below p -> runs (get_handle (W:=W) p) (fun _ => True).
Proof.
  intros Hp. unfold get_handle. eapply triple_bind with (P := fun _ => True); [apply _| |].
  { by apply triple_gets; [apply _|]. }
  intros now _. eapply triple_bind; [apply _|apply gets_items_runs|].
  intros its [Ht Hi]. destruct (get_handle_items now its p) as [h its'] eqn:E.
  apply get_handle_items_outcome in E; [|done].
  pose proof (handle_outcome_ok _ _ _ _ _ (proj1 Hp) Ht E) as Ht'.
  eapply triple_bind; [apply _| |by intros; apply triple_ret; [apply _|]].
  apply put_items_runs; [done|]. destruct E as [_ (e & He & Hm & _) _ _ _ Hnew Hlist _].
  rewrite Forall_lookup in Hi. apply Forall_lookup. intros k i' Hk.
  destruct (decide (k = h)) as [->|Hne].
  - assert (e = i') as -> by congruence. split.
    + split.
      * apply table_ok_lookup in Ht' as (_ & PL & _). by eapply PL.
      * intros Hs. destruct Hp as [_ Hw]. destruct (Hw Hs) as (n & rel & E & Hr).
        exists n, rel. apply path_eqb_eq in Hm. by rewrite Hm.
    + intros Hc. destruct (Hlist _ Hk) as [-> | (i & Hi' & _ & ->)]; [done|].
      by apply (item_entries _ (Hi _ _ Hi')).
    + destruct (Hlist _ Hk) as [-> | (i & Hi' & _ & ->)]; [done|].
      by apply (item_fcbs _ (Hi _ _ Hi')).
  - destruct (Hnew _ _ Hk Hne) as (i & Hi' & Ag). destruct (Hi _ _ Hi') as [Hb He' Hf'].
    split; [by rewrite (aged_path _ _ Ag)| |].
    + intros Hc. destruct (aged_list _ _ Ag) as [-> | ->]; [by apply He'|done].
    + by destruct (aged_list _ _ Ag) as [-> | ->].
Qed.

(** *** Directory lists *)

Lemma entry_for_fcb w d p fcb name : fcb_name (entry_for w d p fcb name) = fcb.
Proof. done. Qed.
Lemma entry_for_name w d p fcb name : converts d = true ->
  server_name (entry_for w d p fcb name) = name.
Proof. unfold entry_for. simpl. by intros ->. Qed.

Lemma filename_append p n : is_filename n -> filename (path_append p n) = n.
Proof.
  intros Hn. unfold filename.
  assert (forall s, Forall (fun c => is_slash c = false) s -> forall t,
    (t = [] \/ head t = Some CH_SLASH) ->
    take_while (fun c => negb (is_slash c)) (s ++ t) = s) as T.
  { intros s Hs. induction Hs as [|c s Hc _ IH]; intros t Ht; simpl.
    - destruct t as [|c t]; [done|]. destruct Ht as [|[= ->]]; done.
    - rewrite Hc. simpl. by rewrite IH. }
  unfold path_append. rewrite is_filename_relative by done.
  assert (Forall (fun c => is_slash c = false) (reverse n)) as Hr
    by (rewrite Forall_reverse; apply Hn).
  destruct (last p) as [c|] eqn:El.
  - destruct (is_slash c) eqn:Hc.
    + apply last_Some in El as [p' ->]. apply Z.eqb_eq in Hc as ->.
      rewrite reverse_app, reverse_snoc, T, reverse_involutive; auto.
    + rewrite reverse_app, reverse_cons, <- app_assoc, T, reverse_involutive; auto.
  - rewrite <- (app_nil_r (reverse n)), T, reverse_involutive; auto.
Qed.

Lemma head_entries_ok w d p dl dl' : converts d = true -> Forall entry_ok dl ->
  head_entries w d p dl = Head dl' -> Forall entry_ok dl'.
Proof.
  intros Hc Hdl. unfold head_entries. destruct dl as [|e dl].
  - destruct (equivalent w p (root d)) as [[]|]; intros [= <-].
    + destruct (has_volume_label d); [|done]. constructor; [|done]. by apply entry_volume.
    + unfold dot_entries. cbn [fmap list_fmap]. rewrite !Forall_cons. split_and!; [| |done];
        (eapply entry_dot; [|apply entry_for_fcb|by apply entry_for_name]; auto).
  - case_match; intros [= <-]. done.
Qed.

Lemma list_entries_ok w d p names dl used : converts d = true -> Forall entry_ok dl ->
  Forall (fun n => is_filename n /\ n <> DOT /\ n <> DOTDOT) names ->
  Forall entry_ok (list_entries tmap w d p names dl used).1.1.
Proof.
  intros Hc Hdl Hn. revert dl used Hdl.
  induction Hn as [|n names (Hf & H1 & H2) _ IH]; intros dl used Hdl; [done|].
  cbn [list_entries]. destruct (head_entries w d p dl) as [| |dl'] eqn:E; [done|done|].
  apply head_entries_ok in E; [|done|done]. rewrite Hc, filename_append by done.
  destruct (file_name_to_83 tmap n used) as [[f used'] ok] eqn:Ef.
  apply IH. apply Forall_app. split; [done|]. constructor; [|done].
  apply file_name_to_83_props in Ef as (D & _).
  apply entry_file; rewrite ?entry_for_fcb, ?entry_for_name by done; [done|done|].
  by apply climb_filename.
Qed.

(** The list never outgrows 16 bits. *)
Lemma head_entries_length w d p dl dl' : head_entries w d p dl = Head dl' ->
  zlen dl <= 0xFFFF -> zlen dl' <= 0xFFFE.
Proof.
  unfold head_entries. destruct dl as [|e dl].
  - destruct (equivalent w p (root d)) as [[]|]; [| |done]; intros [= <-] _; [case_match|];
      vm_compute; discriminate.
  - intros H Hl. destruct (Z.eqb_spec (zlen (e :: dl)) 0xFFFF) as [E|E]; simplify_eq. lia.
Qed.

Lemma list_entries_length w d p names dl used : zlen dl <= 0xFFFF ->
  zlen (list_entries tmap w d p names dl used).1.1 <= 0xFFFF.
Proof.
  revert dl used. induction names as [|n names IH]; intros dl used Hl; [done|].
  cbn [list_entries]. destruct (head_entries w d p dl) as [| |dl'] eqn:E; [done|done|].
  apply head_entries_length in E; [|done].
  destruct (if converts d then _ else _) as [f used']. apply IH.
  rewrite length_app. simpl. lia.
Qed.

Abbreviation fcbs_wf dl := (Forall (fun e => fcb_wf (fcb_name e)) dl).

Lemma head_entries_wf w d p dl dl' : fcb_wf (volume_label d) -> fcbs_wf dl ->
  head_entries w d p dl = Head dl' -> fcbs_wf dl'.
Proof.
  intros Hv Hdl. unfold head_entries. destruct dl as [|e dl].
  - destruct (equivalent w p (root d)) as [[]|]; intros [= <-].
    + destruct (has_volume_label d); [|done]. by constructor.
    + unfold dot_entries. cbn [fmap list_fmap]. rewrite !Forall_cons, !entry_for_fcb. auto.
  - case_match; intros [= <-]. done.
Qed.

Lemma list_entries_wf w d p names dl used : fcb_wf (volume_label d) -> fcbs_wf dl ->
  fcbs_wf (list_entries tmap w d p names dl used).1.1.
Proof.
  intros Hv. revert dl used. induction names as [|n names IH]; intros dl used Hdl; [done|].
  cbn [list_entries]. destruct (head_entries w d p dl) as [| |dl'] eqn:E; [done|done|].
  apply head_entries_wf in E; [|done|done].
  destruct (if converts d then _ else _) as [f used'] eqn:Ef. apply IH.
  apply Forall_app. split; [done|]. constructor; [|done]. rewrite entry_for_fcb.
  destruct (converts d); [|by injection Ef as <- <-].
  destruct (file_name_to_83 tmap _ used) as [[f' u] ok] eqn:E83. injection Ef as <- <-.
  apply file_name_to_83_props in E83 as ([] & _). done.
Qed.

Lemma list_directory_props w d i : fcb_wf (volume_label d) ->
  let i' := (list_directory tmap w d i).1 in
  item_path i' = item_path i
  /\ zlen (directory_list i') <= 0xFFFF
  /\ (converts d = true -> Forall entry_ok (directory_list i'))
  /\ fcbs_wf (directory_list i').
Proof.
  intros Hv.
  unfold list_directory.
  pose proof (directory_iterator_names w (item_path i)) as Hn.
  destruct (directory_iterator w (item_path i)) as [names err]. simpl in Hn.
  pose proof (list_entries_length w d (item_path i) names [] [] ltac:(simpl; lia)) as Hl.
  pose proof (fun Hc => list_entries_ok w d (item_path i) names [] [] Hc (List.Forall_nil _) Hn)
    as He.
  pose proof (list_entries_wf w d (item_path i) names [] [] Hv (List.Forall_nil _)) as Hw.
  destruct (list_entries tmap w d (item_path i) names [] []) as [[dl u] ended]. simpl in *.
  destruct ended, err; simpl; auto.
Qed.

Lemma converts_config d : config d = config cfg -> converts d = converts cfg.
Proof. intros E. unfold converts. apply (f_equal name_conversion) in E. simpl in E. by rewrite E. Qed.

Lemma table_ok_insert its h i i' : table_ok its -> its !! h = Some i ->
  item_path i' = item_path i -> zlen (directory_list i') <= 0xFFFF -> table_ok (<[h := i']> its).
Proof.
  intros Ht Hh Hp Hl. apply table_ok_lookup in Ht as (S & PL & U). apply table_ok_lookup.
  rewrite length_insert. split; [done|].
  assert (forall j e, <[h := i']> its !! j = Some e -> exists e', its !! j = Some e'
    /\ item_path e = item_path e' /\ zlen (directory_list e) <= 0xFFFF) as A.
  { intros j e. destruct (decide (j = h)) as [->|Hj].
    - rewrite list_lookup_insert_eq by (by eapply lookup_lt_Some). intros [= <-]. eauto.
    - rewrite list_lookup_insert_ne by done. intros He. destruct (PL _ _ He). eauto. }
  split.
  - intros j e (e' & Hj & -> & ?)%A. split; [by eapply PL|done].
  - intros j k e e' (x & Hx & -> & _)%A (y & Hy & -> & _)%A. by apply U.
Qed.

(** The label of the drive is a padded name. *)
Context (Hlabel : fcb_wf (volume_label cfg)).

Lemma create_directory_list_runs h : runs (create_directory_list (W:=W) tmap h) (fun _ => True).
Proof.
  intros s Hs. unfold create_directory_list, bind, gets. cbn [id].
  destruct (items (drive s) !! h) as [i|] eqn:Ei; [|by split_and!].
  pose proof (list_directory_props (world s) (drive s) i) as P.
  destruct (list_directory tmap (world s) (drive s) i) as [i' n]. simpl in P.
  destruct Hs as [Hc Ht Hi]. destruct P as (Hp & Hl & He & Hw).
  { apply (f_equal volume_label) in Hc. simpl in Hc. by rewrite Hc. }
  cbn [modify ret fst snd].
  split_and!; [|by apply machine_same|done]. split; [exact Hc| |].
  - by eapply table_ok_insert.
  - apply Forall_insert; [done|]. rewrite Forall_lookup in Hi. destruct (Hi _ _ Ei).
    split; [by rewrite Hp| |done]. intros ?. apply He. by rewrite converts_config.
Qed.

Hint Resolve put_items_runs gets_drive_runs gets_items_runs get_item_runs touch_runs
  get_handle_runs create_directory_list_runs : triple.

(** What [find_file] finds has a padded name and a position of 16 bits. *)
Definition found_ok (r : option (DosFileProperties * nat)) : Prop :=
  match r with
  | Some (e, n) => fcb_wf (fcb_name e) /\ Z.of_nat n <= 0xFFFF
  | None => True
  end.

Lemma find_entry_In tmpl attr n dl k e : find_entry tmpl attr n dl = Some (k, e) ->
  e ∈ dl /\ (n <= k < n + length dl)%nat.
Proof.
  revert n. induction dl as [|x dl IH]; intros n; [done|]. cbn [find_entry].
  case_match; [intros [= <- <-]|intros [? ?]%IH]; simpl; (split; [|lia]).
  - by left.
  - by right.
Qed.

Lemma find_file_runs h tmpl attr nth : runs (find_file (W:=W) tmap h tmpl attr nth) found_ok.
Proof.
  unfold find_file. destruct (attr =? FAT_VOLUME).
  - eapply triple_bind; [apply _|apply gets_drive_runs|]. intros d Hd.
    assert (volume_label d = volume_label cfg) as Hl by (by apply (f_equal volume_label) in Hd).
    triple_tac. simpl. by rewrite Hl.
  - triple_step. eapply triple_bind with (P := fun _ => True); [apply _|triple_tac|]. intros n _.
    destruct (n <? 0); [triple_tac|].
    eapply triple_bind with (P := fun dl => fcbs_wf dl /\ zlen dl <= 0xFFFF); [apply _| |].
    { apply triple_gets; [apply _|]. intros s [_ Ht Hi].
      destruct (items (drive s) !! h) as [i|] eqn:E; [|split; [done|vm_compute; discriminate]].
      rewrite Forall_lookup in Hi. split; [by apply (Hi _ _ E)|].
      apply table_ok_lookup in Ht as (_ & Ht & _). by apply (Ht _ _ E). }
    intros dl [Hw Hl]. destruct (find_entry tmpl attr nth (drop nth dl)) as [[k e]|] eqn:E;
      [|triple_tac].
    apply find_entry_In in E as [He Hk]. rewrite length_drop in Hk.
    apply triple_ret; [apply _|]. rewrite Forall_forall in Hw. split; [|lia].
    apply Hw. rewrite <- (take_drop nth dl). apply elem_of_app. by right.
Qed.

(** *** Client paths *)

(** What [get_server_name] finds for an FCB name. *)
Definition found_name (fcb : fcb_file_name) (name : path) : Prop :=
  name = [] \/ exists e, entry_ok e /\ negb (attrs e =? FAT_VOLUME) = true
                        /\ fcb_eqb (fcb_name e) fcb = true /\ server_name e = name.

Lemma get_server_name_runs h fcb recreate : converts cfg = true ->
  runs (get_server_name (W:=W) tmap h fcb recreate) (found_name fcb).
Proof.
  intros Hc. unfold get_server_name.
  eapply triple_bind with (P := fun _ => True); [apply _|by apply triple_gets; [apply _|]|].
  intros stale _. eapply triple_bind with (P := fun _ => True); [apply _|triple_tac|].
  intros _ _.
  eapply triple_bind with (P := fun i => Forall entry_ok (directory_list i)); [apply _| |].
  { apply triple_gets; [apply _|]. intros s [_ _ Hi].
    destruct (items (drive s) !! h) as [i|] eqn:E; [|constructor].
    rewrite Forall_lookup in Hi. by apply (Hi _ _ E). }
  intros item He. destruct (list_find _ _) as [[n e]|] eqn:Ef.
  2: { apply triple_ret; [apply _|]. by left. }
  apply list_find_Some in Ef as (Hn & Hm & _).
  eapply triple_bind with (P := fun _ => True); [apply _|by apply triple_query; [apply _|]|].
  intros there _. eapply triple_bind with (P := fun _ => True); [apply _|triple_tac|].
  intros link _. destruct (negb there && negb link).
  - eapply triple_bind with (P := fun _ => True); [apply _| |].
    + apply update_item_runs; [done| |].
      * intros i. simpl. rewrite delete_take_drop, length_app, length_take, length_drop. lia.
      * intros i P Hi. simpl. by apply Forall_delete.
    + intros _ _. apply triple_ret; [apply _|]. by left.
  - apply triple_ret; [apply _|]. right. exists e.
    apply andb_prop in Hm as [Hm1 Hm2].
    split_and!; [|done|done|done]. rewrite Forall_lookup in He. by eapply He.
Qed.

(** The name of the entry climbs no less than the component it stands for. *)
Lemma found_name_climb part name : (strict = true -> plain_part part) ->
  found_name (short_name_to_fcb part) name ->
  name = [] \/ is_filename name /\ (strict = true -> climb part <= climb name).
Proof.
  intros Hp [->|(e & He & Hv & Hm & <-)]; [by left|]. right.
  destruct He as [Ha Hs|n Hn Hf Hs|Hd Hf Hs].
  - by rewrite Ha in Hv.
  - rewrite Hs. rewrite Hf in Hm. split.
    + destruct Hn as [-> | ->]; (split; [done|by repeat constructor]).
    + intros St. destruct (Hp St) as [P1 P2].
      destruct Hn as [-> | ->]; [rewrite (P1 Hm)|rewrite (P2 Hm)]; lia.
  - split; [done|]. intros _. rewrite Hs. apply climb_le_1.
Qed.

(** What [create_server_path] promises about the path it returns: it is below
    the root, and unless it is the root itself its parent is a directory path
    below the root. *)
Definition server_path_ok (p : path) : Prop :=
  below p
  /\ (elements p <> elements (root cfg) -> below (parent_path p) /\ directory_path (parent_path p)).

(** A path with a parent of its own. *)
Definition child_ok (p : path) : Prop :=
  below p /\ below (parent_path p) /\ directory_path (parent_path p).

(** The level of a path, when it is followed. *)
Definition level_is (p : path) (n : Z) : Prop := strict = true -> at_level (root cfg) p n.

Lemma child_ok_append d n q : directory_path d -> level_is d n ->
  (q = [] \/ is_filename q /\ (strict = true -> 0 <= n + climb q)) ->
  child_ok (path_append d q).
Proof.
  intros Hd Hn Hq.
  assert (strict = true -> within (root cfg) (path_append d q)) as Hw.
  { intros St. destruct Hq as [-> | [Hq Hc]].
    - eexists. by apply at_level_append_nil; [|apply Hn].
    - eexists. apply at_level_append; auto. }
  assert (path_append d q <> []) as Hne.
  { destruct Hq as [-> | [Hq _]].
    - rewrite path_append_nil by done. apply directory_path_ne in Hd. by destruct d.
    - by apply directory_path_ne, directory_path_append. }
  split; [done|]. rewrite parent_path_append by (try done; naive_solver).
  split; [|done]. split; [by apply directory_path_ne|]. intros St. exists n. by apply Hn.
Qed.

Context (Hroot : directory_path (root cfg)).

Lemma root_ok : server_path_ok (root cfg).
Proof.
  split; [|done]. split; [by apply directory_path_ne|]. intros _. exists 0. apply at_level_root.
Qed.

Lemma walk_runs parts sp n recreate : converts cfg = true ->
  directory_path sp -> level_is sp n ->
  (strict = true -> Forall plain_part parts) ->
  Forall (fun part => part = [] \/ is_filename part) parts ->
  (strict = true -> forall k, 0 <= n + level (take k parts)) -> parts <> [] ->
  runs (walk (W:=W) tmap sp parts recreate) (fun r => child_ok r.1).
Proof.
  intros Hc. revert sp n. induction parts as [|part rest IH]; intros sp n Hd Hn Hplain Hf Hl Hne;
    [done|]. cbn [walk].
  eapply triple_bind; [apply _| |].
  { apply get_handle_runs. split; [by apply directory_path_ne|]. intros St. exists n. by apply Hn. }
  intros h _. eapply triple_bind; [apply _|by apply get_server_name_runs|].
  intros name Hname. apply Forall_cons in Hf as [Hf1 Hf].
  apply found_name_climb in Hname; [|intros St; by apply Hplain, Forall_cons in St as []].
  assert (strict = true -> 0 <= n + climb part) as Hl1.
  { intros St. specialize (Hl St 1%nat). change (0 <= n + (climb part + 0)) in Hl. lia. }
  destruct (nonempty name) eqn:En; cbn [negb].
  - destruct Hname as [->|[Hfn Hcl]]; [done|].
    assert (strict = true -> 0 <= n + climb name) as Hge
      by (intros St; specialize (Hcl St); specialize (Hl1 St); lia).
    destruct rest as [|part2 rest].
    + apply triple_ret; [apply _|]. apply (child_ok_append sp n); [done..|by right].
    + apply (IH _ (n + climb name)); try done; [by apply directory_path_append| | |].
      * intros St. apply at_level_append; auto.
      * intros St. by apply Hplain, Forall_cons in St as [].
      * intros St k. specialize (Hl St (S k)). cbn [take level foldr] in Hl.
        fold (level (take k (part2 :: rest))) in Hl. specialize (Hcl St). lia.
  - destruct rest as [|part2 rest]; [|apply triple_throw; apply _].
    apply triple_ret; [apply _|]. apply (child_ok_append sp n); [done..|].
    destruct Hf1 as [->|Hf1]; [by left|by right].
Qed.

(** The client path leads somewhere below the root. *)
Definition proper (p : path) : bool := nonempty p && negb (check_path_depth p =? 0).

Lemma create_server_path_runs p recreate : is_absolute p = false ->
  (strict = true -> converts cfg = true -> plain_path p) ->
  runs (create_server_path (W:=W) tmap p recreate)
    (fun r => if proper p then child_ok r.1 else r.1 = root cfg).
Proof.
  intros Ha Hplain. unfold create_server_path, proper.
  eapply triple_bind; [apply _|apply gets_drive_runs|]. intros d Hd.
  assert (root d = root cfg) as Hrd by (by apply (f_equal root) in Hd).
  destruct p as [|c p]; [by apply triple_ret; [apply _|]|].
  set (q := c :: p) in *. destruct (Z.ltb_spec (check_path_depth q) 0); [apply triple_throw; apply _|].
  destruct (Z.eqb_spec (check_path_depth q) 0); [by apply triple_ret; [apply _|]|].
  cbn [nonempty negb andb].
  pose proof (converts_config d Hd) as Hcv. unfold converts in Hcv at 1.
  destruct (bool_decide (name_conversion d = OFF)) eqn:Eoff.
  - assert (child_ok (path_append (root d) q)) as Hok.
    { rewrite Hrd. pose proof (at_level_client (root cfg) q Hroot ltac:(done) Ha ltac:(lia)) as Hl.
      split; [split; [|intros _; by eexists]|].
      - unfold path_append. rewrite Ha. pose proof (directory_path_ne _ Hroot).
        destruct (last (root cfg)) eqn:El; [|by apply last_None in El].
        case_match; by destruct (root cfg).
      - assert (elements (path_append (root cfg) q) <> elements (root cfg)) as Hne.
        { rewrite elements_append by done. intros E. apply (f_equal length) in E.
          rewrite length_app in E. pose proof (elements_ne q ltac:(done)).
          destruct (elements q); [done|]. simpl in E. lia. }
        destruct (within_parent (root cfg) _ _ Hroot Hl Hne) as (Hw & Hd' & Hp'). done. }
    triple_tac.
  - rewrite Hrd. apply (walk_runs _ _ 0); [by rewrite <- Hcv|done|intros _; apply at_level_root|
      intros St; by apply Hplain; [|rewrite <- Hcv]|by apply elements_relative| |].
    + intros _ k. unfold check_path_depth in *.
      destruct (check_depth_loop_spec 0 (elements q) ltac:(lia)) as [[E _]|[_ Hk]]; [lia|].
      apply Hk.
    + by apply elements_ne.
Qed.

Lemma path_result_ok p q : (if proper p then child_ok q else q = root cfg) -> server_path_ok q.
Proof.
  destruct (proper p); [intros (? & ? & ?); by split|]. intros ->. apply root_ok.
Qed.

(** *** The operations *)

(** The paths requests are answered for. *)
Definition client_ok (p : path) : Prop :=
  is_absolute p = false /\ (strict = true -> converts cfg = true -> plain_path p).

Lemma create_server_path_ok p recreate : client_ok p ->
  runs (create_server_path (W:=W) tmap p recreate) (fun r => server_path_ok r.1).
Proof.
  intros []. eapply triple_conseq; [by apply create_server_path_runs|].
  intros r. apply path_result_ok.
Qed.
Hint Resolve create_server_path_ok : triple.

Lemma lift_runs {A} (m : M W A) : read_only cfg = false ->
  keeps (rtc (host_step attr_step below)) m -> runs (lift_w m) (fun _ => True).
Proof.
  intros Hro Hm s [Hc Ht Hi]. unfold lift_w. specialize (Hm (world s)).
  destruct (m (world s)) as [r w]. simpl in *. split_and!; [by split| |done].
  unfold machine_step. by rewrite Hro.
Qed.

Lemma lift_pure_runs {A} (m : M W A) :
  keeps (rtc (host_step attr_step (fun _ => False))) m -> runs (lift_w m) (fun _ => True).
Proof.
  intros Hm s [Hc Ht Hi]. unfold lift_w. specialize (Hm (world s)).
  destruct (m (world s)) as [r w]. simpl in *. split_and!; [by split| |done].
  apply machine_same. simpl. inversion Hm as [|x y z Hs _]; [done|]. by inversion Hs.
Qed.

Lemma check_writable_runs : runs (check_writable (W:=W)) (fun _ => read_only cfg = false).
Proof.
  unfold check_writable. eapply triple_bind; [apply _|apply gets_drive_runs|]. intros d Hd.
  assert (read_only d = read_only cfg) as Hr by (by apply (f_equal read_only) in Hd).
  destruct (read_only d) eqn:E; [apply triple_throw; apply _|]. apply triple_ret; [apply _|].
  congruence.
Qed.

Lemma check_not_root_runs p :
  runs (check_not_root (W:=W) p) (fun _ => elements p <> elements (root cfg)).
Proof.
  unfold check_not_root. eapply triple_bind; [apply _|apply gets_drive_runs|]. intros d Hd.
  assert (root d = root cfg) as Hr by (by apply (f_equal root) in Hd).
  destruct (path_eqb p (root d)) eqn:E; [apply triple_throw; apply _|].
  apply triple_ret; [apply _|]. rewrite <- Hr. intros Ee. by apply path_eqb_eq in Ee; rewrite Ee in E.
Qed.
Hint Resolve check_writable_runs check_not_root_runs : triple.

Lemma server_path_below p : server_path_ok p -> below p.
Proof. by intros []. Qed.
Lemma item_ok_below i n : item_ok i /\ zlen (directory_list i) <= n -> below (item_path i).
Proof. by intros [[] _]. Qed.
Hint Resolve server_path_below item_ok_below : triple.

Hint Extern 4 (triple _ _ (lift_w _) _) =>
  apply lift_runs; [assumption | solve [eauto with keeps triple]] : triple.

Lemma make_dir_runs p : client_ok p -> runs (make_dir (W:=W) tmap p) (fun _ => True).
Proof. intros. unfold make_dir. triple_tac. Qed.
Lemma delete_dir_runs p : client_ok p -> runs (delete_dir (W:=W) tmap p) (fun _ => True).
Proof. intros. unfold delete_dir. triple_tac. Qed.
Lemma set_item_attrs_runs p a :
  client_ok p -> runs (set_item_attrs (W:=W) tmap p a) (fun _ => True).
Proof. intros. unfold set_item_attrs. triple_tac. Qed.
Lemma server_properties_runs p :
  runs (get_server_path_dos_properties (W:=W) p) (fun _ => True).
Proof. by apply triple_gets; [apply _|]. Qed.
Lemma server_attrs_runs p : runs (get_server_path_attrs (W:=W) p) (fun _ => True).
Proof. by apply triple_query; [apply _|]. Qed.
Lemma attrs_or_zero_runs p : runs (attrs_or_zero (W:=W) p) (fun _ => True).
Proof. unfold attrs_or_zero. apply triple_try; [apply _|apply server_attrs_runs|]. intros. triple_tac. Qed.
Hint Resolve server_properties_runs server_attrs_runs attrs_or_zero_runs : triple.

Lemma get_dos_properties_runs p :
  client_ok p -> runs (get_dos_properties (W:=W) tmap p) (fun _ => True).
Proof. intros. unfold get_dos_properties. triple_tac. Qed.
Lemma rename_file_runs p q : client_ok p -> client_ok q ->
  runs (rename_file (W:=W) tmap p q) (fun _ => True).
Proof.
  intros. unfold rename_file. triple_step. triple_step. triple_step. triple_step.
  eapply triple_bind with (P := fun r => server_path_ok r.1); [apply _| |].
  { apply triple_try; [apply _|by apply create_server_path_ok|]. intros. triple_tac. }
  intros r Hr. triple_tac.
Qed.

(** Deleting below a directory: names from the directory itself, and entries
    of a directory list. *)
Lemma below_name d q : directory_path d -> below d -> is_filename q ->
  climb q = 1 -> below (path_append d q).
Proof.
  intros Hd [Hne Hb] Hq Hc. split; [by apply directory_path_ne, directory_path_append|].
  intros St. destruct (Hb St) as [n Hn]. exists (n + 1). rewrite <- Hc.
  apply at_level_nonneg in Hn as ?. apply at_level_append; [done..|lia].
Qed.

Lemma below_nil d : directory_path d -> below d -> below (path_append d []).
Proof.
  intros Hd [Hne Hb]. split.
  - rewrite path_append_nil by done. by destruct d.
  - intros St. destruct (Hb St) as [n Hn]. exists n. by apply at_level_append_nil.
Qed.

Lemma delete_in_directory_runs f d names : read_only cfg = false ->
  directory_path d -> below d ->
  Forall (fun n => is_filename n /\ n <> DOT /\ n <> DOTDOT) names ->
  runs (delete_in_directory (W:=W) f d names) (fun _ => True).
Proof.
  intros Hro Hd Hb Hn. induction Hn as [|n names (Hf & H1 & H2) _ IH]; simpl; [triple_tac|].
  assert (below (path_append d n)) by (apply below_name; eauto using climb_filename).
  triple_tac.
Qed.

(** The dot entries are directories, which [delete_file] refuses. *)
Lemma delete_file_dot w d n : n = DOT \/ n = DOTDOT ->
  (delete_file (W:=W) (path_append d n) w).2 = w.
Proof.
  intros Hn. unfold delete_file, bind, query, exists_, is_symlink, is_directory, std_throw.
  pose proof (status_dot w d n Hn) as S1. pose proof (symlink_status_dot w d n Hn) as S2.
  destruct (status w (path_append d n)) as [e|t] eqn:E1; [done|].
  destruct S1 as [-> | ->]; simpl; [by rewrite E1|].
  destruct (symlink_status w (path_append d n)) as [e|t2] eqn:E2; [done|].
  by destruct S2 as [-> | ->].
Qed.

Lemma delete_in_list_runs f d dl : read_only cfg = false -> converts cfg = true ->
  directory_path d -> below d -> Forall entry_ok dl ->
  runs (delete_in_list (W:=W) f d dl) (fun _ => True).
Proof.
  intros Hro Hc Hd Hb He. induction He as [|e dl He _ IH]; simpl; [triple_tac|].
  assert (runs (lift_w (delete_file (path_append d (server_name e)))) (fun _ => True)) as Hdel.
  { destruct He as [_ ->|n Hn _ ->|_ Hf Hcl].
    - apply lift_runs; [done|]. apply keeps_delete_file.
      by apply below_nil.
    - intros s [Hcf Ht Hi]. unfold lift_w. pose proof (delete_file_dot (world s) d n Hn) as E.
      destruct (delete_file _ (world s)) as [r w]. simpl in *. subst w.
      split_and!; [by split|by apply machine_same|done].
    - apply lift_runs; [done|]. apply keeps_delete_file. by apply below_name. }
  triple_tac.
Qed.

Lemma delete_files_runs p : client_ok p -> runs (delete_files (W:=W) tmap p) (fun _ => True).
Proof.
  intros Hp. unfold delete_files. triple_step. triple_step. triple_step. triple_step.
  destruct b; [triple_tac|]. destruct (negb _); [triple_tac|].
  match goal with
  | h : server_path_ok ?x, h' : elements ?x <> _ |- _ => destruct (proj2 h h') as [Hb Hd]
  end.
  eapply triple_bind; [apply _|apply gets_drive_runs|]. intros d Hcd.
  pose proof (converts_config d Hcd) as Hcv. unfold converts in Hcv at 1.
  destruct (bool_decide (name_conversion d = OFF)).
  - eapply triple_bind with
      (P := fun r => Forall (fun n => is_filename n /\ n <> DOT /\ n <> DOTDOT) r.1); [apply _| |].
    { apply triple_gets; [apply _|]. intros s _. apply directory_iterator_names. }
    intros [names err] Hn. eapply triple_bind; [apply _|by apply delete_in_directory_runs|].
    intros _ _. triple_tac.
  - eapply triple_bind; [apply _|by apply get_handle_runs|]. intros h _.
    eapply triple_bind with (P := fun i => Forall entry_ok (directory_list i)); [apply _| |].
    { apply triple_gets; [apply _|]. intros s [_ _ Hi].
      destruct (items (drive s) !! h) as [i|] eqn:E; [|constructor].
      rewrite Forall_lookup in Hi. apply (Hi _ _ E). by rewrite <- Hcv. }
    intros i Hi. by apply delete_in_list_runs.
Qed.

Lemma change_dir_runs p : client_ok p -> runs (change_dir (W:=W) tmap p) (fun _ => True).
Proof.
  intros. unfold change_dir. triple_step. triple_step. triple_step; [triple_tac|].
  eapply triple_bind with (P := fun _ => True); [apply _| |].
  - apply lift_pure_runs, keeps_change_dir.
  - intros _ _. apply triple_modify; [|done]. intros s [Hc Ht Hi].
    split; [by split|by apply machine_same].
Qed.

Lemma create_or_truncate_runs p a c : below p ->
  runs (create_or_truncate_file (W:=W) p a c) (fun _ => True).
Proof. intros. unfold create_or_truncate_file. triple_tac. Qed.

Lemma try_open_runs p m c : runs (try_open_file (W:=W) p m c) (fun _ => True).
Proof.
  unfold try_open_file. triple_tac. apply lift_pure_runs, keeps_try_open.
Qed.

Lemma space_info_runs : runs (space_info (W:=W)) (fun _ => True).
Proof. unfold space_info. triple_tac. Qed.

Lemma get_handle_path_runs h : runs (get_handle_path (W:=W) h) (fun _ => True).
Proof. unfold get_handle_path. triple_tac. Qed.

Lemma read_file_runs h off len : 0 <= len ->
  runs (read_file (W:=W) h off len) (fun bs => zlen bs <= len).
Proof.
  intros. unfold read_file. triple_tac. apply triple_gets; [apply _|].
  intros s _. by apply fread_length.
Qed.

Lemma write_file_runs buf h off :
  runs (write_file (W:=W) buf h off) (fun n => 0 <= n <= zlen buf).
Proof.
  unfold write_file. triple_tac.
  - cbv beta. lia.
  - intros s Hs. unfold lift_w, c_call.
    match goal with h : item_ok ?i /\ _ |- _ => destruct h as [[Hb _] _] end.
    pose proof (fwrite_count (item_path a0) off buf (world s)) as Hf.
    pose proof (step_fwrite attr_step below (world s) (item_path a0) off buf Hb) as Hs'.
    destruct (fwrite (item_path a0) off buf (world s)) as [n w]. simpl in *. destruct Hs.
    split_and!; [by split| |by intros x [= <-]].
    unfold machine_step. destruct (read_only cfg); [done|]. by apply rtc_once.
Qed.

Lemma get_file_size_runs h : runs (get_file_size (W:=W) h) (fun _ => True).
Proof. unfold get_file_size. triple_tac. Qed.

Lemma set_file_date_time_runs h t : runs (set_file_date_time (W:=W) h t) (fun _ => True).
Proof.
  unfold set_file_date_time. triple_step. triple_step.
  assert (read_only a0 = read_only cfg) as Hr by (by apply (f_equal read_only) in H0).
  destruct (read_only a0) eqn:E; [triple_tac|]. symmetry in Hr. triple_tac.
Qed.
End Inv.
