(* ===== verification/Protocol.v ===== *)
(** * Protocol: the request handlers (process_request of netmount-server.cpp,
    packets of shared/drvproto.h)

    One definition per INT 2Fh function, from the request data behind the
    header to the reply: the DOS return code, the reply data and the
    extended-features flag.  A handler that returns -1 in the code answers
    [Ignored].  Packets are read and written in the byte order of the machine
    through the conversions of utils.hpp. *)
From S2P Require Import Prelude Words Paths FatTime Host Attrs Unicode Fcb Files Drive.
From S2P Require Import DriveOps.

(** ** Function numbers and flags (shared/dos.h, shared/drvproto.h) *)

Abbreviation INT2F_REMOVE_DIR := 0x01 (only parsing).
Abbreviation INT2F_MAKE_DIR := 0x03 (only parsing).
Abbreviation INT2F_CHANGE_DIR := 0x05 (only parsing).
Abbreviation INT2F_CLOSE_FILE := 0x06 (only parsing).
Abbreviation INT2F_READ_FILE := 0x08 (only parsing).
Abbreviation INT2F_WRITE_FILE := 0x09 (only parsing).
Abbreviation INT2F_LOCK_UNLOCK_FILE := 0x0A (only parsing).
Abbreviation INT2F_UNLOCK_FILE := 0x0B (only parsing).
Abbreviation INT2F_DISK_INFO := 0x0C (only parsing).
Abbreviation INT2F_SET_ATTRS := 0x0E (only parsing).
Abbreviation INT2F_GET_ATTRS := 0x0F (only parsing).
Abbreviation INT2F_RENAME_FILE := 0x11 (only parsing).
Abbreviation INT2F_DELETE_FILE := 0x13 (only parsing).
Abbreviation INT2F_OPEN_FILE := 0x16 (only parsing).
Abbreviation INT2F_CREATE_FILE := 0x17 (only parsing).
Abbreviation INT2F_FIND_FIRST := 0x1B (only parsing).
Abbreviation INT2F_FIND_NEXT := 0x1C (only parsing).
Abbreviation INT2F_SEEK_FROM_END := 0x21 (only parsing).
Abbreviation INT2F_EXTENDED_OPEN_CREATE_FILE := 0x2E (only parsing).
Abbreviation INT2F_DISK_INFO_LARGE := 0xA3 (only parsing).
Abbreviation INT2F_NETMOUNT_FEATURE_QUERY := 0xFE (only parsing).

Abbreviation IF_EXIST_MASK := 0x0F (only parsing).
Abbreviation ACTION_CODE_OPEN_IF_EXIST := 0x01 (only parsing).
Abbreviation ACTION_CODE_REPLACE_IF_EXIST := 0x02 (only parsing).
Abbreviation IF_NOT_EXIST_MASK := 0xF0 (only parsing).
Abbreviation ACTION_CODE_CREATE_IF_NOT_EXIST := 0x10 (only parsing).

Abbreviation RESULT_CODE_OPENED := 1 (only parsing).
Abbreviation RESULT_CODE_CREATED := 2 (only parsing).
Abbreviation RESULT_CODE_TRUNCATED := 3 (only parsing).

(** ** Replies *)

Inductive reply :=
  | Ignored
  | Reply (return_code : Z) (data : bytes) (extended_features : bool).

(** Success, with the data. *)
Definition success (data : bytes) : reply := Reply DOS_EXTERR_NO_ERROR data true.
Definition failure (return_code : Z) : reply := Reply return_code [] true.

Definition get_dos_err_code (ex : exn) (default_dos_err_code : Z) : Z :=
  match ex with
  | FilesystemError code => code
  | StdFilesystemError directory_not_empty => DOS_EXTERR_ACCESS_DENIED
  | StdFilesystemError file_exists => DOS_EXTERR_ACCESS_DENIED
  | StdFilesystemError is_a_directory => DOS_EXTERR_ACCESS_DENIED
  | StdFilesystemError io_error => DOS_EXTERR_ACCESS_DENIED
  | StdFilesystemError no_such_file_or_directory => DOS_EXTERR_FILE_NOT_FOUND
  | StdFilesystemError not_a_directory => DOS_EXTERR_ACCESS_DENIED
  | StdFilesystemError permission_denied => DOS_EXTERR_ACCESS_DENIED
  | StdFilesystemError read_only_file_system => DOS_EXTERR_ACCESS_DENIED
  | StdFilesystemError other_errc => default_dos_err_code
  | RuntimeError => default_dos_err_code
  end.

(** [try { m } catch (const std::runtime_error & ex) { return_code = ...; }] *)
Definition catching {S} (default_code : Z) (m : M S reply) : M S reply :=
  try_catch m (fun ex => ret (failure (get_dos_err_code ex default_code))).

(** The fields of a found or opened file that every reply writes. *)
Section Layout.
Context `{Native}.

Definition fcb_bytes (f : fcb_file_name) : bytes := name_blank_padded f ++ ext_blank_padded f.

Definition get16 (data : bytes) (off : nat) : Z := from_little16 (load16 data off).
Definition get32 (data : bytes) (off : nat) : Z := from_little32 (load32 data off).
Definition put16 (x : Z) : bytes := store16 (to_little16 (u16 x)).
Definition put32 (x : Z) : bytes := store32 (to_little32 (u32 x)).
Definition put8 (x : Z) : bytes := [u8 x].

(** [drive_proto_get_attrs_reply] *)
Definition get_attrs_reply (p : DosFileProperties) : bytes :=
  put16 (time_date p) ++ put16 (Z.shiftr (time_date p) 16)
  ++ put16 (size p) ++ put16 (Z.shiftr (size p) 16) ++ put8 (attrs p).

(** [drive_proto_find_reply] *)
Definition find_reply (p : DosFileProperties) (handle fpos : nat) : bytes :=
  put8 (attrs p) ++ fcb_bytes (fcb_name p)
  ++ put16 (time_date p) ++ put16 (Z.shiftr (time_date p) 16) ++ put32 (size p)
  ++ put16 (Z.of_nat handle) ++ put16 (Z.of_nat fpos).

(** [drive_proto_open_create_reply] *)
Definition open_create_reply (p : DosFileProperties) (fcb : fcb_file_name) (handle : nat)
    (result_code mode : Z) : bytes :=
  put8 (attrs p) ++ fcb_bytes fcb ++ put32 (time_date p) ++ put32 (size p)
  ++ put16 (Z.of_nat handle) ++ put16 result_code ++ put8 mode.
End Layout.

(** ** Disk sizes *)

(** The loop that doubles the sector size, a [uint16_t], until the number of
    sectors is at most [limit]. *)
Fixpoint grow_sectors (fuel : nat) (limit bytes_per_sector total_sectors free_sectors : Z)
  : Z * Z * Z :=
  match fuel with
  | O => (bytes_per_sector, total_sectors, free_sectors)
  | S fuel =>
      if limit <? total_sectors
      then grow_sectors fuel limit (u16 (bytes_per_sector * 2)) (total_sectors / 2)
             (free_sectors / 2)
      else (bytes_per_sector, total_sectors, free_sectors)
  end.

(** One turn per bit of the number of sectors is enough. *)
Definition sector_turns : nat := 64.

Definition disk_sectors (limit_size limit_sectors fs_size free_space : Z) : Z * Z * Z :=
  let fs_size := if limit_size <? fs_size then limit_size else fs_size in
  let free_space := if limit_size <? free_space then limit_size else free_space in
  grow_sectors sector_turns limit_sectors 512 (fs_size / 512) (free_space / 512).

(** [0xFFFFFFFFUL * 0xFFFFU], for the width of [unsigned long]. *)
Definition large_limit (ulong_bits : Z) : Z := (0xFFFFFFFF * 0xFFFF) mod 2 ^ ulong_bits.

(** ** Seeking *)

(** The offset from the end, an [int32_t]. *)
Definition seek_offset (lo hi : Z) : Z := i32 (i32 (Z.shiftl hi 16) + lo).

(** "if the offset is positive, zero it", and the new position. *)
Definition seek_position (offset fsize : Z) : Z :=
  let offset := if 0 <? offset then 0 else offset in
  let offset := i32 (offset + fsize) in
  if offset <? 0 then 0 else offset.

Section Handlers.
Context {W : Type} `{!Host W, !DosAttrs W, CAL : !Calendar} `{Native}.
Context (tmap : translit_map).
(** The number of bits of [unsigned long]. *)
Context (ulong_bits : Z).

Abbreviation handler := (M (st W) reply).

(** [request_data_len] *)
Abbreviation data_len d := (zlen d).

(** INT2F_REMOVE_DIR, INT2F_MAKE_DIR *)
Definition handle_make_or_remove_dir (make : bool) (data : bytes) : handler :=
  if data_len data <? 1 then ret Ignored
  else
    let relative_path := create_relative_path data in
    catching DOS_EXTERR_PATH_NOT_FOUND
      (do* (if make then make_dir tmap relative_path else delete_dir tmap relative_path) in
       ret (success [])).

(** INT2F_CHANGE_DIR *)
Definition handle_change_dir (data : bytes) : handler :=
  if data_len data <? 1 then ret Ignored
  else
    let relative_path := create_relative_path data in
    catching DOS_EXTERR_PATH_NOT_FOUND
      (do* change_dir tmap relative_path in ret (success [])).

(** INT2F_CLOSE_FILE *)
Definition handle_close_file (extended_request : bool) (data : bytes) : handler :=
  let* d := gets drive in
  let extended_features := use_client_timestamp d in
  let reply_with code := ret (Reply code [] extended_features) in
  if extended_request then
    if negb (data_len data =? 6) then ret Ignored
    else
      let handle := Z.to_nat (get16 data 0) in
      let date_time := get32 data 2 in
      try_catch (do* set_file_date_time handle date_time in reply_with DOS_EXTERR_NO_ERROR)
        (fun ex => reply_with (get_dos_err_code ex DOS_EXTERR_NO_ERROR))
  else
    if negb (data_len data =? 2) then ret Ignored
    else
      let handle := Z.to_nat (get16 data 0) in
      try_catch (do* get_handle_path handle in reply_with DOS_EXTERR_NO_ERROR)
        (fun ex => reply_with (get_dos_err_code ex DOS_EXTERR_NO_ERROR)).

(** INT2F_READ_FILE *)
Definition handle_read_file (data : bytes) : handler :=
  if negb (data_len data =? 8) then ret Ignored
  else
    let offset := get32 data 0 in
    let handle := Z.to_nat (get16 data 4) in
    let len := get16 data 6 in
    catching DOS_EXTERR_ACCESS_DENIED
      (let* buffer := read_file handle offset len in ret (success buffer)).

(** INT2F_WRITE_FILE *)
Definition handle_write_file (data : bytes) : handler :=
  if data_len data <? 6 then ret Ignored
  else
    let offset := get32 data 0 in
    let handle := Z.to_nat (get16 data 4) in
    catching DOS_EXTERR_ACCESS_DENIED
      (let* write_len := write_file (drop 6 data) handle offset in
       ret (success (put16 write_len))).

(** INT2F_LOCK_UNLOCK_FILE, INT2F_UNLOCK_FILE *)
Definition handle_lock_file (data : bytes) : handler :=
  if data_len data <? 4 then ret Ignored
  else
    let handle := Z.to_nat (get16 data 2) in
    catching DOS_EXTERR_NO_ERROR
      (do* get_handle_path handle in ret (success [])).

(** INT2F_DISK_INFO *)
Definition handle_disk_info (data : bytes) : handler :=
  if negb (data_len data =? 0) then ret Ignored
  else
    try_catch
      (let* '(fs_size, free_space) := space_info in
       let '(bytes_per_sector, total_sectors, free_sectors) :=
         disk_sectors 0x7FFFFFFF 0xFFFF fs_size free_space in
       ret (Reply 1 (put16 total_sectors ++ put16 bytes_per_sector ++ put16 free_sectors) true))
      (fun _ => ret (failure DOS_EXTERR_ACCESS_DENIED)).

(** INT2F_DISK_INFO_LARGE *)
Definition handle_disk_info_large (data : bytes) : handler :=
  if negb (data_len data =? 0) then ret Ignored
  else
    try_catch
      (let* '(fs_size, free_space) := space_info in
       let '(bytes_per_sector, total_sectors, free_sectors) :=
         disk_sectors (large_limit ulong_bits) 0xFFFFFFFF fs_size free_space in
       ret (success (put32 total_sectors ++ put16 bytes_per_sector ++ put32 free_sectors)))
      (fun _ => ret (failure DOS_EXTERR_ACCESS_DENIED)).

(** INT2F_SET_ATTRS *)
Definition handle_set_attrs (data : bytes) : handler :=
  if data_len data <=? 1 then ret Ignored
  else
    let attrs := byte_at data 0 in
    let relative_path := create_relative_path (drop 1 data) in
    catching DOS_EXTERR_FILE_NOT_FOUND
      (do* set_item_attrs tmap relative_path attrs in ret (success [])).

(** INT2F_GET_ATTRS *)
Definition handle_get_attrs (data : bytes) : handler :=
  if data_len data <? 1 then ret Ignored
  else
    let relative_path := create_relative_path data in
    catching DOS_EXTERR_FILE_NOT_FOUND
      (let* '(properties, _) := get_dos_properties tmap relative_path in
       ret (success (get_attrs_reply properties))).

(** INT2F_RENAME_FILE *)
Definition handle_rename_file (data : bytes) : handler :=
  if data_len data <? 3 then ret Ignored
  else
    let path1_len := byte_at data 0 in
    if data_len data <=? path1_len + 1 then ret Ignored
    else
      let old_relative_path := create_relative_path (take (Z.to_nat path1_len) (drop 1 data)) in
      let new_relative_path := create_relative_path (drop (1 + Z.to_nat path1_len) data) in
      catching DOS_EXTERR_ACCESS_DENIED
        (do* rename_file tmap old_relative_path new_relative_path in ret (success [])).

(** INT2F_DELETE_FILE *)
Definition handle_delete_file (data : bytes) : handler :=
  if data_len data <? 1 then ret Ignored
  else
    let relative_path := create_relative_path data in
    catching DOS_EXTERR_FILE_NOT_FOUND
      (do* delete_files tmap relative_path in ret (success [])).

(** INT2F_FIND_FIRST: the directory is found inside the [try], the search is
    outside of it. *)
Definition find_first_handle (search_template : path) : M (st W) (result nat) :=
  try_catch
    (let* '(server_path, _) := create_server_path tmap search_template false in
     let* handle := get_handle (parent_path server_path) in
     ret (Ok handle))
    (fun ex => ret (Throw ex)).

Definition handle_find_first (data : bytes) : handler :=
  if data_len data <=? 1 then ret Ignored
  else
    let fattr := byte_at data 0 in
    let search_template := create_relative_path (drop 1 data) in
    let filemask := filename search_template in
    let filemaskfcb := short_name_to_fcb filemask in
    let* r := find_first_handle search_template in
    match r with
    | Throw ex => ret (failure (get_dos_err_code ex DOS_EXTERR_NO_MORE_FILES))
    | Ok handle =>
        if Z.of_nat handle =? 0xFFFF then ret (failure DOS_EXTERR_NO_MORE_FILES)
        else
          let* found := find_file tmap handle filemaskfcb fattr 0 in
          match found with
          | None => ret (failure DOS_EXTERR_NO_MORE_FILES)
          | Some (properties, fpos) => ret (success (find_reply properties handle fpos))
          end
    end.

(** INT2F_FIND_NEXT *)
Definition handle_find_next (data : bytes) : handler :=
  if negb (data_len data =? 16) then ret Ignored
  else
    let handle := Z.to_nat (get16 data 0) in
    let fpos := Z.to_nat (get16 data 2) in
    let fattr := byte_at data 4 in
    let fcbmask := mkFcb (take 8 (drop 5 data)) (take 3 (drop 13 data)) in
    try_catch
      (let* found := find_file tmap handle fcbmask fattr fpos in
       match found with
       | None => ret (failure DOS_EXTERR_NO_MORE_FILES)
       | Some (properties, fpos) => ret (success (find_reply properties handle fpos))
       end)
      (fun _ => ret (failure DOS_EXTERR_NO_MORE_FILES)).

(** INT2F_SEEK_FROM_END *)
Definition handle_seek_from_end (data : bytes) : handler :=
  if negb (data_len data =? 6) then ret Ignored
  else
    let offset := seek_offset (get16 data 0) (get16 data 2) in
    let handle := Z.to_nat (get16 data 4) in
    let* fsize := try_catch (get_file_size handle) (fun _ => ret (-1)) in
    if fsize <? 0 then ret (failure DOS_EXTERR_FILE_NOT_FOUND)
    else
      let position := seek_position offset fsize in
      ret (success (put16 position ++ put16 (Z.shiftr position 16))).

(** *** Opening and creating files

    Each part answers the properties, the open mode and the result code of
    the reply. *)
Abbreviation opened := (M (st W) (DosFileProperties * Z * Z)).

(** INT2F_OPEN_FILE *)
Definition open_file (server_path : path) (stack_attr : Z) : opened :=
  let result_open_mode := Z.land stack_attr 0xFF in
  let* '(properties, attr) := get_server_path_dos_properties server_path in
  if attr =? FAT_ERROR_ATTR then throw (FilesystemError DOS_EXTERR_FILE_NOT_FOUND)
  else
    do* try_open_file server_path result_open_mode attr in
    ret (properties, result_open_mode, 0).

(** INT2F_CREATE_FILE *)
Definition create_file (relative_path server_path : path) (stack_attr : Z) : opened :=
  let* exists1 := query (fun s => exists_ (world s) server_path) in
  let* attr := if exists1 then get_server_path_attrs server_path else ret FAT_ERROR_ATTR in
  let* properties := create_or_truncate_file server_path (Z.land stack_attr 0xFF) attr in
  do* (if negb exists1
       then do* create_server_path tmap relative_path true in ret tt else ret tt) in
  ret (properties, OPEN_MODE_RDWR, 0).

(** INT2F_EXTENDED_OPEN_CREATE_FILE *)
Definition extended_open_create_file (relative_path server_path : path)
    (stack_attr action_code ext_open_create_open_mode : Z) : opened :=
  let* '(properties, attr) := get_server_path_dos_properties server_path in
  let result_open_mode := Z.land ext_open_create_open_mode 0x7f in
  if attr =? FAT_ERROR_ATTR then
    if Z.land action_code IF_NOT_EXIST_MASK =? ACTION_CODE_CREATE_IF_NOT_EXIST then
      let* properties := create_or_truncate_file server_path (Z.land stack_attr 0xFF) attr in
      do* create_server_path tmap relative_path true in
      ret (properties, result_open_mode, RESULT_CODE_CREATED)
    else throw (FilesystemError DOS_EXTERR_FILE_NOT_FOUND)
  else if Z.land action_code IF_EXIST_MASK =? ACTION_CODE_OPEN_IF_EXIST then
    do* try_open_file server_path result_open_mode attr in
    ret (properties, result_open_mode, RESULT_CODE_OPENED)
  else if Z.land action_code IF_EXIST_MASK =? ACTION_CODE_REPLACE_IF_EXIST then
    let* properties := create_or_truncate_file server_path (Z.land stack_attr 0xFF) attr in
    ret (properties, result_open_mode, RESULT_CODE_TRUNCATED)
  else throw (FilesystemError DOS_EXTERR_FILE_ALREADY_EXISTS).

Definition handle_open_create (function : Z) (data : bytes) : handler :=
  if data_len data <=? 6 then ret Ignored
  else
    let stack_attr := get16 data 0 in
    let action_code := get16 data 2 in
    let ext_open_create_open_mode := get16 data 4 in
    let relative_path := create_relative_path (drop 6 data) in
    catching DOS_EXTERR_FILE_NOT_FOUND
      (let* '(server_path, _) := create_server_path tmap relative_path false in
       do* check_not_root server_path in
       let server_directory := parent_path server_path in
       let* is_dir := query (fun s => is_directory (world s) server_directory) in
       if negb is_dir then ret (failure DOS_EXTERR_PATH_NOT_FOUND)
       else
         let* '(properties, result_open_mode, result_code) :=
           if function =? INT2F_OPEN_FILE then open_file server_path stack_attr
           else if function =? INT2F_CREATE_FILE
           then create_file relative_path server_path stack_attr
           else extended_open_create_file relative_path server_path stack_attr action_code
                  ext_open_create_open_mode in
         let* handle := get_handle server_path in
         let fcb_name := short_name_to_fcb (filename relative_path) in
         if Z.of_nat handle =? 0xFFFF
         then throw (FilesystemError DOS_EXTERR_TOO_MANY_OPEN_FILES)
         else ret (success (open_create_reply properties fcb_name handle result_code
                              result_open_mode))).

(** INT2F_NETMOUNT_FEATURE_QUERY *)
Definition handle_feature_query (data : bytes) : handler :=
  if negb (data_len data =? 2) then ret Ignored else ret (success []).

(** The [switch] on the function number. *)
Definition dispatch (function : Z) (extended_request : bool) (data : bytes) : handler :=
  if function =? INT2F_REMOVE_DIR then handle_make_or_remove_dir false data
  else if function =? INT2F_MAKE_DIR then handle_make_or_remove_dir true data
  else if function =? INT2F_CHANGE_DIR then handle_change_dir data
  else if function =? INT2F_CLOSE_FILE then handle_close_file extended_request data
  else if function =? INT2F_READ_FILE then handle_read_file data
  else if function =? INT2F_WRITE_FILE then handle_write_file data
  else if function =? INT2F_LOCK_UNLOCK_FILE then handle_lock_file data
  else if function =? INT2F_UNLOCK_FILE then handle_lock_file data
  else if function =? INT2F_DISK_INFO then handle_disk_info data
  else if function =? INT2F_DISK_INFO_LARGE then handle_disk_info_large data
  else if function =? INT2F_SET_ATTRS then handle_set_attrs data
  else if function =? INT2F_GET_ATTRS then handle_get_attrs data
  else if function =? INT2F_RENAME_FILE then handle_rename_file data
  else if function =? INT2F_DELETE_FILE then handle_delete_file data
  else if function =? INT2F_FIND_FIRST then handle_find_first data
  else if function =? INT2F_FIND_NEXT then handle_find_next data
  else if function =? INT2F_SEEK_FROM_END then handle_seek_from_end data
  else if (function =? INT2F_OPEN_FILE) || (function =? INT2F_CREATE_FILE)
          || (function =? INT2F_EXTENDED_OPEN_CREATE_FILE)
  then handle_open_create function data
  else if function =? INT2F_NETMOUNT_FEATURE_QUERY then handle_feature_query data
  else ret Ignored.
End Handlers.
