(* ===== verification/HandlerInv.v ===== *)
(** * HandlerInv: what every request handler preserves

    The handlers keep the invariant of DriveInv.v, change the machine only as
    the drive allows, answer with at most as many bytes as the reply format
    of their function has, and let no exception escape. *)
From stdpp Require Import relations.
From S2P Require Import Prelude Words Paths FatTime Host Attrs Unicode Fcb Files Drive Handles.
From S2P Require Import DriveOps DriveInv Protocol.

(** The client paths of a request. *)
Definition request_paths (function : Z) (data : bytes) : list path :=
  if existsb (Z.eqb function)
       [INT2F_REMOVE_DIR; INT2F_MAKE_DIR; INT2F_CHANGE_DIR; INT2F_GET_ATTRS; INT2F_DELETE_FILE]
  then [create_relative_path data]
  else if existsb (Z.eqb function) [INT2F_SET_ATTRS; INT2F_FIND_FIRST]
  then [create_relative_path (drop 1 data)]
  else if function =? INT2F_RENAME_FILE
  then [create_relative_path (take (Z.to_nat (byte_at data 0)) (drop 1 data));
        create_relative_path (drop (1 + Z.to_nat (byte_at data 0)) data)]
  else if existsb (Z.eqb function)
            [INT2F_OPEN_FILE; INT2F_CREATE_FILE; INT2F_EXTENDED_OPEN_CREATE_FILE]
  then [create_relative_path (drop 6 data)]
  else [].

(** An ordinary request: its paths are plain where names are converted, and a
    search is made for something below the root. *)
Definition ordinary_request (d : Drive) (function : Z) (data : bytes) : Prop :=
  (converts d = true -> Forall plain_path (request_paths function data))
  /\ (function = INT2F_FIND_FIRST -> Forall (fun p => proper p = true) (request_paths function data)).

(** The longest reply data of a function. *)
Definition reply_limit (function : Z) (data : bytes) `{Native} : Z :=
  if function =? INT2F_READ_FILE then get16 data 6 else 25.

Definition reply_within (n : Z) (r : reply) : Prop :=
  match r with Ignored => True | Reply _ data _ => zlen data <= n end.

Lemma put16_length `{Native} x : length (put16 x) = 2%nat.
Proof. unfold put16, store16. by case_match. Qed.
Lemma put32_length `{Native} x : length (put32 x) = 4%nat.
Proof. unfold put32, store32. by case_match. Qed.
Lemma fcb_bytes_length f : fcb_wf f -> length (fcb_bytes f) = 11%nat.
Proof. intros [H1 H2]. unfold fcb_bytes. by rewrite length_app, H1, H2. Qed.

Lemma get16_range `{Native} data off : Forall is_byte data -> is_u16 (get16 data off).
Proof.
  intros Hd. unfold get16. rewrite from_little16_load16 by done. unfold le16, is_u16.
  pose proof (byte_at_byte data off Hd). pose proof (byte_at_byte data (off + 1) Hd).
  unfold is_byte in *. lia.
Qed.

Lemma parent_path_absolute p : is_absolute p = true -> parent_path p <> [].
Proof.
  intros Ha. unfold parent_path. rewrite Ha. destruct (relative_path p); [by destruct p|].
  destruct (drop_while is_slash _) as [|c q] eqn:E; [done|].
  intros H. apply (f_equal length) in H. by rewrite length_reverse in H.
Qed.

Section HandlerInv.
Context {W : Type} `{!Host W, !DosAttrs W, CAL : !Calendar, !HostLaws W} `{Native}.
Context (tmap : translit_map) (ulong_bits : Z) (cfg : Drive) (strict : bool).
Context (Hroot : directory_path (root cfg)) (Habs : is_absolute (root cfg) = true).
Context (Hlabel : fcb_wf (volume_label cfg)).

Abbreviation runs m Q := (triple (drive_ok cfg strict) (machine_step cfg strict) m Q).

(** The paths of the request the handlers are given. *)
Definition path_ok (p : path) : Prop := strict = true -> converts cfg = true -> plain_path p.

Lemma client_path_ok data : path_ok (create_relative_path data) ->
  client_ok cfg strict (create_relative_path data).
Proof. intros Hp. split; [apply create_relative_path_client|exact Hp]. Qed.

Lemma catching_runs code m n : runs m (reply_within n) -> 0 <= n ->
  runs (catching code m) (reply_within n).
Proof.
  intros Hm Hn. apply triple_try; [apply _|done|]. intros e. apply triple_ret; [apply _|].
  simpl. lia.
Qed.

(** Runs an operation whose result is not looked at. *)
Lemma then_reply {A} (m : M (st W) A) (Q : A -> Prop) r n : runs m Q -> reply_within n r ->
  runs (do* m in ret r) (reply_within n).
Proof. intros Hm Hr. eapply triple_bind; [apply _|exact Hm|]. intros. by apply triple_ret; [apply _|]. Qed.

Ltac ignored := apply triple_ret; [apply _|exact I].

Lemma handle_make_or_remove_dir_runs make data : path_ok (create_relative_path data) ->
  runs (handle_make_or_remove_dir tmap make data) (reply_within 25).
Proof.
  intros Hp%client_path_ok. unfold handle_make_or_remove_dir. case_match; [ignored|].
  apply catching_runs; [|lia]. eapply then_reply with (Q := fun _ => True); [|simpl; lia].
  destruct make; [by apply make_dir_runs|by apply delete_dir_runs].
Qed.

Lemma handle_change_dir_runs data : path_ok (create_relative_path data) ->
  runs (handle_change_dir tmap data) (reply_within 25).
Proof.
  intros Hp%client_path_ok. unfold handle_change_dir. case_match; [ignored|].
  apply catching_runs; [|lia]. eapply then_reply; [by apply change_dir_runs|simpl; lia].
Qed.

Lemma handle_close_file_runs ext data : runs (handle_close_file ext data) (reply_within 25).
Proof.
  unfold handle_close_file. eapply triple_bind; [apply _|apply gets_drive_runs|]. intros d _.
  assert (forall code, runs (ret (Reply code [] (use_client_timestamp d))) (reply_within 25)) as R.
  { intros. apply triple_ret; [apply _|]. simpl. lia. }
  destruct ext; (case_match; [ignored|]); apply triple_try; try apply _; try (intros; apply R).
  - eapply triple_bind; [apply _|by apply set_file_date_time_runs|]. intros. apply R.
  - eapply triple_bind; [apply _|by apply get_handle_path_runs|]. intros. apply R.
Qed.

Lemma handle_read_file_runs data : Forall is_byte data ->
  runs (handle_read_file data) (reply_within (get16 data 6)).
Proof.
  intros Hd. unfold handle_read_file. case_match; [ignored|].
  pose proof (get16_range data 6 Hd) as [Hl _]. apply catching_runs; [|done].
  eapply triple_bind; [apply _|by apply read_file_runs|]. intros bs Hbs.
  apply triple_ret; [apply _|]. exact Hbs.
Qed.

Lemma handle_write_file_runs data : runs (handle_write_file data) (reply_within 25).
Proof.
  unfold handle_write_file. case_match; [ignored|]. apply catching_runs; [|lia].
  eapply triple_bind; [apply _|by apply write_file_runs|]. intros n _.
  apply triple_ret; [apply _|]. simpl. rewrite put16_length. lia.
Qed.

Lemma handle_lock_file_runs data : runs (handle_lock_file data) (reply_within 25).
Proof.
  unfold handle_lock_file. case_match; [ignored|]. apply catching_runs; [|lia].
  eapply then_reply; [by apply get_handle_path_runs|simpl; lia].
Qed.

Lemma handle_disk_info_runs data : runs (handle_disk_info data) (reply_within 25).
Proof.
  unfold handle_disk_info. case_match; [ignored|]. apply triple_try; [apply _| |].
  - eapply triple_bind; [apply _|by apply space_info_runs|]. intros [a b] _.
    destruct (disk_sectors _ _ a b) as [[x y] z]. apply triple_ret; [apply _|].
    simpl. rewrite !length_app, !put16_length. simpl. lia.
  - intros _. apply triple_ret; [apply _|]. simpl. lia.
Qed.

Lemma handle_disk_info_large_runs data :
  runs (handle_disk_info_large ulong_bits data) (reply_within 25).
Proof.
  unfold handle_disk_info_large. case_match; [ignored|]. apply triple_try; [apply _| |].
  - eapply triple_bind; [apply _|by apply space_info_runs|]. intros [a b] _.
    destruct (disk_sectors _ _ a b) as [[x y] z]. apply triple_ret; [apply _|].
    simpl. rewrite !length_app, !put32_length, put16_length. simpl. lia.
  - intros _. apply triple_ret; [apply _|]. simpl. lia.
Qed.

Lemma handle_set_attrs_runs data : path_ok (create_relative_path (drop 1 data)) ->
  runs (handle_set_attrs tmap data) (reply_within 25).
Proof.
  intros Hp%client_path_ok. unfold handle_set_attrs. case_match; [ignored|].
  apply catching_runs; [|lia]. eapply then_reply; [by apply set_item_attrs_runs|simpl; lia].
Qed.

Lemma handle_get_attrs_runs data : path_ok (create_relative_path data) ->
  runs (handle_get_attrs tmap data) (reply_within 25).
Proof.
  intros Hp%client_path_ok. unfold handle_get_attrs. case_match; [ignored|].
  apply catching_runs; [|lia]. eapply triple_bind; [apply _|by apply get_dos_properties_runs|].
  intros [p a] _. apply triple_ret; [apply _|]. simpl. unfold get_attrs_reply.
  rewrite !length_app, !put16_length. simpl. lia.
Qed.

Lemma handle_rename_file_runs data :
  path_ok (create_relative_path (take (Z.to_nat (byte_at data 0)) (drop 1 data))) ->
  path_ok (create_relative_path (drop (1 + Z.to_nat (byte_at data 0)) data)) ->
  runs (handle_rename_file tmap data) (reply_within 25).
Proof.
  intros Hp%client_path_ok Hq%client_path_ok. unfold handle_rename_file.
  case_match; [ignored|]. case_match; [ignored|].
  apply catching_runs; [|lia]. eapply then_reply; [by apply rename_file_runs|simpl; lia].
Qed.

Lemma handle_delete_file_runs data : path_ok (create_relative_path data) ->
  runs (handle_delete_file tmap data) (reply_within 25).
Proof.
  intros Hp%client_path_ok. unfold handle_delete_file. case_match; [ignored|].
  apply catching_runs; [|lia]. eapply then_reply; [by apply delete_files_runs|simpl; lia].
Qed.

Lemma find_reply_within p h n : fcb_wf (fcb_name p) -> reply_within 25 (success (find_reply p h n)).
Proof.
  intros Hf. simpl. unfold find_reply. rewrite !length_app, !put16_length, put32_length.
  rewrite fcb_bytes_length by done. simpl. lia.
Qed.

(** The directory searched is below the root, unless the search is for the
    root itself, when it is the parent of the root. *)
Lemma find_first_handle_runs p : client_ok cfg strict p -> (strict = true -> proper p = true) ->
  runs (find_first_handle tmap p) (fun _ => True).
Proof.
  intros [Ha Hp] Hs. unfold find_first_handle. apply triple_try; [apply _| |].
  - eapply triple_bind; [apply _|by apply create_server_path_runs|].
    intros [q ex] Hq. simpl in Hq.
    assert (below cfg strict (parent_path q)) as Hb.
    { destruct (proper p) eqn:E; [apply Hq|]. rewrite Hq. split.
      - by apply parent_path_absolute.
      - intros St. by specialize (Hs St). }
    eapply triple_bind; [apply _|by apply get_handle_runs|]. intros h _.
    by apply triple_ret; [apply _|].
  - intros e. by apply triple_ret; [apply _|].
Qed.

Lemma handle_find_first_runs data : path_ok (create_relative_path (drop 1 data)) ->
  (strict = true -> proper (create_relative_path (drop 1 data)) = true) ->
  runs (handle_find_first tmap data) (reply_within 25).
Proof.
  intros Hp%client_path_ok Hs. unfold handle_find_first. case_match; [ignored|].
  eapply triple_bind; [apply _|by apply find_first_handle_runs|]. intros [h|e] _.
  - case_match; [apply triple_ret; [apply _|]; simpl; lia|].
    eapply triple_bind; [apply _|by apply find_file_runs|]. intros [[e n]|] Hf.
    + apply triple_ret; [apply _|]. apply find_reply_within, Hf.
    + apply triple_ret; [apply _|]; simpl; lia.
  - apply triple_ret; [apply _|]; simpl; lia.
Qed.

Lemma handle_find_next_runs data : runs (handle_find_next tmap data) (reply_within 25).
Proof.
  unfold handle_find_next. case_match; [ignored|]. apply triple_try; [apply _| |].
  - eapply triple_bind; [apply _|by apply find_file_runs|]. intros [[e n]|] Hf.
    + apply triple_ret; [apply _|]. apply find_reply_within, Hf.
    + apply triple_ret; [apply _|]; simpl; lia.
  - intros _. apply triple_ret; [apply _|]; simpl; lia.
Qed.

Lemma handle_seek_from_end_runs data : runs (handle_seek_from_end data) (reply_within 25).
Proof.
  unfold handle_seek_from_end. case_match; [ignored|].
  eapply triple_bind with (P := fun _ => True); [apply _| |].
  - apply triple_try; [apply _|by apply get_file_size_runs|]. intros. by apply triple_ret; [apply _|].
  - intros n _. case_match; apply triple_ret; try apply _; simpl; [lia|].
    rewrite length_app, !put16_length. simpl. lia.
Qed.

(** The three ways to open a file, on a path below the root. *)
Lemma open_file_runs p a : runs (open_file p a) (fun _ => True).
Proof.
  unfold open_file.
  eapply triple_bind; [apply _|by apply server_properties_runs|]. intros [props attr] _.
  case_match; [apply triple_throw; apply _|].
  eapply triple_bind; [apply _|by apply try_open_runs|]. intros. by apply triple_ret; [apply _|].
Qed.

Lemma create_file_runs p q a : client_ok cfg strict p -> below cfg strict q ->
  runs (create_file tmap p q a) (fun _ => True).
Proof.
  intros Hp Hq. unfold create_file.
  eapply triple_bind with (P := fun _ => True); [apply _|by apply triple_query; [apply _|]|].
  intros ex _. eapply triple_bind with (P := fun _ => True); [apply _| |].
  { destruct ex; [by apply server_attrs_runs|by apply triple_ret; [apply _|]]. }
  intros attr _. eapply triple_bind; [apply _|by apply create_or_truncate_runs|]. intros props _.
  eapply triple_bind with (P := fun _ => True); [apply _| |intros; by apply triple_ret; [apply _|]].
  destruct ex; [by apply triple_ret; [apply _|]|]. simpl.
  eapply triple_bind; [apply _|by apply create_server_path_ok|]. intros. by apply triple_ret; [apply _|].
Qed.

Lemma extended_open_create_file_runs p q a c m : client_ok cfg strict p -> below cfg strict q ->
  runs (extended_open_create_file tmap p q a c m) (fun _ => True).
Proof.
  intros Hp Hq. unfold extended_open_create_file.
  eapply triple_bind; [apply _|by apply server_properties_runs|]. intros [props attr] _.
  case_match; [case_match; [|apply triple_throw; apply _]|
               case_match; [|case_match; [|apply triple_throw; apply _]]].
  - eapply triple_bind; [apply _|by apply create_or_truncate_runs|]. intros ? _.
    eapply triple_bind; [apply _|by apply create_server_path_ok|]. intros. by apply triple_ret; [apply _|].
  - eapply triple_bind; [apply _|by apply try_open_runs|]. intros. by apply triple_ret; [apply _|].
  - eapply triple_bind; [apply _|by apply create_or_truncate_runs|]. intros. by apply triple_ret; [apply _|].
Qed.

Lemma handle_open_create_runs function data : path_ok (create_relative_path (drop 6 data)) ->
  runs (handle_open_create tmap function data) (reply_within 25).
Proof.
  intros Hp%client_path_ok. unfold handle_open_create. case_match; [ignored|].
  apply catching_runs; [|lia].
  eapply triple_bind; [apply _|by apply create_server_path_ok|]. intros [q ex] [Hq _].
  eapply triple_bind; [apply _|by apply check_not_root_runs|]. intros _ _.
  eapply triple_bind with (P := fun _ => True); [apply _|by apply triple_query; [apply _|]|].
  intros d _. destruct (negb d); [apply triple_ret; [apply _|]; simpl; lia|].
  eapply triple_bind with (P := fun _ => True); [apply _| |].
  { destruct (function =? INT2F_OPEN_FILE); [by apply open_file_runs|].
    destruct (function =? INT2F_CREATE_FILE); [by apply create_file_runs|].
    by apply extended_open_create_file_runs. }
  intros [[props mode] code] _.
  eapply triple_bind; [apply _|by apply get_handle_runs|]. intros h _.
  case_match; [apply triple_throw; apply _|]. apply triple_ret; [apply _|].
  simpl. unfold open_create_reply. rewrite !length_app, !put16_length, !put32_length.
  rewrite fcb_bytes_length by auto. simpl. lia.
Qed.

Lemma handle_feature_query_runs data : runs (handle_feature_query (W:=W) data) (reply_within 25).
Proof. unfold handle_feature_query. case_match; [ignored|]. apply triple_ret; [apply _|]. simpl. lia. Qed.

Ltac paths_of Hp :=
  cbn [existsb Z.eqb Pos.eqb orb] in Hp; apply Hp; rewrite ?elem_of_cons; auto.

(** Every request. *)
Lemma dispatch_runs function ext data : Forall is_byte data ->
  (strict = true -> ordinary_request cfg function data) ->
  runs (dispatch tmap ulong_bits function ext data) (reply_within (reply_limit function data)).
Proof.
  intros Hd Ho.
  assert (forall p, p ∈ request_paths function data -> path_ok p) as Hp.
  { intros p Hin St Hc. destruct (Ho St) as [Hpl _]. specialize (Hpl Hc).
    rewrite Forall_forall in Hpl. by apply Hpl. }
  assert (function = INT2F_FIND_FIRST -> strict = true ->
    Forall (fun p => proper p = true) (request_paths function data)) as Hf
    by (intros E St; destruct (Ho St) as [_ Hpr]; auto).
  clear Ho. unfold dispatch, reply_limit, request_paths in *.
  repeat (match goal with
          | |- context [if function =? ?c then _ else _] =>
              destruct (Z.eqb_spec function c) as [->|?]
          end; [try first [ apply handle_make_or_remove_dir_runs; by paths_of Hp
                      | apply handle_change_dir_runs; by paths_of Hp
                      | by apply handle_close_file_runs
                      | by apply handle_read_file_runs
                      | by apply handle_write_file_runs
                      | by apply handle_lock_file_runs
                      | by apply handle_disk_info_runs
                      | by apply handle_disk_info_large_runs
                      | apply handle_set_attrs_runs; by paths_of Hp
                      | apply handle_get_attrs_runs; by paths_of Hp
                      | apply handle_rename_file_runs; by paths_of Hp
                      | apply handle_delete_file_runs; by paths_of Hp
                      | by apply handle_find_next_runs
                      | by apply handle_seek_from_end_runs
                      | by apply handle_feature_query_runs ]|]).
  - apply handle_find_first_runs; [by paths_of Hp|]. intros St. specialize (Hf eq_refl St).
    cbn [existsb Z.eqb Pos.eqb orb] in Hf. by inversion Hf.
  - destruct ((function =? INT2F_OPEN_FILE) || (function =? INT2F_CREATE_FILE)
              || (function =? INT2F_EXTENDED_OPEN_CREATE_FILE)) eqn:E; [|ignored].
    apply handle_open_create_runs.
    apply orb_prop in E as [[E|E]%orb_prop|E]; apply Z.eqb_eq in E as ->; by paths_of Hp.
Qed.

(** *** No exception escapes *)

Definition returns {A} (m : M (st W) A) (s : st W) : Prop := exists a, (m s).1 = Ok a.

Lemma returns_catching code m s : returns (catching code m) s.
Proof. unfold returns, catching, try_catch. destruct (m s) as [[] s']; simpl; eauto. Qed.

Lemma returns_try {A} (m : M (st W) A) f s : returns (try_catch m (fun e => ret (f e))) s.
Proof. unfold returns, try_catch. destruct (m s) as [[] s']; simpl; eauto. Qed.

Lemma returns_bind {A B} (m : M (st W) A) (k : A -> M (st W) B) s a s' :
  m s = (Ok a, s') -> returns (k a) s' -> returns (bind m k) s.
Proof. unfold returns, bind. by intros ->. Qed.

(** A directory list is made or reported as an error, never thrown. *)
Lemma create_directory_list_returns h s : exists n s',
  create_directory_list (W:=W) tmap h s = (Ok n, s').
Proof.
  unfold create_directory_list, bind, gets. cbn [id].
  destruct (items (drive s) !! h) as [i|]; [|by do 2 eexists].
  destruct (list_directory tmap (world s) (drive s) i). by do 2 eexists.
Qed.

(** Searching a handle in use does not throw. *)
Lemma find_file_returns h tmpl attr nth s i : items (drive s) !! h = Some i -> item_path i <> [] ->
  returns (find_file (W:=W) tmap h tmpl attr nth) s.
Proof.
  intros Hi Hp. unfold find_file. destruct (attr =? FAT_VOLUME).
  { unfold returns, bind, gets, ret. repeat case_match; eauto. }
  assert (get_item h s = (Ok i, s)) as Eg.
  { unfold get_item, bind, gets. rewrite Hi. by destruct (item_path i). }
  eapply returns_bind; [exact Eg|].
  destruct (create_directory_list_returns h s) as (n & s' & Ec).
  assert (forall n s, returns
    (if n <? 0 then ret None
     else let* dl := gets (fun s => match items (drive s) !! h with
                                    | Some i => directory_list i | None => [] end) in
          match find_entry tmpl attr nth (drop nth dl) with
          | Some (n, e) => ret (Some (e, S n)) | None => ret None end) s) as Rest.
  { intros n' s2. unfold returns, bind, gets, ret. repeat case_match; eauto. }
  destruct (_ || _).
  - eapply returns_bind; [exact Ec|apply Rest].
  - eapply returns_bind; [done|apply Rest].
Qed.

(** The handle a search starts with is in use. *)
Lemma get_handle_in_use p s : table_ok (items (drive s)) -> p <> [] ->
  exists h s' i, get_handle (W:=W) p s = (Ok h, s')
  /\ items (drive s') !! h = Some i /\ item_path i <> [].
Proof.
  intros Ht Hp. unfold get_handle, bind, gets, modify, ret.
  destruct (get_handle_items _ (items (drive s)) p) as [h its] eqn:E.
  apply get_handle_items_outcome in E; [|done].
  pose proof (handle_outcome_ok _ _ _ _ _ Hp Ht E) as Ht'.
  destruct E as [_ (i & Hi & _) _ _ _ _ _ _].
  exists h, (put_items its s), i. split_and!; [done|exact Hi|].
  apply table_ok_lookup in Ht' as (_ & PL & _). by eapply PL.
Qed.

Lemma find_first_handle_returns p s : drive_ok cfg strict s -> client_ok cfg strict p ->
  exists r s', find_first_handle tmap p s = (Ok r, s')
  /\ (forall h, r = Ok h -> exists i, items (drive s') !! h = Some i /\ item_path i <> []).
Proof.
  intros Hs [Ha Hp]. unfold find_first_handle, try_catch, bind, ret.
  pose proof (create_server_path_runs tmap cfg strict Hlabel Hroot p false Ha Hp s Hs)
    as (Hs' & _ & Hq).
  destruct (create_server_path tmap p false s) as [[[q ex]|e] s1]; simpl in *;
    [|do 2 eexists; by split].
  specialize (Hq _ eq_refl). simpl in Hq.
  assert (parent_path q <> []) as Hne.
  { destruct (proper p); [apply Hq|]. rewrite Hq. by apply parent_path_absolute. }
  destruct (get_handle_in_use (parent_path q) s1) as (h & s2 & i & -> & Hi & Hpi);
    [apply Hs'|done|].
  do 2 eexists. split; [done|]. intros h' [= <-]. eauto.
Qed.

Lemma handle_find_first_returns data s : drive_ok cfg strict s ->
  path_ok (create_relative_path (drop 1 data)) -> returns (handle_find_first tmap data) s.
Proof.
  intros Hs Hp%client_path_ok. unfold handle_find_first. case_match; [by eexists|].
  destruct (find_first_handle_returns _ s Hs Hp) as (r & s' & Er & Hr).
  eapply returns_bind; [exact Er|]. destruct r as [h|e]; [|by eexists].
  case_match; [by eexists|]. destruct (Hr h eq_refl) as (i & Hi & Hpi).
  destruct (find_file_returns h
    (short_name_to_fcb (filename (create_relative_path (drop 1 data))))
    (byte_at data 0) 0 s' i Hi Hpi) as [a Ea].
  destruct (find_file tmap h _ _ _ s') as [x s2] eqn:E. simpl in Ea. subst x.
  eapply returns_bind; [exact E|]. destruct a as [[e n]|]; by eexists.
Qed.

Lemma dispatch_returns function ext data s : drive_ok cfg strict s ->
  path_ok (create_relative_path (drop 1 data)) ->
  returns (dispatch tmap ulong_bits function ext data) s.
Proof.
  intros Hs Hp. unfold dispatch.
  repeat match goal with
         | |- returns (if ?b then _ else _) s => destruct b
         end; try (by apply handle_find_first_returns);
    unfold handle_make_or_remove_dir, handle_change_dir, handle_read_file, handle_write_file,
      handle_lock_file, handle_disk_info, handle_disk_info_large, handle_set_attrs,
      handle_get_attrs, handle_rename_file, handle_delete_file, handle_find_next,
      handle_open_create, handle_feature_query;
    repeat match goal with
           | |- returns (if ?b then _ else _) s => destruct b
           end; try (by eexists); try apply returns_catching; try apply returns_try.
  - unfold handle_close_file. eapply returns_bind; [done|].
    destruct ext; case_match; try (by eexists); apply returns_try.
  - unfold handle_seek_from_end. case_match; [by eexists|].
    destruct (returns_try (get_file_size (Z.to_nat (get16 data 4))) (fun _ => -1) s) as [a Ea].
    destruct (try_catch _ _ s) as [x s'] eqn:E. simpl in Ea. subst x.
    eapply returns_bind; [exact E|]. case_match; by eexists.
Qed.
End HandlerInv.
