(* ===== verification/ReplyCache.v ===== *)
(** * ReplyCache: the last request and reply of each client (class ReplyCache
    of netmount-server.cpp)

    Sixteen entries, each with the two packet buffers, the client's address
    and the time of the reply.  The buffers are arrays of 1500 bytes. *)
From S2P Require Import Prelude Words Fcb.

Definition REPLY_CACHE_SIZE : nat := 16.
Definition PACKET_SIZE : nat := Z.to_nat 1500.

Record ReplyInfo := mkInfo {
  recv_packet : bytes;
  send_packet : bytes;
  recv_len : Z;
  send_len : Z;
  ipv4_addr : Z;
  udp_port : Z;
  timestamp : Z;
}.

(** A static object. *)
Definition ReplyInfo_default : ReplyInfo :=
  mkInfo (replicate PACKET_SIZE 0) (replicate PACKET_SIZE 0) 0 0 0 0 0.
Definition ReplyCache_default : list ReplyInfo := replicate REPLY_CACHE_SIZE ReplyInfo_default.

(** [item.ipv4_addr == ipv4_addr && item.udp_port == udp_port] *)
Definition is_client (ip port : Z) (item : ReplyInfo) : bool :=
  (ipv4_addr item =? ip) && (udp_port item =? port).

(** The entry reused for a client. *)
Definition claim (ip port : Z) (item : ReplyInfo) : ReplyInfo :=
  mkInfo (recv_packet item) (send_packet item) 0 0 ip port (timestamp item).

(** The loop over the entries from position [n]: the position of the client's
    entry, or of the oldest one. *)
Fixpoint find_reply_info (ip port : Z) (n : nat) (oldest : nat) (oldest_time : Z)
    (rest : list ReplyInfo) : nat + nat :=
  match rest with
  | [] => inr oldest
  | item :: rest =>
      if is_client ip port item then inl n
      else if timestamp item <? oldest_time
      then find_reply_info ip port (S n) n (timestamp item) rest
      else find_reply_info ip port (S n) oldest oldest_time rest
  end.

(** The position of the entry, and the cache afterwards. *)
Definition get_reply_info (ip port : Z) (items : list ReplyInfo) : nat * list ReplyInfo :=
  match items with
  | [] => (O, [])
  | first :: _ =>
      match find_reply_info ip port 0 0 (timestamp first) items with
      | inl n => (n, items)
      | inr oldest => (oldest, alter (claim ip port) oldest items)
      end
  end.

(** ** What the cache guarantees *)

(** The buffers have their size and the lengths fit them. *)
Record info_ok (i : ReplyInfo) : Prop := {
  info_recv : length (recv_packet i) = PACKET_SIZE;
  info_send : length (send_packet i) = PACKET_SIZE;
  info_recv_len : 0 <= recv_len i <= 1500;
  info_send_len : 0 <= send_len i <= 1500;
}.

Definition cache_ok (items : list ReplyInfo) : Prop :=
  length items = REPLY_CACHE_SIZE /\ Forall info_ok items.

Lemma find_reply_info_spec ip port n oldest t rest :
  match find_reply_info ip port n oldest t rest with
  | inl k => exists i, (n <= k)%nat /\ rest !! (k - n)%nat = Some i /\ is_client ip port i = true
             /\ Forall (fun j => is_client ip port j = false) (take (k - n) rest)
  | inr k => Forall (fun j => is_client ip port j = false) rest
             /\ ((k = oldest /\ Forall (fun j => t <= timestamp j) rest)
                 \/ exists i, (n <= k)%nat /\ rest !! (k - n)%nat = Some i /\ timestamp i <= t
                    /\ Forall (fun j => timestamp i <= timestamp j) rest)
  end.
Proof.
  revert n oldest t. induction rest as [|i rest IH]; intros n oldest t; cbn [find_reply_info].
  { split; [done|]. by left. }
  destruct (is_client ip port i) eqn:Ei.
  { exists i. rewrite Nat.sub_diag. split_and!; [lia|done|done|done]. }
  assert (forall k j, (S n <= k)%nat -> rest !! (k - S n)%nat = Some j ->
    (n <= k)%nat /\ (i :: rest) !! (k - n)%nat = Some j) as Shift.
  { intros k j Hk Hj. split; [lia|]. by replace (k - n)%nat with (S (k - S n)) by lia. }
  destruct (Z.ltb_spec (timestamp i) t) as [Ht|Ht].
  - specialize (IH (S n) n (timestamp i)). destruct (find_reply_info _ _ _ _ _ rest) as [k|k].
    + destruct IH as (j & Hk & Hj & Hc & Hall). exists j.
      destruct (Shift k j Hk Hj). split_and!; [done..|].
      replace (k - n)%nat with (S (k - S n)) by lia. by constructor.
    + destruct IH as (Hall & IH). split; [by constructor|]. right.
      destruct IH as [[-> H] | (j & Hk & Hj & Hjt & H)].
      * exists i. rewrite Nat.sub_diag. split_and!; [lia|done|lia|]. constructor; [lia|done].
      * exists j. destruct (Shift k j Hk Hj). split_and!; [done..|lia|]. constructor; [lia|done].
  - specialize (IH (S n) oldest t). destruct (find_reply_info _ _ _ _ _ rest) as [k|k].
    + destruct IH as (j & Hk & Hj & Hc & Hall). exists j.
      destruct (Shift k j Hk Hj). split_and!; [done..|].
      replace (k - n)%nat with (S (k - S n)) by lia. by constructor.
    + destruct IH as (Hall & IH). split; [by constructor|].
      destruct IH as [[-> H] | (j & Hk & Hj & Hjt & H)].
      * left. split; [done|]. constructor; [lia|done].
      * right. exists j. destruct (Shift k j Hk Hj). split_and!; [done..|]. constructor; [lia|done].
Qed.

(** The outcome of [get_reply_info], for the callers. *)
Lemma get_reply_info_props ip port items k items' : items <> [] ->
  get_reply_info ip port items = (k, items') ->
  exists i, items !! k = Some i
  /\ ((is_client ip port i = true /\ items' = items)
      \/ (Forall (fun j => is_client ip port j = false) items
          /\ Forall (fun j => timestamp i <= timestamp j) items
          /\ items' = alter (claim ip port) k items)).
Proof.
  intros Hne. unfold get_reply_info. destruct items as [|first rest]; [done|].
  pose proof (find_reply_info_spec ip port 0 0 (timestamp first) (first :: rest)) as H.
  destruct (find_reply_info _ _ _ _ _ _) as [n|n]; intros [= <- <-].
  - destruct H as (i & _ & Hi & Hc & _). rewrite Nat.sub_0_r in Hi. eauto.
  - destruct H as (Hall & [[-> Ht] | (i & _ & Hi & _ & Ht)]).
    + exists first. split; [done|]. right. done.
    + rewrite Nat.sub_0_r in Hi. exists i. split; [done|]. right. done.
Qed.

(** No entry before the one returned is the client's. *)
Lemma get_reply_info_take ip port items k items' : get_reply_info ip port items = (k, items') ->
  Forall (fun j => is_client ip port j = false) (take k items').
Proof.
  unfold get_reply_info. destruct items as [|first rest]; [intros [= <- <-]; constructor|].
  pose proof (find_reply_info_spec ip port 0 0 (timestamp first) (first :: rest)) as H.
  destruct (find_reply_info _ _ _ _ _ _) as [n|n]; intros [= <- <-].
  - destruct H as (i & _ & _ & _ & H). by rewrite Nat.sub_0_r in H.
  - rewrite take_alter, decide_False by lia. apply Forall_take. apply H.
Qed.

Lemma get_reply_info_first ip port items k i : items !! k = Some i -> is_client ip port i = true ->
  Forall (fun j => is_client ip port j = false) (take k items) ->
  get_reply_info ip port items = (k, items).
Proof.
  intros Hi Hc Hk. unfold get_reply_info. destruct items as [|first rest]; [done|].
  pose proof (find_reply_info_spec ip port 0 0 (timestamp first) (first :: rest)) as H.
  destruct (find_reply_info _ _ _ _ _ _) as [n|n].
  - destruct H as (i' & _ & Hi' & Hc' & Hn). rewrite Nat.sub_0_r in *.
    rewrite Forall_lookup in Hk, Hn. destruct (Nat.lt_trichotomy n k) as [L|[->|L]]; [|done|].
    + specialize (Hk n i'). rewrite lookup_take_lt in Hk by done. specialize (Hk Hi'). congruence.
    + specialize (Hn k i). rewrite lookup_take_lt in Hn by done. specialize (Hn Hi). congruence.
  - destruct H as [H _]. rewrite Forall_lookup in H. specialize (H _ _ Hi). congruence.
Qed.

(** The client finds its entry again. *)
Lemma get_reply_info_again ip port items k items' info : items <> [] ->
  get_reply_info ip port items = (k, items') -> is_client ip port info = true ->
  get_reply_info ip port (<[k := info]> items') = (k, <[k := info]> items').
Proof.
  intros Hne Hg Hc. apply get_reply_info_first with info; [|done|].
  - apply list_lookup_insert_eq. apply get_reply_info_props in Hg as (i & Hi & H); [|done].
    apply lookup_lt_Some in Hi. destruct H as [[_ ->] | (_ & _ & ->)]; by rewrite ?length_alter.
  - rewrite take_insert_ge by lia. by eapply get_reply_info_take.
Qed.

(** A client that has an entry gets it back with its packets; another
    client gets an emptied entry, taken from one whose reply is the oldest,
    with its address filled in; all other entries, and the sizes of the
    buffers, are kept. *)
Theorem get_reply_info_spec ip port items k items' : cache_ok items ->
  get_reply_info ip port items = (k, items') ->
  cache_ok items'
  /\ (exists i', items' !! k = Some i' /\ is_client ip port i' = true)
  /\ (forall j, j <> k -> items' !! j = items !! j)
  /\ (forall i, items !! k = Some i ->
        (is_client ip port i = true -> items' = items)
        /\ (is_client ip port i = false ->
            items' !! k = Some (claim ip port i)
            /\ Forall (fun j => timestamp i <= timestamp j /\ is_client ip port j = false) items)).
Proof.
  intros [Hlen Hok] Hg.
  apply get_reply_info_props in Hg as (i & Hi & H); [|by destruct items].
  destruct H as [[Hc ->] | (Hall & Ht & ->)].
  - split_and!; [done|eauto|done|]. intros i' Hi'. split; [done|]. congruence.
  - assert (alter (claim ip port) k items !! k = Some (claim ip port i)) as Hk
      by (by rewrite list_lookup_alter_eq, Hi).
    assert (is_client ip port (claim ip port i) = true) as Hcl
      by (unfold is_client; simpl; by rewrite !Z.eqb_refl).
    split_and!.
    + split; [by rewrite length_alter|]. apply Forall_alter; [done|]. intros x _ [].
      split; simpl; [done|done|lia|lia].
    + eauto.
    + intros j Hj. by rewrite list_lookup_alter_ne.
    + intros i' Hi'. assert (i' = i) as -> by congruence. split.
      * rewrite Forall_lookup in Hall. specialize (Hall _ _ Hi). congruence.
      * intros _. split; [done|]. apply Forall_lookup. intros j x Hx.
        rewrite Forall_lookup in Ht, Hall. split; [by eapply Ht|by eapply Hall].
Qed.

Lemma info_default_ok : info_ok ReplyInfo_default.
Proof.
  split; cbn [recv_packet send_packet recv_len send_len ReplyInfo_default];
    rewrite ?length_replicate; lia || done.
Qed.

Lemma cache_default_ok : cache_ok ReplyCache_default.
Proof.
  split; [done|]. apply Forall_replicate, info_default_ok.
Qed.

Lemma get_reply_info_spec_witness :
  let r := get_reply_info 0x0A000001 1024 ReplyCache_default in
  cache_ok r.2 /\ r.1 = 0%nat.
Proof.
  intros r. split; [|reflexivity].
  destruct (get_reply_info_spec 0x0A000001 1024 ReplyCache_default r.1 r.2) as [H _];
    [exact cache_default_ok | reflexivity | exact H].
Defined.
