(* ===== verification/Server.v ===== *)
(** * Server: requests and datagrams (process_request and the main loop of
    netmount-server.cpp)

    [process_request] consults the reply cache, selects the drive and runs the
    handler of Protocol.v; [serve] is the body of the main loop for one
    datagram, from the checks on the packet to the bytes that are sent back. *)
From S2P Require Import Prelude Words Checksum Paths FatTime Host Attrs Unicode Fcb Files.
From S2P Require Import Drive Protocol ReplyCache.

Definition sizeof_hdr : nat := 8.
Definition MAX_DRIVES_COUNT : nat := 26.

Abbreviation DRIVE_PROTO_VERSION := 1 (only parsing).
Abbreviation DRIVE_PROTO_MAGIC := 0x9524 (only parsing).
Abbreviation DRIVE_PROTO_FLAG_CHECKSUM_USED := 0x8000 (only parsing).
Abbreviation DRIVE_PROTO_FLAG_RO_SHARE := 0x4000 (only parsing).
Abbreviation DRIVE_PROTO_FLAG_EXTENDED_FEATURES := 0x2000 (only parsing).

(** Offsets in [drive_proto_hdr]. *)
Abbreviation off_version := 0%nat (only parsing).
Abbreviation off_length_flags := 1%nat (only parsing).
Abbreviation off_checksum := 3%nat (only parsing).
Abbreviation off_sequence := 5%nat (only parsing).
Abbreviation off_drive := 6%nat (only parsing).
Abbreviation off_function := 7%nat (only parsing).
Abbreviation off_ax := 6%nat (only parsing).

(** The state of the process: the machine, the working directory, the global
    [drives] and [answer_cache]. *)
Record srv (W : Type) := mkSrv {
  sworld : W;
  scwd : path;
  drives : list Drive;
  answer_cache : list ReplyInfo;
}.
Arguments mkSrv {W}. Arguments sworld {W}. Arguments scwd {W}. Arguments drives {W}.
Arguments answer_cache {W}.

(** What [process_request] comes to: the length it returns, -1, an exception
    that is not caught in it, or a write past the end of [send_packet]. *)
Inductive processed :=
  | Returned (send_msg_len : Z)
  | Minus1
  | Escaped (ex : exn)
  | SendOverflow.

Section Server.
Context {W : Type} `{!Host W, !DosAttrs W, CAL : !Calendar} `{Native}.
Context (tmap : translit_map) (ulong_bits : Z).

(** "the same request (including the same sequence number)" *)
Definition same_request (info : ReplyInfo) (request_packet : bytes) : bool :=
  (0 <? recv_len info)
  && (byte_at (recv_packet info) off_sequence =? byte_at request_packet off_sequence)
  && (recv_len info =? zlen request_packet)
  && bool_decide (take (length request_packet) (recv_packet info) = request_packet).

Definition with_send_packet (info : ReplyInfo) (p : bytes) : ReplyInfo :=
  mkInfo (recv_packet info) p (recv_len info) (send_len info) (ipv4_addr info)
    (udp_port info) (timestamp info).

(** Storing a handler's reply behind the copied header. *)
Definition write_reply (send_packet : bytes) (code : Z) (data : bytes) (ext : bool) : bytes :=
  let p := write_at sizeof_hdr data send_packet in
  let p := write_at off_length_flags
             (store16 (if ext then DRIVE_PROTO_FLAG_EXTENDED_FEATURES else 0)) p in
  write_at off_ax (store16 (to_little16 (u16 code))) p.

Definition process_request (info : ReplyInfo) (request_packet : bytes) (s : srv W)
  : processed * ReplyInfo * srv W :=
  if zlen request_packet <? Z.of_nat sizeof_hdr then (Minus1, info, s)
  else if same_request info request_packet then
    if 0 <? send_len info then (Returned (send_len info), info, s) else (Minus1, info, s)
  else
    let extended_request :=
      has (from_little16 (load16 request_packet off_length_flags))
        DRIVE_PROTO_FLAG_EXTENDED_FEATURES in
    let info := with_send_packet info
                  (write_at 0 (take sizeof_hdr request_packet) (send_packet info)) in
    let request_data := drop sizeof_hdr request_packet in
    let reqdrv := Z.land (byte_at request_packet off_drive) 0x1F in
    let function := byte_at request_packet off_function in
    if (reqdrv <? 2) || (Z.of_nat MAX_DRIVES_COUNT <=? reqdrv) then (Minus1, info, s)
    else
      match drives s !! Z.to_nat reqdrv with
      | None => (Minus1, info, s)
      | Some d =>
          if negb (used d) then (Minus1, info, s)
          else
            let '(r, s') := dispatch tmap ulong_bits function extended_request request_data
                              (mkSt (sworld s) (scwd s) d) in
            let s := mkSrv (world s') (cwd s') (<[Z.to_nat reqdrv := drive s']> (drives s))
                       (answer_cache s) in
            match r with
            | Throw ex => (Escaped ex, info, s)
            | Ok Ignored => (Minus1, info, s)
            | Ok (Reply code data ext) =>
                if (PACKET_SIZE <? sizeof_hdr + length data)%nat then (SendOverflow, info, s)
                else
                  (Returned (zlen data + Z.of_nat sizeof_hdr),
                   with_send_packet info (write_reply (send_packet info) code data ext), s)
            end
      end.

(** ** The main loop, one datagram *)

(** The checks before the reply cache is consulted: the request cut to the
    length in its header, and whether it has a checksum. *)
Definition check_packet (datagram : bytes) : option (bytes * bool) :=
  if zlen datagram <? Z.of_nat sizeof_hdr then None
  else if negb (byte_at datagram off_version =? DRIVE_PROTO_VERSION) then None
  else
    let length_flags := from_little16 (load16 datagram off_length_flags) in
    let checksum_present := has length_flags DRIVE_PROTO_FLAG_CHECKSUM_USED in
    let length_from_header := Z.land length_flags 0x7FF in
    if length_from_header <? Z.of_nat sizeof_hdr then None
    else if zlen datagram <? length_from_header then None
    else
      let request_packet := take (Z.to_nat length_from_header) datagram in
      let checksum := from_little16 (load16 datagram off_checksum) in
      if checksum_present then
        if negb (bsd_checksum (drop off_sequence request_packet) (length_from_header - 5) =? checksum)
        then None else Some (request_packet, true)
      else
        if negb (checksum =? DRIVE_PROTO_MAGIC) then None else Some (request_packet, false).

(** [header->length_flags |= x] and [&= x] on the reply. *)
Definition or_flags (p : bytes) (x : Z) : bytes :=
  write_at off_length_flags (store16 (Z.lor (load16 p off_length_flags) (to_little16 x))) p.
Definition and_flags (p : bytes) (x : Z) : bytes :=
  write_at off_length_flags (store16 (Z.land (load16 p off_length_flags) (to_little16 x))) p.

(** "fill in header" of the reply. *)
Definition finish_reply (send_packet : bytes) (send_msg_len : Z) (ro checksum_present : bool)
  : bytes :=
  let p := or_flags send_packet (u16 send_msg_len) in
  let p := if ro then or_flags p DRIVE_PROTO_FLAG_RO_SHARE else p in
  if checksum_present then
    let checksum := bsd_checksum (drop off_sequence p) (send_msg_len - 5) in
    let p := write_at off_checksum (store16 (to_little16 checksum)) p in
    or_flags p DRIVE_PROTO_FLAG_CHECKSUM_USED
  else
    let p := write_at off_checksum (store16 (to_little16 DRIVE_PROTO_MAGIC)) p in
    and_flags p 0x7FFF.

(** What one turn of the loop comes to. *)
Inductive event :=
  | Rejected                  (** the packet failed a check *)
  | NoReply                   (** the request was ignored *)
  | Sends (reply : bytes)     (** the reply handed to the transport *)
  | Stops (ex : exn)          (** an exception ends the loop *)
  | Undefined.                (** a write past the end of a buffer *)

Definition put_cache (s : srv W) (c : list ReplyInfo) : srv W :=
  mkSrv (sworld s) (scwd s) (drives s) c.

Definition serve (ip port : Z) (datagram : bytes) (s : srv W) : event * srv W :=
  match check_packet datagram with
  | None => (Rejected, s)
  | Some (request_packet, checksum_present) =>
      let '(k, cache) := get_reply_info ip port (answer_cache s) in
      let s := put_cache s cache in
      match cache !! k with
      | None => (Undefined, s)
      | Some info =>
          let '(r, info, s) := process_request info request_packet s in
          match r with
          | Escaped ex => (Stops ex, put_cache s (<[k := info]> (answer_cache s)))
          | SendOverflow => (Undefined, put_cache s (<[k := info]> (answer_cache s)))
          | Returned _ | Minus1 =>
              let send_msg_len := match r with Returned n => n | _ => -1 end in
              if (PACKET_SIZE <? length request_packet)%nat
              then (Undefined, put_cache s (<[k := info]> (answer_cache s)))
              else
                let info := mkInfo (write_at 0 request_packet (recv_packet info))
                  (send_packet info) (zlen request_packet)
                  (if 0 <? send_msg_len then send_msg_len else 0)
                  (ipv4_addr info) (udp_port info) (time (sworld s)) in
                if 0 <? send_msg_len then
                  let reqdrv := Z.land (byte_at (recv_packet info) off_drive) 0x1F in
                  let ro := match drives s !! Z.to_nat reqdrv with
                            | Some d => read_only d | None => false end in
                  let p := finish_reply (send_packet info) send_msg_len ro checksum_present in
                  (Sends (take (Z.to_nat send_msg_len) p),
                   put_cache s (<[k := with_send_packet info p]> (answer_cache s)))
                else (NoReply, put_cache s (<[k := info]> (answer_cache s)))
          end
      end
  end.

(** ** Runs of the server *)

(** The loop serves datagrams from any client, in any order, while the
    machine may be changed by others between two of them; it ends when a
    turn stops it. *)
Inductive step (s : srv W) : srv W -> Prop :=
  | step_serve ip port datagram s' ev :
      Forall is_byte datagram ->
      serve ip port datagram s = (ev, s') ->
      (match ev with Rejected | NoReply | Sends _ => True | _ => False end) ->
      step s s'
  | step_others w : step s (mkSrv w (scwd s) (drives s) (answer_cache s)).
End Server.
