(* ===== verification/Samples.v ===== *)
(** * Samples: a concrete server for the runs

    A machine of MemFs.v with one shared directory, drives C (writable) and D
    (read-only) that share it, and requests a client would send.  The theorems
    about the server are applied here; nothing else depends on it. *)
From stdpp Require Import gmap.
From S2P Require Import Prelude Words Paths FatTime Host Attrs Fcb Files MemFs Drive Handles.
From S2P Require Import Protocol ReplyCache Server.

#[export] Instance sample_native : Native := little.
#[export] Instance sample_attrs : DosAttrs mem := linux_attrs mem.
#[export] Instance sample_attrs_laws : DosAttrsLaws mem := proj1 platforms_lawful.
#[export] Instance sample_calendar : Calendar := toy_calendar.

Definition sample_world : mem :=
  mkMem [([str "srv"], dir); ([str "srv"; str "README.TXT"], file (str "hello"));
         ([str "srv"; str "SUB"], dir); ([str "etc"], dir)] 1700000000.

Definition sample_drive (ro : bool) : Drive :=
  mkDrive true (str "/srv") ro true
    (mkFcb (str "NETMOUNT") (str "   ")) true IN_EXTENDED RAM [].

Definition sample_server : srv mem :=
  mkSrv sample_world (str "/")
    (<[2%nat := sample_drive false]> (<[3%nat := sample_drive true]>
       (replicate MAX_DRIVES_COUNT Drive_default)))
    ReplyCache_default.

(** A request without a checksum. *)
Definition sample_packet (seq drive function : Z) (data : bytes) : bytes :=
  [1; 8 + zlen data; 0; 0x24; 0x95; seq; drive; function] ++ data.

(** The replies and the machine after a list of datagrams from one client. *)
Fixpoint run (s : srv mem) (datagrams : list bytes) : list event * srv mem :=
  match datagrams with
  | [] => ([], s)
  | d :: ds =>
      let '(ev, s) := serve ∅ 64 0x0A000001 1024 d s in
      let '(evs, s) := run s ds in (ev :: evs, s)
  end.

(** Making a directory on C. *)
Definition make_new : bytes := sample_packet 7 2 0x03 (str "\new").
(** Reading the first file found in C. *)
Definition find_all : bytes := sample_packet 8 2 0x1B (0x16 :: str "\????????.???").

Example run_make_new :
  (run sample_server [make_new]).1 = [Sends [1; 8; 32; 0x24; 0x95; 7; 0; 0]]
  /\ is_dir (sworld (run sample_server [make_new]).2) [str "srv"; str "new"] = true.
Proof. vm_compute. done. Qed.
