(* ===== verification/DriveSpec.v ===== *)
(** * DriveSpec: which files deleting and renaming may touch

    The safety of the two operations that lose data: DELETE_FILE removes
    nothing but files that are neither directories nor read-only, and on a
    share without name conversion RENAME_FILE never replaces a file.  Two
    examples show where the operations fall short of that. *)
From stdpp Require Import relations.
From S2P Require Import Prelude Words Paths FatTime Host Attrs Unicode Fcb Files MemFs Drive.
From S2P Require Import DriveOps DriveInv Samples.

Section DriveSpec.
Context {W : Type} `{!Host W, !DosAttrs W, CAL : !Calendar}.
Context (tmap : translit_map).

(** ** What leaves the machine alone *)

(** The machine and the configuration of the drive are as before. *)
Definition unchanged (s s' : st W) : Prop :=
  world s' = world s /\ config (drive s') = config (drive s).

#[export] Instance unchanged_preorder : PreOrder unchanged.
Proof. split; [by split|]. intros ? ? ? [? ?] [? ?]. split; congruence. Qed.

Lemma keeps_put_items its : keeps unchanged (modify (put_items its)).
Proof. apply keeps_modify. by split. Qed.
Lemma keeps_update_item h f : keeps unchanged (update_item h f).
Proof. apply keeps_modify. by split. Qed.
Hint Resolve keeps_put_items keeps_update_item : keeps.

Lemma keeps_get_handle p : keeps unchanged (get_handle p).
Proof. unfold get_handle. keeps_tac. Qed.
Lemma keeps_create_directory_list h : keeps unchanged (create_directory_list tmap h).
Proof. unfold create_directory_list. keeps_tac. Qed.
Hint Resolve keeps_get_handle keeps_create_directory_list : keeps.

Lemma keeps_get_server_name h fcb recreate : keeps unchanged (get_server_name tmap h fcb recreate).
Proof. unfold get_server_name. keeps_tac. Qed.
Hint Resolve keeps_get_server_name : keeps.

Lemma keeps_walk p parts recreate : keeps unchanged (walk tmap p parts recreate).
Proof.
  revert p. induction parts as [|part rest IH]; intros p; cbn [walk]; [keeps_tac|]. keeps_tac.
Qed.
Hint Resolve keeps_walk : keeps.

(** Translating a client path changes nothing but the handles of the drive. *)
Lemma keeps_create_server_path p recreate : keeps unchanged (create_server_path tmap p recreate).
Proof. unfold create_server_path. keeps_tac. Qed.
Lemma keeps_check_writable : keeps unchanged (check_writable (W:=W)).
Proof. unfold check_writable. keeps_tac. Qed.
Lemma keeps_check_not_root p : keeps unchanged (check_not_root (W:=W) p).
Proof. unfold check_not_root. keeps_tac. Qed.
Lemma keeps_attrs_or_zero p : keeps unchanged (attrs_or_zero (W:=W) p).
Proof. unfold attrs_or_zero, get_server_path_attrs. keeps_tac. Qed.

(** ** Deleting *)

(** One file is removed: not a directory, and not read-only as far as its
    attributes can be read. *)
Inductive deletion (mode : AttrsMode) (w : W) : W -> Prop :=
  | deletion_step p : is_directory w p = Ok false ->
      (forall a, get_item_attrs w p mode = Ok a -> has a FAT_RO = false) ->
      deletion mode w (remove p w).2.

Definition deletions (s s' : st W) : Prop :=
  rtc (deletion (attrs_mode (drive s))) (world s) (world s')
  /\ attrs_mode (drive s') = attrs_mode (drive s).

#[export] Instance deletions_preorder : PreOrder deletions.
Proof.
  split; [by split|]. intros x y z [H1 E1] [H2 E2]. split; [|congruence].
  etrans; [done|]. by rewrite <- E1.
Qed.

Lemma keeps_unchanged {A} (m : M (st W) A) : keeps unchanged m -> keeps deletions m.
Proof. intros Hm s. destruct (Hm s) as [E1 E2]. split; [by rewrite E1|].
  by apply (f_equal attrs_mode) in E2. Qed.

(** One step in a given state. *)
Lemma deletions_bind {A B} (m : M (st W) A) (k : A -> M (st W) B) s :
  deletions s (m s).2 -> (forall a, keeps deletions (k a)) -> deletions s (bind m k s).2.
Proof.
  intros Hm Hk. unfold bind. destruct (m s) as [[a|e] s']; simpl in *; [|done].
  etrans; [exact Hm | apply Hk].
Qed.

(** The test for read-only files and the removal behind it. *)
Lemma unless_read_only {A} p (no yes : M (st W) A) s :
  deletions s (no s).2 ->
  ((forall a, get_item_attrs (world s) p (attrs_mode (drive s)) = Ok a -> has a FAT_RO = false) ->
   deletions s (yes s).2) ->
  deletions s ((let* attrs := attrs_or_zero p in if has attrs FAT_RO then no else yes) s).2.
Proof.
  intros Hno Hyes. unfold bind, attrs_or_zero, try_catch, get_server_path_attrs, query, ret.
  destruct (get_item_attrs (world s) p (attrs_mode (drive s))) as [a|e] eqn:E; cbn [fst snd].
  - destruct (has a FAT_RO) eqn:Ea; [apply Hno|]. apply Hyes. by intros ? [= <-].
  - change (has 0 FAT_RO) with false. cbn iota. by apply Hyes.
Qed.

Lemma lift_removal (m : M W unit) p s :
  ((m (world s)).2 = world s \/ is_directory (world s) p = Ok false /\ (m (world s)).2 = (remove p (world s)).2) ->
  (forall a, get_item_attrs (world s) p (attrs_mode (drive s)) = Ok a -> has a FAT_RO = false) ->
  deletions s (lift_w m s).2.
Proof.
  intros Hm Ha. unfold lift_w. destruct (m (world s)) as [r w]. simpl in *. split; [|done].
  destruct Hm as [-> | [Hd ->]]; [done|]. by apply rtc_once, deletion_step.
Qed.

Lemma delete_file_removal (w : W) p :
  (delete_file p w).2 = w
  \/ is_directory w p = Ok false /\ (delete_file p w).2 = (remove p w).2.
Proof.
  unfold delete_file, bind, query, ret, call.
  destruct (exists_ w p) as [[]|]; cbn; [| |by left].
  2: destruct (is_symlink w p) as [[]|]; cbn; [|by left|by left].
  all: destruct (is_directory w p) as [[]|]; cbn; [by left| |by left].
  all: right; split; [done|]; by destruct (remove p w) as [[] w'].
Qed.

Lemma keeps_delete_in_directory f d names : keeps deletions (delete_in_directory f d names).
Proof.
  induction names as [|name names IH]; cbn [delete_in_directory]; [apply keeps_ret; apply _|].
  intros s. unfold bind at 1, query.
  destruct (is_directory (world s) (path_append d name)) as [is_dir|] eqn:Ed; [|done].
  apply deletions_bind; [|done]. destruct is_dir; [done|]. case_match; [|done].
  apply unless_read_only; [done|]. apply lift_removal. right. split; [done|].
  unfold remove_ec, c_call, bind, ret. by destruct (remove _ (world s)) as [[] w'].
Qed.

Lemma keeps_delete_in_list f d dl : keeps deletions (delete_in_list f d dl).
Proof.
  induction dl as [|e dl IH]; cbn [delete_in_list]; [apply keeps_ret; apply _|].
  intros s. apply deletions_bind; [|done]. case_match; [done|]. case_match; [|done].
  apply unless_read_only; [done|]. intros Ha.
  pose proof (lift_removal (delete_file (path_append d (server_name e))) _ s
    (delete_file_removal _ _) Ha) as Hd.
  unfold try_catch. by destruct (lift_w _ s) as [[] s'].
Qed.

(** C31: a DELETE_FILE request removes nothing but files that are not
    directories and whose attributes, as far as they can be read, are not
    read-only; every other change of the machine is excluded, whatever the
    pattern, the state of the drive and the outcome of the single steps. *)
Theorem delete_files_spec client_pattern s :
  rtc (deletion (attrs_mode (drive s))) (world s) (world (delete_files tmap client_pattern s).2).
Proof.
  assert (keeps deletions (delete_files tmap client_pattern)) as Hk; [|by destruct (Hk s)].
  unfold delete_files.
  apply keeps_bind; [apply _|apply keeps_unchanged, keeps_check_writable|intros _].
  apply keeps_bind; [apply _|apply keeps_unchanged, keeps_create_server_path|].
  intros [server_path [|]].
  all: apply keeps_bind; [apply _|apply keeps_unchanged, keeps_check_not_root|intros _].
  - intros s'. apply unless_read_only; [done|]. apply lift_removal, delete_file_removal.
  - case_match; [apply keeps_throw; apply _|].
    apply keeps_bind; [apply _|apply keeps_gets; apply _|]. intros d. case_match.
    + apply keeps_bind; [apply _|apply keeps_gets; apply _|]. intros [names err].
      apply keeps_bind; [apply _|apply keeps_delete_in_directory|intros _].
      case_match; [apply keeps_throw|apply keeps_ret]; apply _.
    + apply keeps_bind; [apply _|apply keeps_unchanged, keeps_get_handle|intros handle].
      apply keeps_bind; [apply _|apply keeps_gets; apply _|intros item].
      apply keeps_delete_in_list.
Qed.

(** ** Renaming *)

(** Without name conversion the path of a client names itself. *)
Lemma create_server_path_off p s recreate : converts (drive s) = false -> is_absolute p = false ->
  match (create_server_path tmap p recreate s).1 with
  | Ok (q, false) => exists_ (world s) q = Ok false /\ is_symlink (world s) q = Ok false
  | _ => True
  end.
Proof.
  intros Hc Ha. unfold create_server_path, bind at 1, gets. destruct p as [|c p]; [done|].
  destruct (check_path_depth _ <? 0); [done|].
  destruct (check_path_depth _ =? 0); [done|]. unfold converts in Hc. apply negb_false_iff in Hc.
  rewrite Hc. unfold bind, query. destruct (exists_ (world s) (parent_path _)) as [[]|]; try done.
  cbn. destruct (exists_ (world s) (path_append (root (drive s)) (c :: p))) as [[]|] eqn:E; try done.
  destruct (is_symlink (world s) (path_append (root (drive s)) (c :: p))) as [[]|] eqn:E'; done.
Qed.

(** How renaming may leave the machine. *)
Definition renamed (w w' : W) : Prop :=
  w' = w
  \/ exists old_path new_path, w' = (rename old_path new_path w).2
     /\ exists_ w new_path = Ok false /\ is_symlink w new_path = Ok false.

Lemma renamed_bind {A B} (m : M (st W) A) (k : A -> M (st W) B) s : keeps unchanged m ->
  (forall a s', m s = (Ok a, s') -> world s' = world s -> config (drive s') = config (drive s) ->
     renamed (world s) (world (k a s').2)) ->
  renamed (world s) (world (bind m k s).2).
Proof.
  intros Hm Hk. unfold bind. pose proof (Hm s) as [E1 E2].
  destruct (m s) as [[a|e] s']; simpl in *; [by apply Hk|by left].
Qed.

(** The last steps of renaming. *)
Lemma renamed_last old_path new_path p s :
  exists_ (world s) new_path = Ok false -> is_symlink (world s) new_path = Ok false ->
  renamed (world s) (world ((do* lift_w (Files.rename_file old_path new_path) in
                             do* create_server_path tmap p true in ret tt) s).2).
Proof.
  intros H1 H2. right. exists old_path, new_path. split; [|done].
  unfold bind at 1, lift_w, Files.rename_file, call_unit.
  destruct (rename old_path new_path (world s)) as [[e|] w']; [done|]. cbn [fst snd].
  by apply (keeps_bind unchanged _ _ (keeps_create_server_path p true)
    (fun _ => keeps_ret unchanged tt) (mkSt w' (cwd s) (drive s))).
Qed.

(** On a share without name conversion, renaming never replaces a file:
    the machine is as before, or it was changed by the renaming to a path at
    which no file, no directory and no symbolic link was. *)
Theorem rename_file_no_overwrite old_client_path new_client_path s :
  converts (drive s) = false -> is_absolute new_client_path = false ->
  renamed (world s) (world (rename_file tmap old_client_path new_client_path s).2).
Proof.
  intros Hc Ha. unfold rename_file.
  apply renamed_bind; [apply keeps_check_writable|intros _ s1 _ W1 C1]. rewrite <- W1.
  apply renamed_bind; [apply keeps_create_server_path|intros [op eo] s2 _ W2 C2]. rewrite <- W2.
  apply renamed_bind; [apply keeps_check_not_root|intros _ s3 _ W3 C3]. rewrite <- W3.
  assert (converts (drive s3) = false) as Hc3.
  { rewrite <- Hc. unfold converts. apply (f_equal name_conversion) in C1, C2, C3.
    simpl in C1, C2, C3. by rewrite C3, C2, C1. }
  apply renamed_bind.
  { apply keeps_try; [apply _|apply keeps_create_server_path|]. intros e.
    repeat case_match; apply keeps_throw; apply _. }
  intros [np new_exists] s4 E4 W4 C4. rewrite <- W4.
  assert (new_exists = false -> exists_ (world s4) np = Ok false /\ is_symlink (world s4) np = Ok false)
    as Hnew.
  { intros ->. rewrite W4. pose proof (create_server_path_off new_client_path s3 false Hc3 Ha) as H.
    unfold try_catch in E4. destruct (create_server_path _ _ _ s3) as [[r|e] s5].
    - injection E4 as -> <-. exact H.
    - by repeat case_match. }
  apply renamed_bind; [apply keeps_check_not_root|intros _ s5 _ W5 C5]. rewrite <- W5 in *.
  destruct new_exists; [by left|]. destruct (Hnew eq_refl). by apply renamed_last.
Qed.
End DriveSpec.

(** ** Runs on a machine *)

(** The writable sample share, without name conversion. *)
Definition off_state : st mem :=
  let d := sample_drive false in
  mkSt sample_world (str "/")
    (mkDrive (used d) (root d) (read_only d) (use_client_timestamp d) (volume_label d)
       (has_volume_label d) (attrs_mode d) OFF (items d)).

Lemma rename_file_no_overwrite_witness :
  renamed sample_world
    (world (rename_file (W:=mem) ∅ (str "README.TXT") (str "NEW.TXT") off_state).2).
Proof. apply (rename_file_no_overwrite (W:=mem) ∅); vm_compute; reflexivity. Defined.

(** Without name conversion a pattern is matched against the whole path of a
    file, so the files it names are not deleted, and the request succeeds. *)
Example off_delete_misses :
  let r := delete_files (W:=mem) ∅ (str "README.???") off_state in
  r.1 = Ok tt /\ data_of (world r.2) (str "/srv/README.TXT") = Some (str "hello").
Proof. vm_compute. done. Qed.

(** A share that converts names knows a new file of the server only when it
    makes the directory list again; until then renaming replaces the file. *)
Definition listed_state : st mem :=
  (create_directory_list (W:=mem) ∅ 0
     (get_handle (W:=mem) (str "/srv") (mkSt sample_world (str "/") (sample_drive false))).2).2.

Example stale_rename_overwrites :
  let w := mem_create [str "srv"; str "NEW.TXT"] (file (str "precious")) sample_world in
  let s := mkSt w (str "/") (drive listed_state) in
  let r := rename_file (W:=mem) ∅ (str "README.TXT") (str "NEW.TXT") s in
  r.1 = Ok tt /\ data_of w (str "/srv/NEW.TXT") = Some (str "precious")
  /\ data_of (world r.2) (str "/srv/NEW.TXT") = Some (str "hello").
Proof. vm_compute. done. Qed.
