(* ===== verification/Listing.v ===== *)
(** * Listing: directory searches and what a directory list promises

    The search a client makes with FIND_FIRST and FIND_NEXT, driven by the
    handle and the position each reply carries, finds exactly the entries of
    the directory list that match; and the list of a share that converts names
    has one entry per file, under a short name of its own that leads back to
    the file. *)
From S2P Require Import Prelude Words Paths FatTime Host Attrs Unicode Fcb Files MemFs Drive.
From S2P Require Import Handles DriveInv Protocol HandlerInv Samples.

(** ** The search *)

Section Client.
Context {W : Type} `{!Host W, !DosAttrs W, CAL : !Calendar} `{NAT : Native}.
Context (tmap : translit_map).

(** The next request of a search: the handle and the position of the reply
    before, the attributes and the template the search started with. *)
Definition next_request (reply_data : bytes) (fattr : Z) (search_template : fcb_file_name) : bytes :=
  take 4 (drop 20 reply_data) ++ put8 fattr ++ fcb_bytes search_template.

(** The data of the replies up to the first one that is not a success. *)
Fixpoint find_nexts (fuel : nat) (fattr : Z) (search_template : fcb_file_name) (r : reply)
  : M (st W) (list bytes) :=
  match fuel, r with
  | S fuel, Reply return_code data _ =>
      if return_code =? DOS_EXTERR_NO_ERROR then
        let* r := handle_find_next tmap (next_request data fattr search_template) in
        let* found := find_nexts fuel fattr search_template r in
        ret (data :: found)
      else ret []
  | _, _ => ret []
  end.

(** FIND_FIRST with the attributes and the template in [data], and then
    FIND_NEXT as long as something is found. *)
Definition search_directory (fuel : nat) (data : bytes) : M (st W) (list bytes) :=
  let* r := handle_find_first tmap data in
  find_nexts fuel (byte_at data 0)
    (short_name_to_fcb (filename (create_relative_path (drop 1 data)))) r.

(** What a reply says about the entry: all but the handle and the position. *)
Definition entry_bytes (p : DosFileProperties) : bytes := take 20 (find_reply p 0 0).
End Client.

(** *** Fields of packets *)

Section Fields.
Context `{NAT : Native}.

Lemma put16_le x : put16 x = le16_bytes (u16 x).
Proof. unfold put16. apply store16_to_little16. auto with words. Qed.

Lemma get16_put16 l x k : is_u16 x -> get16 (l ++ put16 x ++ k) (length l) = x.
Proof.
  intros Hx. rewrite put16_le, (u16_id x Hx).
  assert (load16 (l ++ le16_bytes x ++ k) (length l) = load16 (le16_bytes x) 0) as E.
  { unfold load16, le16, be16. pose proof (byte_at_app_r l (le16_bytes x ++ k) 0) as E0.
    rewrite Nat.add_0_r in E0. by rewrite byte_at_app_r, E0. }
  unfold get16. rewrite E, from_little16_load16 by apply le16_bytes_byte.
  rewrite <- (app_nil_r (le16_bytes x)). by apply le16_roundtrip.
Qed.

Lemma find_reply_split p h n : fcb_wf (fcb_name p) ->
  find_reply p h n = entry_bytes p ++ put16 (Z.of_nat h) ++ put16 (Z.of_nat n)
  /\ length (entry_bytes p) = 20%nat.
Proof.
  intros Hw. unfold entry_bytes, find_reply. rewrite !app_assoc.
  set (l := ((((put8 _ ++ fcb_bytes _) ++ _) ++ _) ++ _)).
  assert (length l = 20%nat) as Hl.
  { unfold l. by rewrite !length_app, fcb_bytes_length, !put16_length, put32_length. }
  rewrite <- !app_assoc, take_app_length' by done. by split.
Qed.

Lemma find_reply_entry p h n : fcb_wf (fcb_name p) -> take 20 (find_reply p h n) = entry_bytes p.
Proof. intros Hw. destruct (find_reply_split p h n Hw) as [-> Hl]. by apply take_app_length'. Qed.
End Fields.

(** *** One step of the search *)

Lemma find_entry_spec tmpl attr n dl :
  match find_entry tmpl attr n dl with
  | Some (k, e) => exists before after, dl = before ++ e :: after /\ k = (n + length before)%nat
      /\ filter (fun e => entry_matches tmpl attr e = true) dl
         = e :: filter (fun e => entry_matches tmpl attr e = true) after
  | None => filter (fun e => entry_matches tmpl attr e = true) dl = []
  end.
Proof.
  revert n. induction dl as [|x dl IH]; intros n; [done|]. cbn [find_entry].
  destruct (entry_matches tmpl attr x) eqn:Ex.
  - exists [], dl. rewrite filter_cons_True by done. split_and!; [done|simpl; lia|done].
  - specialize (IH (S n)). rewrite filter_cons_False by congruence.
    destruct (find_entry tmpl attr (S n) dl) as [[k e]|]; [|done].
    destruct IH as (before & after & -> & -> & Hf). exists (x :: before), after.
    split_and!; [done|simpl; lia|done].
Qed.

Section Search.
Context {W : Type} `{!Host W, !DosAttrs W, CAL : !Calendar, !HostLaws W} `{NAT : Native}.
Context (tmap : translit_map).

Lemma get_item_eq h s i : items (drive s) !! h = Some i -> item_path i <> [] ->
  get_item (W:=W) h s = (Ok i, s).
Proof. intros Hi Hp. unfold get_item, bind, gets. rewrite Hi. by destruct (item_path i). Qed.

(** Going on in a list that is there. *)
Lemma find_file_next h tmpl attr nth s i : items (drive s) !! h = Some i -> item_path i <> [] ->
  attr <> FAT_VOLUME -> nth <> 0%nat -> directory_list i <> [] ->
  find_file (W:=W) tmap h tmpl attr nth s
  = (Ok (match find_entry tmpl attr nth (drop nth (directory_list i)) with
         | Some (n, e) => Some (e, S n)
         | None => None
         end), s).
Proof.
  intros Hi Hp Ha Hn Hd. unfold find_file. rewrite (proj2 (Z.eqb_neq _ _) Ha).
  unfold bind at 1. rewrite (get_item_eq _ _ _ Hi Hp), (proj2 (Nat.eqb_neq _ _) Hn).
  rewrite bool_decide_false by done. unfold bind, gets, ret. cbn [orb].
  change (0 <? 0) with false. cbv beta iota. rewrite Hi. by destruct (find_entry _ _ _ _) as [[]|].
Qed.

(** Starting with a new list. *)
Lemma find_file_first h tmpl attr s i i' n : items (drive s) !! h = Some i -> item_path i <> [] ->
  attr <> FAT_VOLUME -> list_directory tmap (world s) (drive s) i = (i', n) -> 0 <= n ->
  find_file (W:=W) tmap h tmpl attr 0 s
  = (Ok (match find_entry tmpl attr 0 (directory_list i') with
         | Some (n, e) => Some (e, S n)
         | None => None
         end), put_items (<[h := i']> (items (drive s))) s).
Proof.
  intros Hi Hp Ha Hl Hn. unfold find_file. rewrite (proj2 (Z.eqb_neq _ _) Ha).
  unfold bind at 1. rewrite (get_item_eq _ _ _ Hi Hp). cbn [Nat.eqb orb].
  unfold create_directory_list, bind, gets, modify. cbn [id]. rewrite Hi, Hl. cbn [ret].
  rewrite (proj2 (Z.ltb_ge _ _) Hn). cbn [put_items put_drive set_items items drive].
  rewrite list_lookup_insert_eq by (by eapply lookup_lt_Some). rewrite drop_0.
  by destruct (find_entry _ _ _ _) as [[]|].
Qed.

(** The reply to a search. *)
Definition search_reply (h : nat) (r : option (nat * DosFileProperties)) : reply :=
  match r with
  | Some (n, e) => success (find_reply e h (S n))
  | None => failure DOS_EXTERR_NO_MORE_FILES
  end.

Lemma handle_find_next_eq e h k attr mask s i : fcb_wf (fcb_name e) -> fcb_wf mask ->
  is_byte attr -> attr <> FAT_VOLUME ->
  items (drive s) !! h = Some i -> item_path i <> [] -> directory_list i <> [] ->
  Z.of_nat h < 2 ^ 16 -> Z.of_nat (S k) < 2 ^ 16 ->
  handle_find_next (W:=W) tmap (next_request (find_reply e h (S k)) attr mask) s
  = (Ok (search_reply h (find_entry mask attr (S k) (drop (S k) (directory_list i)))), s).
Proof.
  intros He Hm Hb Ha Hi Hp Hd Hh Hk. unfold next_request.
  destruct (find_reply_split e h (S k) He) as [-> Hl].
  rewrite drop_app_length' by done.
  rewrite (take_ge (_ ++ _)) by (rewrite length_app, !put16_length; done).
  set (P1 := put16 (Z.of_nat h)). set (P2 := put16 (Z.of_nat (S k))).
  assert (length P1 = 2%nat /\ length P2 = 2%nat) as [L1 L2] by (split; apply put16_length).
  pose proof (fcb_bytes_length mask Hm) as Lf. unfold put8. rewrite u8_id by done.
  set (data := ((P1 ++ P2) ++ [attr] ++ fcb_bytes mask)).
  assert (length data = 16%nat) as Ld by (unfold data; rewrite !length_app, L1, L2, Lf; done).
  assert (get16 data 0 = Z.of_nat h) as E1.
  { unfold data. rewrite <- app_assoc. apply (get16_put16 []). unfold is_u16. lia. }
  assert (get16 data 2 = Z.of_nat (S k)) as E2.
  { unfold data. rewrite <- app_assoc, <- L1. apply get16_put16. unfold is_u16. lia. }
  assert (byte_at data 4 = attr) as E3.
  { unfold data. replace 4%nat with (length (P1 ++ P2) + 0)%nat
      by (rewrite length_app, L1, L2; done). by rewrite byte_at_app_r. }
  assert (drop 5 data = fcb_bytes mask) as E4.
  { unfold data. rewrite app_assoc. apply drop_app_length'.
    rewrite !length_app, L1, L2. done. }
  assert (mkFcb (take 8 (drop 5 data)) (take 3 (drop 13 data)) = mask) as E5.
  { change 13%nat with (8 + 5)%nat. rewrite Nat.add_comm, <- drop_drop, E4.
    destruct mask as [nm ex]. destruct Hm as [M1 M2]. simpl in M1, M2. unfold fcb_bytes. cbn [name_blank_padded ext_blank_padded].
    rewrite take_app_length', drop_app_length' by done. by rewrite take_ge by (rewrite M2; done). }
  unfold handle_find_next. rewrite E1, E2, E3, E5, Ld, !Nat2Z.id. cbn [Z.eqb negb].
  change (Z.of_nat 16 =? 16) with true. cbn [negb].
  unfold try_catch, bind. rewrite (find_file_next _ _ _ _ _ _ Hi Hp Ha) by done.
  by destruct (find_entry _ _ _ _) as [[]|].
Qed.

(** The rest of a search, from the entries before the position on. *)
Lemma find_nexts_spec fuel h attr mask s i before rest : fcb_wf mask ->
  is_byte attr -> attr <> FAT_VOLUME ->
  items (drive s) !! h = Some i -> item_path i <> [] -> Z.of_nat h < 2 ^ 16 ->
  zlen (directory_list i) < 2 ^ 16 -> Forall (fun e => fcb_wf (fcb_name e)) (directory_list i) ->
  directory_list i = before ++ rest -> (length rest < fuel)%nat ->
  exists replies,
    find_nexts (W:=W) tmap fuel attr mask
      (search_reply h (find_entry mask attr (length before) rest)) s = (Ok replies, s)
    /\ take 20 <$> replies
       = entry_bytes <$> filter (fun e => entry_matches mask attr e = true) rest.
Proof.
  intros Hm Hb Ha Hi Hp Hh Hlen Hw. revert before rest.
  induction fuel as [|fuel IH]; intros before rest Hd Hf; [lia|].
  pose proof (find_entry_spec mask attr (length before) rest) as F.
  destruct (find_entry mask attr (length before) rest) as [[k e]|].
  2: { exists []. rewrite F. done. }
  destruct F as (skipped & after & -> & -> & Hfil).
  assert (fcb_wf (fcb_name e)) as He.
  { rewrite Hd in Hw. apply Forall_app in Hw as [_ Hw]. by apply Forall_app in Hw as [_ [? _]%Forall_cons]. }
  set (k := (length before + length skipped)%nat).
  assert (directory_list i = (before ++ skipped ++ [e]) ++ after) as Hd'
    by (by rewrite Hd, <- !app_assoc).
  assert (length (before ++ skipped ++ [e]) = S k) as Hk
    by (rewrite !length_app; simpl; unfold k; lia).
  destruct (IH _ _ Hd') as (replies & Er & Ef); [rewrite length_app in Hf; simpl in Hf; lia|].
  exists (find_reply e h (S k) :: replies). split.
  - cbn [find_nexts search_reply]. change (success ?d) with (Reply DOS_EXTERR_NO_ERROR d true).
    cbn [Z.eqb]. unfold bind at 1.
    rewrite (handle_find_next_eq e h k attr mask s i); try done.
    + rewrite Hd', <- Hk, drop_app_length. unfold bind. by rewrite Er.
    + rewrite Hd. by destruct before, skipped.
    + rewrite Hd', length_app, Hk in Hlen. lia.
  - rewrite Hfil, !fmap_cons, find_reply_entry by done. by rewrite Ef.
Qed.

(** FIND_FIRST and the FIND_NEXTs that follow it, each sent with the
    handle and the position of the reply before, report every entry of the
    directory that matches the mask and the attributes, once and in the order
    of the list, and nothing else; the search ends, and nothing but the new
    directory list of the handle is changed. *)
Theorem directory_search_complete data s h s1 i i' n :
  1 < zlen data -> is_byte (byte_at data 0) -> byte_at data 0 <> FAT_VOLUME ->
  fcb_wf (volume_label (drive s1)) ->
  find_first_handle tmap (create_relative_path (drop 1 data)) s = (Ok (Ok h), s1) ->
  Z.of_nat h < 0xFFFF -> items (drive s1) !! h = Some i -> item_path i <> [] ->
  list_directory tmap (world s1) (drive s1) i = (i', n) -> 0 <= n ->
  let mask := short_name_to_fcb (filename (create_relative_path (drop 1 data))) in
  exists replies,
    search_directory (W:=W) tmap (S (length (directory_list i'))) data s
    = (Ok replies, put_items (<[h := i']> (items (drive s1))) s1)
    /\ take 20 <$> replies
       = entry_bytes <$> filter (fun e => entry_matches mask (byte_at data 0) e = true)
                           (directory_list i').
Proof.
  intros Hlen Hb Ha Hv Hfirst Hh Hi Hp Hl Hn mask.
  pose proof (list_directory_props tmap (world s1) (drive s1) i Hv) as (Hpi & Hll & _ & Hw).
  rewrite Hl in Hpi, Hll, Hw. cbn [fst] in *.
  set (s2 := put_items (<[h := i']> (items (drive s1))) s1).
  destruct (find_nexts_spec (S (length (directory_list i'))) h (byte_at data 0) mask s2 i' []
    (directory_list i')) as (replies & Er & Ef);
    [apply short_name_to_fcb_wf|done|done| |by rewrite Hpi|lia|lia|done|done|lia|].
  { apply list_lookup_insert_eq. by eapply lookup_lt_Some. }
  exists replies. split; [|exact Ef].
  unfold search_directory, handle_find_first. rewrite (proj2 (Z.leb_gt _ _) Hlen).
  unfold bind at 1 2. rewrite Hfirst, (proj2 (Z.eqb_neq _ _)) by lia.
  unfold bind at 1. rewrite (find_file_first _ _ _ _ _ _ _ Hi Hp Ha Hl Hn).
  rewrite <- Er. by destruct (find_entry _ _ _ _) as [[]|].
Qed.
End Search.

(** ** What a directory list of converted names promises *)

(** The entries of files after the first ones: their names, in the order of
    the directory, under legal short names that differ from each other and
    from the names in use. *)
Record named (tmap : translit_map) (names : list bytes) (used : list fcb_file_name)
    (files : list DosFileProperties) : Prop := {
  named_names : server_name <$> files = names;
  named_legal : Forall (fun e => dos_name (fcb_name e)) files;
  named_distinct : NoDup (fcb_name <$> files);
  named_fresh : Forall (fun e => fcb_name e ∉ used) files;
  named_attrs : Forall (fun e => attrs e <> FAT_VOLUME) files;
  named_base : Forall (fun e => blank (name_blank_padded (fcb_name e)) ->
    blank (base_part (convert_utf8_to_ascii tmap (server_name e)))) files;
}.

Section Lists.
Context {W : Type} `{!Host W, !DosAttrs W, CAL : !Calendar, !HostLaws W, !DosAttrsLaws W}.
Context (tmap : translit_map).

(** A file never has the attributes of a volume label: what the stores answer
    are storable attributes. *)
Lemma stored_not_volume d a : d = FAT_DIRECTORY \/ d = 0 -> Z.land a STORED_ATTRS = a ->
  Z.lor d a <> FAT_VOLUME.
Proof.
  intros Hd Ha E. apply (f_equal (fun x => Z.testbit x 3)) in E.
  rewrite <- Ha, Z.lor_spec, Z.land_spec, andb_false_r in E. by destruct Hd as [-> | ->].
Qed.

Lemma entry_not_volume (w : W) d p fcb name : attrs (entry_for w d p fcb name) <> FAT_VOLUME.
Proof.
  unfold entry_for, get_path_dos_properties. cbn [attrs].
  set (a0 := if is_directory_ec w p then FAT_DIRECTORY else 0).
  assert (a0 = FAT_DIRECTORY \/ a0 = 0) as H0 by (unfold a0; case_match; auto).
  assert (forall a, get_item_attrs w p (attrs_mode d) = Ok a -> Z.land a STORED_ATTRS = a) as Ha.
  { intros a. unfold get_item_attrs. destruct (is_dangling_symlink w p); [by intros [= <-]|].
    destruct (_ && _); [apply native_stored|]. destruct (_ && _); [apply extended_stored|].
    destruct (is_directory w p) as [[]|]; by intros [= <-]. }
  destruct (get_item_attrs w p (attrs_mode d)) as [a|]; cbn [fst attrs].
  - apply stored_not_volume; [done|by apply Ha].
  - rewrite <- (Z.lor_0_r a0). by apply stored_not_volume.
Qed.

Lemma list_entries_named (w : W) d p names dl used : converts d = true ->
  Forall is_filename names -> dl <> [] -> Forall fcb_wf used ->
  zlen dl + zlen names <= 0xFFFF -> (length used + length names <= max_suffixes)%nat ->
  exists files used', list_entries tmap w d p names dl used = (dl ++ files, used', Exhausted)
  /\ named tmap names used files.
Proof.
  intros Hc Hn. revert dl used. induction Hn as [|name names Hf Hn IH]; intros dl used Hdl Hu Hl Hs.
  { exists [], used. rewrite app_nil_r. by repeat split; constructor. }
  cbn [list_entries head_entries]. destruct dl as [|e0 dl]; [done|].
  cbn [head_entries]. rewrite (proj2 (Z.eqb_neq (zlen (e0 :: dl)) _)) by (simpl length in *; lia).
  rewrite Hc, filename_append by done.
  destruct (file_name_to_83 tmap name used) as [[f used1] ok] eqn:Ef.
  pose proof (blank_base _ _ _ _ _ _ Ef) as Hbase.
  apply file_name_to_83_props in Ef as (Hd & Hok & Ht). simpl length in Hs.
  rewrite (Ht Hu) in Hok by lia. destruct Hok as [Hnew ->].
  set (e := entry_for w d (path_append p name) f name).
  destruct (IH ((e0 :: dl) ++ [e]) (f :: used)) as (files & used' & -> & [N1 N2 N3 N4 N5 N6]).
  { done. }
  { constructor; [apply Hd|done]. }
  { rewrite length_app. simpl length in *. lia. }
  { simpl. lia. }
  exists (e :: files), used'. split; [by rewrite <- app_assoc|]. rewrite Forall_forall in N4. split.
  - rewrite fmap_cons, N1. unfold e. by rewrite entry_for_name.
  - by constructor.
  - rewrite fmap_cons. constructor; [|done]. rewrite list_elem_of_fmap.
    intros (x & Hx & Hin). apply (N4 x Hin). rewrite <- Hx. by left.
  - constructor; [by apply set_contains_false|]. apply Forall_forall. intros x Hx Hin.
    apply (N4 x Hx). by right.
  - constructor; [apply entry_not_volume|done].
  - constructor; [|done]. unfold e. by rewrite entry_for_name, entry_for_fcb.
Qed.

(** The entries before the files. *)
Definition head_of (w : W) (d : Drive) (p : path) : list DosFileProperties :=
  match equivalent w p (root d) with
  | Some true => if has_volume_label d then [volume_entry d] else []
  | _ => dot_entries w d p
  end.

Lemma head_of_length w d p : (length (head_of w d p) <= 2)%nat.
Proof. unfold head_of. repeat case_match; simpl; lia. Qed.

(** The list of a directory that is not empty. *)
Lemma list_directory_named (w : W) d i names : converts d = true ->
  directory_iterator w (item_path i) = (names, None) -> names <> [] ->
  equivalent w (item_path i) (root d) <> None -> (length names <= max_suffixes)%nat ->
  exists files i', list_directory tmap w d i = (i', zlen (directory_list i'))
  /\ item_path i' = item_path i
  /\ directory_list i' = head_of w d (item_path i) ++ files /\ named tmap names [] files.
Proof.
  intros Hc Hit Hne Heq Hlen. pose proof (directory_iterator_names w (item_path i)) as Hn.
  unfold list_directory. rewrite Hit in *. cbn [fst] in Hn.
  destruct names as [|name names]; [done|]. apply Forall_cons in Hn as [(Hf & _) Hn].
  pose proof (head_of_length w d (item_path i)) as Hh.
  assert (head_entries w d (item_path i) [] = Head (head_of w d (item_path i))) as Eh.
  { unfold head_entries, head_of. by destruct (equivalent w (item_path i) (root d)) as [[]|]. }
  cbn [list_entries]. rewrite Eh, Hc, filename_append by done.
  destruct (file_name_to_83 tmap name []) as [[f used1] ok] eqn:Ef.
  pose proof (blank_base _ _ _ _ _ _ Ef) as Hbase.
  apply file_name_to_83_props in Ef as (Hd & Hok & Ht). rewrite Ht in Hok;
    [|constructor|unfold max_suffixes; simpl; lia]. destruct Hok as [_ ->].
  set (e := entry_for w d (path_append (item_path i) name) f name).
  simpl length in Hlen. assert (Z.of_nat max_suffixes = 9998) as Hm by reflexivity.
  destruct (list_entries_named w d (item_path i) names (head_of w d (item_path i) ++ [e]) [f])
    as (files & used' & -> & [N1 N2 N3 N4 N5 N6]); [done| | | | |simpl; lia|].
  { eapply Forall_impl; [exact Hn|]. by intros ? []. }
  { by destruct (head_of w d (item_path i)). }
  { constructor; [apply Hd|constructor]. }
  { rewrite length_app. simpl. lia. }
  exists (e :: files), (mkItem (item_path i) (time w) ((head_of w d (item_path i) ++ [e]) ++ files)
                         used'). split; [done|]. split; [done|]. cbn [directory_list].
  split; [by rewrite <- app_assoc|]. rewrite Forall_forall in N4. split.
  - rewrite fmap_cons, N1. unfold e. by rewrite entry_for_name.
  - by constructor.
  - rewrite fmap_cons. constructor; [|done]. rewrite list_elem_of_fmap.
    intros (x & Hx & Hin). apply (N4 x Hin). rewrite <- Hx. by left.
  - apply Forall_forall. intros x _ Hx. by apply elem_of_nil in Hx.
  - constructor; [apply entry_not_volume|done].
  - constructor; [|done]. unfold e. by rewrite entry_for_name, entry_for_fcb.
Qed.

(** No file has the FCB name of a dot entry. *)
Lemma dos_name_not_dot n f : n = DOT \/ n = DOTDOT -> dos_name f ->
  fcb_eqb (short_name_to_fcb n) f = false.
Proof.
  intros Hn Hd. destruct (fcb_eqb _ _) eqn:E; [|done]. rewrite fcb_eqb_sym in E.
  apply fcb_eqb_eq in E; [|done|apply short_name_to_fcb_wf]. destruct Hd as [_ Hd]. rewrite E in Hd.
  destruct Hn as [-> | ->]; inversion Hd as [|? ? Hc]; subst; vm_compute in Hc; done.
Qed.

(** The entries before the files are not found under the name of a file. *)
Lemma head_of_skipped w d p f e : dos_name f -> e ∈ head_of w d p -> names_entry f e <> true.
Proof.
  intros Hf. unfold head_of, names_entry, volume_entry, dot_entries.
  assert (forall e, e ∈ dot_entries w d p -> names_entry f e <> true) as D.
  { unfold dot_entries, names_entry. cbn [fmap list_fmap]. intros x Hx.
    rewrite !elem_of_cons, elem_of_nil in Hx. destruct Hx as [-> | [-> | []]];
      rewrite entry_for_fcb, dos_name_not_dot, andb_false_r by auto; done. }
  destruct (equivalent w p (root d)) as [[]|]; [|apply D|apply D].
  destruct (has_volume_label d); intros Hin; [|by apply elem_of_nil in Hin].
  apply list_elem_of_singleton in Hin as ->. done.
Qed.

(** A file is the first entry with its FCB name. *)
Lemma find_named w d p names files k e : named tmap names [] files -> files !! k = Some e ->
  exists n, list_find (fun x => names_entry (fcb_name e) x = true) (head_of w d p ++ files)
            = Some (n, e).
Proof.
  intros [_ N2 N3 _ N5 _] Hk. rewrite Forall_lookup in N2, N5.
  pose proof (N2 _ _ Hk) as Hd. pose proof (N5 _ _ Hk) as Ha. simpl in Ha.
  exists (length (head_of w d p) + k)%nat. apply list_find_Some. split_and!.
  - by rewrite lookup_app_r, Nat.add_comm, Nat.add_sub by lia.
  - unfold names_entry. by rewrite fcb_eqb_refl, (proj2 (Z.eqb_neq _ _) Ha).
  - intros j y Hj Hlt. apply lookup_app_Some in Hj as [Hj | [Hge Hj]].
    + eapply head_of_skipped; [done|]. by eapply list_elem_of_lookup_2.
    + set (j' := (j - _)%nat) in *. unfold names_entry. intros [_ E]%andb_prop.
      rewrite fcb_eqb_sym in E. apply fcb_eqb_eq in E; [|done|by eapply N2].
      assert (j' = k); [|lia]. eapply (proj1 (NoDup_alt _) N3);
        rewrite list_lookup_fmap; [by rewrite Hj|rewrite Hk; simpl; by rewrite E].
Qed.

(** C30: on a share that converts names, the list of a directory with at least
    one and at most 9998 files, read without an error, has, behind the label or
    the dot entries, exactly one entry for every file in the order of the
    directory, under a short name of its own made of the characters DOS allows;
    as long as a file is there, asking for the FCB name of its entry answers the
    file's own name; and the short name as DOS shows it, folded to lower
    case as the server does, is parsed to that FCB name, unless the file's name
    has nothing but blanks before its last dot (.git). *)
Theorem listing_names_every_file s h i names :
  converts (drive s) = true -> directory_iterator (world s) (item_path i) = (names, None) ->
  names <> [] -> equivalent (world s) (item_path i) (root (drive s)) <> None ->
  (length names <= max_suffixes)%nat -> items (drive s) !! h = Some i ->
  exists files i' s', create_directory_list tmap h s = (Ok (zlen (directory_list i')), s')
  /\ items (drive s') !! h = Some i'
  /\ directory_list i' = head_of (world s) (drive s) (item_path i) ++ files
  /\ server_name <$> files = names
  /\ NoDup (fcb_name <$> files) /\ Forall (fun e => dos_name (fcb_name e)) files
  /\ forall e, e ∈ files ->
       exists_ (world s) (path_append (item_path i) (server_name e)) = Ok true ->
       get_server_name tmap h (fcb_name e) false s' = (Ok (server_name e), s')
       /\ (~ blank (base_part (convert_utf8_to_ascii tmap (server_name e))) ->
           short_name_to_fcb (ascii_to_lower <$> fcb_to_short_name (fcb_name e)) = fcb_name e).
Proof.
  intros Hc Hit Hne Heq Hlen Hi.
  destruct (list_directory_named (world s) (drive s) i names Hc Hit Hne Heq Hlen)
    as (files & i' & El & Hp & Hdl & Hf).
  set (s' := put_items (<[h := i']> (items (drive s))) s).
  assert (items (drive s') !! h = Some i') as Hi'
    by (apply list_lookup_insert_eq; by eapply lookup_lt_Some).
  exists files, i', s'. split_and!; [|done|done|apply Hf|apply Hf|apply Hf|].
  { unfold create_directory_list, bind, gets. cbn [id]. rewrite Hi, El. done. }
  intros e [k Hk]%list_elem_of_lookup_1 Hex.
  destruct (find_named (world s) (drive s) (item_path i) names files k e Hf Hk) as [n En].
  rewrite <- Hdl in En. unfold get_server_name, bind, gets, query. rewrite Hi'.
  assert (directory_list i' <> []) as Hnil.
  { rewrite Hdl. intros Hnil. apply app_eq_nil in Hnil as [_ ->]. done. }
  rewrite bool_decide_false by done. cbn [orb ret]. rewrite Hi'. cbn [default id from_option].
  rewrite En, Hp. change (world s') with (world s). rewrite Hex. split; [done|].
  intros Hb. destruct Hf as [_ N2 _ _ _ N6]. rewrite Forall_lookup in N2, N6.
  apply fcb_short_name_roundtrip; [by eapply N2|]. intros E%rtrim_blank. by apply Hb, (N6 _ _ Hk).
Qed.
End Lists.

(** ** A directory with a file and a subdirectory *)

Definition sample_state : st mem := mkSt sample_world (str "/") (sample_drive false).
Definition sample_search : bytes := 0x16 :: str "\????????.???".

Lemma directory_search_complete_witness : exists replies,
  (search_directory (W:=mem) ∅ 4 sample_search sample_state).1 = Ok replies
  /\ length replies = 2%nat.
Proof.
  set (s1 := (find_first_handle (W:=mem) ∅ (create_relative_path (drop 1 sample_search)) sample_state).2).
  set (i := default empty_item (items (drive s1) !! 0%nat)).
  set (r := list_directory (W:=mem) ∅ (world s1) (drive s1) i).
  destruct (directory_search_complete (W:=mem) ∅ sample_search sample_state 0 s1 i r.1 r.2)
    as (replies & Er & _).
  - vm_compute. reflexivity.
  - vm_compute. split; [discriminate|reflexivity].
  - vm_compute. discriminate.
  - split; vm_compute; reflexivity.
  - vm_compute. reflexivity.
  - vm_compute. reflexivity.
  - vm_compute. reflexivity.
  - vm_compute. discriminate.
  - apply surjective_pairing.
  - vm_compute. discriminate.
  - exists replies. apply (f_equal fst) in Er. cbn [fst] in Er. split; [exact Er|].
    vm_compute in Er. injection Er as <-. reflexivity.
Defined.

Lemma listing_names_every_file_witness :
  let s := (get_handle (W:=mem) (str "/srv") sample_state).2 in
  exists files i' s', create_directory_list (W:=mem) ∅ 0 s = (Ok (zlen (directory_list i')), s')
  /\ server_name <$> files = [str "README.TXT"; str "SUB"].
Proof.
  intros s.
  set (i := default empty_item (items (drive s) !! 0%nat)).
  destruct (listing_names_every_file (W:=mem) ∅ s 0 i [str "README.TXT"; str "SUB"])
    as (files & i' & s' & E & _ & _ & En & _).
  - vm_compute. reflexivity.
  - vm_compute. reflexivity.
  - discriminate.
  - vm_compute. discriminate.
  - apply Nat2Z.inj_le. vm_compute. discriminate.
  - vm_compute. reflexivity.
  - exists files, i', s'. split; [exact E|exact En].
Defined.
