(* ===== verification/ProtoSpec.v ===== *)
(** * ProtoSpec: the numbers in replies

    What DISK_INFO and SEEK_FROM_END report: sector counts of 16 and 32 bits
    that describe the capacity as exactly as the sector size allows, and a
    file position that is clamped to the file without overflow. *)
From S2P Require Import Prelude Words Paths FatTime Host Attrs Unicode Fcb Files MemFs Drive.
From S2P Require Import DriveOps Protocol HandlerInv Listing Samples.

(** ** Sectors *)

(** The sector size and the sectors of a capacity: the sector size is one of
    512, 1024, ..., 32768, the sectors are as many as fit the capacity, and
    at most [limit]. *)
Record sectors_of (limit capacity bytes_per_sector sectors : Z) : Prop := {
  sector_size : exists k, 0 <= k <= 6 /\ bytes_per_sector = 512 * 2 ^ k;
  sectors_fit : sectors * bytes_per_sector <= capacity < (sectors + 1) * bytes_per_sector;
  sectors_limit : 0 <= sectors <= limit;
}.

Lemma grow_sectors_spec fuel limit k total free :
  0 <= k <= 6 -> 0 <= total -> total / 2 ^ (6 - k) <= limit -> 0 <= limit -> (6 - k < Z.of_nat fuel) ->
  exists j, k <= j <= 6 /\ total / 2 ^ (j - k) <= limit
    /\ (k < j -> limit < total / 2 ^ (j - 1 - k))
    /\ grow_sectors fuel limit (512 * 2 ^ k) total free
       = (512 * 2 ^ j, total / 2 ^ (j - k), free / 2 ^ (j - k)).
Proof.
  revert k total free. induction fuel as [|fuel IH]; intros k total free Hk Ht Hl Hlim Hf; [lia|].
  cbn [grow_sectors]. destruct (Z.ltb_spec limit total) as [Hlt|Hge].
  2: { exists k. rewrite Z.sub_diag, !Z.div_1_r. split_and!; [lia|lia|done|lia|done]. }
  destruct (Z.eq_dec k 6) as [->|Hk6]; [rewrite Z.div_1_r in Hl; lia|].
  assert (u16 (512 * 2 ^ k * 2) = 512 * 2 ^ (k + 1)) as ->.
  { rewrite Z.pow_add_r by lia. rewrite u16_id; [lia|]. unfold is_u16.
    pose proof (Z.pow_le_mono_r 2 k 5 ltac:(lia) ltac:(lia)). pose proof (Z.pow_pos_nonneg 2 k). lia. }
  assert (forall x n, 0 <= n -> x / 2 / 2 ^ n = x / 2 ^ (n + 1)) as Hdiv.
  { intros x n Hn. rewrite Z.div_div by lia. f_equal. rewrite Z.pow_add_r by lia. lia. }
  destruct (IH (k + 1) (total / 2) (free / 2)) as (j & Hj & Hle & Hmin & ->); try lia.
  { apply Z.div_pos; lia. }
  { rewrite Hdiv by lia. replace (6 - (k + 1) + 1) with (6 - k) by lia. done. }
  exists j. rewrite !Hdiv in * by lia. replace (j - (k + 1) + 1) with (j - k) in * by lia.
  split_and!; [lia|lia|done| |done]. intros _. destruct (Z.eq_dec j (k + 1)) as [->|Hne].
  - replace (k + 1 - 1 - k) with 0 by lia. by rewrite Z.div_1_r.
  - specialize (Hmin ltac:(lia)). rewrite Hdiv in Hmin by lia.
    by replace (j - 1 - (k + 1) + 1) with (j - 1 - k) in Hmin by lia.
Qed.

Lemma div_sectors capacity k : 0 <= k ->
  let n := capacity / 512 / 2 ^ k in
  n * (512 * 2 ^ k) <= capacity < (n + 1) * (512 * 2 ^ k).
Proof.
  intros Hk n. unfold n. pose proof (Z.pow_pos_nonneg 2 k). rewrite Z.div_div by lia.
  pose proof (Z.mul_div_le capacity (512 * 2 ^ k)).
  pose proof (Z.mul_succ_div_gt capacity (512 * 2 ^ k)). lia.
Qed.

(** The fields of the reply, for capacities the limits leave room for. *)
Lemma disk_sectors_spec limit_size limit fs_size free_space :
  0 <= free_space <= fs_size -> 0 < limit -> 0 <= limit_size ->
  Z.min limit_size fs_size < 512 * 2 ^ 6 * (limit + 1) ->
  exists bytes_per_sector total free,
    disk_sectors limit_size limit fs_size free_space = (bytes_per_sector, total, free)
    /\ sectors_of limit (Z.min limit_size fs_size) bytes_per_sector total
    /\ sectors_of limit (Z.min limit_size free_space) bytes_per_sector free
    /\ free <= total
    /\ (512 < bytes_per_sector -> limit < Z.min limit_size fs_size / (bytes_per_sector / 2)).
Proof.
  intros Hf Hl Hs Hc. unfold disk_sectors.
  assert (forall x, (if limit_size <? x then limit_size else x) = Z.min limit_size x) as Hmin
    by (intros x; destruct (Z.ltb_spec limit_size x); lia).
  rewrite !Hmin. set (cap := Z.min limit_size fs_size) in *. set (fr := Z.min limit_size free_space).
  assert (0 <= fr <= cap) as Hfr by (unfold fr, cap; lia).
  change 512 with (512 * 2 ^ 0) at 1.
  destruct (grow_sectors_spec sector_turns limit 0 (cap / 512) (fr / 512)) as (k & Hk & Hle & Hm & ->);
    [lia|apply Z.div_pos; lia| |lia|done|].
  { rewrite Z.div_div by lia. change (512 * 2 ^ (6 - 0)) with 32768. apply Z.lt_succ_r, Z.div_lt_upper_bound; lia. }
  rewrite Z.sub_0_r in *. pose proof (Z.pow_pos_nonneg 2 k).
  exists (512 * 2 ^ k), (cap / 512 / 2 ^ k), (fr / 512 / 2 ^ k). split; [done|].
  assert (fr / 512 / 2 ^ k <= cap / 512 / 2 ^ k)
    by (apply Z.div_le_mono; [lia|]; apply Z.div_le_mono; lia).
  split_and!; [| |done|].
  - split; [by exists k|apply div_sectors; lia|]. split; [|done].
    apply Z.div_pos; [apply Z.div_pos|]; lia.
  - split; [by exists k|apply div_sectors; lia|]. split; [|lia].
    apply Z.div_pos; [apply Z.div_pos|]; lia.
  - intros Hb. destruct (Z.eq_dec k 0) as [->|Hk0]; [lia|]. specialize (Hm ltac:(lia)).
    rewrite Z.div_div in Hm by lia.
    replace (512 * 2 ^ k / 2) with (512 * 2 ^ (k - 1)); [done|].
    rewrite <- (Z.sub_add 1 k) at 2. rewrite Z.pow_add_r, Z.mul_assoc, Z.div_mul; lia.
Qed.

(** ** DISK_INFO *)

Section Replies.
Context {W : Type} `{!Host W, !DosAttrs W, CAL : !Calendar} `{NAT : Native}.

(** DISK_INFO reports a sector size between 512 and 32768 and sector
    counts of 16 bits that describe the capacity and the free space, capped at
    2 GiB - 1, down to less than one sector, with the smallest sector size
    that is possible; DISK_INFO_LARGE does the same with 32 bits for every
    file system below 128 TiB. *)
Theorem disk_info_spec s fs_size free_space :
  space_info s = (Ok (fs_size, free_space), s) -> 0 <= free_space <= fs_size ->
  (exists bytes_per_sector total free,
     handle_disk_info (W:=W) [] s
     = (Ok (Reply 1 (le16_bytes total ++ le16_bytes bytes_per_sector ++ le16_bytes free) true), s)
     /\ sectors_of 0xFFFF (Z.min 0x7FFFFFFF fs_size) bytes_per_sector total
     /\ sectors_of 0xFFFF (Z.min 0x7FFFFFFF free_space) bytes_per_sector free
     /\ free <= total
     /\ (512 < bytes_per_sector ->
         0xFFFF < Z.min 0x7FFFFFFF fs_size / (bytes_per_sector / 2)))
  /\ (fs_size < 2 ^ 47 -> exists bytes_per_sector total free,
     handle_disk_info_large (W:=W) 64 [] s
     = (Ok (success (le32_bytes total ++ le16_bytes bytes_per_sector ++ le32_bytes free)), s)
     /\ sectors_of 0xFFFFFFFF fs_size bytes_per_sector total
     /\ sectors_of 0xFFFFFFFF free_space bytes_per_sector free
     /\ free <= total).
Proof.
  intros Es Hf.
  assert (forall bps, (exists k, 0 <= k <= 6 /\ bps = 512 * 2 ^ k) -> is_u16 bps) as Hbps.
  { intros bps (k & Hk & ->). unfold is_u16.
    pose proof (Z.pow_le_mono_r 2 k 6 ltac:(lia) ltac:(lia)). pose proof (Z.pow_pos_nonneg 2 k). lia. }
  split.
  - destruct (disk_sectors_spec 0x7FFFFFFF 0xFFFF fs_size free_space)
      as (b & t & f & Ed & Ht & Hfr & Hle & Hmin); [lia..|].
    exists b, t, f. split_and!; try done. unfold handle_disk_info, try_catch, bind. cbn [length].
    change (negb (Z.of_nat 0 =? 0)) with false. cbv beta iota. rewrite Es, Ed. unfold ret.
    rewrite !put16_le, (u16_id t), (u16_id b), (u16_id f); [done|..].
    + destruct Hfr. unfold is_u16. lia.
    + apply Hbps, Ht.
    + destruct Ht. unfold is_u16. lia.
  - intros Hs.
    assert (Z.min (large_limit 64) fs_size = fs_size /\ Z.min (large_limit 64) free_space = free_space)
      as [M1 M2] by (assert (large_limit 64 = 281470681677825) as -> by reflexivity; lia).
    destruct (disk_sectors_spec (large_limit 64) 0xFFFFFFFF fs_size free_space)
      as (b & t & f & Ed & Ht & Hfr & Hle & _); [lia|lia|by vm_compute|lia|].
    rewrite M1 in Ht. rewrite M2 in Hfr.
    exists b, t, f. split_and!; try done. unfold handle_disk_info_large, try_catch, bind. cbn [length].
    change (negb (Z.of_nat 0 =? 0)) with false. cbv beta iota. rewrite Es, Ed. unfold ret, success.
    rewrite !put16_le, (u16_id b) by apply Hbps, Ht. unfold put32.
    rewrite (u32_id t), (u32_id f), !store32_to_little32; [done|..];
      destruct Ht, Hfr; unfold is_u32; lia.
Qed.
(** ** SEEK_FROM_END *)

Lemma i32_range x : - 2 ^ 31 <= i32 x < 2 ^ 31.
Proof. unfold i32. pose proof (Z.mod_pos_bound (x + 2 ^ 31) (2 ^ 32)). lia. Qed.
Lemma i32_id x : - 2 ^ 31 <= x < 2 ^ 31 -> i32 x = x.
Proof. unfold i32. intros. rewrite Z.mod_small; lia. Qed.
Lemma i32_add x y : i32 (i32 x + y) = i32 (x + y).
Proof.
  unfold i32. f_equal. replace ((x + 2 ^ 31) mod 2 ^ 32 - 2 ^ 31 + y + 2 ^ 31)
    with ((x + 2 ^ 31) mod 2 ^ 32 + y) by lia.
  rewrite Zplus_mod_idemp_l. f_equal. lia.
Qed.

Lemma seek_offset_eq lo hi : seek_offset lo hi = i32 (lo + 2 ^ 16 * hi).
Proof. unfold seek_offset. rewrite i32_add, Z.shiftl_mul_pow2 by lia. f_equal. lia. Qed.

(** Where an offset from the end leads, clamped to the file. *)
Definition clamped_position (offset fsize : Z) : Z := Z.max 0 (fsize + Z.min 0 offset).

(** The 32-bit arithmetic of the code does not overflow. *)
Lemma seek_position_eq offset fsize : - 2 ^ 31 <= offset < 2 ^ 31 -> 0 <= fsize < 2 ^ 31 ->
  seek_position offset fsize = clamped_position offset fsize.
Proof.
  intros Ho Hf. unfold seek_position, clamped_position. destruct (Z.ltb_spec 0 offset); rewrite i32_id by lia;
    match goal with |- context [?a <? 0] => destruct (Z.ltb_spec a 0) end; lia.
Qed.

(** A 32-bit number is sent as two halves. *)
Lemma put16_halves x : 0 <= x -> put16 x ++ put16 (Z.shiftr x 16) = le32_bytes x.
Proof.
  intros Hx. rewrite !put16_le, Z.shiftr_div_pow2 by lia. unfold le16_bytes, le32_bytes, u16.
  cbn [app]. f_equal; [|f_equal; [|f_equal; [|f_equal]]];
    Z.to_euclidean_division_equations; lia.
Qed.

(** SEEK_FROM_END answers the position the signed offset leads to from the
    end of the file, never behind the end and never before the start, for
    every file of less than 2 GiB; a file of 2 GiB or more is reported as not
    found. *)
Theorem seek_from_end_spec data s s' fsize : Forall is_byte data -> zlen data = 6 ->
  get_file_size (W:=W) (Z.to_nat (le16 data 4)) s = (Ok fsize, s') -> - 2 ^ 31 <= fsize < 2 ^ 31 ->
  handle_seek_from_end (W:=W) data s
  = (Ok (if fsize <? 0 then failure DOS_EXTERR_FILE_NOT_FOUND
         else success (le32_bytes (clamped_position (i32 (le32 data 0)) fsize))), s').
Proof.
  intros Hb Hl Hs Hf. unfold handle_seek_from_end. rewrite Hl. change (negb (6 =? 6)) with false.
  unfold get16. rewrite !from_little16_load16 by done. unfold try_catch, bind. rewrite Hs.
  destruct (Z.ltb_spec fsize 0); [done|].
  assert (seek_offset (le16 data 0) (le16 data 2) = i32 (le32 data 0)) as ->.
  { rewrite seek_offset_eq. f_equal. unfold le16, le32. cbn [Nat.add]. lia. }
  rewrite seek_position_eq by (try apply i32_range; lia).
  set (pos := clamped_position _ _).
  assert (0 <= pos < 2 ^ 31) as Hp by (unfold pos, clamped_position; lia).
  unfold ret, success. rewrite put16_halves by lia. done.
Qed.
End Replies.

(** ** Runs on a machine *)

Lemma disk_info_spec_witness : exists b t f,
  sectors_of 0xFFFF (2 ^ 30) b t /\ sectors_of 0xFFFF (2 ^ 29) b f.
Proof.
  destruct (disk_info_spec (W:=mem) sample_state (2 ^ 30) (2 ^ 29)) as [(b & t & f & _ & Ht & Hf & _) _].
  - vm_compute. reflexivity.
  - split; vm_compute; discriminate.
  - exists b, t, f. split; [exact Ht|exact Hf].
Defined.

(** Ten bytes before the end of a file of five is its start. *)
Lemma seek_from_end_spec_witness :
  let s := (get_handle (W:=mem) (str "/srv/README.TXT") sample_state).2 in
  (handle_seek_from_end (W:=mem) [246; 255; 255; 255; 0; 0] s).1 = Ok (success [0; 0; 0; 0]).
Proof.
  intros s.
  pose proof (seek_from_end_spec (W:=mem) [246; 255; 255; 255; 0; 0] s
    (get_file_size (W:=mem) 0 s).2 5) as H.
  rewrite H; [vm_compute; reflexivity | | reflexivity | vm_compute; reflexivity | lia].
  apply (bool_decide_unpack _). vm_compute. exact I.
Defined.

(** Above 128 TiB the sector size of DISK_INFO_LARGE overflows to zero. *)
Example disk_info_large_overflow :
  (disk_sectors (large_limit 64) 0xFFFFFFFF (2 ^ 47) 0).1.1 = 0.
Proof. vm_compute. reflexivity. Qed.
