(* ===== verification/ServerInv.v ===== *)
(** * ServerInv: what every request preserves

    The invariant of the process state and what [process_request] keeps of it:
    the tables of the drives stay well formed, the other drives and every
    configuration are untouched, the machine changes only as the addressed
    drive allows, no exception escapes, and the reply fits its buffer except
    for a READ_FILE of more than the buffer holds. *)
From stdpp Require Import relations gmap.
From S2P Require Import Prelude Words Paths FatTime Host Attrs Unicode Fcb Files Drive Handles.
From S2P Require Import DriveOps DriveInv Protocol HandlerInv ReplyCache Server MemFs Samples.

(** ** The invariant *)

Record drive_inv (strict : bool) (d : Drive) : Prop := {
  inv_root : directory_path (root d);
  inv_absolute : is_absolute (root d) = true;
  inv_label : fcb_wf (volume_label d);
  inv_table : table_ok (items d);
  inv_items : Forall (item_ok d strict) (items d);
}.

(** With [strict], every handle denotes a path below the root of its drive. *)
Record srv_ok {W} (strict : bool) (s : srv W) : Prop := {
  srv_count : length (drives s) = MAX_DRIVES_COUNT;
  srv_cache : cache_ok (answer_cache s);
  srv_drives : Forall (fun d => used d = true -> drive_inv strict d) (drives s);
}.

(** The drive a packet addresses, its function and its data. *)
Definition request_drive (packet : bytes) : nat := Z.to_nat (Z.land (byte_at packet off_drive) 0x1F).
Definition request_function (packet : bytes) : Z := byte_at packet off_function.
Definition request_data (packet : bytes) : bytes := drop sizeof_hdr packet.

Definition ordinary_packet {W} (s : srv W) (packet : bytes) : Prop :=
  forall d, drives s !! request_drive packet = Some d ->
    ordinary_request d (request_function packet) (request_data packet).

(** ** Helpers *)

Lemma write_at_length off bs (l : bytes) : (off + length bs <= length l)%nat ->
  length (write_at off bs l) = length l.
Proof.
  intros H. unfold write_at. rewrite !length_app, length_take, length_drop. lia.
Qed.

Lemma item_ok_config d d' strict i : config d = config d' -> item_ok d strict i -> item_ok d' strict i.
Proof.
  intros E [Hb He Hf].
  assert (root d = root d') as Er by (by apply (f_equal root) in E).
  assert (converts d = converts d') as Ec by (by apply converts_config).
  split; [|by rewrite <- Ec|done]. unfold below in *. by rewrite <- Er.
Qed.

Lemma drive_ok_start {W} (w : W) c d strict : drive_inv strict d -> drive_ok d strict (mkSt w c d).
Proof. intros []. by split. Qed.

Lemma drive_ok_end {W} d strict (s : st W) : drive_inv strict d -> drive_ok d strict s ->
  config (drive s) = config d /\ drive_inv strict (drive s).
Proof.
  intros [Hr Ha Hl _ _] [Hc Ht Hi]. split; [done|].
  assert (root (drive s) = root d) as Er by (by apply (f_equal root) in Hc).
  assert (volume_label (drive s) = volume_label d) as El by (by apply (f_equal volume_label) in Hc).
  split; rewrite ?Er, ?El; try done.
  eapply Forall_impl; [exact Hi|]. intros i. by apply item_ok_config.
Qed.

Section ServerInv.
Context {W : Type} `{!Host W, !DosAttrs W, CAL : !Calendar, !HostLaws W} `{Native}.
Context (tmap : translit_map) (ulong_bits : Z).

(** The machine between two states of the process, for a request to drive
    [d]. *)
Definition request_step (strict : bool) (d : Drive) (s s' : srv W) : Prop :=
  if read_only d then sworld s' = sworld s
  else rtc (host_step attr_step (below d strict)) (sworld s) (sworld s').

(** What [process_request] promises its caller. *)
Record processed_ok (strict : bool) (info : ReplyInfo) (packet : bytes) (s : srv W)
    (r : processed) (info' : ReplyInfo) (s' : srv W) : Prop := {
  po_srv : srv_ok strict s';
  po_cache : answer_cache s' = answer_cache s;
  po_info : r <> SendOverflow -> info_ok info';
  po_client : ipv4_addr info' = ipv4_addr info /\ udp_port info' = udp_port info;
  po_result :
    match r with
    | Returned n => 8 <= n <= 1500
    | Minus1 => True
    | Escaped _ => False
    | SendOverflow => request_function packet = INT2F_READ_FILE
                      /\ 1492 < get16 (request_data packet) 6
    end;
  po_others : forall j, j <> request_drive packet -> drives s' !! j = drives s !! j;
  po_drive : forall d, drives s !! request_drive packet = Some d ->
    exists d', drives s' !! request_drive packet = Some d' /\ config d' = config d
               /\ request_step strict d s s';
  po_none : (forall d, drives s !! request_drive packet = Some d -> used d = false) ->
    sworld s' = sworld s;
}.

Lemma request_step_refl strict d s : request_step strict d s s.
Proof. unfold request_step. by case_match. Qed.

Lemma processed_same strict info packet s r info' : srv_ok strict s -> info_ok info' ->
  ipv4_addr info' = ipv4_addr info /\ udp_port info' = udp_port info ->
  match r with Returned n => 8 <= n <= 1500 | Minus1 => True | _ => False end ->
  processed_ok strict info packet s r info' s.
Proof.
  intros Hs Hi Hc Hr. split; try done.
  - by destruct r.
  - intros d Hd. eauto using request_step_refl.
Qed.

Lemma info_ok_send info p : info_ok info -> length p = PACKET_SIZE ->
  info_ok (with_send_packet info p).
Proof. intros []. by split. Qed.

Lemma write_reply_length p code data ext : length p = PACKET_SIZE ->
  (sizeof_hdr + length data <= PACKET_SIZE)%nat ->
  length (write_reply p code data ext) = PACKET_SIZE.
Proof.
  intros Hp Hd. unfold write_reply.
  assert (forall x, length (store16 x) = 2%nat) as L16 by (intros; unfold store16; by case_match).
  assert (length (write_at sizeof_hdr data p) = PACKET_SIZE) as L1
    by (rewrite write_at_length; lia).
  assert (forall x, length (write_at off_length_flags (store16 x) (write_at sizeof_hdr data p))
                    = PACKET_SIZE) as L2.
  { intros x. rewrite write_at_length; [done|]. rewrite L16, L1. unfold PACKET_SIZE. lia. }
  rewrite write_at_length; [apply L2|]. rewrite L16, L2. unfold PACKET_SIZE. lia.
Qed.

Lemma same_request_len info packet : info_ok info -> same_request info packet = true ->
  0 < send_len info -> 8 <= zlen packet -> 1 <= send_len info <= 1500.
Proof. intros [_ _ _ ?] _ ? _. lia. Qed.

(** The cache keeps only replies with a header. *)
Definition send_len_ok (info : ReplyInfo) : Prop := send_len info = 0 \/ 8 <= send_len info.

Lemma process_request_props strict info packet s r info' s' :
  srv_ok strict s -> info_ok info -> send_len_ok info -> Forall is_byte packet ->
  (strict = true -> ordinary_packet s packet) ->
  process_request tmap ulong_bits info packet s = (r, info', s') ->
  processed_ok strict info packet s r info' s'.
Proof.
  intros Hs Hi Hsl Hb Ho. unfold process_request.
  destruct (Z.ltb_spec (zlen packet) (Z.of_nat sizeof_hdr)) as [?|Hlen].
  { intros [= <- <- <-]. by apply processed_same. }
  destruct (same_request info packet) eqn:Esame.
  { destruct (Z.ltb_spec 0 (send_len info)); intros [= <- <- <-]; apply processed_same; try done.
    destruct Hi, Hsl; lia. }
  set (hdr := write_at 0 (take sizeof_hdr packet) (send_packet info)).
  assert (length (take sizeof_hdr packet) = sizeof_hdr) as Lh
    by (rewrite length_take; unfold sizeof_hdr in *; lia).
  assert (length hdr = PACKET_SIZE) as Lhdr.
  { subst hdr. rewrite write_at_length; [apply Hi|]. rewrite Lh, (info_send _ Hi).
    unfold sizeof_hdr, PACKET_SIZE. lia. }
  assert (info_ok (with_send_packet info hdr)) as Hi' by (by apply info_ok_send).
  fold (request_drive packet). fold (request_function packet). fold (request_data packet).
  destruct (_ || _); [intros [= <- <- <-]; by apply processed_same|].
  destruct (drives s !! request_drive packet) as [d|] eqn:Ed;
    [|intros [= <- <- <-]; by apply processed_same].
  destruct (used d) eqn:Eu; [|intros [= <- <- <-]; by apply processed_same]. cbn [negb].
  assert (drive_inv strict d) as Hd.
  { destruct Hs as [_ _ Hds]. rewrite Forall_lookup in Hds. by eapply Hds. }
  set (st0 := mkSt (sworld s) (scwd s) d).
  set (ext := has (from_little16 (load16 packet off_length_flags)) DRIVE_PROTO_FLAG_EXTENDED_FEATURES).
  assert (Forall is_byte (request_data packet)) as Hbd by (by apply Forall_drop).
  pose proof (drive_ok_start (sworld s) (scwd s) d strict Hd) as Hst.
  pose proof (dispatch_runs tmap ulong_bits d strict (inv_root _ _ Hd) (inv_absolute _ _ Hd)
    (inv_label _ _ Hd) (request_function packet) ext (request_data packet) Hbd
    (fun St => Ho St d Ed) st0 Hst) as (Hend & Hstep & Hreply).
  assert (drive_inv false d) as Hd0.
  { destruct Hd as [Hr Ha Hl Ht Hit]. split; try done. eapply Forall_impl; [exact Hit|].
    intros i [[] ? ?]. by split. }
  pose proof (dispatch_returns tmap ulong_bits d false (inv_root _ _ Hd) (inv_absolute _ _ Hd)
    (inv_label _ _ Hd) (request_function packet) ext (request_data packet) st0
    (drive_ok_start _ _ _ _ Hd0) ltac:(by intros ?)) as [rep Hrep].
  destruct (dispatch tmap ulong_bits (request_function packet) ext (request_data packet) st0)
    as [res s1]. simpl in Hend, Hstep, Hreply, Hrep. subst res. specialize (Hreply _ eq_refl).
  destruct (drive_ok_end d strict s1 Hd Hend) as [Hcfg Hinv].
  set (s2 := mkSrv (world s1) (cwd s1) (<[request_drive packet:=drive s1]> (drives s))
               (answer_cache s)).
  assert (request_drive packet < length (drives s))%nat as Hlt by (by eapply lookup_lt_Some).
  assert (srv_ok strict s2) as Hs2.
  { destruct Hs as [Hc Hca Hds]. split; [by rewrite <- Hc; apply length_insert|done|].
    apply Forall_insert; [done|]. done. }
  assert (forall r info', (r <> SendOverflow -> info_ok info') ->
    ipv4_addr info' = ipv4_addr info /\ udp_port info' = udp_port info ->
    match r with
    | Returned n => 8 <= n <= 1500 | Minus1 => True | Escaped _ => False
    | SendOverflow => request_function packet = INT2F_READ_FILE
                      /\ 1492 < get16 (request_data packet) 6
    end -> processed_ok strict info packet s r info' s2) as Done.
  { intros r0 info0 H1 H2 H3. split; try done.
    - intros j Hj. by apply list_lookup_insert_ne.
    - intros d' Hd'. assert (d' = d) as -> by congruence. exists (drive s1).
      split_and!; [by apply list_lookup_insert_eq|done|exact Hstep].
    - intros Hn. specialize (Hn _ Ed). congruence. }
  destruct rep as [|code data e].
  { intros [= <- <- <-]. by apply Done. }
  simpl in Hreply.
  destruct (Nat.ltb_spec PACKET_SIZE (sizeof_hdr + length data)) as [Hov|Hfit].
  - intros [= <- <- <-]. apply Done; [done|done|].
    unfold reply_limit in Hreply. unfold PACKET_SIZE, sizeof_hdr in *.
    destruct (Z.eqb_spec (request_function packet) INT2F_READ_FILE); [|lia]. split; [done|lia].
  - intros [= <- <- <-]. unfold PACKET_SIZE, sizeof_hdr in *. apply Done; [|done|lia].
    intros _. apply info_ok_send; [done|]. cbn [send_packet with_send_packet].
    apply write_reply_length; [done|unfold PACKET_SIZE, sizeof_hdr; lia].
Qed.

(** *** The properties *)

(** C2: an ordinary request changes the machine only by operations on paths
    below the root of the drive it addresses, and not at all when that drive
    is not shared or read-only; every handle still denotes a path below its
    root, and the other drives and all configurations are kept. *)
Theorem process_request_confined info packet s r info' s' :
  srv_ok true s -> info_ok info -> send_len_ok info -> Forall is_byte packet ->
  ordinary_packet s packet ->
  process_request tmap ulong_bits info packet s = (r, info', s') ->
  srv_ok true s'
  /\ (forall j, j <> request_drive packet -> drives s' !! j = drives s !! j)
  /\ match drives s !! request_drive packet with
     | None => sworld s' = sworld s
     | Some d =>
         (exists d', drives s' !! request_drive packet = Some d' /\ config d' = config d)
         /\ (if read_only d || negb (used d) then sworld s' = sworld s
             else rtc (host_step attr_step (fun p => p <> [] /\ within (root d) p))
                    (sworld s) (sworld s'))
     end.
Proof.
  intros Hs Hi Hl Hb Ho Hp. eapply (process_request_props true) in Hp as []; try done.
  split_and!; [done..|]. destruct (drives s !! request_drive packet) as [d|]; [|by apply po_none0].
  destruct (po_drive0 d eq_refl) as (d' & Hd' & Hc & Hstep). split; [eauto|].
  unfold request_step in Hstep. destruct (read_only d); [done|].
  destruct (used d) eqn:Eu; [|apply po_none0; congruence].
  eapply rtc_subrel, Hstep. intros x y. apply host_step_impl. intros p [? Hw]. auto.
Qed.

(** C5: whatever bytes a packet has, the tables stay well formed, no
    exception leaves [process_request], and a reply has at least a header
    and fits the packet buffer, unless the packet is a READ_FILE of more
    than the 1492 bytes behind the header. *)
Theorem process_request_total info packet s :
  srv_ok false s -> info_ok info -> send_len_ok info -> Forall is_byte packet ->
  let '(r, info', s') := process_request tmap ulong_bits info packet s in
  srv_ok false s'
  /\ match r with
     | Returned n => 8 <= n <= 1500 /\ info_ok info'
     | Minus1 => info_ok info'
     | Escaped _ => False
     | SendOverflow =>
         request_function packet = INT2F_READ_FILE /\ 1492 < get16 (request_data packet) 6
     end.
Proof.
  intros Hs Hi Hl Hb. destruct (process_request _ _ _ _ _) as [[r info'] s'] eqn:Hp.
  eapply (process_request_props false) in Hp as []; try done.
  split; [done|]. destruct r; auto.
Qed.

(** A packet to a read-only drive never changes the machine, whatever
    its function and its data are. *)
Theorem process_request_read_only info packet s r info' s' d :
  srv_ok false s -> info_ok info -> send_len_ok info -> Forall is_byte packet ->
  process_request tmap ulong_bits info packet s = (r, info', s') ->
  drives s !! request_drive packet = Some d -> read_only d = true ->
  sworld s' = sworld s.
Proof.
  intros Hs Hi Hl Hb Hp Hd Hro. eapply (process_request_props false) in Hp as []; try done.
  destruct (po_drive0 d Hd) as (d' & _ & _ & Hstep). unfold request_step in Hstep.
  by rewrite Hro in Hstep.
Qed.
End ServerInv.

(** ** The sample server *)

Lemma sample_server_ok strict : srv_ok strict sample_server.
Proof.
  assert (forall ro, drive_inv strict (sample_drive ro)) as Hd.
  { intros ro. split; [|done|done| |by constructor].
    - right. by eexists.
    - split; [done|by constructor..]. }
  split; [done|apply cache_default_ok|].
  apply Forall_insert; [apply Forall_insert|done]; [|done]. by apply Forall_replicate.
Qed.

Lemma process_request_confined_witness :
  let s' := (process_request ∅ 64 ReplyInfo_default make_new sample_server).2 in
  srv_ok true s' /\ is_dir (sworld s') [str "srv"; str "new"] = true.
Proof.
  intros s'. split; [|vm_compute; reflexivity].
  destruct (process_request ∅ 64 ReplyInfo_default make_new sample_server) as [[r i] s''] eqn:E.
  destruct (process_request_confined ∅ 64 ReplyInfo_default make_new sample_server r i s'')
    as [H _]; [apply sample_server_ok | apply info_default_ok | by left | | | exact E | exact H].
  - apply (bool_decide_unpack _). vm_compute. exact I.
  - intros d [= <-]. split; [|discriminate].
    intros _. apply (bool_decide_unpack _). vm_compute. exact I.
Defined.

Lemma process_request_total_witness :
  let '(r, info', s') :=
    process_request ∅ 64 ReplyInfo_default (sample_packet 9 2 0x08 [0; 0; 0; 0; 0; 0; 255; 255])
      sample_server in
  srv_ok false s' /\ r = Returned 8.
Proof.
  assert (Forall is_byte (sample_packet 9 2 0x08 [0; 0; 0; 0; 0; 0; 255; 255])) as Hb
    by (apply (bool_decide_unpack _); vm_compute; exact I).
  pose proof (process_request_total ∅ 64 ReplyInfo_default
    (sample_packet 9 2 0x08 [0; 0; 0; 0; 0; 0; 255; 255]) sample_server
    (sample_server_ok false) info_default_ok (or_introl eq_refl) Hb) as H.
  assert ((process_request ∅ 64 ReplyInfo_default
    (sample_packet 9 2 0x08 [0; 0; 0; 0; 0; 0; 255; 255]) sample_server).1.1 = Returned 8) as E
    by (vm_compute; reflexivity).
  destruct (process_request _ _ _ _ _) as [[r i] s']. by destruct H.
Defined.

Lemma process_request_read_only_witness :
  sworld (process_request ∅ 64 ReplyInfo_default (sample_packet 7 3 0x03 (str "\new"))
            sample_server).2 = sample_world.
Proof.
  destruct (process_request ∅ 64 ReplyInfo_default (sample_packet 7 3 0x03 (str "\new"))
              sample_server) as [[r i] s'] eqn:E.
  apply (process_request_read_only ∅ 64 ReplyInfo_default (sample_packet 7 3 0x03 (str "\new"))
    sample_server r i s' (sample_drive true)); [apply sample_server_ok | apply info_default_ok
    | by left | | exact E | reflexivity | reflexivity].
  apply (bool_decide_unpack _). vm_compute. exact I.
Defined.
