(* ===== verification/MainLoop.v ===== *)
(** * MainLoop: datagrams, retransmissions and runs of the server

    What a client can rely on at the level of datagrams: a retransmitted
    request gets the same reply again without being executed again, a damaged
    request is dropped, and no sequence of datagrams from anybody ends the
    server. *)
From stdpp Require Import relations gmap.
From S2P Require Import Prelude Words Checksum Paths FatTime Host Attrs Unicode Fcb Files.
From S2P Require Import Drive Handles DriveOps DriveInv Protocol HandlerInv ReplyCache Server.
From S2P Require Import MemFs Samples ServerInv.

(** ** The header of a packet *)

Section Header.
Context `{Native}.

Lemma store16_length x : length (store16 x) = 2%nat.
Proof. unfold store16. by case_match. Qed.

Lemma store16_pair x : exists a b, store16 x = [a; b].
Proof. unfold store16. case_match; by do 2 eexists. Qed.

Lemma load16_at_1 v b0 b1 b2 l : load16 (b0 :: b1 :: b2 :: l) 1 = v -> load16 [b1; b2] 0 = v.
Proof. by intros <-. Qed.

Lemma is_u16_lor x y : is_u16 x -> is_u16 y -> is_u16 (Z.lor x y).
Proof.
  unfold is_u16. intros Hx Hy. split; [apply Z.lor_nonneg; lia|].
  destruct (Z.eq_dec (Z.lor x y) 0) as [->|]; [lia|]. apply Z.log2_lt_pow2.
  - assert (0 <= Z.lor x y) by (apply Z.lor_nonneg; lia). lia.
  - rewrite Z.log2_lor by lia.
    assert (forall z, 0 <= z < 2 ^ 16 -> Z.log2 z < 16) as L.
    { intros z Hz. destruct (Z.eq_dec z 0) as [->|]; [done|]. apply Z.log2_lt_pow2; lia. }
    apply Z.max_lub_lt; by apply L.
Qed.

Lemma is_u16_land x y : is_u16 x -> is_u16 (Z.land x y).
Proof.
  intros Hx. rewrite <- (u16_id x) by done. unfold u16.
  rewrite <- Z.land_ones, <- Z.land_assoc, (Z.land_comm _ y), Z.land_assoc, Z.land_ones by lia.
  apply u16_range.
Qed.

Lemma to_little16_u16 x : is_u16 x -> is_u16 (to_little16 x).
Proof. unfold to_little16. case_match; [done|]. intros _. apply u16_range. Qed.

(** The flags of a reply: the length, the bit of a read-only share, and the
    checksum bit. *)
Definition reply_flags (flags n : Z) (ro cs : bool) : Z :=
  let f := Z.lor flags (to_little16 (u16 n)) in
  let f := if ro then Z.lor f (to_little16 DRIVE_PROTO_FLAG_RO_SHARE) else f in
  if cs then Z.lor f (to_little16 DRIVE_PROTO_FLAG_CHECKSUM_USED)
  else Z.land f (to_little16 0x7FFF).

Definition reply_checksum (rest : bytes) (n : Z) (cs : bool) : Z :=
  if cs then bsd_checksum rest (n - 5) else DRIVE_PROTO_MAGIC.

Lemma write_flags b0 b1 b2 l v : write_at off_length_flags (store16 v) (b0 :: b1 :: b2 :: l)
  = b0 :: store16 v ++ l.
Proof. destruct (store16_pair v) as (x & y & ->). done. Qed.

Lemma write_checksum b0 v l b3 b4 rest : length l = 2%nat ->
  write_at off_checksum (store16 v) (b0 :: l ++ b3 :: b4 :: rest) = b0 :: l ++ store16 v ++ rest.
Proof.
  destruct (store16_pair v) as (x & y & ->). intros Hl.
  by destruct l as [|? [|? [|]]].
Qed.

Lemma load_flags b0 v l : is_u16 v -> load16 (b0 :: store16 v ++ l) off_length_flags = v.
Proof.
  intros Hv. rewrite <- (load16_store16 v Hv) at 2.
  destruct (store16_pair v) as (x & y & ->). done.
Qed.

(** The reply, written out. *)
Lemma finish_reply_eq b0 f b3 b4 rest n ro cs : is_u16 f ->
  finish_reply (b0 :: store16 f ++ b3 :: b4 :: rest) n ro cs
  = b0 :: store16 (reply_flags f n ro cs)
      ++ store16 (to_little16 (reply_checksum rest n cs)) ++ rest.
Proof.
  intros Hf. unfold finish_reply.
  assert (forall f x l, is_u16 f -> or_flags (b0 :: store16 f ++ l) x
    = b0 :: store16 (Z.lor f (to_little16 x)) ++ l) as Or.
  { intros g x l Hg. unfold or_flags. rewrite load_flags by done.
    destruct (store16_pair g) as (y & z & ->). apply write_flags. }
  assert (forall f x l, is_u16 f -> and_flags (b0 :: store16 f ++ l) x
    = b0 :: store16 (Z.land f (to_little16 x)) ++ l) as And.
  { intros g x l Hg. unfold and_flags. rewrite load_flags by done.
    destruct (store16_pair g) as (y & z & ->). apply write_flags. }
  rewrite Or by done.
  assert (is_u16 (Z.lor f (to_little16 (u16 n)))) as H1
    by (apply is_u16_lor; [done|apply to_little16_u16, u16_range]).
  assert ((if ro then or_flags (b0 :: store16 (Z.lor f (to_little16 (u16 n))) ++ b3 :: b4 :: rest)
             DRIVE_PROTO_FLAG_RO_SHARE
           else b0 :: store16 (Z.lor f (to_little16 (u16 n))) ++ b3 :: b4 :: rest)
    = b0 :: store16 (if ro then Z.lor (Z.lor f (to_little16 (u16 n)))
                                  (to_little16 DRIVE_PROTO_FLAG_RO_SHARE)
                     else Z.lor f (to_little16 (u16 n))) ++ b3 :: b4 :: rest) as ->
    by (destruct ro; [by apply Or|done]).
  set (g := if ro then _ else _).
  assert (is_u16 g) as Hg.
  { subst g. destruct ro; [|done]. apply is_u16_lor; [done|]. apply to_little16_u16. done. }
  unfold reply_flags, reply_checksum. fold g.
  assert (drop off_sequence (b0 :: store16 g ++ b3 :: b4 :: rest) = rest) as ->
    by (destruct (store16_pair g) as (x & y & ->); done).
  destruct cs; rewrite write_checksum by apply store16_length; [by apply Or|by apply And].
Qed.

Lemma reply_flags_u16 f n ro cs : is_u16 f -> is_u16 (reply_flags f n ro cs).
Proof.
  intros Hf. unfold reply_flags.
  assert (forall g x, is_u16 g -> is_u16 x -> is_u16 (Z.lor g (to_little16 x))) as Or
    by (intros; apply is_u16_lor; [done|by apply to_little16_u16]).
  set (g := if ro then _ else _).
  assert (is_u16 g) as Hg.
  { subst g. destruct ro; repeat apply Or; try done; apply u16_range. }
  destruct cs; [by apply Or|by apply is_u16_land].
Qed.

(** Filling a filled-in header in again changes nothing. *)
Lemma reply_flags_idem f n ro cs :
  reply_flags (reply_flags f n ro cs) n ro cs = reply_flags f n ro cs.
Proof.
  unfold reply_flags. generalize (to_little16 (u16 n)) (to_little16 DRIVE_PROTO_FLAG_RO_SHARE)
    (to_little16 DRIVE_PROTO_FLAG_CHECKSUM_USED) (to_little16 0x7FFF). intros a b c m.
  destruct ro, cs; apply Z.bits_inj'; intros k _; rewrite ?Z.land_spec, ?Z.lor_spec,
    ?Z.land_spec, ?Z.lor_spec, ?Z.land_spec, ?Z.lor_spec;
    destruct (Z.testbit f k), (Z.testbit a k), (Z.testbit b k), (Z.testbit c k), (Z.testbit m k);
    done.
Qed.

(** The length a client reads, on a little-endian server. *)
Lemma reply_flags_length f n ro cs : native = little -> is_u16 f -> 0 <= n < 2048 ->
  Z.lor (Z.land f 0x7FF) n = n -> Z.land (reply_flags f n ro cs) 0x7FF = n.
Proof.
  intros Hn Hf Hr E. unfold reply_flags, to_little16. rewrite Hn, u16_id by (unfold is_u16; lia).
  assert (Z.land n 0x7FF = n) as En by (change 0x7FF with (Z.ones 11); apply Z.land_ones_low;
    [lia|destruct (Z.eq_dec n 0) as [->|]; [done|apply Z.log2_lt_pow2; lia]]).
  assert (Z.land (Z.lor f n) 0x7FF = n) as B by (by rewrite Z.land_lor_distr_l, En).
  destruct ro, cs; rewrite <- ?Z.land_assoc, ?Z.land_lor_distr_l in *;
    change (Z.land 0x7FFF 0x7FF) with 0x7FF; rewrite ?Z.land_lor_distr_l;
    change (Z.land 0x4000 0x7FF) with 0; change (Z.land 0x8000 0x7FF) with 0;
    by rewrite ?Z.lor_0_r.
Qed.

(** What a stored packet with a reply of length [n] looks like. *)
Definition head_ok (p : bytes) (n : Z) : Prop :=
  exists f b3 b4 rest, p = 1 :: store16 f ++ b3 :: b4 :: rest /\ is_u16 f
  /\ (native = little -> Z.lor (Z.land f 0x7FF) n = n).

Lemma finish_reply_head p n ro cs : head_ok p n -> 0 <= n < 2048 ->
  head_ok (finish_reply p n ro cs) n
  /\ length (finish_reply p n ro cs) = length p
  /\ byte_at (finish_reply p n ro cs) off_sequence = byte_at p off_sequence
  /\ finish_reply (finish_reply p n ro cs) n ro cs = finish_reply p n ro cs.
Proof.
  intros (f & b3 & b4 & rest & -> & Hf & Hl) Hn. rewrite finish_reply_eq by done.
  pose proof (reply_flags_u16 f n ro cs Hf) as Hf'.
  destruct (store16_pair (to_little16 (reply_checksum rest n cs))) as (c1 & c2 & Ec).
  split_and!.
  - rewrite Ec. exists (reply_flags f n ro cs), c1, c2, rest. split_and!; [done|done|].
    intros Hnat. rewrite reply_flags_length by auto. apply Z.lor_diag.
  - cbn [length]. rewrite !length_app, !store16_length. done.
  - rewrite Ec. destruct (store16_pair (reply_flags f n ro cs)) as (? & ? & ->).
    by destruct (store16_pair f) as (? & ? & ->).
  - rewrite Ec at 1. cbn [app]. rewrite finish_reply_eq by done. by rewrite reply_flags_idem.
Qed.
End Header.

(** ** One turn of the loop *)

(** The datagram's packet is at most as long as the buffer for it. *)
Definition oversized (packet : bytes) : Prop := 1500 < zlen packet.
Definition oversized_read `{Native} (packet : bytes) : Prop :=
  request_function packet = INT2F_READ_FILE /\ 1492 < get16 (request_data packet) 6.

Section Loop.
Context {W : Type} `{!Host W, !DosAttrs W, CAL : !Calendar, !HostLaws W} `{NAT : !Native}.
Context (tmap : translit_map) (ulong_bits : Z).

(** An entry of the reply cache between two turns. *)
Record entry_inv (i : ReplyInfo) : Prop := {
  entry_info : info_ok i;
  entry_len : send_len_ok i;
  entry_head : 0 < send_len i -> head_ok (send_packet i) (send_len i)
    /\ byte_at (send_packet i) off_sequence = byte_at (recv_packet i) off_sequence;
}.

Record loop_ok (strict : bool) (s : srv W) : Prop := {
  loop_srv : srv_ok strict s;
  loop_cache : Forall entry_inv (answer_cache s);
}.

Lemma write_reply_head p code data ext n : (sizeof_hdr <= length p)%nat -> byte_at p 0 = 1 ->
  head_ok (write_reply p code data ext) n
  /\ byte_at (write_reply p code data ext) off_sequence = byte_at p off_sequence.
Proof.
  unfold write_reply. intros Hl Hb.
  destruct p as [|c0 [|c1 [|c2 [|c3 [|c4 [|c5 [|c6 [|c7 p]]]]]]]]; try (unfold sizeof_hdr in Hl; cbn [length] in Hl; lia).
  cbn in Hb. subst c0.
  destruct (store16_pair (to_little16 (u16 code))) as (x & y & ->).
  assert (is_u16 (if ext then DRIVE_PROTO_FLAG_EXTENDED_FEATURES else 0)) as Hf by (by destruct ext).
  destruct (store16_pair (if ext then DRIVE_PROTO_FLAG_EXTENDED_FEATURES else 0))
    as (u & v & E). split; [|by rewrite E].
  exists (if ext then DRIVE_PROTO_FLAG_EXTENDED_FEATURES else 0). rewrite E.
  do 3 eexists. split; [reflexivity|]. split; [done|]. intros _. by destruct ext.
Qed.

Lemma byte_at_write q p i : (i < length q)%nat -> byte_at (write_at 0 q p) i = byte_at q i.
Proof. intros Hi. unfold write_at. rewrite take_0. cbn [app]. by rewrite byte_at_app_l. Qed.

Lemma byte_at_take n l i : (i < n)%nat -> byte_at (take n l) i = byte_at l i.
Proof.
  unfold byte_at. revert l i. induction n as [|n IH]; intros [|x l] [|i] Hi; cbn; try done; try lia.
  apply IH. lia.
Qed.

(** A packet with a reply in it is one of this protocol's. *)
Lemma process_request_head info packet s n info' s' : entry_inv info -> byte_at packet 0 = 1 ->
  process_request tmap ulong_bits info packet s = (Returned n, info', s') ->
  head_ok (send_packet info') n
  /\ byte_at (send_packet info') off_sequence = byte_at packet off_sequence.
Proof.
  intros [[_ Hsend _ _] _ Hh] Hb. unfold process_request.
  destruct (Z.ltb_spec (zlen packet) (Z.of_nat sizeof_hdr)) as [|Hlen]; [done|].
  destruct (same_request info packet) eqn:Es.
  { destruct (Z.ltb_spec 0 (send_len info)); [|done]. intros [= <- <- <-].
    destruct Hh as [? ->]; [done|]. split; [done|]. unfold same_request in Es.
    apply andb_prop in Es as [[[_ Es]%andb_prop _]%andb_prop _]. by apply Z.eqb_eq in Es. }
  destruct (_ || _); [done|]. destruct (drives s !! _); [|done]. destruct (negb _); [done|].
  destruct (dispatch _ _ _ _ _ _) as [[[|code data ext]|] s1]; try done.
  destruct (PACKET_SIZE <? _)%nat; [done|]. intros [= <- <- <-].
  cbn [send_packet with_send_packet].
  assert (length (take sizeof_hdr packet) = sizeof_hdr) as Lh
    by (rewrite length_take; unfold sizeof_hdr in *; lia).
  set (hdr := write_at 0 _ _).
  assert (forall i, (i < 8)%nat -> byte_at hdr i = byte_at packet i) as Hhdr.
  { intros i Hi. subst hdr. rewrite byte_at_write by (by rewrite Lh).
    by apply byte_at_take. }
  assert (sizeof_hdr <= length hdr)%nat as Lhdr
    by (subst hdr; rewrite write_at_length; rewrite ?Lh, Hsend; unfold sizeof_hdr, PACKET_SIZE; lia).
  destruct (write_reply_head hdr code data ext (zlen data + Z.of_nat sizeof_hdr)) as [? ->];
    [done|by rewrite Hhdr by lia|]. split; [done|]. apply Hhdr. lia.
Qed.

Lemma check_packet_props datagram packet cs : check_packet datagram = Some (packet, cs) ->
  8 <= zlen packet < 2048 /\ byte_at packet 0 = 1 /\ exists rest, datagram = packet ++ rest.
Proof.
  unfold check_packet. repeat (case_match; [done|]).
  intros Hc. assert (packet = take (Z.to_nat (Z.land (from_little16
    (load16 datagram off_length_flags)) 0x7FF)) datagram) as ->
    by (by repeat case_match; simplify_eq).
  clear Hc. set (n := Z.land _ 0x7FF) in *.
  repeat match goal with E : (_ <? _) = false |- _ => apply Z.ltb_ge in E end.
  assert (0 <= n < 2048).
  { subst n. change 0x7FF with (Z.ones 11). rewrite Z.land_ones by lia.
    by apply Z.mod_pos_bound. }
  unfold sizeof_hdr in *. split; [rewrite length_take; lia|]. split.
  - destruct datagram; [done|]. destruct (Z.to_nat n) eqn:E; [lia|].
    cbn in *. lia.
  - exists (drop (Z.to_nat n) datagram). by rewrite take_drop.
Qed.

(** A finished reply passes the checks of [check_packet]. *)
Lemma check_packet_finished p n ro cs : native = little -> head_ok p n -> 8 <= n <= 1500 ->
  length p = PACKET_SIZE ->
  check_packet (take (Z.to_nat n) (finish_reply p n ro cs))
  = Some (take (Z.to_nat n) (finish_reply p n ro cs), cs).
Proof.
  intros Hnat (f & b3 & b4 & rest & -> & Hf & Hl) Hn Hlen. rewrite finish_reply_eq by done.
  set (fl := reply_flags f n ro cs). set (c := reply_checksum rest n cs).
  assert (is_u16 fl) as Hfl by (by apply reply_flags_u16).
  assert (is_u16 c) as Hcu
    by (subst c; unfold reply_checksum; destruct cs; [apply bsd_checksum_range|done]).
  assert (Z.land fl 0x7FF = n) as Hfn by (apply reply_flags_length; auto; lia).
  assert (forall x, to_little16 x = x) as TL by (intros; unfold to_little16; by rewrite Hnat).
  assert (forall x, from_little16 x = x) as FL by (intros; unfold from_little16; by rewrite Hnat).
  rewrite TL. set (P := 1 :: _).
  assert (zlen P = 1500) as LP.
  { subst P. cbn [length] in *. rewrite !length_app, !store16_length in *. cbn [length] in *.
    unfold PACKET_SIZE in Hlen. lia. }
  assert (zlen (take (Z.to_nat n) P) = n) as Lr by (rewrite length_take; lia).
  assert (forall i, (i < 8)%nat -> byte_at (take (Z.to_nat n) P) i = byte_at P i) as Bt
    by (intros; apply byte_at_take; lia).
  assert (forall o, (o < 6)%nat -> load16 (take (Z.to_nat n) P) o = load16 P o) as Lt.
  { intros o Ho. unfold load16, le16, be16. rewrite !Bt by lia. done. }
  unfold check_packet. rewrite Lr, !FL, Bt, !Lt by lia.
  assert (load16 P off_length_flags = fl) as -> by (by apply load_flags).
  assert (load16 P off_checksum = c) as ->.
  { subst P. rewrite <- (load16_store16 c Hcu) at 2.
    destruct (store16_pair fl) as (? & ? & ->), (store16_pair c) as (? & ? & ->). done. }
  rewrite Hfn. destruct (Z.ltb_spec n (Z.of_nat sizeof_hdr)); [unfold sizeof_hdr in *; lia|].
  change (byte_at P off_version) with 1. rewrite Z.eqb_refl, Z.ltb_irrefl, take_idemp. cbn [negb].
  assert (has fl DRIVE_PROTO_FLAG_CHECKSUM_USED = cs) as ->.
  { unfold has. subst fl. unfold reply_flags. rewrite !TL. destruct cs.
    - rewrite Z.land_lor_distr_l. change (Z.land 0x8000 0x8000) with 0x8000.
      rewrite (proj2 (Z.eqb_neq _ _)); [done|]. intros [_ ?]%Z.lor_eq_0_iff. done.
    - rewrite <- Z.land_assoc. change (Z.land 0x7FFF 0x8000) with 0. by rewrite Z.land_0_r. }
  destruct cs; cbn [negb]; [|done].
  assert (bsd_checksum (drop off_sequence (take (Z.to_nat n) P)) (n - 5) = c) as ->;
    [|by rewrite Z.eqb_refl].
  assert (drop off_sequence (take (Z.to_nat n) P) = take (Z.to_nat (n - 5)) rest) as ->.
  { subst P. destruct (store16_pair fl) as (? & ? & ->), (store16_pair c) as (? & ? & ->).
    replace (Z.to_nat n) with (5 + Z.to_nat (n - 5))%nat by lia. done. }
  subst c. unfold reply_checksum, bsd_checksum. rewrite u16_id by (unfold is_u16; lia).
  by rewrite take_idemp.
Qed.

Lemma claim_inv ip port i : entry_inv i -> entry_inv (claim ip port i).
Proof.
  intros [[] _ _]. split; [|by left|done]. split; cbn [recv_len send_len claim]; lia || done.
Qed.

(** The entry a client is served with. *)
Lemma get_reply_info_inv ip port items k items' : items <> [] -> Forall entry_inv items ->
  get_reply_info ip port items = (k, items') ->
  Forall entry_inv items' /\ exists i, items' !! k = Some i /\ is_client ip port i = true.
Proof.
  intros Hne Hall Hg. apply get_reply_info_props in Hg as (i & Hi & H); [|done].
  destruct H as [[Hc ->] | (_ & _ & ->)]; [eauto|]. split.
  - apply Forall_alter; [done|]. intros. by apply claim_inv.
  - eexists. rewrite list_lookup_alter_eq, Hi. split; [done|].
    unfold is_client. cbn. by rewrite !Z.eqb_refl.
Qed.

(** What a turn may do to the machine and the drives. *)
Record turn_ok (strict : bool) (s s' : srv W) : Prop := {
  turn_config : config <$> drives s' = config <$> drives s;
  turn_world : sworld s' = sworld s
    \/ exists d, d ∈ drives s /\ used d = true /\ read_only d = false
       /\ rtc (host_step attr_step (below d strict)) (sworld s) (sworld s');
}.

Lemma processed_turn strict info packet s r info' s' :
  srv_ok strict s -> processed_ok strict info packet s r info' s' -> turn_ok strict s s'.
Proof.
  intros Hs [Hs' _ _ _ _ Ho Hd Hn]. split.
  - apply list_eq. intros j. rewrite !list_lookup_fmap.
    destruct (decide (j = request_drive packet)) as [->|Hj]; [|by rewrite Ho].
    destruct (drives s !! request_drive packet) as [d|] eqn:E.
    + destruct (Hd d eq_refl) as (d' & -> & Hc & _). cbn. by rewrite Hc.
    + destruct (drives s' !! request_drive packet) eqn:E'; [|done].
      apply lookup_lt_Some in E'. apply lookup_ge_None in E.
      destruct Hs as [Hc _ _], Hs' as [Hc' _ _]. rewrite Hc in E. rewrite Hc' in E'. lia.
  - destruct (drives s !! request_drive packet) as [d|] eqn:E; [|left; by apply Hn].
    destruct (used d) eqn:Eu; [|left; apply Hn; congruence].
    destruct (Hd d eq_refl) as (_ & _ & _ & Hstep). unfold request_step in Hstep.
    destruct (read_only d) eqn:Er; [by left|]. right. exists d.
    split_and!; [by eapply list_elem_of_lookup_2|done..].
Qed.

Lemma request_drive_recv packet info : (7 < length packet)%nat ->
  Z.to_nat (Z.land (byte_at (write_at 0 packet (recv_packet info)) off_drive) 0x1F)
  = request_drive packet.
Proof.
  intros Hl. unfold request_drive, write_at. rewrite take_0. cbn [app].
  by rewrite byte_at_app_l by lia.
Qed.

Definition share_ro (s : srv W) (packet : bytes) : bool :=
  match drives s !! request_drive packet with Some d => read_only d | None => false end.

(** What the cache holds about a request that was served. *)
Record answered (ev : event) (s : srv W) (packet : bytes) (cs : bool) (info : ReplyInfo) : Prop := {
  ans_entry : entry_inv info;
  ans_same : same_request info packet = true;
  ans_fits : zlen packet <= 1500;
  ans_event :
    match ev with
    | NoReply => send_len info = 0
    | Sends reply =>
        0 < send_len info
        /\ reply = take (Z.to_nat (send_len info)) (send_packet info)
        /\ finish_reply (send_packet info) (send_len info) (share_ro s packet) cs
           = send_packet info
    | _ => False
    end;
}.

Lemma same_request_stored packet info sp sl ip port t : 8 <= zlen packet ->
  same_request (mkInfo (write_at 0 packet (recv_packet info)) sp (zlen packet) sl ip port t) packet
  = true.
Proof.
  intros Hl. unfold same_request. cbn [recv_packet recv_len].
  rewrite byte_at_write, !Z.eqb_refl by lia. unfold write_at. rewrite take_0. cbn [app].
  rewrite take_app_length, bool_decide_true by done.
  rewrite !andb_true_r. apply Z.ltb_lt. lia.
Qed.
(** The client's entry after a turn that serves it. *)
Definition served (ip port : Z) (datagram : bytes) (ev : event) (s : srv W) : Prop :=
  exists packet cs k info, check_packet datagram = Some (packet, cs)
  /\ get_reply_info ip port (answer_cache s) = (k, answer_cache s)
  /\ answer_cache s !! k = Some info /\ answered ev s packet cs info.

Lemma serve_props strict ip port datagram s ev s' :
  loop_ok strict s -> Forall is_byte datagram ->
  (strict = true -> forall packet cs, check_packet datagram = Some (packet, cs) ->
     ordinary_packet s packet) ->
  serve tmap ulong_bits ip port datagram s = (ev, s') ->
  match ev with
  | Stops _ => False
  | Undefined => exists packet cs, check_packet datagram = Some (packet, cs)
                 /\ (oversized packet \/ oversized_read packet)
  | Rejected => check_packet datagram = None /\ s' = s
  | _ => loop_ok strict s' /\ served ip port datagram ev s'
  end
  /\ turn_ok strict s s'.
Proof.
  intros [Hs Hc] Hb Ho. unfold serve.
  destruct (check_packet datagram) as [[packet cs]|] eqn:Ec;
    [|intros [= <- <-]; split; [done|split; auto]].
  destruct (check_packet_props _ _ _ Ec) as (Hlen & Hver & rest & Hdg).
  assert (Forall is_byte packet) as Hbp by (rewrite Hdg in Hb; by apply Forall_app in Hb as []).
  assert (answer_cache s <> []) as Hne.
  { destruct Hs as [_ [Hl _] _]. by destruct (answer_cache s). }
  destruct (get_reply_info ip port (answer_cache s)) as [k cache] eqn:Eg.
  destruct (get_reply_info_inv _ _ _ _ _ Hne Hc Eg) as (Hcache & info & Hk & Hcl).
  rewrite Hk. assert (entry_inv info) as Hinfo by (rewrite Forall_lookup in Hcache; eauto).
  assert (cache_ok cache) as Hcok.
  { destruct Hs as [_ Hca _]. apply get_reply_info_props in Eg as (i & Hi & H'); [|done].
    split.
    - destruct H' as [[_ ->] | (_ & _ & ->)]; rewrite ?length_alter; apply Hca.
    - eapply Forall_impl; [exact Hcache|]. apply entry_info. }
  assert (srv_ok strict (put_cache s cache)) as Hs1 by (destruct Hs; by split).
  destruct (process_request tmap ulong_bits info packet (put_cache s cache))
    as [[r info'] s1] eqn:Ep.
  pose proof (process_request_props tmap ulong_bits strict info packet (put_cache s cache)
    r info' s1 Hs1 (entry_info _ Hinfo) (entry_len _ Hinfo) Hbp
    (fun St => Ho St packet cs eq_refl) Ep) as Hpo.
  assert (turn_ok strict s s1) as Ht by (by destruct (processed_turn _ _ _ _ _ _ _ Hs1 Hpo)).
  destruct Hpo as [Hsrv Hca Hin Hip Hres _ _ _].
  assert (forall i ev, entry_inv i -> is_client ip port i = true -> answered ev s1 packet cs i ->
    loop_ok strict (put_cache s1 (<[k:=i]> (answer_cache s1)))
    /\ served ip port datagram ev (put_cache s1 (<[k:=i]> (answer_cache s1)))) as Done.
  { intros i e Hi Hci Han. rewrite Hca. change (answer_cache (put_cache s cache)) with cache.
    destruct Hsrv as [Hc1 _ Hd1]. split; [split; [split; [done| |done]|]|].
    - destruct Hcok. split; [cbn; by rewrite length_insert|]. cbn. apply Forall_insert; [done|].
      apply Hi.
    - by apply Forall_insert.
    - exists packet, cs, k, i. split; [done|].
      split; [exact (get_reply_info_again _ _ _ _ _ _ Hne Eg Hci)|]. split.
      + cbn. apply list_lookup_insert_eq. by eapply lookup_lt_Some.
      + destruct Han. by split. }
  assert (forall c, turn_ok strict s (put_cache s1 c)) as Ht' by (intros c; by destruct Ht).
  assert (forall rp sp rl sl t, is_client ip port
    (mkInfo rp sp rl sl (ipv4_addr info') (udp_port info') t) = true) as Hcl'.
  { intros. destruct Hip as [E1 E2]. unfold is_client in *. cbn. by rewrite E1, E2. }
  assert (forall sp sl t, length sp = PACKET_SIZE -> 0 <= sl <= 1500 -> zlen packet <= 1500 ->
    length (recv_packet info') = PACKET_SIZE ->
    info_ok (mkInfo (write_at 0 packet (recv_packet info')) sp (zlen packet) sl
               (ipv4_addr info') (udp_port info') t)) as Hiok.
  { intros sp sl t H1 H2 H3 H4. split; cbn [recv_packet send_packet recv_len send_len];
      [rewrite write_at_length by (cbn; rewrite H4; unfold PACKET_SIZE; lia); done|done|lia|lia]. }
  destruct r as [n| |ex|].
  - destruct Hres as [Hn1 Hn2]. specialize (Hin ltac:(done)).
    destruct (Nat.ltb_spec PACKET_SIZE (length packet)) as [Hov|Hfit].
    { intros [= <- <-]. split; [|done]. exists packet, cs. split; [done|]. left.
      unfold oversized, PACKET_SIZE in *. lia. }
    assert (zlen packet <= 1500) by (unfold PACKET_SIZE in Hfit; lia).
    destruct (Z.ltb_spec 0 n); [|lia]. intros [= <- <-]. split; [|done].
    pose proof (process_request_head _ _ _ _ _ _ Hinfo Hver Ep) as [Hh Hsq].
    cbn [recv_packet send_packet]. rewrite request_drive_recv by lia. fold (share_ro s1 packet).
    destruct (finish_reply_head _ n (share_ro s1 packet) cs Hh ltac:(lia))
      as (Hh' & Hlf & Hsf & Hid).
    assert (entry_inv (mkInfo (write_at 0 packet (recv_packet info'))
      (finish_reply (send_packet info') n (share_ro s1 packet) cs) (zlen packet) n
      (ipv4_addr info') (udp_port info') (time (sworld s1)))) as He.
    { split; [apply Hiok; [rewrite Hlf; apply Hin|lia|done|apply Hin]|right; cbn; lia|].
      intros _. split; [exact Hh'|]. cbn [recv_packet send_packet].
      rewrite Hsf, Hsq. symmetry. apply byte_at_write. lia. }
    apply Done; [exact He|apply Hcl'|].
    split; [exact He|by apply same_request_stored; lia|done|].
    cbn [send_len send_packet with_send_packet]. done.
  - specialize (Hin ltac:(done)).
    destruct (Nat.ltb_spec PACKET_SIZE (length packet)) as [Hov|Hfit].
    { intros [= <- <-]. split; [|done]. exists packet, cs. split; [done|]. left.
      unfold oversized, PACKET_SIZE in *. lia. }
    assert (zlen packet <= 1500) by (unfold PACKET_SIZE in Hfit; lia).
    intros [= <- <-]. split; [|done].
    assert (forall t, entry_inv (mkInfo (write_at 0 packet (recv_packet info')) (send_packet info')
      (zlen packet) 0 (ipv4_addr info') (udp_port info') t)) as He.
    { intros t. split; [apply Hiok; [apply Hin|lia|done|apply Hin]|by left|done]. }
    apply Done; [apply He|apply Hcl'|].
    split; [apply He|by apply same_request_stored; lia|done|done].
  - done.
  - intros [= <- <-]. split; [|done]. exists packet, cs. split; [done|]. by right.
Qed.

(** Serving a request again. *)
Lemma served_again ip port datagram ev s w cwd' : served ip port datagram ev s ->
  serve tmap ulong_bits ip port datagram (mkSrv w cwd' (drives s) (answer_cache s))
  = (ev, put_cache (mkSrv w cwd' (drives s) (answer_cache s))
           (answer_cache (serve tmap ulong_bits ip port datagram
                            (mkSrv w cwd' (drives s) (answer_cache s))).2)).
Proof.
  intros (packet & cs & k & info & Ec & Eg & Ek & [He Hsame Hfit Hev]).
  unfold serve. rewrite Ec. cbn [answer_cache]. rewrite Eg. cbn [put_cache answer_cache].
  rewrite Ek. unfold process_request.
  destruct (check_packet_props _ _ _ Ec) as (Hl & _).
  destruct (Z.ltb_spec (zlen packet) (Z.of_nat sizeof_hdr)); [unfold sizeof_hdr in *; lia|].
  rewrite Hsame. assert ((PACKET_SIZE <? length packet)%nat = false) as ->
    by (apply Nat.ltb_ge; unfold PACKET_SIZE; lia).
  destruct ev; try done.
  - by rewrite Hev.
  - destruct Hev as (Hn & -> & Hf). destruct (Z.ltb_spec 0 (send_len info)); [|lia].
    destruct (Z.ltb_spec 0 (send_len info)); [|lia].
    cbn [recv_packet send_packet sworld drives put_cache].
    rewrite request_drive_recv by lia. unfold share_ro in Hf. by rewrite Hf.
Qed.

(** *** The reply cache between two copies of a request *)

(** What a turn that goes on does to the cache: nothing, or it fills in the
    entry of the client. *)
Lemma serve_cache ip port datagram s ev s' : loop_ok false s -> Forall is_byte datagram ->
  serve tmap ulong_bits ip port datagram s = (ev, s') ->
  match ev with Undefined | Stops _ => False | _ => True end ->
  s' = s \/ exists k cache info, get_reply_info ip port (answer_cache s) = (k, cache)
    /\ answer_cache s' = <[k := info]> cache /\ is_client ip port info = true.
Proof.
  intros [Hs Hc] Hb E Hev. unfold serve in E.
  destruct (check_packet datagram) as [[packet cs]|] eqn:Ec; [|left; by injection E].
  destruct (check_packet_props _ _ _ Ec) as (Hlen & Hver & rest & Hdg).
  assert (Forall is_byte packet) as Hbp by (rewrite Hdg in Hb; by apply Forall_app in Hb as []).
  assert (answer_cache s <> []) as Hne by (destruct Hs as [_ [Hl _] _]; by destruct (answer_cache s)).
  destruct (get_reply_info ip port (answer_cache s)) as [k cache] eqn:Eg.
  destruct (get_reply_info_inv _ _ _ _ _ Hne Hc Eg) as (Hcache & info & Hk & Hcl).
  rewrite Hk in E. assert (entry_inv info) as Hinfo by (rewrite Forall_lookup in Hcache; eauto).
  assert (cache_ok cache) as Hcok.
  { destruct Hs as [_ Hca _]. apply get_reply_info_spec in Eg as [H _]; done. }
  assert (srv_ok false (put_cache s cache)) as Hs1 by (destruct Hs; by split).
  destruct (process_request tmap ulong_bits info packet (put_cache s cache)) as [[r info'] s1] eqn:Ep.
  pose proof (process_request_props tmap ulong_bits false info packet (put_cache s cache)
    r info' s1 Hs1 (entry_info _ Hinfo) (entry_len _ Hinfo) Hbp ltac:(done) Ep) as [_ Hca _ [Hi1 Hi2] _ _ _ _].
  right. exists k, cache. cbn [answer_cache put_cache] in Hca.
  assert (forall rp sp rl sl t, is_client ip port
    (mkInfo rp sp rl sl (ipv4_addr info') (udp_port info') t) = true) as Hcl'
    by (intros; unfold is_client in *; cbn; by rewrite Hi1, Hi2).
  destruct r as [n| |ex|]; [| |by injection E as <- <-|by injection E as <- <-].
  all: destruct (_ <? _)%nat in E; [by injection E as <- <-|].
  1: destruct (0 <? n) in E.
  all: injection E as <- <-; cbn [answer_cache put_cache]; rewrite Hca; eexists;
    (split; [done|]); split; [reflexivity|]; apply Hcl'.
Qed.

(** A client other than the one at [ip] and [port] is served without taking
    over that client's entry: it has one of its own, or there is an older one. *)
Definition room (ip port ip' port' : Z) (cache : list ReplyInfo) : Prop :=
  exists j, j ∈ cache /\ (is_client ip' port' j = true
    \/ Forall (fun i => is_client ip port i = true -> timestamp j < timestamp i) cache).

(** The turns between two copies of a request of the client at [ip] and
    [port]: others change the machine, other clients are served, and copies of
    the request arrive. *)
Inductive meanwhile (ip port : Z) (datagram : bytes) (s : srv W) : srv W -> Prop :=
  | meanwhile_others w : meanwhile ip port datagram s (mkSrv w (scwd s) (drives s) (answer_cache s))
  | meanwhile_client ip' port' datagram' ev s' : (ip', port') <> (ip, port) ->
      Forall is_byte datagram' -> room ip port ip' port' (answer_cache s) ->
      serve tmap ulong_bits ip' port' datagram' s = (ev, s') ->
      match ev with Undefined | Stops _ => False | _ => True end ->
      meanwhile ip port datagram s s'
  | meanwhile_copy ev s' : serve tmap ulong_bits ip port datagram s = (ev, s') ->
      meanwhile ip port datagram s s'.

Lemma is_client_two ip port ip' port' i : is_client ip port i = true -> is_client ip' port' i = true ->
  (ip', port') = (ip, port).
Proof.
  unfold is_client. intros [E1%Z.eqb_eq E2%Z.eqb_eq]%andb_prop [E3%Z.eqb_eq E4%Z.eqb_eq]%andb_prop.
  congruence.
Qed.

(** The entry of a request that was served is the client's. *)
Lemma served_client ip port cache k info : cache !! k = Some info ->
  get_reply_info ip port cache = (k, cache) -> is_client ip port info = true.
Proof.
  intros Hk Hg. assert (cache <> []) as Hne by (by intros ->).
  apply get_reply_info_props in Hg as (i & Hi & H); [|done].
  destruct H as [[Hc _]|(Hn & _ & E)]; [congruence|].
  assert (alter (claim ip port) k cache !! k = Some info) as Hk' by congruence.
  rewrite list_lookup_alter_eq, Hk in Hk'. injection Hk' as <-. unfold is_client. cbn.
  by rewrite !Z.eqb_refl.
Qed.

(** Another client's turn leaves the entry where it is. *)
Lemma entry_stays ip port ip' port' cache k info k' cache' info' :
  (ip', port') <> (ip, port) -> room ip port ip' port' cache ->
  cache !! k = Some info -> get_reply_info ip port cache = (k, cache) ->
  get_reply_info ip' port' cache = (k', cache') -> is_client ip' port' info' = true ->
  get_reply_info ip port (<[k' := info']> cache') = (k, <[k' := info']> cache')
  /\ <[k' := info']> cache' !! k = Some info.
Proof.
  intros Hne (j & Hj & Hroom) Hk Hg Hg' Hi'. pose proof (served_client _ _ _ _ _ Hk Hg) as Hc.
  assert (cache <> []) as Hnil by (by intros ->).
  assert (k' <> k /\ forall n, n <> k' -> cache' !! n = cache !! n) as [Hkk Hsame].
  { apply get_reply_info_props in Hg' as (i & Hi & H); [|done].
    destruct H as [[Hci ->]|(Hn & Ht & ->)].
    - split; [|done]. intros ->. apply Hne. rewrite Hk in Hi. injection Hi as <-. by eapply is_client_two.
    - split; [|intros n Hnk; by rewrite list_lookup_alter_ne]. intros ->.
      rewrite Hk in Hi. injection Hi as <-. rewrite Forall_forall in Hn, Ht.
      destruct Hroom as [Hr|Hr]; [rewrite (Hn _ Hj) in Hr; done|].
      rewrite Forall_forall in Hr. specialize (Ht _ Hj).
      specialize (Hr info ltac:(by eapply list_elem_of_lookup_2) Hc). cbv beta in *. lia. }
  assert (<[k' := info']> cache' !! k = Some info) as Hk2
    by (rewrite list_lookup_insert_ne by done; rewrite Hsame by done; done).
  split; [|done]. eapply get_reply_info_first; [exact Hk2|done|].
  pose proof (get_reply_info_take _ _ _ _ _ Hg) as Hfirst. rewrite Forall_lookup in Hfirst.
  apply Forall_lookup. intros n x Hx. destruct (decide (n < k)%nat) as [Hlt|Hge];
    [|rewrite lookup_take_ge in Hx by lia; done].
  rewrite lookup_take_lt in Hx by done. destruct (decide (n = k')) as [->|Hnk].
  - assert (x = info') as -> by
      (apply list_lookup_insert_Some in Hx as [(_ & -> & _)|[? _]]; done).
    destruct (is_client ip port info') eqn:E; [|done]. exfalso. apply Hne. by eapply is_client_two.
  - rewrite list_lookup_insert_ne, Hsame in Hx by done. apply (Hfirst n). by rewrite lookup_take_lt.
Qed.

Lemma share_ro_config s s' packet : config <$> drives s' = config <$> drives s ->
  share_ro s' packet = share_ro s packet.
Proof.
  intros E. unfold share_ro. apply (f_equal (fun l => l !! request_drive packet)) in E.
  rewrite !list_lookup_fmap in E.
  destruct (drives s' !! _) as [d'|], (drives s !! _) as [d|]; cbn in E; try done.
  assert (config d' = config d) as E' by congruence. by apply (f_equal read_only) in E'.
Qed.

Lemma meanwhile_served ip port datagram ev s s' : loop_ok false s -> Forall is_byte datagram ->
  match ev with Sends _ | NoReply => True | _ => False end ->
  served ip port datagram ev s -> meanwhile ip port datagram s s' ->
  loop_ok false s' /\ served ip port datagram ev s'.
Proof.
  intros Hs Hb Hev Hsv [w|ip' port' dg' ev' s2 Hne Hb' Hroom E Hev'|ev' s2 E].
  - split; [by destruct Hs as [[] ?]|]. destruct Hsv as (p & cs & k & i & ? & ? & ? & []).
    by exists p, cs, k, i.
  - pose proof (serve_cache _ _ _ _ _ _ Hs Hb' E Hev') as Hcache.
    apply (serve_props false) in E as [Hp [Ec _]]; [|done..].
    assert (loop_ok false s2) as Hs2.
    { destruct ev'; try done; [by destruct Hp as [_ ->]|by destruct Hp..]. }
    split; [done|]. destruct Hcache as [->|(k' & cache' & info' & Hg' & Hca & Hi')]; [done|].
    destruct Hsv as (p & cs & k & i & Hc & Hg & Hk & [A1 A2 A3 A4]).
    destruct (entry_stays _ _ _ _ _ _ _ _ _ _ Hne Hroom Hk Hg Hg' Hi') as [Hg2 Hk2].
    exists p, cs, k, i. rewrite Hca. split_and!; [done..|]. split; [done..|].
    by rewrite (share_ro_config s s2 p Ec).
  - pose proof (served_again _ _ _ _ _ (sworld s) (scwd s) Hsv) as E2.
    replace (mkSrv (sworld s) (scwd s) (drives s) (answer_cache s)) with s in E2 by (by destruct s).
    rewrite E in E2. injection E2 as -> _.
    apply (serve_props false) in E as [Hp _]; [|done..]. by destruct ev; destruct Hp.
Qed.

(** C6: a request that was answered, or ignored, and is sent again gets the
    same answer byte for byte and is not executed again: neither the machine
    nor the drives nor the working directory are touched.  In between the
    machine may have been changed by others, copies of the request may have
    been served, and any number of other clients may have been served each of
    which has an entry in the reply cache or finds one that is older than this
    client's (the cache has sixteen); a different request of the client itself
    would have replaced the answer. *)
Theorem retransmission_not_repeated ip port datagram s ev s1 s2 :
  loop_ok false s -> Forall is_byte datagram ->
  serve tmap ulong_bits ip port datagram s = (ev, s1) ->
  match ev with Sends _ | NoReply => True | _ => False end ->
  rtc (meanwhile ip port datagram) s1 s2 ->
  let '(ev2, s3) := serve tmap ulong_bits ip port datagram s2 in
  ev2 = ev /\ sworld s3 = sworld s2 /\ drives s3 = drives s2 /\ scwd s3 = scwd s2.
Proof.
  intros Hs Hb E Hev Hrun. apply (serve_props false) in E as [Hp _]; try done.
  assert (loop_ok false s1 /\ served ip port datagram ev s1) as H1 by (by destruct ev; try apply Hp).
  assert (loop_ok false s2 /\ served ip port datagram ev s2) as [_ Hsv].
  { clear Hp. induction Hrun as [|x y z Hxy _ IH]; [done|]. apply IH. by eapply meanwhile_served; [apply H1| | |apply H1|]. }
  pose proof (served_again ip port datagram ev s2 (sworld s2) (scwd s2) Hsv) as E2.
  replace (mkSrv (sworld s2) (scwd s2) (drives s2) (answer_cache s2)) with s2 in E2 by (by destruct s2).
  destruct (serve _ _ _ _ _ _) as [ev2 s3]. by injection E2 as -> ->.
Qed.

(** What the cache guarantees about the reply to a request. *)
Lemma served_reply ip port datagram reply s : native = little ->
  served ip port datagram (Sends reply) s ->
  exists packet cs, check_packet datagram = Some (packet, cs)
  /\ check_packet reply = Some (reply, cs)
  /\ 8 <= zlen reply <= 1500
  /\ byte_at reply off_sequence = byte_at packet off_sequence.
Proof.
  intros Hnat (packet & cs & k & info & Ec & _ & _ & [[Hi Hl Hh] Hsame _ (Hn & -> & Hf)]).
  destruct (Hh Hn) as [Hhead Hseq]. destruct Hi as [_ Hsend _ Hsl].
  assert (8 <= send_len info <= 1500) by (destruct Hl; lia).
  exists packet, cs. split; [done|].
  split; [rewrite <- Hf; by apply check_packet_finished|]. split.
  - rewrite length_take, Hsend. unfold PACKET_SIZE. lia.
  - rewrite byte_at_take by lia. rewrite Hseq. unfold same_request in Hsame.
    apply andb_prop in Hsame as [[[_ Es]%andb_prop _]%andb_prop _]. by apply Z.eqb_eq in Es.
Qed.

(** C3: from a well-formed state, whatever datagrams any clients send in any
    order and whatever others do to the machine in between, the next turn
    does not end the server, and it is free of buffer overflows unless the
    datagram's packet exceeds the 1500-byte buffer or is a READ_FILE of more
    than 1492 bytes; the configuration of the drives never changes. *)
Theorem server_never_stops s0 s ip port datagram :
  loop_ok false s0 -> rtc (step tmap ulong_bits) s0 s -> Forall is_byte datagram ->
  config <$> drives s = config <$> drives s0
  /\ match (serve tmap ulong_bits ip port datagram s).1 with
     | Stops _ => False
     | Undefined => exists packet cs, check_packet datagram = Some (packet, cs)
                    /\ (oversized packet \/ oversized_read packet)
     | _ => True
     end.
Proof.
  intros H0 Hrun Hb.
  assert (loop_ok false s /\ config <$> drives s = config <$> drives s0) as [Hs Hc].
  { induction Hrun as [|x y z Hxy _ IH]; [done|].
    assert (loop_ok false y /\ config <$> drives y = config <$> drives x) as [Hy Ey].
    { destruct Hxy as [ip' port' dg y ev Hdg E Hev|w].
      - apply (serve_props false) in E as [Hp [Ec _]]; [|done..]. split; [|done].
        destruct ev; try done; [by destruct Hp as [_ ->]|by destruct Hp..].
      - split; [|done]. destruct H0 as [[] ?]. by split. }
    rewrite <- Ey. by apply IH. }
  split; [done|]. destruct (serve _ _ _ _ _ _) as [ev s'] eqn:E.
  apply (serve_props false) in E as [Hp _]; [|done..]. by destruct ev.
Qed.

(** One byte behind the checksum field and inside the packet was changed. *)
Definition damaged (packet datagram datagram' : bytes) : Prop :=
  exists l b b' r, datagram = l ++ b :: r /\ datagram' = l ++ b' :: r
  /\ b <> b' /\ is_byte b /\ is_byte b' /\ (5 <= length l)%nat /\ zlen l < zlen packet.

(** C9: a request sent with a checksum is dropped, and nothing happens, when
    any one byte behind the checksum field (sequence number, drive, function
    or data) was changed on the way. *)
Theorem damaged_request_dropped ip port datagram datagram' packet s :
  check_packet datagram = Some (packet, true) -> damaged packet datagram datagram' ->
  serve tmap ulong_bits ip port datagram' s = (Rejected, s).
Proof.
  intros Hc (l & b & b' & r & -> & -> & Hne & Hb & Hb' & Hl & Hp). unfold serve.
  assert (check_packet (l ++ b' :: r) = None) as ->; [|done].
  pose proof (check_packet_props _ _ _ Hc) as (Hlen & _). revert Hc. unfold check_packet.
  assert (zlen (l ++ b :: r) = zlen (l ++ b' :: r)) as -> by (by rewrite !length_app).
  assert (forall x i, (i < 5)%nat -> byte_at (l ++ x :: r) i = byte_at l i) as Ba
    by (intros; apply byte_at_app_l; lia).
  assert (forall x o, (o < 4)%nat -> load16 (l ++ x :: r) o = load16 l o) as Bl
    by (intros; unfold load16, le16, be16; by rewrite !Ba by lia).
  rewrite !Ba, !Bl by lia. repeat (case_match; [done|]).
  destruct (has _ _); [|by case_match].
  set (n := Z.land _ 0x7FF) in *. set (c := from_little16 (load16 l off_checksum)).
  assert (forall x, take (Z.to_nat n) (l ++ x :: r) = l ++ x :: take (Z.to_nat n - length l - 1) r
    \/ n <= zlen l) as Tk.
  { intros x. destruct (Z.le_gt_cases n (zlen l)); [by right|left].
    rewrite take_app_ge by lia. f_equal.
    destruct (Z.to_nat n - length l)%nat eqn:E; [lia|]. cbn. do 2 f_equal. lia. }
  destruct (Z.eqb_spec (bsd_checksum (drop off_sequence (take (Z.to_nat n) (l ++ b :: r))) (n - 5)) c)
    as [E|]; [|done].
  intros [= Epk]. destruct (Tk b) as [Tb|Hn];
    [|rewrite <- Epk, length_take in Hp; lia].
  destruct (Tk b') as [Tb'|Hn]; [|rewrite <- Epk, length_take in Hp; lia].
  destruct (Z.eqb_spec (bsd_checksum (drop off_sequence (take (Z.to_nat n) (l ++ b' :: r))) (n - 5)) c)
    as [E'|]; [|done].
  exfalso. apply Hne. rewrite Tb in E. rewrite Tb' in E'.
  rewrite drop_app_le in E, E' by lia.
  set (q := take _ r) in *.
  assert (zlen packet = n) as Hpn.
  { rewrite <- Epk, length_take.
    repeat match goal with E : (_ <? _) = false |- _ => apply Z.ltb_ge in E end.
    rewrite length_app in *. cbn [length] in *. lia. }
  assert (n - 5 = zlen (drop off_sequence l ++ b :: q)) as En.
  { rewrite <- Hpn, <- Epk, Tb, !length_app, length_drop. cbn [length]. lia. }
  rewrite En in E, E'. apply (bsd_checksum_byte_inj (drop off_sequence l) b b' q); try done;
    [rewrite <- En; lia|congruence].
Qed.

(** *** Runs of ordinary requests *)

(** The paths of the writable shares. *)
Definition writable_share (ds : list Drive) (p : path) : Prop :=
  exists d, d ∈ ds /\ used d = true /\ read_only d = false /\ p <> [] /\ within (root d) p.

Inductive ordinary_step (s : srv W) : srv W -> Prop :=
  | ordinary_serve ip port datagram s' ev : Forall is_byte datagram ->
      (forall packet cs, check_packet datagram = Some (packet, cs) -> ordinary_packet s packet) ->
      serve tmap ulong_bits ip port datagram s = (ev, s') ->
      (match ev with Undefined => False | _ => True end) ->
      ordinary_step s s'.

Lemma ordinary_step_ok s s' : loop_ok true s -> ordinary_step s s' ->
  loop_ok true s' /\ turn_ok true s s'.
Proof.
  intros Hs [ip port dg s2 ev Hb Ho E Hev].
  apply (serve_props true) in E as [Hp Ht]; [|done..|by intros _]. split; [|done].
  destruct ev; try done; [by destruct Hp as [_ ->]|by destruct Hp..].
Qed.

Lemma config_writable ds ds' p : config <$> ds' = config <$> ds ->
  writable_share ds' p -> writable_share ds p.
Proof.
  intros E (d & Hd & Hu & Hr & Hp & Hw).
  assert (config d ∈ config <$> ds) as (d2 & Ec & Hd2)%list_elem_of_fmap
    by (rewrite <- E; by apply list_elem_of_fmap_2).
  exists d2. assert (used d2 = used d /\ read_only d2 = read_only d /\ root d2 = root d)
    as (-> & -> & ->); [|done].
  apply (f_equal (fun d => (used d, read_only d, root d))) in Ec. by injection Ec as -> -> ->.
Qed.

(** C1: over any run of ordinary requests, everything the server does to the
    machine is a sequence of file operations on paths below the roots of the
    shares that are writable, as they were configured at the start, and the
    configuration stays what it was. *)
Theorem run_confined s s' : loop_ok true s -> rtc ordinary_step s s' ->
  loop_ok true s' /\ config <$> drives s' = config <$> drives s
  /\ rtc (host_step attr_step (writable_share (drives s))) (sworld s) (sworld s').
Proof.
  intros Hs Hrun. revert Hs. induction Hrun as [s|s y z Hxy _ IH]; intros Hs; [done|].
  destruct (ordinary_step_ok _ _ Hs Hxy) as [Hy [Ec Hw]].
  destruct (IH Hy) as (Hz & Ez & Hr). split_and!; [done|congruence|].
  transitivity (sworld y).
  - destruct Hw as [-> | (d & Hd & Hu & Hro & Hst)]; [done|].
    eapply rtc_subrel, Hst. intros a b. apply host_step_impl. intros p [Hne Hp].
    exists d. split_and!; auto.
  - eapply rtc_subrel, Hr. intros a b. apply host_step_impl. intros p.
    by apply config_writable.
Qed.
End Loop.

(** ** The sample server *)

Lemma srv_eta {W} (s : srv W) : mkSrv (sworld s) (scwd s) (drives s) (answer_cache s) = s.
Proof. by destruct s. Qed.

Lemma sample_loop_ok strict : loop_ok strict sample_server.
Proof.
  split; [apply sample_server_ok|]. apply Forall_replicate.
  split; [apply info_default_ok|by left|done].
Qed.

Lemma make_new_bytes : Forall is_byte make_new.
Proof. apply (bool_decide_unpack _). vm_compute. exact I. Qed.

(** Another client searches between two copies of a request. *)
Lemma retransmission_not_repeated_witness :
  let s1 := (serve ∅ 64 0x0A000001 1024 make_new sample_server).2 in
  let s2 := (serve ∅ 64 0x0A000002 1024 find_all s1).2 in
  let '(ev2, s3) := serve ∅ 64 0x0A000001 1024 make_new s2 in
  ev2 = Sends [1; 8; 32; 0x24; 0x95; 7; 0; 0] /\ sworld s3 = sworld s2.
Proof.
  intros s1 s2.
  assert (serve ∅ 64 0x0A000001 1024 make_new sample_server
          = (Sends [1; 8; 32; 0x24; 0x95; 7; 0; 0], s1)) as E by (vm_compute; reflexivity).
  assert (rtc (meanwhile ∅ 64 0x0A000001 1024 make_new) s1 s2) as Hrun.
  { apply rtc_once. eapply (meanwhile_client ∅ 64 _ _ _ _ 0x0A000002 1024 find_all).
    - discriminate.
    - apply (bool_decide_unpack _). vm_compute. exact I.
    - exists ReplyInfo_default. split.
      + apply (list_elem_of_lookup_2 _ 1). vm_compute. reflexivity.
      + right. apply Forall_lookup. intros i x Hx Hc.
        destruct i as [|i]; [vm_compute in Hx; injection Hx as <-; vm_compute; reflexivity|].
        exfalso. do 15 (destruct i as [|i]; [vm_compute in Hx; injection Hx as <-; discriminate Hc|]).
        vm_compute in Hx. discriminate Hx.
    - apply surjective_pairing.
    - vm_compute. exact I. }
  clearbody s1 s2. pose proof (retransmission_not_repeated ∅ 64 0x0A000001 1024 make_new sample_server _ s1
    s2 (sample_loop_ok false) make_new_bytes E I Hrun) as H.
  destruct (serve ∅ 64 0x0A000001 1024 make_new s2).
  destruct H as (H1 & H2 & _). exact (conj H1 H2).
Defined.

Lemma damaged_request_dropped_witness :
  let seal := [1; 12; 128; 0xBA; 0x7C; 7; 2; 3] in
  (serve ∅ 64 0x0A000001 1024 (seal ++ 65 :: str "bcd") sample_server).1 = Rejected.
Proof.
  intros seal.
  rewrite (damaged_request_dropped ∅ 64 0x0A000001 1024 (seal ++ 97 :: str "bcd") _
    (seal ++ str "abcd") sample_server); [reflexivity|vm_compute; reflexivity|].
  exists seal, 97, 65, (str "bcd"). unfold is_byte. cbn. split_and!; (reflexivity || lia).
Defined.

Lemma server_never_stops_witness :
  let s := (run sample_server [make_new; find_all]).2 in
  config <$> drives s = config <$> drives sample_server.
Proof.
  intros s.
  assert (rtc (step ∅ 64) sample_server s) as Hrun.
  { subst s. unfold run.
    destruct (serve ∅ 64 0x0A000001 1024 make_new sample_server) as [ev1 s1] eqn:E1.
    destruct (serve ∅ 64 0x0A000001 1024 find_all s1) as [ev2 s2] eqn:E2. cbn [snd].
    eapply rtc_l; [eapply step_serve; [apply make_new_bytes|exact E1|]|].
    { apply (f_equal fst) in E1. vm_compute in E1. by subst ev1. }
    eapply rtc_l; [eapply step_serve; [|exact E2|]|apply rtc_refl].
    { apply (bool_decide_unpack _). vm_compute. exact I. }
    apply (f_equal snd) in E1. cbn [snd] in E1. subst s1.
    apply (f_equal fst) in E2. vm_compute in E2. by subst ev2. }
  clearbody s. destruct (server_never_stops ∅ 64 sample_server s 0 0 make_new
    (sample_loop_ok false) Hrun make_new_bytes) as [H _]. exact H.
Defined.

Lemma run_confined_witness :
  let s := (serve ∅ 64 0x0A000001 1024 make_new sample_server).2 in
  is_dir (sworld s) [str "srv"; str "new"] = true
  /\ rtc (host_step attr_step (writable_share (drives sample_server))) sample_world (sworld s).
Proof.
  intros s. split; [vm_compute; reflexivity|].
  destruct (run_confined ∅ 64 sample_server s (sample_loop_ok true)) as (_ & _ & H); [|exact H].
  apply rtc_once. eapply ordinary_serve with (datagram := make_new) (ip := 0x0A000001) (port := 1024).
  - apply make_new_bytes.
  - intros packet cs Hc d Hd. assert (packet = make_new) as -> by (vm_compute in Hc; by injection Hc).
    injection Hd as <-. split; [|discriminate].
    intros _. apply (bool_decide_unpack _). vm_compute. exact I.
  - apply surjective_pairing.
  - vm_compute. exact I.
Defined.
