(* ===== verification/Config.v ===== *)
(** * Config: share definitions and the command line (parse_share_definition
    and the start of main, netmount-server.cpp)

    The arguments are parsed into the options of the transport and the table
    of drives; what the parser leaves behind is the state the main loop starts
    with, and meets the invariant of MainLoop.v. *)
From stdpp Require Import gmap.
From S2P Require Import Prelude Words Paths FatTime Host Attrs Unicode Fcb Files Drive Handles.
From S2P Require Import DriveInv ReplyCache Server MemFs Samples ServerInv MainLoop.

(** ** Tokens *)

(** The loop of [get_token] over the rest of the input. *)
Fixpoint get_token_from (rest : bytes) (delimiter : Z) (escape : bool) (offset : nat)
  : bytes * nat :=
  match rest with
  | [] => ([], offset)
  | ch :: rest =>
      if escape then
        let '(token, o) := get_token_from rest delimiter false (S offset) in (ch :: token, o)
      else if ch =? CH_BACKSLASH then get_token_from rest delimiter true (S offset)
      else if ch =? delimiter then ([], offset)
      else let '(token, o) := get_token_from rest delimiter false (S offset) in (ch :: token, o)
  end.

(** The token and the new offset. *)
Definition get_token (input : bytes) (delimiter : Z) (offset : nat) : bytes * nat :=
  get_token_from (drop offset input) delimiter false offset.

Definition string_ascii_to_upper (input : bytes) : bytes := ascii_to_upper <$> input.

(** ** Setting up a drive (the setters of fs.hpp) *)

Definition set_read_only (ro : bool) (d : Drive) : Drive :=
  mkDrive (used d) (root d) ro (use_client_timestamp d) (volume_label d) (has_volume_label d)
    (attrs_mode d) (name_conversion d) (items d).
Definition set_use_client_timestamp (enabled : bool) (d : Drive) : Drive :=
  mkDrive (used d) (root d) (read_only d) enabled (volume_label d) (has_volume_label d)
    (attrs_mode d) (name_conversion d) (items d).
Definition set_attrs_mode (mode : AttrsMode) (d : Drive) : Drive :=
  mkDrive (used d) (root d) (read_only d) (use_client_timestamp d) (volume_label d)
    (has_volume_label d) mode (name_conversion d) (items d).
Definition set_file_name_conversion (conversion : FileNameConversion) (d : Drive) : Drive :=
  mkDrive (used d) (root d) (read_only d) (use_client_timestamp d) (volume_label d)
    (has_volume_label d) (attrs_mode d) conversion (items d).

Definition DEFAULT_VOLUME_LABEL : bytes := str "NETMOUNT".

Section Config.
Context {W : Type} `{!Host W, !DosAttrs W}.

(** The option [attrs]: a mode that was asked for must be supported. *)
Definition attrs_option (w : W) (value : bytes) (d : Drive) : Z + Drive :=
  let upper_value := string_ascii_to_upper value in
  if bool_decide (upper_value = str "AUTO") then inr (set_attrs_mode AUTO d)
  else if bool_decide (upper_value = str "IGNORE") then inr (set_attrs_mode IGNORE d)
  else if bool_decide (upper_value = str "NATIVE") then
    if DOS_ATTRS_NATIVE && is_dos_attrs_native_supported w (root d)
    then inr (set_attrs_mode NATIVE d) else inl (-1)
  else if bool_decide (upper_value = str "EXTENDED") then
    if DOS_ATTRS_IN_EXTENDED && is_dos_attrs_in_extended_supported w (root d)
    then inr (set_attrs_mode IN_EXTENDED d) else inl (-1)
  else inl (-1).

(** The options [readonly] and [client_timestamp]. *)
Definition flag_option (set : bool -> Drive -> Drive) (value : bytes) (d : Drive) : Z + Drive :=
  if bool_decide (value = str "0") then inr (set false d)
  else if bool_decide (value = str "1") then inr (set true d)
  else inl (-1).

Definition name_conversion_option (value : bytes) (d : Drive) : Z + Drive :=
  let upper_value := string_ascii_to_upper value in
  if bool_decide (upper_value = str "OFF") then inr (set_file_name_conversion OFF d)
  else if bool_decide (upper_value = str "RAM") then inr (set_file_name_conversion RAM d)
  else inl (-1).

(** One option: the exit code, or the drive; whether the label was defined is
    a matter of the option's name. *)
Definition apply_option (w : W) (option value : bytes) (d : Drive) : Z + Drive :=
  if bool_decide (option = str "attrs") then attrs_option w value d
  else if bool_decide (option = str "label") then
    inr (match value with [] => d | _ => set_volume_label value d end)
  else if bool_decide (option = str "name_conversion") then name_conversion_option value d
  else if bool_decide (option = str "readonly") then flag_option set_read_only value d
  else if bool_decide (option = str "client_timestamp")
  then flag_option set_use_client_timestamp value d
  else inl (-1).

(** The loop over the options; [None] when the fuel is used up. *)
Fixpoint parse_options (fuel : nat) (w : W) (share : bytes) (offset : nat) (d : Drive)
    (labelled : bool) : option (Z + Drive * bool) :=
  match fuel with
  | O => None
  | S fuel =>
      let offset := S offset in
      if (length share <=? offset)%nat then Some (inr (d, labelled))
      else
        let '(option, offset) := get_token share CH_EQ offset in
        let '(value, offset) := get_token share CH_COMMA (S offset) in
        match apply_option w option value d with
        | inl code => Some (inl code)
        | inr d =>
            parse_options fuel w share offset d (labelled || bool_decide (option = str "label"))
        end
  end.

(** The root of the share: a canonical path of a directory. *)
Definition share_root (w : W) (root_path : bytes) : option path :=
  match canonical w root_path with
  | inl _ => None
  | inr rpath =>
      match is_directory w rpath with
      | Ok true => Some rpath
      | _ => None
      end
  end.

(** The exit code, or the drives. *)
Definition parse_share_definition (w : W) (share : bytes) (ds : list Drive)
  : option (Z + list Drive) :=
  let drive_char := ascii_to_upper (byte_at share 0) in
  if (drive_char <? CH_C) || (CH_Z <? drive_char) then Some (inl (-1))
  else
    let n := Z.to_nat (drive_char - CH_A) in
    match ds !! n with
    | None => Some (inl (-1))   (* not reached: the table has an entry per letter *)
    | Some d =>
        if used d then Some (inl (-1))
        else
          let '(root_path, offset) := get_token share CH_COMMA 2 in
          match share_root w root_path with
          | None => Some (inl 1)
          | Some rpath =>
              match set_root rpath d with
              | Throw _ => Some (inl 1)
              | Ok d =>
                  match parse_options (S (length share)) w share offset d false with
                  | None => None
                  | Some (inl code) => Some (inl code)
                  | Some (inr (d, labelled)) =>
                      let d := if labelled then d else set_volume_label DEFAULT_VOLUME_LABEL d in
                      Some (inr (<[n := d]> ds))
                  end
              end
          end
    end.

(** ** The command line *)

(** The variables [main] fills in. *)
Record Options := mkOptions {
  bind_addr : bytes;
  bind_port : Z;
  slip_dev : bytes;
  slip_speed : Z;
  slip_hw_flow_control : bool;
  transliteration_map_path : bytes;
  global_log_level : Z;
}.

Definition DRIVE_PROTO_UDP_PORT : Z := 12200.
Definition Options_default : Options :=
  mkOptions [] DRIVE_PROTO_UDP_PORT [] 0 false (str "netmount-u2a.map") 2.

(** The number of bits of [long]. *)
Context (long_bits : Z).

(** [std::strtol] with base 10: the value, and what [end] points to. *)
Definition is_space (c : Z) : bool := (c =? 32) || ((9 <=? c) && (c <=? 13)).
Definition is_decimal (c : Z) : bool := (CH_0 <=? c) && (c <=? CH_9).
Definition strtol (s : bytes) : Z * bytes :=
  let s1 := drop_while is_space s in
  let '(negative, s2) :=
    match s1 with
    | c :: r => if c =? 45 then (true, r) else if c =? 43 then (false, r) else (false, s1)
    | [] => (false, s1)
    end in
  match take_while is_decimal s2 with
  | [] => (0, s)
  | digits =>
      let n := foldl (fun n c => 10 * n + (c - CH_0)) 0 digits in
      (if negative then Z.max (- 2 ^ (long_bits - 1)) (- n) else Z.min (2 ^ (long_bits - 1) - 1) n,
       drop (length digits) s2)
  end.

(** [strtol] with the test [*end != 0] and a range. *)
Definition number_in (lo hi : Z) (s : bytes) : option Z :=
  let '(n, rest) := strtol s in
  if (n <? lo) || (hi <? n) || nonempty rest then None else Some n.

Definition starts_with (prefix arg : bytes) : bool := bool_decide (take (length prefix) arg = prefix).

(** One argument: the exit code, or what it sets; [None] when the options of
    a share do not end. *)
Definition parse_arg (w : W) (arg : bytes) (o : Options) (ds : list Drive)
  : option (Z + Options * list Drive) :=
  if zlen arg <? 3 then Some (inl (-1))
  else if bool_decide (arg = str "--help") then Some (inl 0)
  else if starts_with (str "--bind-addr=") arg then
    Some (inr (mkOptions (drop 12 arg) (bind_port o) (slip_dev o) (slip_speed o)
                 (slip_hw_flow_control o) (transliteration_map_path o) (global_log_level o), ds))
  else if starts_with (str "--bind-port=") arg then
    match number_in 1 0xFFFF (drop 12 arg) with
    | None => Some (inl (-1))
    | Some port =>
        Some (inr (mkOptions (bind_addr o) port (slip_dev o) (slip_speed o)
                     (slip_hw_flow_control o) (transliteration_map_path o) (global_log_level o), ds))
    end
  else if starts_with (str "--slip-dev=") arg then
    Some (inr (mkOptions (bind_addr o) (bind_port o) (drop 11 arg) (slip_speed o)
                 (slip_hw_flow_control o) (transliteration_map_path o) (global_log_level o), ds))
  else if starts_with (str "--slip-speed=") arg then
    match number_in 1200 230400 (drop 13 arg) with
    | None => Some (inl (-1))
    | Some speed =>
        Some (inr (mkOptions (bind_addr o) (bind_port o) (slip_dev o) speed
                     (slip_hw_flow_control o) (transliteration_map_path o) (global_log_level o), ds))
    end
  else if starts_with (str "--slip-rts-cts=") arg then
    (* only the first character is looked at *)
    if (byte_at arg 15 =? CH_0) || (byte_at arg 15 =? CH_0 + 1) then
      Some (inr (mkOptions (bind_addr o) (bind_port o) (slip_dev o) (slip_speed o)
                   (byte_at arg 15 =? CH_0 + 1) (transliteration_map_path o) (global_log_level o), ds))
    else Some (inl (-1))
  else if starts_with (str "--log-level=") arg then
    match number_in 0 7 (drop 12 arg) with
    | None => Some (inl (-1))
    | Some level =>
        Some (inr (mkOptions (bind_addr o) (bind_port o) (slip_dev o) (slip_speed o)
                     (slip_hw_flow_control o) (transliteration_map_path o) (level - 1), ds))
    end
  else if starts_with (str "--translit-map-path=") arg then
    Some (inr (mkOptions (bind_addr o) (bind_port o) (slip_dev o) (slip_speed o)
                 (slip_hw_flow_control o) (drop 20 arg) (global_log_level o), ds))
  else if byte_at arg 1 =? CH_EQ then
    match parse_share_definition w arg ds with
    | None => None
    | Some (inl code) => Some (inl code)
    | Some (inr ds) => Some (inr (o, ds))
    end
  else Some (inl (-1)).

Fixpoint parse_args (w : W) (args : list bytes) (o : Options) (ds : list Drive)
  : option (Z + Options * list Drive) :=
  match args with
  | [] => Some (inr (o, ds))
  | arg :: args =>
      match parse_arg w arg o ds with
      | Some (inr (o, ds)) => parse_args w args o ds
      | r => r
      end
  end.

(** The attribute store of a drive in mode [AUTO]. *)
Definition resolve_attrs_mode (w : W) (d : Drive) : Drive :=
  if used d && bool_decide (attrs_mode d = AUTO) then
    if DOS_ATTRS_NATIVE && is_dos_attrs_native_supported w (root d) then set_attrs_mode NATIVE d
    else if DOS_ATTRS_IN_EXTENDED && is_dos_attrs_in_extended_supported w (root d)
    then set_attrs_mode IN_EXTENDED d
    else set_attrs_mode IGNORE d
  else d.

(** [main] up to the opening of the transport: the exit code, or the options
    and the drives. *)
Definition startup (w : W) (args : list bytes) : option (Z + Options * list Drive) :=
  match parse_args w args Options_default (replicate MAX_DRIVES_COUNT Drive_default) with
  | Some (inr (o, ds)) =>
      if nonempty (slip_dev o) && ((slip_speed o =? 0) || nonempty (bind_addr o))
      then Some (inl (-1))
      else
        let ds := resolve_attrs_mode w <$> ds in
        if existsb used ds then Some (inr (o, ds)) else Some (inl (-1))
  | r => r
  end.

(** The transliteration map is loaded when a shared drive converts names and
    a path was given; [None] stands for the exception, after which the server
    ends without serving. *)
Definition startup_map (ds : list Drive) (o : Options) (file : path -> option bytes)
  : load_outcome :=
  if existsb (fun d => used d && converts d) ds && nonempty (transliteration_map_path o)
  then load_transliteration_map ∅ (file (transliteration_map_path o))
  else Loaded ∅.
End Config.

(** ** Tokens are read back *)

Definition escape_token (delimiter : Z) (token : bytes) : bytes :=
  token ≫= fun c => if (c =? CH_BACKSLASH) || (c =? delimiter) then [CH_BACKSLASH; c] else [c].

Lemma get_token_from_escaped delimiter token rest o : delimiter <> CH_BACKSLASH ->
  (rest = [] \/ head rest = Some delimiter) ->
  get_token_from (escape_token delimiter token ++ rest) delimiter false o
  = (token, (o + length (escape_token delimiter token))%nat).
Proof.
  intros Hd Hr. revert o. induction token as [|c token IH]; intros o.
  - cbn. rewrite Nat.add_0_r. destruct Hr as [->|Hr]; [done|].
    destruct rest as [|x rest]; [done|]. injection Hr as ->. cbn.
    by rewrite (proj2 (Z.eqb_neq _ _) Hd), Z.eqb_refl.
  - change (escape_token delimiter (c :: token)) with
      ((if (c =? CH_BACKSLASH) || (c =? delimiter) then [CH_BACKSLASH; c] else [c])
       ++ escape_token delimiter token).
    destruct (Z.eqb_spec c CH_BACKSLASH) as [->|Hc]; [|destruct (Z.eqb_spec c delimiter) as [->|Hc']];
      cbn; rewrite ?(proj2 (Z.eqb_neq _ _) Hc), ?(proj2 (Z.eqb_neq _ _) Hc'), IH; f_equal; lia.
Qed.

(** A value in which backslashes and delimiters are escaped by a backslash
    is read back unchanged, up to the delimiter or the end of the argument,
    and the offset points there. *)
Theorem get_token_roundtrip before delimiter token rest : delimiter <> CH_BACKSLASH ->
  (rest = [] \/ head rest = Some delimiter) ->
  get_token (before ++ escape_token delimiter token ++ rest) delimiter (length before)
  = (token, length (before ++ escape_token delimiter token)).
Proof.
  intros. unfold get_token. rewrite drop_app_length, get_token_from_escaped by done.
  by rewrite length_app.
Qed.

Lemma get_token_roundtrip_witness :
  get_token (str "C=/data\, old,readonly=1") CH_COMMA 2 = (str "/data, old", 13%nat).
Proof.
  exact (get_token_roundtrip (str "C=") CH_COMMA (str "/data, old") (str ",readonly=1")
    ltac:(discriminate) (or_intror eq_refl)).
Defined.

(** ** Every command line is parsed to the end *)

Lemma get_token_from_offset rest delimiter escape o :
  (o <= (get_token_from rest delimiter escape o).2)%nat.
Proof.
  revert escape o. induction rest as [|c rest IH]; intros escape o; cbn; [lia|].
  repeat case_match; cbn; try lia;
    match goal with
    | E : get_token_from rest delimiter ?e ?p = _ |- _ =>
        specialize (IH e p); rewrite E in IH; cbn in IH; lia
    | |- _ => specialize (IH true (S o)); lia
    end.
Qed.

Lemma get_token_offset input delimiter o : (o <= (get_token input delimiter o).2)%nat.
Proof. apply get_token_from_offset. Qed.

Section Started.
Context {W : Type} `{!Host W, !DosAttrs W, !HostLaws W} `{NAT : !Native}.

Lemma parse_options_total fuel (w : W) share o d labelled :
  (0 < fuel)%nat -> (length share - o <= fuel)%nat ->
  is_Some (parse_options fuel w share o d labelled).
Proof.
  revert o d labelled. induction fuel as [|fuel IH]; intros o d labelled H0 Hf; [lia|].
  cbn [parse_options]. destruct (Nat.leb_spec (length share) (S o)); [by eexists|].
  pose proof (get_token_offset share CH_EQ (S o)) as H1.
  destruct (get_token share CH_EQ (S o)) as [option o1].
  pose proof (get_token_offset share CH_COMMA (S o1)) as H2.
  destruct (get_token share CH_COMMA (S o1)) as [value o2]. cbn in H1, H2.
  destruct (apply_option w option value d); [by eexists|]. apply IH; lia.
Qed.

Lemma parse_share_definition_total (w : W) share ds : is_Some (parse_share_definition w share ds).
Proof.
  unfold parse_share_definition. case_match; [by eexists|]. case_match; [|by eexists].
  case_match; [by eexists|]. destruct (get_token share CH_COMMA 2) as [p o].
  destruct (share_root w p); [|by eexists]. destruct (set_root _ _) as [d'|]; [|by eexists].
  destruct (parse_options_total (S (length share)) w share o d' false) as [r ->]; [lia..|].
  destruct r as [|[? ?]]; by eexists.
Qed.

Lemma parse_args_total long_bits (w : W) args o ds : is_Some (parse_args long_bits w args o ds).
Proof.
  revert o ds. induction args as [|a args IH]; intros o ds; [by eexists|]. cbn [parse_args].
  assert (is_Some (parse_arg long_bits w a o ds)) as [[|[o' ds']] ->]; [|by eexists|apply IH].
  unfold parse_arg. repeat (case_match; try by eexists).
  all: match goal with E : parse_share_definition ?w ?s ?d = None |- _ =>
         destruct (parse_share_definition_total w s d); congruence end.
Qed.

(** The start of the server always comes to an exit code or to a table of
    drives: the loop over the options of a share makes progress on every
    argument, whatever it contains. *)
Theorem startup_total long_bits (w : W) args : is_Some (startup long_bits w args).
Proof.
  unfold startup. destruct (parse_args_total long_bits w args Options_default
    (replicate MAX_DRIVES_COUNT Drive_default)) as [[|[o ds]] ->]; [by eexists|].
  repeat case_match; by eexists.
Qed.

(** ** What the server starts with *)

(** A drive as a share definition leaves it: its root is a directory, its
    label fits, it has no handles, and an attribute store that is in use is
    supported for the root. *)
Record configured (w : W) (d : Drive) : Prop := {
  conf_used : used d = true;
  conf_absolute : is_absolute (root d) = true;
  conf_directory : directory_path (root d) /\ is_directory w (root d) = Ok true;
  conf_label : fcb_wf (volume_label d);
  conf_items : items d = [];
  conf_native : attrs_mode d = NATIVE ->
    DOS_ATTRS_NATIVE = true /\ is_dos_attrs_native_supported w (root d) = true;
  conf_extended : attrs_mode d = IN_EXTENDED ->
    DOS_ATTRS_IN_EXTENDED = true /\ is_dos_attrs_in_extended_supported w (root d) = true;
}.

Lemma set_volume_label_wf label d : fcb_wf (volume_label d) ->
  fcb_wf (volume_label (set_volume_label label d)).
Proof.
  intros Hd. unfold set_volume_label. destruct label as [|c label]; [done|]. cbn [volume_label].
  split; cbn [name_blank_padded ext_blank_padded]; apply pad_to_length; rewrite length_take; lia.
Qed.

Lemma set_volume_label_configured (w : W) label d : configured w d ->
  configured w (set_volume_label label d).
Proof.
  intros []. pose proof (set_volume_label_wf label d conf_label0).
  unfold set_volume_label in *. by destruct label; split.
Qed.

Lemma set_attrs_mode_configured (w : W) mode d : configured w d ->
  (mode = NATIVE -> DOS_ATTRS_NATIVE && is_dos_attrs_native_supported w (root d) = true) ->
  (mode = IN_EXTENDED ->
     DOS_ATTRS_IN_EXTENDED && is_dos_attrs_in_extended_supported w (root d) = true) ->
  configured w (set_attrs_mode mode d).
Proof.
  intros [] Hn He. split; try done; cbn; intros E.
  - by apply andb_prop, Hn.
  - by apply andb_prop, He.
Qed.

Lemma apply_option_configured (w : W) option value d d' : configured w d ->
  apply_option w option value d = inr d' -> configured w d' /\ root d' = root d.
Proof.
  intros Hd. unfold apply_option, attrs_option, flag_option, name_conversion_option.
  repeat (case_match; try done); intros [= <-]; (split; [|done]);
    first [done | by apply set_attrs_mode_configured
          | by match goal with E : value = ?v |- _ => apply (set_volume_label_configured w v) end
          | destruct Hd; by split].
Qed.

Lemma parse_options_configured fuel (w : W) share o d labelled d' labelled' : configured w d ->
  parse_options fuel w share o d labelled = Some (inr (d', labelled')) ->
  configured w d' /\ root d' = root d.
Proof.
  revert o d labelled. induction fuel as [|fuel IH]; intros o d labelled Hd; [done|].
  cbn [parse_options]. case_match; [by intros [= <- <-]|].
  destruct (get_token _ _ _) as [option o1]. destruct (get_token _ _ _) as [value o2].
  destruct (apply_option w option value d) as [|d1] eqn:E; [done|]. intros Hp.
  destruct (apply_option_configured _ _ _ _ _ Hd E) as [Hd1 Er].
  apply IH in Hp as [Hd' Er']; [|done]. split; [done|congruence].
Qed.

Lemma share_root_props (w : W) p q : share_root w p = Some q ->
  canonical w p = inr q /\ is_absolute q = true /\ directory_path q /\ is_directory w q = Ok true.
Proof.
  unfold share_root. destruct (canonical w p) as [|r] eqn:E; [done|].
  destruct (is_directory w r) as [[]|] eqn:Ed; try done. intros [= <-].
  by destruct (canonical_directory w p r E).
Qed.

(** A share definition that is accepted. *)
Lemma parse_share_definition_props (w : W) share ds ds' :
  (forall d, d ∈ ds -> used d = false -> fcb_wf (volume_label d) /\ items d = []
     /\ attrs_mode d = AUTO) ->
  parse_share_definition w share ds = Some (inr ds') ->
  let drive_char := ascii_to_upper (byte_at share 0) in
  CH_C <= drive_char <= CH_Z
  /\ exists d d', ds !! Z.to_nat (drive_char - CH_A) = Some d /\ used d = false
     /\ configured w d' /\ canonical w (get_token share CH_COMMA 2).1 = inr (root d')
     /\ ds' = <[Z.to_nat (drive_char - CH_A) := d']> ds.
Proof.
  intros Hds. unfold parse_share_definition. set (c := ascii_to_upper _).
  destruct ((c <? CH_C) || (CH_Z <? c)) eqn:Ec; [done|]. apply orb_false_elim in Ec as [E1 E2].
  destruct (ds !! Z.to_nat (c - CH_A)) as [d|] eqn:Ed; [|done].
  destruct (used d) eqn:Eu; [done|]. destruct (get_token share CH_COMMA 2) as [p o].
  destruct (share_root w p) as [rp|] eqn:Er; [|done]. unfold set_root. rewrite Eu.
  apply share_root_props in Er as (Hcan & Ha & Hdir & Hisd).
  destruct (Hds d (list_elem_of_lookup_2 _ _ _ Ed) Eu) as (Hl & Hit & Hm).
  set (d1 := mkDrive true rp _ _ _ _ _ _ _).
  assert (configured w d1) as Hd1 by (split; try done; cbn; congruence).
  destruct (parse_options _ w share o d1 false) as [[|[d2 labelled]]|] eqn:Ep; try done.
  intros [= <-]. apply parse_options_configured in Ep as [Hd2 Er2]; [|done].
  split; [lia|]. exists d, (if labelled then d2 else set_volume_label DEFAULT_VOLUME_LABEL d2).
  split_and!; [done|done|by case_match; [|apply set_volume_label_configured]| |done].
  cbn [fst]. rewrite Hcan. f_equal. by destruct labelled.
Qed.

(** A share definition that is accepted names a drive from C to Z that was
    not shared before, and sets up exactly that drive: its root is the
    canonical path of the directory that was given, it has no handles yet, and
    the attribute store asked for is one the directory supports. *)
Theorem share_definition_spec (w : W) share ds ds' :
  Forall (fun d => used d = false -> d = Drive_default) ds ->
  parse_share_definition w share ds = Some (inr ds') ->
  let drive_char := ascii_to_upper (byte_at share 0) in
  CH_C <= drive_char <= CH_Z
  /\ exists d d', ds !! Z.to_nat (drive_char - CH_A) = Some d /\ used d = false
     /\ configured w d' /\ canonical w (get_token share CH_COMMA 2).1 = inr (root d')
     /\ ds' = <[Z.to_nat (drive_char - CH_A) := d']> ds.
Proof.
  intros Hds. apply parse_share_definition_props. rewrite Forall_forall in Hds.
  intros d Hd Hu. by rewrite (Hds d Hd Hu).
Qed.

(** The drives between two arguments. *)
Definition drives_started (w : W) (ds : list Drive) : Prop :=
  length ds = MAX_DRIVES_COUNT
  /\ Forall (fun d => d = Drive_default \/ configured w d) ds.

Lemma parse_args_started long_bits (w : W) args o ds o' ds' : drives_started w ds ->
  parse_args long_bits w args o ds = Some (inr (o', ds')) -> drives_started w ds'.
Proof.
  revert o ds. induction args as [|a args IH]; intros o ds Hds; [by intros [= <- <-]|].
  cbn [parse_args]. destruct (parse_arg long_bits w a o ds) as [[|[o1 ds1]]|] eqn:E; try done.
  apply IH. clear IH. revert E. unfold parse_arg.
  repeat (case_match; try done); intros [= <- <-]; try done.
  destruct Hds as [Hlen Hds].
  match goal with E : parse_share_definition _ _ _ = _ |- _ =>
    apply parse_share_definition_props in E as (_ & d & d' & _ & _ & Hd' & _ & ->) end.
  - split; [by rewrite length_insert|]. apply Forall_insert; [done|by right].
  - intros d Hd Hu. rewrite Forall_forall in Hds.
    destruct (Hds d Hd) as [->|[]]; [done|congruence].
Qed.

Lemma resolve_attrs_mode_started (w : W) d : configured w d ->
  configured w (resolve_attrs_mode w d) /\ attrs_mode (resolve_attrs_mode w d) <> AUTO.
Proof.
  intros Hd. unfold resolve_attrs_mode. rewrite (conf_used _ _ Hd). cbn [andb].
  case_bool_decide; [|done].
  repeat case_match; (split; [by apply set_attrs_mode_configured|done]).
Qed.

(** C40: whatever the command line is, when it is accepted the main loop starts
    in a state that meets its invariant, so everything proved of the running
    server holds from the start: at least one drive is shared, every shared
    drive has an absolute root that is a directory and an attribute store that
    is decided and supported, and the transport options are consistent. *)
Theorem startup_ok long_bits (w : W) args o ds c : startup long_bits w args = Some (inr (o, ds)) ->
  loop_ok true (mkSrv w c ds ReplyCache_default)
  /\ Exists (fun d => used d = true) ds
  /\ Forall (fun d => used d = true -> configured w d /\ attrs_mode d <> AUTO) ds
  /\ (slip_dev o <> [] -> slip_speed o <> 0 /\ bind_addr o = []).
Proof.
  unfold startup. destruct (parse_args _ _ _ _ _) as [[|[o1 ds1]]|] eqn:Ep; try done.
  apply parse_args_started in Ep as [Hlen Hds];
    [|split; [done|by apply Forall_replicate; left]].
  destruct (nonempty _ && _) eqn:Eo; [done|]. destruct (existsb used _) eqn:Ee; [|done].
  intros [= <- <-].
  assert (Forall (fun d => used d = true -> configured w d /\ attrs_mode d <> AUTO)
    (resolve_attrs_mode w <$> ds1)) as Hres.
  { apply Forall_fmap. eapply Forall_impl; [exact Hds|]. intros d [->|Hd]; [done|].
    intros _. by apply resolve_attrs_mode_started. }
  apply existsb_exists in Ee as (d0 & Hd0 & Hu0).
  split_and!; [|apply Exists_exists; exists d0; by rewrite list_elem_of_In|done|].
  - split; [split|].
    + cbn. by rewrite length_fmap.
    + apply cache_default_ok.
    + eapply Forall_impl; [exact Hres|]. intros d Hd [[] _]%Hd.
      split; [apply conf_directory0|done|done| |]; rewrite conf_items0; [|by constructor].
      split; [done|by constructor..].
    + apply Forall_replicate. split; [apply info_default_ok|by left|done].
  - intros Hs. destruct (slip_dev o1); [done|]. cbn in Eo. apply orb_false_elim in Eo as [E1 E2].
    split; [lia|by destruct (bind_addr o1)].
Qed.
End Started.

(** ** A command line *)

Lemma share_definition_spec_witness :
  exists ds', parse_share_definition sample_world (str "c=/srv,readonly=1")
    (replicate MAX_DRIVES_COUNT Drive_default) = Some (inr ds')
  /\ (root <$> ds' !! 2%nat) = Some (str "/srv") /\ (read_only <$> ds' !! 2%nat) = Some true.
Proof.
  destruct (parse_share_definition sample_world (str "c=/srv,readonly=1")
    (replicate MAX_DRIVES_COUNT Drive_default)) as [[|ds']|] eqn:E;
    [exfalso; vm_compute in E; discriminate E | | exfalso; vm_compute in E; discriminate E].
  exists ds'. split; [reflexivity|].
  destruct (share_definition_spec sample_world _ _ ds'
    ltac:(apply Forall_replicate; reflexivity) E) as (_ & d & d' & _ & _ & _ & Hr & Hds).
  split.
  - rewrite Hds. rewrite list_lookup_insert_eq by (vm_compute; lia). cbn [fmap option_fmap option_map].
    assert (canonical sample_world (get_token (str "c=/srv,readonly=1") CH_COMMA 2).1
            = inr (str "/srv")) as Hc by (vm_compute; reflexivity).
    rewrite Hc in Hr. injection Hr as Hr. rewrite <- Hr. reflexivity.
  - clear Hds Hr. vm_compute in E. injection E as <-. reflexivity.
Defined.

Lemma startup_ok_witness :
  exists o ds, startup 64 sample_world [str "--bind-port=700"; str "C=/srv,attrs=extended"]
    = Some (inr (o, ds))
  /\ bind_port o = 700 /\ loop_ok true (mkSrv sample_world (str "/") ds ReplyCache_default).
Proof.
  destruct (startup 64 sample_world [str "--bind-port=700"; str "C=/srv,attrs=extended"])
    as [[|[o ds]]|] eqn:E;
    [exfalso; vm_compute in E; discriminate E | | exfalso; vm_compute in E; discriminate E].
  exists o, ds. split; [reflexivity|]. split.
  - vm_compute in E. injection E as <- _. reflexivity.
  - destruct (startup_ok 64 sample_world _ o ds (str "/") E) as [H _]. exact H.
Defined.
