(* ===== verification/Transport.v ===== *)
(** * Transport: the main loop over UDP and over a serial line

    One turn of the loop of [main]: wait for a datagram on the socket or the
    serial line, serve it, and send the reply.  The system calls of the socket
    (udp_socket.cpp) are given by their results; the SLIP stack is the one of
    Slip.v.  The theorems compose that stack with the server. *)
From S2P Require Import Prelude Words Checksum Slip Unicode Paths FatTime Host Attrs Files Drive.
From S2P Require Import Fcb DriveInv Protocol ReplyCache Server MemFs Samples ServerInv MainLoop.

(** ** The UDP socket (class UdpSocket::Impl) *)

(** What [select] returns: -1 with [errno], the number 0, or more. *)
Inductive select_result := SelectError (is_EINTR : bool) | SelectTimeout | SelectReady.

Inductive WaitResult := TIMEOUT | READY | SIGNAL.

Definition wait_for_data (select_ret : select_result) : result WaitResult :=
  match select_ret with
  | SelectError true => Ok SIGNAL
  | SelectError false => Throw RuntimeError
  | SelectTimeout => Ok TIMEOUT
  | SelectReady => Ok READY
  end.

(** A datagram and the address it came from; [None] when [recvfrom] fails. *)
Record datagram_from := mkFrom { payload : bytes; remote_ip : Z; remote_port : Z }.

(** [recvfrom] cuts a datagram to the size of the buffer. *)
Definition receive_udp (recvfrom : option datagram_from) (buffer_size : nat)
  : result datagram_from :=
  match recvfrom with
  | None => Throw RuntimeError
  | Some d => Ok (mkFrom (take buffer_size (payload d)) (remote_ip d) (remote_port d))
  end.

(** The number of bytes [sendto] sent, a [std::uint16_t]. *)
Definition send_reply_udp (sendto : option Z) : result Z :=
  match sendto with None => Throw RuntimeError | Some n => Ok (u16 n) end.

(** ** One turn of the loop *)

(** [request_packet] of [main]. *)
Definition request_packet_size : nat := Z.to_nat 2048.

(** What a turn comes to: nothing to serve, a datagram was served and, when
    there was a reply, whether it was handed to the line or the socket, or the
    loop ends by an exception. *)
Inductive turn :=
  | Waits
  | Serves (ev : event) (sent : option send_outcome)
  | Ends (ex : exn).

Section Turns.
Context {W : Type} `{!Host W, !DosAttrs W, CAL : !Calendar} `{NAT : Native}.
Context (tmap : translit_map) (ulong_bits : Z).

(** A turn over UDP: a failure of any system call ends the loop. *)
Definition udp_turn (select_ret : select_result) (recvfrom : option datagram_from)
    (sendto : bytes -> option Z) (s : srv W) : turn * srv W :=
  match wait_for_data select_ret with
  | Throw ex => (Ends ex, s)
  | Ok TIMEOUT | Ok SIGNAL => (Waits, s)
  | Ok READY =>
      match receive_udp recvfrom request_packet_size with
      | Throw ex => (Ends ex, s)
      | Ok d =>
          let '(ev, s) := serve tmap ulong_bits (remote_ip d) (remote_port d) (payload d) s in
          match ev with
          | Stops ex => (Ends ex, s)
          | Sends reply =>
              match send_reply_udp (sendto reply) with
              | Throw ex => (Ends ex, s)
              | Ok _ => (Serves ev (Some (Sent reply)), s)
              end
          | _ => (Serves ev None, s)
          end
      end
  end.

(** A turn over a serial line: datagrams for other ports are passed over, and
    an error while the reply is sent is logged only.  The reads not consumed
    are left for the next turn. *)
Definition slip_turn (bind_port : Z) (reads : list read) (write_bytes : bytes -> option Z)
    (slip : SlipUdpSerial) (s : srv W) : turn * SlipUdpSerial * srv W * list read :=
  match receive slip reads with
  | (Throw ex, slip, rest) => (Ends ex, slip, s, rest)
  | (Ok request_packet_len, slip, rest) =>
      if request_packet_len =? 0 then (Waits, slip, s, rest)
      else if negb (last_dst_port slip =? bind_port) then (Waits, slip, s, rest)
      else
        let '(ev, s) := serve tmap ulong_bits (last_remote_ip slip) (last_remote_port slip)
                          (get_last_rx_data slip) s in
        match ev with
        | Stops ex => (Ends ex, slip, s, rest)
        | Sends reply =>
            let '(out, slip) := send_reply write_bytes slip reply in
            (Serves ev (Some out), slip, s, rest)
        | _ => (Serves ev None, slip, s, rest)
        end
  end.
End Turns.

(** ** The line between two turns *)

Record line_ok (slip : SlipUdpSerial) : Prop := {
  line_rx : zlen (rx_buffer slip) = MTU;
  line_bytes : Forall is_byte (rx_buffer slip);
  line_tx : tx_buffer_size slip = MTU * 2;
}.

Definition read_ok (r : read) : Prop := match r with RByte b => is_byte b | _ => True end.

Lemma recv_loop_bytes size reads started stored len out rest :
  Forall is_byte stored -> Forall read_ok reads ->
  recv_loop size reads started stored = (len, out, rest) -> Forall is_byte out.
Proof.
  revert started stored. induction reads as [reads IH] using list_length_ind.
  intros started stored Hs Hr E.
  destruct reads as [|[b| |] reads]; simpl in E; simplify_eq; try done.
  apply Forall_cons in Hr as [Hb Hr].
  assert (forall c, is_byte c -> Forall is_byte (stored ++ [c])) as Grow.
  { intros c Hc. apply Forall_app. split; [done|by constructor]. }
  assert (is_byte SLIP_END /\ is_byte SLIP_ESC) as [B1 B2] by (split; split; vm_compute; congruence).
  destruct reads as [|[b2| |] reads2]; repeat case_match; simplify_eq; try done;
    try (apply Forall_cons in Hr as [Hb2 Hr]);
    (eapply IH; [| | |eassumption]; simpl; [lia|by auto|try done; by constructor]).
Qed.

Section Line.
Context `{NAT : Native}.

Lemma from_big16_range l o : Forall is_byte l -> is_u16 (from_big16 (load16 l o)).
Proof.
  intros Hl. rewrite from_big16_load16 by done. unfold be16, is_u16.
  pose proof (byte_at_byte l o Hl). pose proof (byte_at_byte l (o + 1) Hl). unfold is_byte in *. lia.
Qed.
Lemma from_big32_range l o : Forall is_byte l -> is_u32 (from_big32 (load32 l o)).
Proof.
  intros Hl. rewrite from_big32_load32 by done. unfold be32, is_u32.
  pose proof (byte_at_byte l o Hl). pose proof (byte_at_byte l (o + 1) Hl).
  pose proof (byte_at_byte l (o + 2) Hl). pose proof (byte_at_byte l (o + 3) Hl).
  unfold is_byte in *. lia.
Qed.

(** Whom a datagram came from and was sent to. *)
Definition addresses_ok (slip : SlipUdpSerial) : Prop :=
  is_u32 (last_remote_ip slip) /\ is_u16 (last_remote_port slip)
  /\ is_u32 (last_dst_ip slip) /\ is_u16 (last_dst_port slip).

Lemma parse_udp_packet_line slip len n slip' : line_ok slip ->
  parse_udp_packet slip len = (n, slip') ->
  line_ok slip' /\ (n <> 0 -> addresses_ok slip').
Proof.
  intros [Hrx Hb Htx]. unfold parse_udp_packet.
  pose proof (from_big32_range _ 12 Hb). pose proof (from_big32_range _ 16 Hb).
  pose proof (from_big16_range _ 20 Hb). pose proof (from_big16_range _ 22 Hb).
  intros E. repeat case_match; simplify_eq; (split; [by split|intros ?; try done; by repeat split]).
Qed.

Lemma receive_line slip reads len slip' rest : line_ok slip -> Forall read_ok reads ->
  receive slip reads = (len, slip', rest) ->
  line_ok slip'
  /\ (forall n, len = Ok n -> n <> 0 -> addresses_ok slip' /\ n <= 1472
        /\ zlen (get_last_rx_data slip') = n /\ Forall is_byte (get_last_rx_data slip')).
Proof.
  intros Hl Hr E. destruct (receive_props _ _ _ _ _ E) as [Hlen Hdata].
  unfold receive, recv_decode_slip in E.
  destruct (recv_loop _ reads false []) as [[r out] rest'] eqn:Er.
  assert (Forall is_byte out) as Ho by (eapply recv_loop_bytes; [|exact Hr|exact Er]; constructor).
  apply recv_loop_bound in Er as [Hout _]; [|simpl; lia].
  set (slip1 := set_rx_buffer _ slip) in *.
  assert (line_ok slip1) as Hl1.
  { destruct Hl. split; [| |done]; cbn [rx_buffer slip1 set_rx_buffer].
    - rewrite length_app, length_drop. lia.
    - apply Forall_app. split; [done|by apply Forall_drop]. }
  destruct r as [n|ex]; [|injection E as <- <- <-; split; [done|by intros ? [=]]].
  destruct (n =? 0) eqn:En; [injection E as <- <- <-; split; [done|by intros ? [= <-] ?]|].
  destruct (parse_udp_packet slip1 n) as [m slip2] eqn:Ep. injection E as <- <- <-.
  destruct (parse_udp_packet_line _ _ _ _ Hl1 Ep) as [Hl2 Ha]. split; [done|].
  intros k [= ->] Hk. destruct (Hdata k eq_refl Hk) as [Hk1 Hk2]. destruct Hl as [Hrx _ _].
  unfold MTU in Hrx. split_and!; [by apply Ha|lia|done|].
  unfold get_last_rx_data. case_match; [|constructor]. apply Forall_take, Forall_drop, Hl2.
Qed.

(** Sending changes the packet id only. *)
Lemma send_line write slip src dst sp dp data out slip' :
  send write slip src dst sp dp data = (out, slip') ->
  rx_buffer slip' = rx_buffer slip /\ tx_buffer_size slip' = tx_buffer_size slip.
Proof.
  unfold send. destruct (build_headers _ _ _ _ _ _) as [h id].
  intros E. repeat case_match; by simplify_eq.
Qed.

Lemma send_line_ok write slip src dst sp dp data out slip' : line_ok slip ->
  send write slip src dst sp dp data = (out, slip') -> line_ok slip'.
Proof.
  intros [H1 H2 H3] E. apply send_line in E as [Er Et].
  split; [by rewrite Er|by rewrite Er|by rewrite Et].
Qed.
End Line.

Section Sending.
Context `{NAT : Native}.

Lemma receive_tx slip reads len slip' rest : receive slip reads = (len, slip', rest) ->
  tx_buffer_size slip' = tx_buffer_size slip.
Proof.
  unfold receive, recv_decode_slip, parse_udp_packet. destruct (recv_loop _ _ _ _) as [[r out] r'].
  intros E. repeat case_match; by simplify_eq.
Qed.

End Sending.

(** ** SLIP, IPv4 and UDP as their standards write them

    RFC 1055, 791 and 768, apart from the code: bytes in network order, the
    header of 20 bytes with its checksum, any type of service, identification
    and time to live, a datagram that is not a fragment, any UDP checksum. *)

Definition slip_escape (b : Z) : bytes :=
  if b =? 0xC0 then [0xDB; 0xDC] else if b =? 0xDB then [0xDB; 0xDD] else [b].

Definition slip_frame (packet : bytes) : bytes :=
  0xC0 :: flat_map slip_escape packet ++ [0xC0].

(** The sum of the 16-bit words of a header. *)
Fixpoint be_words (l : bytes) : Z :=
  match l with a :: b :: l => 256 * a + b + be_words l | _ => 0 end.

Definition ipv4_packet_header (tos len id frag ttl csum src dst : Z) : bytes :=
  [0x45; tos] ++ be16_bytes len ++ be16_bytes id ++ be16_bytes frag ++ [ttl; 17]
  ++ be16_bytes csum ++ be32_bytes src ++ be32_bytes dst.

Inductive udp_packet (src dst sp dp : Z) (data : bytes) : bytes -> Prop :=
  | Udp_packet tos id frag ttl csum udp_csum :
      is_byte tos -> is_u16 id -> frag = 0 \/ frag = 0x4000 -> is_byte ttl ->
      is_u16 csum -> is_u16 udp_csum ->
      be_words (ipv4_packet_header tos (28 + zlen data) id frag ttl csum src dst) mod 65535 = 0 ->
      udp_packet src dst sp dp data
        (ipv4_packet_header tos (28 + zlen data) id frag ttl csum src dst
         ++ be16_bytes sp ++ be16_bytes dp ++ be16_bytes (8 + zlen data) ++ be16_bytes udp_csum
         ++ data).

Lemma slip_frame_eq h d : encode_slip h d = slip_frame (h ++ d).
Proof.
  assert (forall l, encode_slip_block l = flat_map slip_escape l) as E.
  { induction l as [|b l IH]; [done|]. cbn [encode_slip_block flat_map]. unfold slip_escape at 1.
    rewrite IH. unfold SLIP_END, SLIP_ESC. by repeat case_match. }
  unfold encode_slip, slip_frame. by rewrite app_assoc, <- encode_slip_block_app, E.
Qed.

Section Wire.
Context `{NAT : Native}.

(** The stack adds the words in the byte order of its machine: modulo 65535
    that may swap the bytes of the sum. *)
Lemma words_sum_be l :
  (exists q, words_sum l = 256 * be_words l + 65535 * q)
  /\ (exists q, be_words l = 256 * words_sum l + 65535 * q)
  \/ words_sum l = be_words l.
Proof.
  destruct NAT eqn:E; [left|right]; induction l as [l IH] using list_length_ind;
    (destruct l as [|a [|b l]]; [try (by split; exists 0)..|]); try done;
    specialize (IH l ltac:(simpl; lia)); cbn [words_sum be_words];
    unfold load16, native, le16, be16, byte_at; cbn [nth Nat.add].
  destruct IH as [[q Hq] [p Hp]]. split; [exists (q - a)|exists (p - b)]; lia.
Qed.

Lemma words_sum_zero l : words_sum l mod 65535 = 0 <-> be_words l mod 65535 = 0.
Proof.
  destruct (words_sum_be l) as [[[q Hq] [p Hp]]|E]; [|by rewrite E].
  split; intros Hm; [rewrite Hp|rewrite Hq];
    rewrite (Z.mul_comm 65535), Z.mod_add, Z.mul_mod, Hm by lia; by rewrite Z.mul_0_r.
Qed.

Lemma packet_header_even tos len id frag ttl csum src dst : is_byte tos -> is_byte ttl ->
  even_bytes (ipv4_packet_header tos len id frag ttl csum src dst).
Proof.
  intros. unfold ipv4_packet_header, be16_bytes, be32_bytes. cbn [app].
  repeat apply even_cons; try exact even_nil; try done; (apply u8_range || (unfold is_byte; lia)).
Qed.

Lemma packet_header_checked tos len id frag ttl csum src dst : is_byte tos -> is_byte ttl ->
  internet_checksum (ipv4_packet_header tos len id frag ttl csum src dst) 20 = 0
  <-> be_words (ipv4_packet_header tos len id frag ttl csum src dst) mod 65535 = 0.
Proof.
  intros Ht Hl. pose proof (packet_header_even tos len id frag ttl csum src dst Ht Hl) as Ev.
  rewrite <- words_sum_zero. etransitivity; [apply (internet_checksum_zero _ Ev); done|].
  split; [by intros []|]. intros Hm. split; [|done].
  assert (forall l, even_bytes (0x45 :: tos :: l) -> 0 < words_sum (0x45 :: tos :: l)) as Pos;
    [|by apply Pos].
  intros l El. inversion El as [|? ? ? ? ? Ev']; subst. pose proof (words_sum_bound _ Ev').
  cbn [words_sum]. unfold is_byte in *.
  unfold load16, le16, be16, byte_at. cbn [nth Nat.add]. case_match; lia.
Qed.

Lemma udp_packet_length src dst sp dp data p :
  udp_packet src dst sp dp data p -> zlen p = 28 + zlen data.
Proof. intros []. rewrite !length_app. unfold ipv4_packet_header. cbn [length app be16_bytes be32_bytes]. lia. Qed.

Lemma udp_packet_byte src dst sp dp data p : Forall is_byte data ->
  udp_packet src dst sp dp data p -> Forall is_byte p.
Proof.
  intros Hd [tos id frag ttl csum uc Ht Hid Hf Htl Hc Hu _]. unfold ipv4_packet_header.
  repeat (apply Forall_app; split); auto with words;
    (apply Forall_cons; split; [|apply Forall_singleton]); auto; unfold is_byte; lia.
Qed.

Lemma parse_wire st src dst sp dp data packet old :
  is_u32 src -> is_u32 dst -> is_u16 sp -> is_u16 dp ->
  Forall is_byte data -> Forall is_byte old -> zlen data <= 1472 ->
  udp_packet src dst sp dp data packet -> rx_buffer st = packet ++ old ->
  parse_udp_packet st (zlen packet)
  = (zlen data, mkSlip (rx_buffer st) (zlen data) (Some 28%nat) (tx_buffer_size st) src sp dst dp
      (last_sent_packet_id st)).
Proof.
  intros Hs Hd Hsp Hdp Hb Hold Hl Hp Hbuf.
  assert (Forall is_byte (rx_buffer st)) as Hby
    by (rewrite Hbuf; apply Forall_app; split; [exact (udp_packet_byte _ _ _ _ _ _ Hb Hp)|done]).
  rewrite (udp_packet_length _ _ _ _ _ _ Hp).
  destruct Hp as [tos id frag ttl csum uc Ht Hid Hf Htl Hc Hu Hsum].
  apply packet_header_checked in Hsum; [|done..].
  unfold parse_udp_packet. rewrite !from_big16_load16, !from_big32_load32 by done.
  assert (internet_checksum (rx_buffer st) sizeof_ipv4_hdr = 0) as ->
    by (rewrite <- Hsum, Hbuf, <- !app_assoc; unfold internet_checksum; do 4 f_equal).
  set (n := zlen data) in *. assert (0 <= n) by (subst n; lia).
  rewrite Hbuf. unfold ipv4_packet_header, be16, be32, byte_at.
  cbn [app nth be16_bytes be32_bytes].
  pose proof (be16_roundtrip (28 + n) []) as R28. pose proof (be16_roundtrip (8 + n) []) as R8.
  pose proof (be16_roundtrip sp []) as Rsp. pose proof (be16_roundtrip dp []) as Rdp.
  pose proof (be32_roundtrip src []) as Rs. pose proof (be32_roundtrip dst []) as Rd.
  unfold be16, be32, byte_at in R28, R8, Rsp, Rdp, Rs, Rd.
  cbn [app nth be16_bytes be32_bytes Nat.add] in R28, R8, Rsp, Rdp, Rs, Rd.
  cbn [Nat.add nth].
  rewrite R28, R8, Rsp, Rdp, Rs, Rd by (done || unfold is_u16; lia).
  unfold sizeof_net_headers, sizeof_ipv4_hdr, sizeof_udp_hdr, IPV4_PROTOCOL_UDP.
  rewrite (proj2 (Z.ltb_ge (28 + n) 28)) by lia.
  rewrite (proj2 (Z.ltb_ge (28 + n) (28 + n))) by lia.
  rewrite (proj2 (Z.ltb_ge (8 + n) 8)), (proj2 (Z.ltb_ge (28 + n) (20 + (8 + n)))) by lia.
  rewrite u16_id by (unfold is_u16; lia).
  cbn. by replace (8 + n - 8) with n by lia.
Qed.

(** A packet in a frame, after noise, and what the stack makes of it. *)
Lemma receive_wire st src dst sp dp data packet noise rest :
  is_u32 src -> is_u32 dst -> is_u16 sp -> is_u16 dp ->
  Forall is_byte data -> 0 < zlen data <= 1472 ->
  udp_packet src dst sp dp data packet ->
  line_ok st -> Forall (fun b => b <> 0xC0) noise ->
  exists st', receive st ((RByte <$> noise ++ slip_frame packet) ++ rest)
              = (Ok (zlen data), st', rest)
    /\ get_last_rx_data st' = data
    /\ last_remote_ip st' = src /\ last_remote_port st' = sp
    /\ last_dst_ip st' = dst /\ last_dst_port st' = dp.
Proof.
  intros Hs Hd Hsp Hdp Hb Hl Hp [Hrx Hby _] Hn.
  pose proof (udp_packet_length _ _ _ _ _ _ Hp) as Lp. unfold MTU in Hrx.
  unfold receive, recv_decode_slip.
  replace (slip_frame packet) with (encode_slip [] packet) by apply slip_frame_eq.
  rewrite recv_loop_frame by (done || cbn [app]; lia). cbn [app].
  rewrite (proj2 (Z.eqb_neq _ _)) by lia.
  set (old := drop (length packet) (rx_buffer st)).
  set (st1 := set_rx_buffer _ st).
  rewrite (parse_wire st1 src dst sp dp data packet old) by
    (done || lia || (by apply Forall_drop)).
  eexists. split; [done|]. split; [|done].
  unfold get_last_rx_data. cbn [last_rx_udp_data last_udp_data_len rx_buffer st1 set_rx_buffer].
  rewrite Nat2Z.id. destruct Hp. unfold ipv4_packet_header. cbn [app be16_bytes be32_bytes drop].
  by rewrite drop_0, take_app_length.
Qed.

(** A reply, when the port takes every byte. *)
Lemma send_wire st (write_bytes : bytes -> option Z) src dst sp dp data :
  tx_buffer_size st = MTU * 2 -> is_u32 src -> is_u32 dst -> is_u16 sp -> is_u16 dp ->
  zlen data <= 1500 -> zlen (flat_map slip_escape data) + 58 <= 3000 ->
  (forall tx, write_bytes tx = Some (zlen tx)) ->
  exists packet st', send write_bytes st src dst sp dp data = (Sent (slip_frame packet), st')
    /\ udp_packet src dst sp dp data packet.
Proof.
  intros Hsz Hs Hd Hsp Hdp Hl He Hw. unfold send, MTU in *.
  rewrite (proj2 (Z.ltb_ge 1500 (zlen data))) by lia.
  destruct (build_headers_eq (last_sent_packet_id st) src dst sp dp (zlen data))
    as (c & Hc & -> & Hsum); [done..|unfold MTU; lia|].
  set (id := u16 (last_sent_packet_id st + 1)) in *.
  set (hb := header_bytes (28 + zlen data) id src dst c sp dp (8 + zlen data)) in *.
  assert (exists csum, is_u16 csum /\ store16 c = be16_bytes csum) as (csum & Hcs & Ec).
  { destruct (store16_bytes c) as (a & b & E & Ha & Hb). exists (b + 2 ^ 8 * a).
    rewrite be16_bytes_of by done. split; [unfold is_byte, is_u16 in *; lia|done]. }
  assert (hb = ipv4_packet_header 0 (28 + zlen data) id 0x4000 64 csum src dst
    ++ be16_bytes sp ++ be16_bytes dp ++ be16_bytes (8 + zlen data) ++ be16_bytes 0) as Ehb.
  { subst hb. unfold header_bytes. rewrite Ec. reflexivity. }
  assert (is_byte 0 /\ is_byte 64) as [B0 B64] by (unfold is_byte; lia).
  assert (udp_packet src dst sp dp data (hb ++ data)) as Hp.
  { rewrite Ehb, <- !app_assoc. apply Udp_packet; auto; [apply u16_range|].
    apply packet_header_checked; [done..|]. rewrite Ehb in Hsum. exact Hsum. }
  rewrite slip_frame_eq.
  assert (zlen (slip_frame (hb ++ data)) <= 3000) as Hf.
  { rewrite <- slip_frame_eq. unfold encode_slip. cbn [length]. rewrite !length_app. cbn [length].
    pose proof (slip_frame_eq [] data) as Ed. unfold encode_slip, slip_frame in Ed. cbn [app encode_slip_block] in Ed.
    injection Ed as Ed. apply app_inv_tail in Ed. rewrite Ed.
    pose proof (encode_slip_block_length hb).
    assert (length hb = 28%nat) by (rewrite Ehb; reflexivity). lia. }
  cbn [tx_buffer_size]. rewrite Hsz, (proj2 (Z.ltb_ge (1500 * 2) _)) by lia.
  rewrite Hw, Z.eqb_refl. by eexists (hb ++ data), _.
Qed.
End Wire.

Lemma recv_loop_throws size reads started stored ex out rest :
  recv_loop size reads started stored = (Throw ex, out, rest) -> RError ∈ reads.
Proof.
  revert started stored. induction reads as [reads IH] using list_length_ind.
  intros started stored E. destruct reads as [|[b| |] reads]; simpl in E; simplify_eq; [|by left].
  right. destruct reads as [|[b2| |] reads2]; repeat case_match; simplify_eq;
    try (by left); try (right; eapply IH; [|eassumption]; simpl; lia);
    (eapply IH; [|eassumption]; simpl; lia).
Qed.

(** What is left of the reads is their end. *)
Lemma recv_loop_suffix size reads started stored r out rest :
  recv_loop size reads started stored = (r, out, rest) -> exists pre, reads = pre ++ rest.
Proof.
  revert started stored. induction reads as [reads IH] using list_length_ind.
  intros started stored E. destruct reads as [|[b| |] reads]; simpl in E; simplify_eq;
    [by exists []|..|by exists [RTimeout]|by exists [RError]].
  assert (forall k c (rs : list read), reads = k ++ rs -> (exists pre, rs = pre ++ rest) ->
    exists pre, c :: reads = pre ++ rest) as Go.
  { intros k c rs -> [pre ->]. exists (c :: k ++ pre). cbn. by rewrite <- app_assoc. }
  destruct reads as [|[b2| |] reads2]; repeat case_match; simplify_eq;
    first [ by eexists [_] | by eexists [_; _]
          | eapply (Go []); [reflexivity|]; eapply IH; [|eassumption]; simpl; lia
          | eapply (Go [_]); [reflexivity|]; eapply IH; [|eassumption]; simpl; lia ].
Qed.

Section Theorems.
Context {W : Type} `{!Host W, !DosAttrs W, CAL : !Calendar, !HostLaws W} `{NAT : !Native}.
Context (tmap : translit_map) (ulong_bits : Z).

(** What a turn over a serial line keeps and may come to. *)
Lemma slip_turn_sound bind_port reads write_bytes slip s t slip' s' rest :
  loop_ok false s -> line_ok slip -> Forall read_ok reads ->
  slip_turn tmap ulong_bits bind_port reads write_bytes slip s = (t, slip', s', rest) ->
  line_ok slip'
  /\ match t with
     | Waits => s' = s
     | Ends _ => s' = s /\ RError ∈ reads
     | Serves Undefined _ => exists packet cs,
         check_packet (get_last_rx_data slip') = Some (packet, cs) /\ oversized_read packet
     | Serves ev sent => loop_ok false s'
         /\ (sent = Some TxOverflow -> exists reply, ev = Sends reply /\ 1471 < zlen reply)
     end.
Proof.
  intros Hs Hl Hr. unfold slip_turn. destruct (receive slip reads) as [[len slip1] r] eqn:Er.
  destruct (receive_line _ _ _ _ _ Hl Hr Er) as [Hl1 Hdata].
  destruct len as [n|ex].
  2: { intros [= <- <- <- <-]. split_and!; [done|done|]. revert Er. unfold receive, recv_decode_slip.
       destruct (recv_loop _ reads false []) as [[[m|ex'] out] r'] eqn:El.
       - case_match; [done|]. by destruct (parse_udp_packet _ _).
       - intros _. by eapply recv_loop_throws. }
  destruct (Z.eqb_spec n 0) as [->|Hn]; [by intros [= <- <- <- <-]|].
  destruct (Hdata n eq_refl Hn) as (Ha & Hn' & Hlen & Hb). destruct (negb _); [by intros [= <- <- <- <-]|].
  destruct (serve _ _ _ _ _ s) as [ev s1] eqn:Es.
  apply (serve_props tmap ulong_bits false) in Es as [Hp _]; [|done..].
  destruct ev as [| |reply|ex|]; [| | |done|].
  - intros [= <- <- <- <-]. destruct Hp as [_ ->]. split; [done|]. by split.
  - intros [= <- <- <- <-]. destruct Hp as [Hp _]. split; [done|]. by split.
  - destruct (send_reply write_bytes slip1 reply) as [out slip2] eqn:Eo.
    intros [= <- <- <- <-]. destruct Hp as [Hp _].
    split; [by eapply send_line_ok|]. split; [done|]. intros [= ->]. exists reply. split; [done|].
    destruct (Z.le_gt_cases (zlen reply) 1471) as [Hle|]; [|done]. exfalso.
    apply (send_fits_tx_buffer write_bytes slip1 (last_dst_ip slip1) (last_remote_ip slip1)
      (last_dst_port slip1) (last_remote_port slip1) reply); try apply Ha; [apply Hl1|done|].
    unfold send_reply in Eo. by rewrite Eo.
  - intros [= <- <- <- <-]. split; [done|]. destruct Hp as (packet & cs & Hc & Ho).
    exists packet, cs. split; [done|]. destruct Ho as [Ho|]; [|done]. exfalso.
    destruct (check_packet_props _ _ _ Hc) as (_ & _ & rest' & E).
    rewrite E, length_app in Hlen. unfold oversized in Ho. lia.
Qed.

Lemma slip_turn_config bind_port reads write_bytes slip s t slip' s' rest :
  loop_ok false s -> line_ok slip -> Forall read_ok reads ->
  slip_turn tmap ulong_bits bind_port reads write_bytes slip s = (t, slip', s', rest) ->
  config <$> drives s' = config <$> drives s.
Proof.
  intros Hs Hl Hr. unfold slip_turn. destruct (receive slip reads) as [[len slip1] r] eqn:Er.
  destruct (receive_line _ _ _ _ _ Hl Hr Er) as [Hl1 Hdata].
  destruct len as [n|ex]; [|by intros [= <- <- <- <-]].
  destruct (Z.eqb_spec n 0) as [->|Hn]; [by intros [= <- <- <- <-]|].
  destruct (Hdata n eq_refl Hn) as (Ha & Hn' & Hlen & Hb). destruct (negb _); [by intros [= <- <- <- <-]|].
  destruct (serve _ _ _ _ _ s) as [ev s1] eqn:Es.
  apply (serve_props tmap ulong_bits false) in Es as [_ [Hc _]]; [|done..].
  destruct ev; try (by intros [= <- <- <- <-]).
  destruct (send_reply write_bytes slip1 reply) as [out slip2]. by intros [= <- <- <- <-].
Qed.

(** C20: over a serial line the server survives whatever arrives: any bytes,
    timeouts and noise leave it in a well-formed state; only an error of the
    serial port itself ends the loop; and memory is damaged by nothing but a
    READ_FILE of more than 1492 bytes or the sending of a reply of more than
    1471 bytes. *)
Theorem slip_turn_safe bind_port reads write_bytes slip s t slip' s' rest :
  loop_ok false s -> line_ok slip -> Forall read_ok reads ->
  slip_turn tmap ulong_bits bind_port reads write_bytes slip s = (t, slip', s', rest) ->
  line_ok slip'
  /\ match t with
     | Waits => s' = s
     | Ends _ => s' = s /\ RError ∈ reads
     | Serves Undefined _ => exists packet cs,
         check_packet (get_last_rx_data slip') = Some (packet, cs) /\ oversized_read packet
     | Serves ev sent => loop_ok false s'
         /\ (sent = Some TxOverflow -> exists reply, ev = Sends reply /\ 1471 < zlen reply)
     end.
Proof. intros Hs Hl Hr E. by eapply slip_turn_sound. Qed.

(** C19: over a serial line the server speaks SLIP, IPv4 and UDP: a request of
    at most 1472 bytes that comes in a SLIP frame as an IPv4/UDP packet for the
    server's port, whoever made the packet and whatever noise without an END
    came before it, is served as if it had come by UDP; and a reply whose
    packet fits the transmit buffer of 3000 bytes, escapes included, leaves,
    when the port takes all its bytes, as a SLIP frame with an IPv4/UDP packet
    from the address and port the request had been sent to, to the address and
    port it had come from.  The rest of the reads is left on the line.  The
    machine may be of either byte order. *)
Theorem slip_exchange cip sip cport bind_port datagram packet reply s s' slip noise rest
    (write_bytes : bytes -> option Z) :
  is_u32 cip -> is_u32 sip -> is_u16 cport -> is_u16 bind_port ->
  Forall is_byte datagram -> 0 < zlen datagram <= 1472 ->
  udp_packet cip sip cport bind_port datagram packet ->
  line_ok slip -> Forall (fun b => b <> 0xC0) noise ->
  serve tmap ulong_bits cip cport datagram s = (Sends reply, s') ->
  Forall is_byte reply -> zlen reply <= 1500 -> zlen (flat_map slip_escape reply) + 58 <= 3000 ->
  (forall tx, write_bytes tx = Some (zlen tx)) ->
  exists packet' slip',
    slip_turn tmap ulong_bits bind_port ((RByte <$> noise ++ slip_frame packet) ++ rest)
      write_bytes slip s
    = (Serves (Sends reply) (Some (Sent (slip_frame packet'))), slip', s', rest)
    /\ udp_packet sip cip bind_port cport reply packet'.
Proof.
  intros Hci Hsi Hcp Hbp Hd Hdl Hp Hsl Hno Hserve Hr Hrl Hre Hw.
  destruct (receive_wire slip cip sip cport bind_port datagram packet noise rest)
    as (slip1 & Er & Edata & E1 & E2 & E3 & E4); try done.
  unfold slip_turn. rewrite Er, (proj2 (Z.eqb_neq _ _)) by lia.
  rewrite E4, Z.eqb_refl, E1, E2, Edata, Hserve. cbn [negb].
  destruct (send_wire slip1 write_bytes sip cip bind_port cport reply) as (p' & slip2 & Es & Hp');
    try done; [rewrite (receive_tx _ _ _ _ _ Er); apply Hsl|].
  unfold send_reply. rewrite E1, E2, E3, E4, Es. by exists p', slip2.
Qed.
End Theorems.

(** ** A request over a line *)

Lemma line_init_ok : line_ok (SlipUdpSerial_init 0).
Proof.
  split; [reflexivity| |reflexivity]. apply Forall_replicate. split; vm_compute; congruence.
Qed.

Definition sample_write (tx : bytes) : option Z := Some (zlen tx).
Definition sample_frame : bytes :=
  match (send sample_write (SlipUdpSerial_init 0) 0x0A000001 0x0A000002 1024 12200 make_new).1 with
  | Sent frame => frame
  | _ => []
  end.

Lemma slip_turn_safe_witness :
  let r := slip_turn ∅ 64 12200 (RByte <$> sample_frame) sample_write (SlipUdpSerial_init 0)
             sample_server in
  line_ok r.1.1.2.
Proof.
  intros r. destruct r as [[[t slip'] s'] rest] eqn:E.
  destruct (slip_turn_safe ∅ 64 12200 (RByte <$> sample_frame) sample_write (SlipUdpSerial_init 0)
    sample_server t slip' s' rest (sample_loop_ok false) line_init_ok) as [H _]; [|exact E|exact H].
  apply Forall_fmap. unfold compose. cbn [read_ok]. apply (bool_decide_unpack _). vm_compute. exact I.
Defined.

(** The same request as another sender would write it. *)
Definition sample_packet : bytes :=
  ipv4_packet_header 0x10 (28 + zlen make_new) 0xBEEF 0 255 0xE8C2 0x0A000001 0x0A000002
  ++ be16_bytes 1024 ++ be16_bytes 12200 ++ be16_bytes (8 + zlen make_new) ++ be16_bytes 0x1234
  ++ make_new.

Lemma slip_exchange_witness : exists packet' slip',
  slip_turn ∅ 64 12200 ((RByte <$> [1; 2] ++ slip_frame sample_packet) ++ []) sample_write
    (SlipUdpSerial_init 0) sample_server
  = (Serves (Sends [1; 8; 32; 0x24; 0x95; 7; 0; 0]) (Some (Sent (slip_frame packet'))), slip',
     (serve ∅ 64 0x0A000001 1024 make_new sample_server).2, [])
  /\ udp_packet 0x0A000002 0x0A000001 12200 1024 [1; 8; 32; 0x24; 0x95; 7; 0; 0] packet'.
Proof.
  destruct (serve ∅ 64 0x0A000001 1024 make_new sample_server) as [ev s1] eqn:E.
  assert (ev = Sends [1; 8; 32; 0x24; 0x95; 7; 0; 0]) as ->
    by (apply (f_equal fst) in E; vm_compute in E; congruence).
  apply (slip_exchange ∅ 64 0x0A000001 0x0A000002 1024 12200 make_new sample_packet
    [1; 8; 32; 0x24; 0x95; 7; 0; 0] sample_server s1 (SlipUdpSerial_init 0) [1; 2] [] sample_write).
  1-4: split; vm_compute; congruence.
  - apply make_new_bytes.
  - split; vm_compute; congruence.
  - apply Udp_packet; try (split; vm_compute; congruence); by left.
  - exact line_init_ok.
  - repeat constructor; discriminate.
  - exact E.
  - apply (bool_decide_unpack _). vm_compute. exact I.
  - vm_compute. congruence.
  - vm_compute. congruence.
  - reflexivity.
Defined.

(** A reply that cannot be sent over UDP ends the server, while over a serial
    line the failure is logged and the server goes on. *)
Example udp_send_failure_ends :
  let d := mkFrom make_new 0x0A000001 1024 in
  (udp_turn ∅ 64 SelectReady (Some d) (fun _ => None) sample_server).1 = Ends RuntimeError
  /\ (slip_turn ∅ 64 12200 (RByte <$> sample_frame) (fun _ => None) (SlipUdpSerial_init 0)
        sample_server).1.1.1
     = Serves (Sends [1; 8; 32; 0x24; 0x95; 7; 0; 0]) (Some SendError).
Proof. vm_compute. done. Qed.
