(* ===== verification/WinSocket.v ===== *)
(** * WinSocket: the UDP socket on Windows (udp_socket_win.cpp)

    [object] is the class UdpSocket::Impl with its DynamicLibrary; a [win] is
    a process with such an object, what the process holds of the system, and
    the thread in which Windows runs the handler of Ctrl-C (signal_handler of
    netmount-server.cpp).  That thread may run between any two accesses of the
    server's own thread to shared data: [preempt] stands before each of them.

    The answers of the system are the class [Windows]: each is a function of
    the number of the access, so they may be anything at any time.  What a
    call must not do is recorded by the flag [broken]: to call a null pointer
    or a function of a library that is not mapped, to use the sockets library
    before WSAStartup, to close what is not open, to touch a destroyed object.
    Texts of errors are left out. *)
From stdpp Require Import gmap strings.
From S2P Require Import Prelude Words Checksum Slip Unicode Paths FatTime Host Attrs Files Drive.
From S2P Require Import Fcb Protocol ReplyCache Server MemFs Samples ServerInv MainLoop Transport.
#[local] Open Scope string_scope.
#[local] Open Scope Z_scope.

(** ** The system *)

Class Windows := {
  load_library : nat -> string -> option Z;
  get_proc_address : nat -> string -> bool;            (** not null *)
  wsa_startup : nat -> Z;
  new_socket : nat -> Z;
  bind_ret : nat -> Z -> Z -> Z -> Z;
  select_ret : nat -> Z -> Z -> Z -> Z;
  recvfrom_ret : nat -> Z -> option datagram_from;
  sendto_ret : nat -> Z -> bytes -> Z -> Z -> Z;
  inet_pton_ret : nat -> bytes -> Z * Z;               (** the result, the address *)
  inet_addr_ret : nat -> bytes -> Z;
  inet_ntop_ret : nat -> Z -> Z -> option bytes;
  inet_ntoa_ret : nat -> Z -> option bytes;
  (** how many steps the handler's thread makes before an access *)
  handler_steps : nat -> nat;
}.

Definition INVALID_SOCKET : Z := 2 ^ 64 - 1.
Definition SOCKET_ERROR : Z := -1.
Definition NO_ERROR : Z := 0.
Definition AF_INET : Z := 2.
Definition INADDR_ANY : Z := 0.
Definition INADDR_NONE : Z := 0xFFFFFFFF.
Definition INET_ADDRSTRLEN : Z := 16.

(** ** The process *)

(** The data members of class UdpSocket::Impl; [pointers] are the names of
    the functions whose pointer is not null, the address is kept as it is in
    memory. *)
Record object := mkObject {
  ws2_lib : option Z;
  loaded : bool;
  pointers : gset string;
  sock : Z;
  remote_addr : Z;
  remote_in_port : Z;
  signaled : bool;
}.

Definition set_ws2_lib x (o : object) :=
  mkObject x (loaded o) (pointers o) (sock o) (remote_addr o) (remote_in_port o) (signaled o).
Definition set_loaded x (o : object) :=
  mkObject (ws2_lib o) x (pointers o) (sock o) (remote_addr o) (remote_in_port o) (signaled o).
Definition add_pointer n (o : object) :=
  mkObject (ws2_lib o) (loaded o) ({[ n ]} ∪ pointers o) (sock o) (remote_addr o)
    (remote_in_port o) (signaled o).
Definition set_sock x (o : object) :=
  mkObject (ws2_lib o) (loaded o) (pointers o) x (remote_addr o) (remote_in_port o) (signaled o).
Definition set_remote a p (o : object) :=
  mkObject (ws2_lib o) (loaded o) (pointers o) (sock o) a p (signaled o).
Definition set_signaled x (o : object) :=
  mkObject (ws2_lib o) (loaded o) (pointers o) (sock o) (remote_addr o) (remote_in_port o) x.

(** Where the handler's thread is: not running; past [exit_flag = 1] with the
    pointer to the object loaded; past the test-and-set; past closesocket. *)
Inductive thread := Idle | Entered | Marked | Closing.
#[export] Instance thread_eq_dec : EqDecision thread.
Proof. solve_decision. Defined.

Record win := mkWin {
  (** what the process holds of the system *)
  mapped : option Z;
  startups : nat;
  open : gset Z;
  (** the object, [None] before its construction and when it is destroyed *)
  impl : option object;
  (** netmount-server.cpp *)
  exit_flag : bool;
  signals_set : bool;
  udp_socket_ptr : bool;
  (** the other thread, the number of accesses so far *)
  handler : thread;
  ticks : nat;
  broken : bool;
}.

Definition set_system m n op (s : win) :=
  mkWin m n op (impl s) (exit_flag s) (signals_set s) (udp_socket_ptr s) (handler s) (ticks s) (broken s).
Definition set_impl x (s : win) :=
  mkWin (mapped s) (startups s) (open s) x (exit_flag s) (signals_set s) (udp_socket_ptr s)
    (handler s) (ticks s) (broken s).
Definition set_main e g p (s : win) :=
  mkWin (mapped s) (startups s) (open s) (impl s) e g p (handler s) (ticks s) (broken s).
Definition set_handler x (s : win) :=
  mkWin (mapped s) (startups s) (open s) (impl s) (exit_flag s) (signals_set s) (udp_socket_ptr s)
    x (ticks s) (broken s).
Definition tick (s : win) :=
  mkWin (mapped s) (startups s) (open s) (impl s) (exit_flag s) (signals_set s) (udp_socket_ptr s)
    (handler s) (S (ticks s)) (broken s).
Definition break (s : win) :=
  mkWin (mapped s) (startups s) (open s) (impl s) (exit_flag s) (signals_set s) (udp_socket_ptr s)
    (handler s) (ticks s) true.

(** At the start of the process. *)
Definition win_start : win := mkWin None 0 ∅ None false false false Idle 0 false.

(** ** Access to the object and calls through its pointers *)

Definition upd_impl (f : object -> object) (s : win) : win :=
  match impl s with
  | Some o => set_impl (Some (f o)) s
  | None => break s
  end.

(** The call through [p_name] may be made. *)
Definition callable (name : string) (s : win) : bool :=
  match impl s, mapped s with
  | Some o, Some _ => bool_decide (name ∈ pointers o)
  | _, _ => false
  end.

(** So may one of a function that needs WSAStartup. *)
Definition ws2_call (name : string) (s : win) : win :=
  if callable name s && (0 <? startups s)%nat then s else break s.

(** closesocket closes the socket it is given. *)
Definition close_socket (s : win) : win :=
  let s := ws2_call "closesocket" s in
  match impl s with
  | Some o => if decide (sock o ∈ open s)
              then set_system (mapped s) (startups s) (open s ∖ {[ sock o ]}) s else break s
  | None => break s
  end.

(** [signal_handler] with [UdpSocket::signal_stop] in it, step by step. *)
Definition handler_step (s : win) : win :=
  match handler s with
  | Idle =>
      if signals_set s
      then let s := set_main true (signals_set s) (udp_socket_ptr s) s in
           if udp_socket_ptr s then set_handler Entered s else s
      else s
  | Entered =>
      match impl s with
      | Some o => if signaled o then set_handler Idle s
                  else set_handler Marked (upd_impl (set_signaled true) s)
      | None => break s
      end
  | Marked => set_handler Closing (close_socket s)
  | Closing => set_handler Idle (upd_impl (set_sock INVALID_SOCKET) s)
  end.

Section Socket.
Context `{!Windows, NAT : !Native}.

Definition preempt : M win nat :=
  fun s => (Ok (ticks s), tick (Nat.iter (handler_steps (ticks s)) handler_step s)).

(** A call of the system with the answer [f]. *)
Definition system_call {A} (f : nat -> A) : M win A := let* t := preempt in ret (f t).

(** A call through a pointer, with the socket it is for. *)
Definition through {A} (name : string) (f : nat -> Z -> A) : M win A :=
  let* t := preempt in
  do* modify (ws2_call name) in
  let* s := gets (fun s => from_option sock INVALID_SOCKET (impl s)) in
  ret (f t s).

Definition throw_last_error {A} : M win A :=
  do* through "WSAGetLastError" (fun _ _ => tt) in throw RuntimeError.

(** *** class DynamicLibrary *)

Definition unload : M win unit :=
  let* o := gets impl in
  match o with
  | Some o =>
      match ws2_lib o with
      | Some handle =>
          do* preempt in
          do* modify (fun s => if decide (mapped s = Some handle)
                               then set_system None (startups s) (open s) s else break s) in
          modify (upd_impl (set_ws2_lib None))
      | None => ret tt
      end
  | None => modify break
  end.

Definition load (library_name : string) : M win bool :=
  do* unload in
  let* handle := system_call (fun t => load_library t library_name) in
  do* modify (fun s => match handle with
                       | Some _ => set_system handle (startups s) (open s) s
                       | None => s
                       end) in
  do* modify (upd_impl (set_ws2_lib handle)) in
  ret (bool_decide (is_Some handle)).

(** The pointer is assigned, null or not. *)
Definition get_function (function_name : string) : M win bool :=
  let* o := gets impl in
  match o ≫= ws2_lib with
  | None => ret false
  | Some _ =>
      let* found := system_call (fun t => get_proc_address t function_name) in
      do* (if found : bool then modify (upd_impl (add_pointer function_name)) else ret tt) in
      ret found
  end.

(** *** init_library and library_cleanup *)

Definition require_function (name : string) : M win unit :=
  let* found := get_function name in if found : bool then ret tt else throw RuntimeError.

Fixpoint require_functions (names : list string) : M win unit :=
  match names with
  | [] => ret tt
  | name :: names => do* require_function name in require_functions names
  end.

Definition required : list string :=
  ["WSAStartup"; "WSACleanup"; "WSAGetLastError"; "socket"; "closesocket"; "bind"; "recvfrom";
   "sendto"; "select"].

(** A function with one of older systems to fall back to. *)
Definition function_or (name legacy : string) : M win unit :=
  let* found := get_function name in if found : bool then ret tt else require_function legacy.

Definition init_library : M win unit :=
  let* done := gets (fun s => from_option loaded false (impl s)) in
  if done : bool then ret tt
  else
    let* ok := load "ws2_32.dll" in
    if negb ok then throw RuntimeError
    else
      do* require_functions required in
      do* function_or "inet_ntop" "inet_ntoa" in
      do* function_or "inet_pton" "inet_addr" in
      do* modify (fun s => if callable "WSAStartup" s then s else break s) in
      let* err := system_call wsa_startup in
      if negb (err =? NO_ERROR) then throw RuntimeError
      else
        do* modify (fun s => set_system (mapped s) (S (startups s)) (open s) s) in
        modify (upd_impl (set_loaded true)).

Definition library_cleanup : M win unit :=
  let* is_loaded := gets (fun s => from_option loaded false (impl s)) in
  do* (if is_loaded : bool
       then do* through "WSACleanup" (fun _ _ => tt) in
            modify (fun s => set_system (mapped s) (pred (startups s)) (open s) s)
       else ret tt) in
  do* unload in
  modify (upd_impl (set_loaded false)).

(** *** Addresses in text *)

(** [ip_from_string]: the value stored to [dst]. *)
Definition ip_from_string (af : Z) (src : bytes) : M win Z :=
  let* o := gets (fun s => from_option pointers ∅ (impl s)) in
  if decide ("inet_pton" ∈ o) then
    let* answer := through "inet_pton" (fun t _ => inet_pton_ret t src) in
    if answer.1 =? 1 then ret answer.2
    else if answer.1 =? 0 then throw RuntimeError
    else throw_last_error
  else if af =? AF_INET then
    let* s_addr := through "inet_addr" (fun t _ => inet_addr_ret t src) in
    if negb (s_addr =? INADDR_NONE) || bool_decide (src = str "255.255.255.255")
    then ret s_addr else throw RuntimeError
  else throw RuntimeError.

Definition ip_to_string (af addr : Z) (size : Z) : M win bytes :=
  let* o := gets (fun s => from_option pointers ∅ (impl s)) in
  if decide ("inet_ntop" ∈ o) then
    let* text := through "inet_ntop" (fun t _ => inet_ntop_ret t addr size) in
    match text with
    | Some text => ret text
    | None => throw_last_error
    end
  else if af =? AF_INET then
    let* ip_string := through "inet_ntoa" (fun t _ => inet_ntoa_ret t addr) in
    match ip_string with
    | Some ip_string => ret (take (Z.to_nat (size - 1)) ip_string)
    | None => throw RuntimeError
    end
  else throw RuntimeError.

(** *** The methods of UdpSocket::Impl *)

(** The initial values of the data members. *)
Definition Impl_members : object := mkObject None false ∅ INVALID_SOCKET 0 0 false.

(** The body of the constructor. *)
Definition Impl_body : M win unit :=
  do* init_library in
  let* s := through "socket" (fun t _ => new_socket t) in
  do* modify (fun w => if s =? INVALID_SOCKET then w
                       else set_system (mapped w) (startups w) ({[ s ]} ∪ open w) w) in
  do* modify (upd_impl (set_sock s)) in
  if s =? INVALID_SOCKET then
    do* through "WSAGetLastError" (fun _ _ => tt) in
    do* library_cleanup in
    throw RuntimeError
  else ret tt.

(** [new Impl]: when the body throws, the members are destroyed and the
    memory is given back; the destructor of the class does not run. *)
Definition new_Impl : M win unit :=
  do* modify (set_impl (Some Impl_members)) in
  try_catch Impl_body (fun ex => do* unload in do* modify (set_impl None) in throw ex).

Definition signal_stop : M win unit :=
  do* preempt in
  let* was_set := gets (fun s => from_option signaled false (impl s)) in
  if was_set : bool then ret tt
  else
    do* modify (upd_impl (set_signaled true)) in
    do* preempt in
    do* modify close_socket in
    modify (upd_impl (set_sock INVALID_SOCKET)).

(** [delete p_impl]: the destructor, then those of the members. *)
Definition delete_Impl : M win unit :=
  do* signal_stop in
  do* library_cleanup in
  do* unload in
  modify (set_impl None).

Definition win_bind (local_ip : bytes) (local_port : Z) : M win unit :=
  let* addr := (if bool_decide (local_ip = []) then ret INADDR_ANY
                else ip_from_string AF_INET local_ip) in
  let* r := through "bind" (fun t s => bind_ret t s addr (to_big16 local_port)) in
  if r =? SOCKET_ERROR then throw_last_error else ret tt.

Definition win_wait_for_data (timeout_ms : Z) : M win WaitResult :=
  let* select_ret := through "select" (fun t s =>
    select_ret t s (timeout_ms / 1000) (u32 (timeout_ms mod 1000) * 1000)) in
  if select_ret =? SOCKET_ERROR then throw_last_error
  else
    do* preempt in
    let* stop := gets (fun s => from_option signaled false (impl s)) in
    if stop : bool then ret SIGNAL
    else if select_ret =? 0 then ret TIMEOUT
    else ret READY.

(** A failed call: the stop signal or another error, both thrown. *)
Definition throw_failure {A} : M win A :=
  do* preempt in
  let* stop := gets (fun s => from_option signaled false (impl s)) in
  if stop : bool then throw RuntimeError else throw_last_error.

(** The address is stored in network order.  A datagram that does not fit
    the buffer is an error of Winsock's [recvfrom] (WSAEMSGSIZE). *)
Definition win_receive (bufferSize : nat) : M win bytes :=
  let* received := through "recvfrom" recvfrom_ret in
  match received with
  | None => throw_failure
  | Some d =>
      do* modify (upd_impl (set_remote (to_big32 (remote_ip d)) (to_big16 (remote_port d)))) in
      if (bufferSize <? length (payload d))%nat then throw_failure else ret (payload d)
  end.

Definition win_send_reply (data : bytes) : M win Z :=
  let* to := gets (fun s => from_option (fun o => (remote_addr o, remote_in_port o)) (0, 0) (impl s)) in
  let* sent_bytes := through "sendto" (fun t s => sendto_ret t s data to.1 to.2) in
  if sent_bytes =? SOCKET_ERROR then throw_failure else ret (u16 sent_bytes).

Definition get_last_remote_ip (s : win) : Z :=
  from_big32 (from_option remote_addr 0 (impl s)).
Definition get_last_remote_port (s : win) : Z :=
  from_big16 (from_option remote_in_port 0 (impl s)).
Definition get_last_remote_ip_str : M win bytes :=
  let* addr := gets (fun s => from_option remote_addr 0 (impl s)) in
  ip_to_string AF_INET addr INET_ADDRSTRLEN.
End Socket.

(** ** What a computation comes to

    [yields P m Q E]: from a state of [P] the computation [m] returns a value
    in a state of [Q], or throws in a state of [E]. *)
Definition yields {S A} (P : S -> Prop) (m : M S A) (Q : A -> S -> Prop) (E : S -> Prop) : Prop :=
  forall s, P s -> match m s with (Ok a, s') => Q a s' | (Throw _, s') => E s' end.

Section Outcomes.
Context {S : Type}.
Implicit Types P : S -> Prop.

Lemma yields_ret {A} (a : A) P Q E : (forall s, P s -> Q a s) -> yields P (ret a) Q E.
Proof. by intros H s Hs; apply H. Qed.
Lemma yields_throw {A} ex P (Q : A -> S -> Prop) E : (forall s, P s -> E s) -> yields P (throw ex) Q E.
Proof. by intros H s Hs; apply H. Qed.
Lemma yields_gets {A} (f : S -> A) P Q E : (forall s, P s -> Q (f s) s) -> yields P (gets f) Q E.
Proof. by intros H s Hs; apply H. Qed.
Lemma yields_modify f P Q E : (forall s, P s -> Q tt (f s)) -> yields P (modify f) Q E.
Proof. by intros H s Hs; apply H. Qed.
Lemma yields_bind {A B} (m : M S A) (k : A -> M S B) P Q R E :
  yields P m R E -> (forall a, yields (R a) (k a) Q E) -> yields P (bind m k) Q E.
Proof.
  intros Hm Hk s Hs. specialize (Hm s Hs). unfold bind. destruct (m s) as [[a|ex] s']; [|done].
  by apply Hk.
Qed.
Lemma yields_try {A} (m : M S A) h P Q E F :
  yields P m Q E -> (forall ex, yields E (h ex) Q F) -> yields P (try_catch m h) Q F.
Proof.
  intros Hm Hh s Hs. specialize (Hm s Hs). unfold try_catch. destruct (m s) as [[a|ex] s']; [done|].
  by apply Hh.
Qed.
Lemma yields_conseq {A} (m : M S A) P P' (Q Q' : A -> S -> Prop) E E' :
  yields P' m Q' E' -> (forall s, P s -> P' s) -> (forall a s, Q' a s -> Q a s) ->
  (forall s, E' s -> E s) -> yields P m Q E.
Proof.
  intros Hm HP HQ HE s Hs%HP. specialize (Hm s Hs). destruct (m s) as [[a|ex] s']; auto.
Qed.
Lemma yields_if {A} (b : bool) (m n : M S A) P Q E :
  (b = true -> yields P m Q E) -> (b = false -> yields P n Q E) -> yields P (if b then m else n) Q E.
Proof. by destruct b; auto. Qed.
(** A value that every state of [P] has. *)
Lemma yields_known {A B} (f : S -> A) v (k : A -> M S B) P Q E :
  (forall s, P s -> f s = v) -> yields P (k v) Q E -> yields P (bind (gets f) k) Q E.
Proof. intros Hf Hk s Hs. unfold bind, gets. rewrite (Hf s Hs). by apply Hk. Qed.
End Outcomes.

(** ** Construction *)

(** While the constructor and the destructor run no handler is installed and
    none is running. *)
Record stage (n : nat) (op : gset Z) (o : object) (s : win) : Prop := {
  stage_impl : impl s = Some o;
  stage_mapped : mapped s = ws2_lib o;
  stage_startups : startups s = n;
  stage_open : open s = op;
  stage_signals : signals_set s = false;
  stage_handler : handler s = Idle;
  stage_ok : broken s = false;
}.

(** The process holds nothing of the system, and nothing went wrong. *)
Record nothing_held (s : win) : Prop := {
  none_impl : impl s = None;
  none_mapped : mapped s = None;
  none_startups : startups s = 0%nat;
  none_open : open s = ∅;
  none_signals : signals_set s = false;
  none_handler : handler s = Idle;
  none_ok : broken s = false;
}.

(** What the methods call through. *)
Definition pointers_ok (ps : gset string) : Prop :=
  Forall (fun name => name ∈ ps) required
  /\ ("inet_ntop" ∈ ps \/ "inet_ntoa" ∈ ps) /\ ("inet_pton" ∈ ps \/ "inet_addr" ∈ ps).

Section Construction.
Context `{WIN : !Windows, NAT : !Native}.

Lemma quiet_steps n s : signals_set s = false -> handler s = Idle -> Nat.iter n handler_step s = s.
Proof.
  intros Hs Hh. induction n as [|n IH]; [done|]. simpl. rewrite IH.
  unfold handler_step. by rewrite Hh, Hs.
Qed.

Lemma yields_preempt n op o E : yields (stage n op o) preempt (fun _ => stage n op o) E.
Proof. intros s []. unfold preempt. rewrite quiet_steps by done. by split. Qed.

Lemma yields_system_call {A} (f : nat -> A) n op o E :
  yields (stage n op o) (system_call f) (fun _ => stage n op o) E.
Proof. eapply yields_bind; [apply yields_preempt|intros t; by apply yields_ret]. Qed.

Lemma yields_upd_impl f n op o E : ws2_lib (f o) = ws2_lib o ->
  yields (stage n op o) (modify (upd_impl f)) (fun _ => stage n op (f o)) E.
Proof.
  intros Hf. apply yields_modify. intros s [Hi Hm]. unfold upd_impl. rewrite Hi.
  split; try done. cbn. by rewrite Hm.
Qed.

Lemma stage_callable n op o s name h : stage n op o s -> ws2_lib o = Some h -> name ∈ pointers o ->
  callable name s = true.
Proof.
  intros [Hi Hm] Hl Hn. unfold callable. rewrite Hi, Hm, Hl. by apply bool_decide_eq_true.
Qed.

Lemma stage_ws2_call n op o s name h : stage (S n) op o s -> ws2_lib o = Some h -> name ∈ pointers o ->
  ws2_call name s = s.
Proof.
  intros Hs Hl Hn. unfold ws2_call.
  by rewrite (stage_callable _ _ _ _ _ _ Hs Hl Hn), (stage_startups _ _ _ _ Hs).
Qed.

Lemma yields_through {A} name (f : nat -> Z -> A) n op o h E :
  ws2_lib o = Some h -> name ∈ pointers o ->
  yields (stage (S n) op o) (through name f) (fun _ => stage (S n) op o) E.
Proof.
  intros Hl Hn. eapply yields_bind; [apply yields_preempt|intros t]. cbn beta.
  eapply yields_bind with (R := fun _ => stage (S n) op o).
  { apply yields_modify. intros s Hs. by rewrite (stage_ws2_call _ _ _ _ _ _ Hs Hl Hn). }
  intros []. eapply yields_bind; [by apply (yields_gets _ _ (fun _ => stage (S n) op o))|].
  intros s. by apply yields_ret.
Qed.

(** Unloading gives the library back, if there is one. *)
Lemma yields_unload n op o E :
  yields (stage n op o) unload (fun _ => stage n op (set_ws2_lib None o)) E.
Proof.
  eapply yields_known; [apply stage_impl|cbv beta iota].
  destruct (ws2_lib o) as [h|] eqn:Hl.
  - eapply yields_bind; [apply yields_preempt|intros t]. cbn beta.
    eapply yields_bind with (R := fun _ s => stage n op (set_ws2_lib None o) (set_impl (Some (set_ws2_lib None o)) s)
      /\ impl s = Some o).
    + apply yields_modify. intros s [Hi Hm]. rewrite decide_True by congruence. by split.
    + intros []. apply yields_modify. intros s [Hs Hi]. unfold upd_impl. by rewrite Hi.
  - apply yields_ret. intros s [Hi Hm]. destruct o. cbn in *. subst. by split.
Qed.

Lemma yields_load name n op o E :
  yields (stage n op o) (load name)
    (fun b s => exists lib, stage n op (set_ws2_lib lib o) s /\ b = bool_decide (is_Some lib)) E.
Proof.
  eapply yields_bind; [apply yields_unload|intros []]. cbn beta.
  eapply yields_bind; [apply yields_system_call|intros handle]. cbn beta.
  eapply yields_bind with (R := fun _ s => stage n op (set_ws2_lib handle o)
    (set_impl (Some (set_ws2_lib handle o)) s) /\ impl s = Some (set_ws2_lib None o)).
  { apply yields_modify. intros s [Hi Hm]. by destruct handle. }
  intros []. eapply yields_bind with (R := fun _ => stage n op (set_ws2_lib handle o)).
  { apply yields_modify. intros s [Hs Hi]. unfold upd_impl. by rewrite Hi. }
  intros []. apply yields_ret. eauto.
Qed.

Lemma yields_get_function name n op o h E : ws2_lib o = Some h ->
  yields (stage n op o) (get_function name)
    (fun (b : bool) s => stage n op (if b then add_pointer name o else o) s) E.
Proof.
  intros Hl. eapply yields_known; [apply stage_impl|]. cbn. rewrite Hl.
  eapply yields_bind; [apply yields_system_call|intros found]. cbn beta.
  eapply yields_bind with (R := fun _ => stage n op (if found then add_pointer name o else o)).
  - destruct found; [by apply (yields_upd_impl (add_pointer name))|by apply yields_ret].
  - intros []. by apply yields_ret.
Qed.

(** The object with pointers: the ones that [o] had, and more. *)
Definition resolved (o : object) (ps : gset string) : object :=
  mkObject (ws2_lib o) (loaded o) ps (sock o) (remote_addr o) (remote_in_port o) (signaled o).

(** Whatever functions were found, the object holds the library only. *)
Definition half (o : object) (s : win) : Prop := exists ps, stage 0 ∅ (resolved o ps) s.

Lemma yields_require_function name o ps h : ws2_lib o = Some h ->
  yields (stage 0 ∅ (resolved o ps)) (require_function name)
    (fun _ => stage 0 ∅ (resolved o ({[ name ]} ∪ ps))) (half o).
Proof.
  intros Hl. eapply yields_bind; [by eapply yields_get_function|]. intros [|]; cbn beta iota.
  - by apply yields_ret.
  - apply yields_throw. intros s Hs. by exists ps.
Qed.

Lemma yields_require_functions names o ps h : ws2_lib o = Some h ->
  yields (stage 0 ∅ (resolved o ps)) (require_functions names)
    (fun _ s => exists ps', ps ⊆ ps' /\ Forall (fun name => name ∈ ps') names
       /\ stage 0 ∅ (resolved o ps') s) (half o).
Proof.
  intros Hl. revert ps. induction names as [|name names IH]; intros ps; cbn [require_functions].
  - apply yields_ret. intros s Hs. by exists ps.
  - eapply yields_bind; [by eapply yields_require_function|intros []]. cbn beta.
    eapply yields_conseq; [apply IH|done| |done]. intros [] s (ps' & Hsub & Hall & Hs).
    exists ps'. split_and!; [set_solver| |done]. constructor; [set_solver|done].
Qed.

Lemma yields_function_or name legacy o ps h : ws2_lib o = Some h ->
  yields (stage 0 ∅ (resolved o ps)) (function_or name legacy)
    (fun _ s => exists ps', ps ⊆ ps' /\ (name ∈ ps' \/ legacy ∈ ps') /\ stage 0 ∅ (resolved o ps') s)
    (half o).
Proof.
  intros Hl. eapply yields_bind; [by eapply yields_get_function|]. intros [|]; cbn beta iota.
  - apply yields_ret. intros s Hs. exists ({[ name ]} ∪ ps). split_and!; [set_solver..|done].
  - eapply yields_conseq; [by eapply yields_require_function|done| |done]. intros [] s Hs.
    exists ({[ legacy ]} ∪ ps). split_and!; [set_solver..|done].
Qed.

(** The object right after [init_library]. *)
Definition with_library (h : Z) (ps : gset string) : object :=
  mkObject (Some h) true ps INVALID_SOCKET 0 0 false.

(** The library is held and no more, or nothing is. *)
Definition unfinished (s : win) : Prop := exists o, stage 0 ∅ o s /\ loaded o = false.

Lemma half_unfinished o s : loaded o = false -> half o s -> unfinished s.
Proof. intros Hl [ps Hs]. by exists (resolved o ps). Qed.

Lemma yields_functions h : let o := set_ws2_lib (Some h) Impl_members in
  yields (stage 0 ∅ o)
    (do* require_functions required in do* function_or "inet_ntop" "inet_ntoa" in
     function_or "inet_pton" "inet_addr")
    (fun _ s => exists ps, pointers_ok ps /\ stage 0 ∅ (resolved o ps) s) unfinished.
Proof.
  intros o. assert (forall s, half o s -> unfinished s) as Hh by (intros s; by apply half_unfinished).
  eapply yields_bind.
  { eapply yields_conseq; [by eapply (yields_require_functions required o ∅)|done|by auto|exact Hh]. }
  intros [] s (ps & _ & Hreq & Hs). revert s Hs.
  change (yields (stage 0 ∅ (resolved o ps)) (do* function_or "inet_ntop" "inet_ntoa" in
     function_or "inet_pton" "inet_addr")
    (fun _ s => exists ps, pointers_ok ps /\ stage 0 ∅ (resolved o ps) s) unfinished).
  eapply yields_bind.
  { eapply yields_conseq; [by eapply (yields_function_or _ _ o ps)|done|by auto|exact Hh]. }
  intros [] s (ps1 & Hsub & Hntop & Hs).
  pose proof (yields_function_or "inet_pton" "inet_addr" o ps1 h eq_refl s Hs) as H.
  destruct (function_or _ _ s) as [[[]|ex] s']; [|by apply Hh].
  destruct H as (ps2 & Hsub2 & Hpton & Hs'). exists ps2. split; [|done].
  split_and!; [|set_solver|done]. eapply Forall_impl; [exact Hreq|]. set_solver.
Qed.

Lemma yields_init_library :
  yields (stage 0 ∅ Impl_members) init_library
    (fun _ s => exists h ps, pointers_ok ps /\ stage 1 ∅ (with_library h ps) s) unfinished.
Proof.
  eapply yields_known; [intros s [-> _ _ _ _ _ _]; reflexivity|]. cbn [from_option loaded Impl_members].
  eapply yields_bind; [apply yields_load|]. intros b s (lib & Hs & ->). revert s Hs.
  destruct lib as [h|]; [|intros s Hs; by exists (set_ws2_lib None Impl_members)].
  rewrite bool_decide_eq_true_2 by done. cbn [negb].
  set (o := set_ws2_lib (Some h) Impl_members). intros s Hs.
  pose proof (yields_functions h s Hs) as H. revert H. unfold bind at 1 3.
  destruct (require_functions required s) as [[[]|ex] s1]; [|done].
  unfold bind at 1 2. destruct (function_or "inet_ntop" _ s1) as [[[]|ex] s2]; [|done].
  unfold bind at 1. destruct (function_or "inet_pton" _ s2) as [[[]|ex] s3]; [|done].
  intros (ps & Hps & Hs3). revert s3 Hs3.
  assert ("WSAStartup" ∈ ps) as Hstart by (destruct Hps as [Hr _]; by inversion Hr).
  change (yields (stage 0 ∅ (resolved o ps)) (do* modify (fun s => if callable "WSAStartup" s then s else break s) in
      let* err := system_call wsa_startup in
      if negb (err =? NO_ERROR) then throw RuntimeError
      else
        do* modify (fun s => set_system (mapped s) (S (startups s)) (open s) s) in
        modify (upd_impl (set_loaded true)))
    (fun _ s => exists h ps, pointers_ok ps /\ stage 1 ∅ (with_library h ps) s) unfinished).
  eapply yields_bind with (R := fun _ => stage 0 ∅ (resolved o ps)).
  { apply yields_modify. intros s' Hs'. by rewrite (stage_callable _ _ _ _ _ h Hs'). }
  intros []. eapply yields_bind; [apply yields_system_call|intros err]. cbn beta.
  apply yields_if; [intros _; apply yields_throw; intros s' Hs'; by exists (resolved o ps)|intros _].
  eapply yields_bind with (R := fun _ => stage 1 ∅ (resolved o ps)).
  { apply yields_modify. intros s' []. split; try done. cbn. congruence. }
  intros []. eapply yields_conseq; [by apply (yields_upd_impl (set_loaded true))|done| |done].
  intros [] s' Hs'. by exists h, ps.
Qed.

Lemma yields_library_cleanup op o h E : ws2_lib o = Some h -> loaded o = true ->
  "WSACleanup" ∈ pointers o ->
  yields (stage 1 op o) library_cleanup
    (fun _ => stage 0 op (set_loaded false (set_ws2_lib None o))) E.
Proof.
  intros Hl Hld Hp. eapply yields_known; [intros s [-> _ _ _ _ _ _]; reflexivity|].
  cbn [from_option]. rewrite Hld. eapply yields_bind with (R := fun _ => stage 0 op o).
  - eapply yields_bind; [by eapply (yields_through "WSACleanup" _ 0)|intros []].
    apply yields_modify. intros s []. split; try done. cbn. by rewrite stage_startups0.
  - intros []. eapply yields_bind; [apply yields_unload|intros []].
    by apply (yields_upd_impl (set_loaded false)).
Qed.

Lemma required_in ps name : pointers_ok ps -> name ∈ required -> name ∈ ps.
Proof. intros [Hr _] Hn. rewrite Forall_forall in Hr. auto. Qed.

(** An object that is ready, its socket open. *)
Definition ready (o : object) : Prop :=
  is_Some (ws2_lib o) /\ loaded o = true /\ pointers_ok (pointers o) /\ signaled o = false.

Lemma yields_socket o h E : ws2_lib o = Some h -> "socket" ∈ pointers o ->
  yields (stage 1 ∅ o)
    (let* s := through "socket" (fun t _ => new_socket t) in
     do* modify (fun w => if s =? INVALID_SOCKET then w
                          else set_system (mapped w) (startups w) ({[ s ]} ∪ open w) w) in
     do* modify (upd_impl (set_sock s)) in ret s)
    (fun x => stage 1 (if x =? INVALID_SOCKET then ∅ else {[ x ]}) (set_sock x o)) E.
Proof.
  intros Hl Hp. eapply yields_bind; [by eapply (yields_through "socket" _ 0)|intros x]. cbn beta.
  eapply yields_bind with (R := fun _ => stage 1 (if x =? INVALID_SOCKET then ∅ else {[ x ]}) o).
  { apply yields_modify. intros s []. destruct (x =? INVALID_SOCKET); [done|].
    split; try done. cbn. rewrite stage_open0. set_solver. }
  intros []. eapply yields_bind; [by apply (yields_upd_impl (set_sock x))|intros []]. by apply yields_ret.
Qed.

Lemma yields_Impl_body :
  yields (stage 0 ∅ Impl_members) Impl_body
    (fun _ s => exists o, ready o /\ stage 1 {[ sock o ]} o s) unfinished.
Proof.
  eapply yields_bind; [apply yields_init_library|]. intros [] s (h & ps & Hps & Hs).
  pose proof (yields_socket (with_library h ps) h (fun _ => False) eq_refl
    (required_in ps "socket" Hps ltac:(unfold required; set_solver)) s Hs) as H. revert H.
  unfold bind at 1 4. destruct (through "socket" _ s) as [[x|ex] s1]; [|done].
  unfold bind at 1 3. destruct (modify _ s1) as [[[]|ex] s2]; [|done].
  unfold bind at 1 2. destruct (modify _ s2) as [[[]|ex] s3]; [|done]. cbn.
  destruct (x =? INVALID_SOCKET); intros Hs3.
  - revert s3 Hs3. set (o := set_sock x (with_library h ps)).
    assert (yields (stage 1 ∅ o) (do* through "WSAGetLastError" (fun _ _ => tt) in
      do* library_cleanup in throw RuntimeError) (fun (_ : unit) _ => False) unfinished) as Hc.
    { eapply yields_bind; [eapply (yields_through _ _ 0 _ o h)|intros []];
        [done|apply (required_in ps); [done|unfold required; set_solver]|].
      eapply yields_bind; [eapply (yields_library_cleanup _ o h)|intros []];
        [done|done|apply (required_in ps); [done|unfold required; set_solver]|].
      apply yields_throw. intros s' Hs'. by eexists. }
    intros s' Hs'. specialize (Hc s' Hs'). by destruct (bind _ _ s') as [[]].
  - exists (set_sock x (with_library h ps)). split; [|done]. by split_and!.
Qed.

Lemma yields_destroyed o E : ws2_lib o = None ->
  yields (stage 0 ∅ o) (modify (set_impl None)) (fun _ => nothing_held) E.
Proof. intros Hl. apply yields_modify. intros s []. split; try done. cbn. congruence. Qed.

(** The constructor gives an object with its socket, or it throws and the
    process holds nothing. *)
Lemma yields_new_Impl :
  yields nothing_held new_Impl (fun _ s => exists o, ready o /\ stage 1 {[ sock o ]} o s) nothing_held.
Proof.
  eapply yields_bind with (R := fun _ => stage 0 ∅ Impl_members).
  { apply yields_modify. intros s []. by split. }
  intros []. eapply yields_try; [apply yields_Impl_body|]. intros ex s (o & Hs & _). revert s Hs.
  change (yields (stage 0 ∅ o) (do* unload in do* modify (set_impl None) in throw ex)
    (fun (_ : unit) s => exists o, ready o /\ stage 1 {[ sock o ]} o s) nothing_held).
  eapply yields_bind; [apply yields_unload|intros []].
  eapply yields_bind; [by apply yields_destroyed|intros []]. by apply yields_throw.
Qed.
End Construction.

(** ** The life of a socket

    While the object exists the handler may run at any time. *)

Definition held (th : thread) (o : object) (op : gset Z) : Prop :=
  match th with
  | Idle | Entered => op = if signaled o then ∅ else {[ sock o ]}
  | Marked => signaled o = true /\ op = {[ sock o ]}
  | Closing => signaled o = true /\ op = ∅
  end.

Record alive (o : object) (s : win) : Prop := {
  alive_impl : impl s = Some o;
  alive_mapped : mapped s = ws2_lib o;
  alive_library : is_Some (ws2_lib o);
  alive_loaded : loaded o = true;
  alive_pointers : pointers_ok (pointers o);
  alive_held : held (handler s) o (open s);
  alive_startups : startups s = 1%nat;
  alive_exit : handler s <> Idle -> exit_flag s = true;
  alive_ok : broken s = false;
}.
(** A living object with the pointers [ps]. *)
Definition live (ps : gset string) (s : win) : Prop := exists o, alive o s /\ pointers o = ps.

(** What a computation leaves of the variables of [main]: a signal is not
    forgotten, and one that comes meanwhile is noticed. *)
Record later `{!Windows} (s s' : win) : Prop := {
  later_ticks : (ticks s <= ticks s')%nat;
  later_exit : exit_flag s = true -> exit_flag s' = true;
  later_signals : signals_set s' = signals_set s;
  later_heard : forall t, (ticks s <= t < ticks s')%nat -> (0 < handler_steps t)%nat ->
    signals_set s = true -> exit_flag s' = true;
}.
#[export] Instance later_preorder `{!Windows} : PreOrder later.
Proof.
  split.
  - intros s. split; [done|done|done|lia].
  - intros a b c [T1 E1 S1 H1] [T2 E2 S2 H2]. split; [lia|auto|congruence|].
    intros t Ht Hn Hs. destruct (decide (t < ticks b)%nat).
    + apply E2, (H1 t); auto with lia.
    + apply (H2 t); [lia|done|congruence].
Qed.

(** A step of the handler. *)
Record stepped (s s' : win) : Prop := {
  stepped_ticks : ticks s' = ticks s;
  stepped_exit : signals_set s = true -> exit_flag s' = true;
  stepped_kept : exit_flag s = true -> exit_flag s' = true;
  stepped_signals : signals_set s' = signals_set s;
}.

Lemma alive_callable o s name : alive o s -> name ∈ pointers o -> callable name s = true.
Proof.
  intros [Hi Hm [h Hh]] Hn. unfold callable. rewrite Hi, Hm, Hh. by apply bool_decide_eq_true.
Qed.

Lemma alive_ws2_call o s name : alive o s -> name ∈ pointers o -> ws2_call name s = s.
Proof.
  intros Hs Hn. unfold ws2_call. by rewrite (alive_callable _ _ _ Hs Hn), (alive_startups _ _ Hs).
Qed.

Lemma alive_close o s : alive o s -> open s = {[ sock o ]} ->
  close_socket s = set_system (mapped s) (startups s) ∅ s.
Proof.
  intros Hs Ho. unfold close_socket. rewrite (alive_ws2_call _ _ _ Hs).
  2: { apply required_in; [apply Hs|unfold required; set_solver]. }
  rewrite (alive_impl _ _ Hs), Ho, decide_True by set_solver.
  by replace ({[ sock o ]} ∖ {[ sock o ]} : gset Z) with (∅ : gset Z) by set_solver.
Qed.

Lemma handler_step_live ps s : live ps s -> live ps (handler_step s) /\ stepped s (handler_step s).
Proof.
  intros (o & Hs & Hps). pose proof Hs as [Hi Hm Hl Hld Hp Hh Hst He Hok]. unfold handler_step.
  destruct (handler s) eqn:Eh.
  - destruct (signals_set s) eqn:Es.
    + split; [|by destruct (udp_socket_ptr s)].
      exists o. split; [|done]. destruct (udp_socket_ptr s); split; try done; cbn; by rewrite Eh in *.
    + split; [by exists o|]. split; [done|congruence|done|done].
  - specialize (He ltac:(done)). rewrite Hi. cbn in Hh. destruct (signaled o) eqn:Esg.
    + split; [|by split]. exists o. split; [|done]. split; try done. cbn. by rewrite Esg.
    + unfold upd_impl. rewrite Hi. split; [|by split].
      exists (set_signaled true o). split; [|done]. split; try done; by split.
  - specialize (He ltac:(done)). destruct Hh as [Hsg Ho]. rewrite (alive_close _ _ Hs Ho).
    split; [|by split]. exists o. split; [|done]. split; try done; by split.
  - specialize (He ltac:(done)). destruct Hh as [Hsg Ho]. unfold upd_impl. rewrite Hi.
    split; [|by split]. exists (set_sock INVALID_SOCKET o). split; [|done]. split; try done. cbn. by rewrite Hsg.
Qed.

Lemma handler_steps_live ps n s : live ps s ->
  live ps (Nat.iter n handler_step s)
  /\ ticks (Nat.iter n handler_step s) = ticks s
  /\ signals_set (Nat.iter n handler_step s) = signals_set s
  /\ (exit_flag s = true -> exit_flag (Nat.iter n handler_step s) = true)
  /\ ((0 < n)%nat -> signals_set s = true -> exit_flag (Nat.iter n handler_step s) = true).
Proof.
  intros Hs. induction n as [|n (Hl & Ht & Hg & He & Hn)]; [by split_and!; auto with lia|].
  simpl. destruct (handler_step_live _ _ Hl) as [Hl' [T1 E1 K1 S1]].
  split_and!; [done|congruence|congruence|auto|]. intros _ Hset. apply E1. congruence.
Qed.

Section Life.
Context `{WIN : !Windows, NAT : !Native}.

(** A computation of the object while it lives, and never backwards. *)
Context (ps : gset string).
Abbreviation safe m := (triple (live ps) later m (fun _ => True)).

Lemma life_preempt : safe preempt.
Proof.
  intros s Hs. unfold preempt. cbn [fst snd].
  destruct (handler_steps_live ps (handler_steps (ticks s)) s Hs) as ((o & Ho & Hps) & Ht & Hg & He & Hn).
  split_and!; [| |done].
  - exists o. split; [by destruct Ho|done].
  - split; cbn; [lia|done|done|]. intros t Hb. assert (t = ticks s) as -> by lia. done.
Qed.

(** After an access the number of accesses has grown. *)
Lemma preempt_ticks s : live ps s -> (ticks s < ticks (preempt s).2)%nat.
Proof.
  intros Hs. unfold preempt. cbn.
  destruct (handler_steps_live ps (handler_steps (ticks s)) s Hs) as (_ & -> & _). lia.
Qed.

Lemma life_writes f : (forall o s, alive o s -> pointers o = ps -> live ps (f s)) ->
  (forall s, ticks (f s) = ticks s /\ exit_flag (f s) = exit_flag s /\ signals_set (f s) = signals_set s) ->
  safe (modify f).
Proof.
  intros Hf Hk. apply triple_modify; [|done]. intros s (o & Ho & Hps).
  destruct (Hk s) as (H1 & H2 & H3). split; [by eapply Hf|].
  split; [lia|by rewrite H2|done|lia].
Qed.

(** A pointer that the living object has. *)
Lemma life_through {A} name (f : nat -> Z -> A) : name ∈ ps -> safe (through name f).
Proof.
  intros Hn. eapply triple_bind; [apply _|apply life_preempt|intros t _].
  eapply triple_bind with (P := fun _ => True); [apply _| |intros _ _].
  - intros s (o & Ho & Hps). cbn. rewrite (alive_ws2_call _ _ _ Ho) by congruence.
    split; [by exists o|done].
  - eapply triple_bind with (P := fun _ => True); [apply _|apply triple_gets; [apply _|done]|intros x _].
    apply triple_ret; [apply _|done].
Qed.

Hypothesis ps_ok : pointers_ok ps.

Lemma life_ret {A} (a : A) : safe (ret a).
Proof. apply triple_ret; [apply _|done]. Qed.
Lemma life_throw {A} ex : safe (throw (A:=A) ex).
Proof. apply triple_throw. apply _. Qed.
Lemma life_bind {A B} (m : M win A) (k : A -> M win B) :
  safe m -> (forall a, safe (k a)) -> safe (bind m k).
Proof. intros Hm Hk. eapply triple_bind; [apply _|exact Hm|by intros a _]. Qed.
Lemma life_gets {A} (f : win -> A) : safe (gets f).
Proof. apply triple_gets; [apply _|done]. Qed.
Lemma life_known {A B} (f : win -> A) v (k : A -> M win B) :
  (forall s, live ps s -> f s = v) -> safe (k v) -> safe (bind (gets f) k).
Proof. intros Hf Hk s Hs. unfold bind, gets. rewrite (Hf s Hs). by apply Hk. Qed.
Lemma life_if {A} (b : bool) (m n : M win A) : safe m -> safe n -> safe (if b then m else n).
Proof. by destruct b. Qed.
Lemma life_required {A} name (f : nat -> Z -> A) : bool_decide (name ∈ required) = true ->
  safe (through name f).
Proof. intros H%bool_decide_eq_true. by apply life_through, (required_in ps). Qed.

Lemma life_pointers s : live ps s -> from_option pointers ∅ (impl s) = ps.
Proof. intros (o & [Hi _ _ _ _ _ _ _ _] & Hps). by rewrite Hi. Qed.

Lemma life_last_error {A} : safe (throw_last_error (A:=A)).
Proof. apply life_bind; [by apply life_required|intros _; apply life_throw]. Qed.
Lemma life_failure {A} : safe (throw_failure (A:=A)).
Proof.
  apply life_bind; [apply life_preempt|intros _]. apply life_bind; [apply life_gets|intros stop].
  apply life_if; [apply life_throw|apply life_last_error].
Qed.

Lemma life_ip_from_string af src : safe (ip_from_string af src).
Proof.
  eapply life_known; [apply life_pointers|]. destruct ps_ok as (_ & _ & Hp).
  destruct (decide ("inet_pton" ∈ ps)) as [H|H].
  - apply life_bind; [by apply life_through|intros answer].
    apply life_if; [apply life_ret|]. apply life_if; [apply life_throw|apply life_last_error].
  - apply life_if; [|apply life_throw].
    apply life_bind; [apply life_through; by destruct Hp|intros s_addr].
    apply life_if; [apply life_ret|apply life_throw].
Qed.

Lemma life_ip_to_string af addr size : safe (ip_to_string af addr size).
Proof.
  eapply life_known; [apply life_pointers|]. destruct ps_ok as (_ & Hp & _).
  destruct (decide ("inet_ntop" ∈ ps)) as [H|H].
  - apply life_bind; [by apply life_through|intros [text|]]; [apply life_ret|apply life_last_error].
  - apply life_if; [|apply life_throw].
    apply life_bind; [apply life_through; by destruct Hp|intros [text|]]; [apply life_ret|apply life_throw].
Qed.

Lemma life_win_bind local_ip local_port : safe (win_bind local_ip local_port).
Proof.
  apply life_bind; [apply life_if; [apply life_ret|apply life_ip_from_string]|intros addr].
  apply life_bind; [by apply life_required|intros r].
  apply life_if; [apply life_last_error|apply life_ret].
Qed.

Lemma life_wait_for_data timeout_ms : safe (win_wait_for_data timeout_ms).
Proof.
  apply life_bind; [by apply life_required|intros r]. apply life_if; [apply life_last_error|].
  apply life_bind; [apply life_preempt|intros _]. apply life_bind; [apply life_gets|intros stop].
  repeat (apply life_if; [apply life_ret|]). apply life_ret.
Qed.

Lemma life_receive bufferSize : safe (win_receive bufferSize).
Proof.
  apply life_bind; [by apply life_required|intros [d|]; [|apply life_failure]].
  apply life_bind; [|intros _; apply life_if; [apply life_failure|apply life_ret]].
  apply life_writes; [|by intros s; unfold upd_impl; destruct (impl s)].
  intros o s [] Hps. unfold upd_impl. rewrite alive_impl0. exists (set_remote (to_big32 (remote_ip d)) (to_big16 (remote_port d)) o).
  split; [|exact Hps]. split; try done.
Qed.

Lemma life_send_reply data : safe (win_send_reply data).
Proof.
  apply life_bind; [apply life_gets|intros to]. apply life_bind; [by apply life_required|intros r].
  apply life_if; [apply life_failure|apply life_ret].
Qed.

Lemma life_ip_str : safe get_last_remote_ip_str.
Proof. apply life_bind; [apply life_gets|intros addr; apply life_ip_to_string]. Qed.

(** A wait is at least one access. *)
Lemma wait_ticks timeout_ms s : live ps s -> (ticks s < ticks (win_wait_for_data timeout_ms s).2)%nat.
Proof.
  intros Hs. pose proof (preempt_ticks _ Hs) as Ht. pose proof (life_preempt _ Hs) as (Hl & _ & _).
  set (rest := fun t : nat =>
    do* modify (ws2_call "select") in
    let* x := gets (fun s => from_option sock INVALID_SOCKET (impl s)) in
    let* select_ret := ret (select_ret t x (timeout_ms / 1000) (u32 (timeout_ms mod 1000) * 1000)) in
    if select_ret =? SOCKET_ERROR then throw_last_error
    else
      do* preempt in
      let* stop := gets (fun s => from_option signaled false (impl s)) in
      if stop : bool then ret SIGNAL
      else if select_ret =? 0 then ret TIMEOUT else ret READY).
  assert (win_wait_for_data timeout_ms s = rest (ticks s) (preempt s).2) as -> by done.
  assert (safe (rest (ticks s))) as Hr.
  { apply life_bind; [|intros _].
    - intros s' (o & Ho & Hps). cbn. rewrite (alive_ws2_call _ _ _ Ho).
      2: { rewrite Hps. apply required_in; [done|unfold required; set_solver]. }
      split; [by exists o|done].
    - apply life_bind; [apply life_gets|intros x]. apply life_bind; [apply life_ret|intros r].
      apply life_if; [apply life_last_error|]. apply life_bind; [apply life_preempt|intros _].
      apply life_bind; [apply life_gets|intros stop].
      repeat (apply life_if; [apply life_ret|]). apply life_ret. }
  destruct (Hr _ Hl) as (_ & [Hle _ _ _] & _). lia.
Qed.
End Life.

(** ** Destruction *)

Section Destruction.
Context `{WIN : !Windows, NAT : !Native}.

Lemma life_stage ps s : live ps s -> signals_set s = false -> handler s = Idle ->
  exists o, stage 1 (if signaled o then ∅ else {[ sock o ]}) o s
    /\ is_Some (ws2_lib o) /\ loaded o = true /\ pointers_ok (pointers o).
Proof.
  intros (o & Ho & _) Hs Hh. exists o. destruct Ho as [Hi Hm Hl Hld Hp Hhe Hst _ Hok].
  rewrite Hh in Hhe. by split_and!.
Qed.

Lemma ready_live o s : ready o -> stage 1 {[ sock o ]} o s -> live (pointers o) s.
Proof.
  intros (Hl & Hld & Hp & Hs) []. exists o. split; [|done]. split; try done.
  rewrite stage_handler0. cbn. by rewrite Hs.
Qed.

Lemma yields_signal_stop o E : is_Some (ws2_lib o) -> pointers_ok (pointers o) ->
  yields (stage 1 (if signaled o then ∅ else {[ sock o ]}) o) signal_stop
    (fun _ s => exists x, stage 1 ∅ (set_sock x (set_signaled true o)) s) E.
Proof.
  intros [h Hl] Hp. eapply yields_bind; [apply yields_preempt|intros t]. cbv beta.
  eapply yields_known; [intros s [-> _ _ _ _ _ _]; reflexivity|]. cbn [from_option].
  destruct (signaled o) eqn:Es.
  - apply yields_ret. intros s Hs. exists (sock o). by destruct o; cbn in *; subst.
  - eapply yields_bind; [by apply (yields_upd_impl (set_signaled true))|intros []].
    eapply yields_bind; [apply yields_preempt|intros t2]. cbv beta.
    eapply yields_bind with (R := fun _ => stage 1 ∅ (set_signaled true o)).
    + apply yields_modify. intros s Hs. unfold close_socket.
      rewrite (stage_ws2_call _ _ _ _ _ h Hs); [|done|apply (required_in _ _ Hp); unfold required; set_solver].
      rewrite (stage_impl _ _ _ _ Hs), (stage_open _ _ _ _ Hs), decide_True by set_solver.
      destruct Hs. split; try done. cbn. set_solver.
    + intros []. eapply yields_conseq; [by apply (yields_upd_impl (set_sock INVALID_SOCKET))|done|intros [] s Hs; by exists INVALID_SOCKET|done].
Qed.

(** The destructor gives everything back. *)
Lemma yields_delete_Impl ps E :
  yields (fun s => live ps s /\ signals_set s = false /\ handler s = Idle) delete_Impl
    (fun _ => nothing_held) E.
Proof.
  intros s (Hs & Hg & Hh). destruct (life_stage _ _ Hs Hg Hh) as (o & Hst & [h Hl] & Hld & Hp).
  clear Hs Hg Hh. revert s Hst.
  change (yields (stage 1 (if signaled o then ∅ else {[ sock o ]}) o) delete_Impl (fun _ => nothing_held) E).
  eapply yields_bind; [by apply yields_signal_stop|]. intros [] s (x & Hs). revert s Hs.
  set (o' := set_sock x (set_signaled true o)).
  change (yields (stage 1 ∅ o') (do* library_cleanup in do* unload in modify (set_impl None))
    (fun _ => nothing_held) E).
  eapply yields_bind; [eapply (yields_library_cleanup _ o' h)|intros []];
    [done|done|apply (required_in _ _ Hp); unfold required; set_solver|].
  eapply yields_bind; [apply yields_unload|intros []]. by apply yields_destroyed.
Qed.
End Destruction.
