(* ===== verification/SerialPort.v ===== *)
(** * SerialPort: the serial port of the server (serial_port.cpp for POSIX,
    serial_port_win.cpp for Windows)

    A port is its settings, as the system keeps them, and whether this process
    has it open.  The results of the system calls are parameters.  The bits of
    [struct termios] differ between systems: they are the class [Termios], and
    the laws say which of them do not overlap. *)
From stdpp Require Import gmap.
From S2P Require Import Prelude Words Checksum Slip.

(** ** POSIX: struct termios *)

Record termios := mkTermios {
  c_iflag : Z;
  c_oflag : Z;
  c_cflag : Z;
  c_lflag : Z;
  c_cc : list Z;
  c_ispeed : Z;
  c_ospeed : Z;
}.

Class Termios := {
  CLOCAL : Z; CREAD : Z; CSIZE : Z; CS8 : Z; PARENB : Z; PARODD : Z; CSTOPB : Z; CRTSCTS : Z;
  IXON : Z; IXOFF : Z; IXANY : Z;
  IGNBRK : Z; BRKINT : Z; PARMRK : Z; ISTRIP : Z; INLCR : Z; IGNCR : Z; ICRNL : Z;
  VMIN : nat; VTIME : nat;
  (** the [speed_t] values B1200 to B230400 *)
  B1200 : Z; B2400 : Z; B4800 : Z; B9600 : Z; B19200 : Z; B38400 : Z; B57600 : Z; B115200 : Z;
  B230400 : Z;
}.

(** Whether two masks have no bit in common. *)
Definition apart (a b : Z) : Prop := Z.land a b = 0.

Class TermiosLaws `{!Termios} : Prop := {
  size_8_bits : Z.land CS8 CSIZE = CS8;
  cflags_apart : ForallOrdPairs apart
    [Z.lor CLOCAL CREAD; CSIZE; Z.lor PARENB PARODD; CSTOPB; CRTSCTS];
  vmin_vtime : VMIN <> VTIME;
}.

Section Posix.
Context `{!Termios}.

(** [c &= ~mask] *)
Definition clear_bits (c mask : Z) : Z := Z.land c (Z.lnot mask).

(** The [switch] of [setup]; [None] is the default, an exception. *)
Definition baud_speed (baudrate : Z) : option Z :=
  if baudrate =? 1200 then Some B1200
  else if baudrate =? 2400 then Some B2400
  else if baudrate =? 4800 then Some B4800
  else if baudrate =? 9600 then Some B9600
  else if baudrate =? 19200 then Some B19200
  else if baudrate =? 38400 then Some B38400
  else if baudrate =? 57600 then Some B57600
  else if baudrate =? 115200 then Some B115200
  else if baudrate =? 230400 then Some B230400
  else None.

Definition control_flags (hw_flow_control : bool) (c : Z) : Z :=
  let c := Z.lor c (Z.lor CLOCAL CREAD) in
  let c := clear_bits c CSIZE in
  let c := Z.lor c CS8 in
  let c := clear_bits c (Z.lor PARENB PARODD) in
  let c := clear_bits c CSTOPB in
  if hw_flow_control then Z.lor c CRTSCTS else clear_bits c CRTSCTS.

Definition flow_bits : Z := Z.lor (Z.lor IXON IXOFF) IXANY.
Definition handling_bits : Z :=
  Z.lor (Z.lor (Z.lor (Z.lor (Z.lor (Z.lor IGNBRK BRKINT) PARMRK) ISTRIP) INLCR) IGNCR) ICRNL.
Definition input_flags (c : Z) : Z :=
  let c := clear_bits c flow_bits in clear_bits c handling_bits.

(** From [cfsetospeed] to the last assignment. *)
Definition raw_settings (speed : Z) (hw_flow_control : bool) (tty : termios) : termios :=
  mkTermios (input_flags (c_iflag tty)) 0 (control_flags hw_flow_control (c_cflag tty)) 0
    (<[VTIME := 10]> (<[VMIN := 0]> (c_cc tty))) speed speed.

(** An open port: its settings are those of the device. *)
Record tty := mkTty { fd : Z; opened : gset Z; settings : termios }.

Definition INVALID_FD : Z := -1.

(** [open] gives a descriptor or -1. *)
Definition tty_open (open_ret : Z) (t : tty) : result unit * tty :=
  if open_ret =? INVALID_FD then (Throw RuntimeError, mkTty open_ret (opened t) (settings t))
  else (Ok tt, mkTty open_ret ({[ open_ret ]} ∪ opened t) (settings t)).

Definition tty_close (t : tty) : tty := mkTty (fd t) (opened t ∖ {[ fd t ]}) (settings t).

Definition tty_setup (tcgetattr_ret tcsetattr_ret : Z) (baudrate : Z) (hw_flow_control : bool) (t : tty)
  : result unit * tty :=
  if negb (tcgetattr_ret =? 0) then (Throw RuntimeError, t)
  else match baud_speed baudrate with
       | None => (Throw RuntimeError, t)
       | Some speed =>
           if negb (tcsetattr_ret =? 0) then (Throw RuntimeError, t)
           else (Ok tt, mkTty (fd t) (opened t) (raw_settings speed hw_flow_control (settings t)))
       end.

(** [read] gives -1, 0 or 1 and the byte. *)
Definition tty_read_byte (read_ret byte : Z) : result (Z * Z) :=
  if read_ret =? -1 then Throw RuntimeError else Ok (read_ret, byte).

Definition tty_write_bytes (write_ret : Z) : result Z :=
  if write_ret =? -1 then Throw RuntimeError else Ok write_ret.
End Posix.

(** What the receiver of Slip.v sees of a call of [read_byte]. *)
Definition as_read (r : result (Z * Z)) : read :=
  match r with
  | Throw _ => RError
  | Ok (bytes_read, byte) => if bytes_read =? 1 then RByte byte else RTimeout
  end.

(** What the sender of Slip.v sees of [write_bytes]. *)
Definition as_written (r : result Z) : option Z :=
  match r with Ok n => Some n | Throw _ => None end.

(** ** Windows: the DCB *)

(** The fields of the DCB that matter for the bytes on the line. *)
Record dcb := mkDcb {
  BaudRate : Z;
  ByteSize : Z;
  Parity : Z;
  StopBits : Z;
  fRtsControl : Z;
  fOutxCtsFlow : bool;
  fOutX : bool;
  fInX : bool;
}.

Record COMMTIMEOUTS := mkTimeouts {
  ReadIntervalTimeout : Z;
  ReadTotalTimeoutMultiplier : Z;
  ReadTotalTimeoutConstant : Z;
  WriteTotalTimeoutMultiplier : Z;
  WriteTotalTimeoutConstant : Z;
}.

Definition NOPARITY : Z := 0.
Definition ONESTOPBIT : Z := 0.
Definition RTS_CONTROL_DISABLE : Z := 0.
Definition RTS_CONTROL_HANDSHAKE : Z := 2.
Definition INVALID_HANDLE_VALUE : Z := -1.

Record com := mkCom { h_serial : Z; handles : gset Z; state : dcb; timeouts : COMMTIMEOUTS }.

(** The name of the device, after the prefix of device names. *)
Definition port_name (device : bytes) : bytes :=
  [CH_BACKSLASH; CH_BACKSLASH; CH_DOT; CH_BACKSLASH] ++ device.

Definition com_open (create_file : bytes -> Z) (device : bytes) (p : com) : result unit * com :=
  let h := create_file (port_name device) in
  if h =? INVALID_HANDLE_VALUE then (Throw RuntimeError, mkCom h (handles p) (state p) (timeouts p))
  else (Ok tt, mkCom h ({[ h ]} ∪ handles p) (state p) (timeouts p)).

Definition com_close (p : com) : com :=
  mkCom (h_serial p) (handles p ∖ {[ h_serial p ]}) (state p) (timeouts p).

Definition com_settings (baudrate : Z) (hw_flow_control : bool) (d : dcb) : dcb :=
  mkDcb baudrate 8 NOPARITY ONESTOPBIT
    (if hw_flow_control then RTS_CONTROL_HANDSHAKE else RTS_CONTROL_DISABLE)
    (fOutxCtsFlow d) (fOutX d) (fInX d).

Definition read_timeouts : COMMTIMEOUTS := mkTimeouts 0 0 1000 0 0.

(** [SetCommTimeouts] may fail unnoticed. *)
Definition com_setup (get_ok set_ok timeouts_ok : bool) (baudrate : Z) (hw_flow_control : bool) (p : com)
  : result unit * com :=
  if negb get_ok then (Throw RuntimeError, p)
  else if negb set_ok then (Throw RuntimeError, p)
  else (Ok tt, mkCom (h_serial p) (handles p) (com_settings baudrate hw_flow_control (state p))
                 (if timeouts_ok : bool then read_timeouts else timeouts p)).

Definition com_read_byte (ok : bool) (bytes_read byte : Z) : result (Z * Z) :=
  if ok then Ok (bytes_read, byte) else Throw RuntimeError.

Definition com_write_bytes (ok : bool) (bytes_written : Z) : result Z :=
  if ok then Ok bytes_written else Throw RuntimeError.

(** ** Bits under a mask *)

Lemma land_set_other x a m : apart a m -> Z.land (Z.lor x a) m = Z.land x m.
Proof. unfold apart. intros H. by rewrite Z.land_lor_distr_l, H, Z.lor_0_r. Qed.
Lemma land_set_same x m : Z.land (Z.lor x m) m = m.
Proof.
  apply Z.bits_inj'. intros i _. rewrite Z.land_spec, Z.lor_spec.
  by destruct (Z.testbit x i), (Z.testbit m i).
Qed.
Lemma land_clear_other x a m : apart a m -> Z.land (clear_bits x a) m = Z.land x m.
Proof.
  unfold apart, clear_bits. intros H. apply Z.bits_inj'. intros i Hi.
  assert (Z.testbit (Z.land a m) i = false) as Hb by (by rewrite H, Z.bits_0).
  revert Hb. rewrite !Z.land_spec, Z.lnot_spec by done.
  by destruct (Z.testbit x i), (Z.testbit a i), (Z.testbit m i).
Qed.
Lemma land_clear_same x m : Z.land (clear_bits x m) m = 0.
Proof.
  unfold clear_bits. apply Z.bits_inj'. intros i Hi. rewrite !Z.land_spec, Z.lnot_spec, Z.bits_0 by done.
  by destruct (Z.testbit x i), (Z.testbit m i).
Qed.
Lemma apart_sym a b : apart a b -> apart b a.
Proof. unfold apart. by rewrite Z.land_comm. Qed.
(** Part of a mask. *)
Lemma apart_part a b m : Z.land a b = a -> apart b m -> apart a m.
Proof. unfold apart. intros <- H. by rewrite <- Z.land_assoc, H, Z.land_0_r. Qed.

Section Setup.
Context `{!Termios, !TermiosLaws}.

(** The line: eight data bits, no parity, one stop bit, the receiver on and
    the modem lines ignored, the flow control asked for. *)
Record line_8n1 (hw : bool) (c : Z) : Prop := {
  line_size : Z.land c CSIZE = CS8;
  line_parity : Z.land c (Z.lor PARENB PARODD) = 0;
  line_stop : Z.land c CSTOPB = 0;
  line_reads : Z.land c (Z.lor CLOCAL CREAD) = Z.lor CLOCAL CREAD;
  line_flow : Z.land c CRTSCTS = if hw then CRTSCTS else 0;
}.

Lemma control_flags_line hw c : line_8n1 hw (control_flags hw c).
Proof.
  pose proof cflags_apart as Ha. pose proof size_8_bits as H8.
  inversion_clear Ha as [|? ? A1 Ha1]. inversion_clear Ha1 as [|? ? A2 Ha2].
  inversion_clear Ha2 as [|? ? A3 Ha3]. inversion_clear Ha3 as [|? ? A4 _].
  rewrite !Forall_cons in *. destruct A1 as (R1 & R2 & R3 & R4 & _), A2 as (S1 & S2 & S3 & _).
  destruct A3 as (P1 & P2 & _), A4 as (T1 & _).
  assert (forall m, apart CSIZE m -> apart CS8 m) as H8' by (intros m; by apply apart_part).
  unfold control_flags. destruct hw; split;
    repeat first
      [ rewrite land_set_same | rewrite land_clear_same
      | rewrite land_clear_other by (first [done | by apply apart_sym | by apply H8'])
      | rewrite land_set_other by (first [done | by apply apart_sym | by apply H8' | by apply H8', apart_sym]) ];
    try done.
  all: try (rewrite Z.land_lor_distr_l, land_clear_same, H8; done).
Qed.

(** Nothing else of the control flags changes. *)
Lemma control_flags_other hw c m :
  Forall (fun a => apart a m)
    [Z.lor CLOCAL CREAD; CSIZE; Z.lor PARENB PARODD; CSTOPB; CRTSCTS] ->
  Z.land (control_flags hw c) m = Z.land c m.
Proof.
  rewrite !Forall_cons. intros (R & S & P & T & F & _). unfold control_flags.
  assert (apart CS8 m) by (by apply (apart_part CS8 CSIZE); [apply size_8_bits|]).
  destruct hw; repeat first [rewrite land_clear_other by done | rewrite land_set_other by done]; done.
Qed.

Lemma input_flags_off c m : m = flow_bits \/ m = handling_bits -> Z.land (input_flags c) m = 0.
Proof.
  intros [-> | ->]; unfold input_flags; [|apply land_clear_same].
  unfold clear_bits. rewrite <- Z.land_assoc, (Z.land_comm (Z.lnot handling_bits)), Z.land_assoc.
  fold (clear_bits c flow_bits). by rewrite land_clear_same, Z.land_0_l.
Qed.

(** C37: [setup] configures the port for transparent bytes at the speed that was
    asked for: eight data bits, no parity, one stop bit, no translation and no
    flow control by characters in either direction, RTS/CTS as asked for, and
    reads that give up after ten tenths of a second; settings that do not
    concern it are kept; an unsupported speed or a failing call throws and
    changes nothing. *)
Theorem tty_setup_raw get_ret set_ret baudrate hw t r t' :
  (VMIN < length (c_cc (settings t)))%nat -> (VTIME < length (c_cc (settings t)))%nat ->
  tty_setup get_ret set_ret baudrate hw t = (r, t') ->
  fd t' = fd t /\ opened t' = opened t
  /\ match r with
     | Throw _ => settings t' = settings t
         /\ (get_ret <> 0 \/ set_ret <> 0 \/ baud_speed baudrate = None)
     | Ok _ => let c := settings t' in
         baud_speed baudrate = Some (c_ispeed c) /\ c_ospeed c = c_ispeed c
         /\ line_8n1 hw (c_cflag c)
         /\ (forall m, Forall (fun a => apart a m)
               [Z.lor CLOCAL CREAD; CSIZE; Z.lor PARENB PARODD; CSTOPB; CRTSCTS] ->
             Z.land (c_cflag c) m = Z.land (c_cflag (settings t)) m)
         /\ Z.land (c_iflag c) flow_bits = 0 /\ Z.land (c_iflag c) handling_bits = 0
         /\ (forall m, apart flow_bits m -> apart handling_bits m ->
             Z.land (c_iflag c) m = Z.land (c_iflag (settings t)) m)
         /\ c_oflag c = 0 /\ c_lflag c = 0
         /\ c_cc c !! VMIN = Some 0 /\ c_cc c !! VTIME = Some 10
         /\ (forall i, i <> VMIN -> i <> VTIME -> c_cc c !! i = c_cc (settings t) !! i)
     end.
Proof.
  intros Hmin Htime. unfold tty_setup. pose proof vmin_vtime as Hne.
  destruct (Z.eqb_spec get_ret 0) as [->|Hg]; cbn [negb]; [|intros [= <- <-]; by split_and!; auto].
  destruct (baud_speed baudrate) as [speed|] eqn:Eb; [|intros [= <- <-]; by split_and!; auto].
  destruct (Z.eqb_spec set_ret 0) as [->|Hs]; cbn [negb]; [|intros [= <- <-]; by split_and!; auto].
  intros [= <- <-]. split; [done|]. split; [done|]. cbn [settings raw_settings c_ispeed c_ospeed
    c_cflag c_iflag c_oflag c_lflag c_cc]. split_and!; try done.
  - apply control_flags_line.
  - intros m. apply control_flags_other.
  - apply input_flags_off. by left.
  - apply input_flags_off. by right.
  - intros m Hf Hh. unfold input_flags. by rewrite !land_clear_other.
  - rewrite list_lookup_insert_ne, list_lookup_insert_eq by done. done.
  - by rewrite list_lookup_insert_eq by (by rewrite length_insert).
  - intros i H1 H2. by rewrite !list_lookup_insert_ne by done.
Qed.
End Setup.

(** ** The systems *)

Definition linux_termios : Termios := {|
  CLOCAL := 0x800; CREAD := 0x80; CSIZE := 0x30; CS8 := 0x30; PARENB := 0x100; PARODD := 0x200;
  CSTOPB := 0x40; CRTSCTS := 0x80000000;
  IXON := 0x400; IXOFF := 0x1000; IXANY := 0x800;
  IGNBRK := 1; BRKINT := 2; PARMRK := 8; ISTRIP := 0x20; INLCR := 0x40; IGNCR := 0x80; ICRNL := 0x100;
  VMIN := 6; VTIME := 5;
  B1200 := 9; B2400 := 11; B4800 := 12; B9600 := 13; B19200 := 14; B38400 := 15;
  B57600 := 0x1001; B115200 := 0x1002; B230400 := 0x1003 |}.

Definition bsd_termios : Termios := {|
  CLOCAL := 0x8000; CREAD := 0x800; CSIZE := 0x300; CS8 := 0x300; PARENB := 0x1000; PARODD := 0x2000;
  CSTOPB := 0x400; CRTSCTS := 0x30000;
  IXON := 0x200; IXOFF := 0x400; IXANY := 0x800;
  IGNBRK := 1; BRKINT := 2; PARMRK := 8; ISTRIP := 0x20; INLCR := 0x40; IGNCR := 0x80; ICRNL := 0x100;
  VMIN := 16; VTIME := 17;
  B1200 := 1200; B2400 := 2400; B4800 := 4800; B9600 := 9600; B19200 := 19200; B38400 := 38400;
  B57600 := 57600; B115200 := 115200; B230400 := 230400 |}.

Lemma linux_termios_laws : @TermiosLaws linux_termios.
Proof. split; [reflexivity| |done]. repeat constructor. Qed.
Lemma bsd_termios_laws : @TermiosLaws bsd_termios.
Proof. split; [reflexivity| |done]. repeat constructor. Qed.

(** A terminal in its usual mode on Linux, 9600 baud. *)
Definition cooked : termios :=
  mkTermios 0x500 5 0xCBD 0x8A3B [3; 28; 127; 21; 4; 0; 1; 0; 17; 19; 26; 0; 18; 15; 23; 22; 0; 0; 0] 13 13.

Lemma tty_setup_raw_witness :
  let t' := (@tty_setup linux_termios 0 0 115200 true (mkTty 3 {[ 3 ]} cooked)).2 in
  Z.land (c_cflag (settings t')) 0x30 = 0x30 /\ c_ispeed (settings t') = 0x1002
  /\ c_cc (settings t') !! 5%nat = Some 10.
Proof.
  intros t'. destruct (@tty_setup linux_termios 0 0 115200 true (mkTty 3 {[ 3 ]} cooked)) as [r t1] eqn:E.
  pose proof E as E'. apply (f_equal fst) in E'. vm_compute in E'. subst r.
  destruct (@tty_setup_raw linux_termios linux_termios_laws 0 0 115200 true (mkTty 3 {[ 3 ]} cooked)
    (Ok tt) t1 ltac:(vm_compute; lia) ltac:(vm_compute; lia) E)
    as (_ & _ & Hb & _ & [Hs _ _ _ _] & _ & _ & _ & _ & _ & _ & _ & Ht & _).
  split; [exact Hs|]. split; [|exact Ht]. vm_compute in Hb. by injection Hb.
Defined.

(** On Windows the port keeps its flow control by characters, which swallows
    bytes of the frames, and sends whatever the state of CTS is. *)
Example com_keeps_xon_xoff :
  let p := mkCom 5 {[ 5 ]} (mkDcb 9600 7 2 0 0 false true true) (mkTimeouts 0 0 0 0 0) in
  let p' := (com_setup true true true 115200 true p).2 in
  ByteSize (state p') = 8 /\ Parity (state p') = NOPARITY
  /\ fInX (state p') = true /\ fOutX (state p') = true /\ fOutxCtsFlow (state p') = false.
Proof. done. Qed.
