(* ===== verification/Program.v ===== *)
(** * Program: the server from its command line to its end (main and
    signal_handler of netmount-server.cpp, class UdpSocket of udp_socket.cpp)

    [main] over a transport: open it, install the signal handlers, run the
    loop until [exit_flag] is set or an exception ends it, put the signal
    handlers back and destroy the transport.  [UdpSocket] is the interface of
    the class, with the implementations for POSIX (here) and for Windows
    (WinSocket.v); [MainIO] is what the loop needs of a transport: a socket,
    or the SLIP stack over a serial port. *)
From stdpp Require Import gmap.
From S2P Require Import Prelude Words Checksum Slip Unicode Paths FatTime Host Attrs Files Drive.
From S2P Require Import Fcb DriveInv Protocol ReplyCache Server MemFs Samples ServerInv MainLoop Config Transport WinSocket SerialPort.
#[local] Open Scope Z_scope.

(** ** Signals

    An access is a point at which a signal can be noticed; [arrives t] says
    that one arrives at access number [t]. *)
Class Signals (S : Type) := {
  accesses : S -> nat;
  exit_set : S -> bool;
  handlers_on : S -> bool;
  arrives : nat -> Prop;
}.

(** Nothing is forgotten from one state to a later one. *)
Record noticed {S} `{!Signals S} (s s' : S) : Prop := {
  noticed_accesses : (accesses s <= accesses s')%nat;
  noticed_exit : exit_set s = true -> exit_set s' = true;
  noticed_on : handlers_on s' = handlers_on s;
  noticed_signal : forall t, (accesses s <= t < accesses s')%nat -> arrives t ->
    handlers_on s = true -> exit_set s' = true;
}.
#[export] Instance noticed_preorder {S} `{!Signals S} : PreOrder (@noticed S _).
Proof.
  split.
  - intros s. split; [done|done|done|lia].
  - intros a b c [T1 E1 S1 H1] [T2 E2 S2 H2]. split; [lia|auto|congruence|].
    intros t Ht Hn Hs. destruct (decide (t < accesses b)%nat).
    + apply E2, (H1 t); auto with lia.
    + apply (H2 t); [lia|done|congruence].
Qed.

(** ** class UdpSocket *)

Class UdpSocket (S : Type) := {
  sock_new : M S unit;
  sock_delete : M S unit;
  sock_bind : bytes -> Z -> M S unit;
  sock_wait_for_data : Z -> M S WaitResult;
  sock_receive : nat -> M S bytes;
  sock_send_reply : bytes -> M S Z;
  sock_remote_ip : S -> Z;
  sock_remote_port : S -> Z;
  sock_remote_ip_str : M S bytes;
  (** the variables of [main]: the pointer for the signal handler, the
      handlers, the flag *)
  sock_pointer : bool -> S -> S;
  sock_signals : bool -> S -> S;
  sock_exit : S -> S;
  sock_poll : S -> bool * S;
}.

(** *** On POSIX *)

Class PosixUdp := {
  px_socket : nat -> Z;
  px_inet_pton : nat -> bytes -> Z * Z;
  px_bind : nat -> Z -> Z -> Z -> Z;
  px_select : nat -> select_result;
  px_recvfrom : nat -> option datagram_from;
  px_sendto : nat -> bytes -> option Z;
  px_inet_ntop : nat -> Z -> option bytes;
  px_signal : nat -> bool;
}.

(** UdpSocket::Impl, the descriptors the process has open and the variables of
    [main].  The address of the sender has no initial value; nothing reads it
    before a datagram came. *)
Record posix := mkPosix {
  px_sock : Z;
  px_open : gset Z;
  px_addr : Z;
  px_port : Z;
  px_exit : bool;
  px_on : bool;
  px_ticks : nat;
}.

Section PosixSocket.
Context `{!PosixUdp, NAT : !Native}.

(** A signal interrupts the process: [signal_handler] sets the flag, and
    [signal_stop] does nothing. *)
Definition px_access : M posix nat := fun s =>
  (Ok (px_ticks s),
   mkPosix (px_sock s) (px_open s) (px_addr s) (px_port s)
     (px_exit s || px_on s && px_signal (px_ticks s)) (px_on s) (S (px_ticks s))).

Definition px_call {A} (f : nat -> A) : M posix A := let* t := px_access in ret (f t).

Definition px_new : M posix unit :=
  let* fd := px_call px_socket in
  do* modify (fun s => mkPosix fd (if fd =? -1 then px_open s else {[ fd ]} ∪ px_open s)
                         (px_addr s) (px_port s) (px_exit s) (px_on s) (px_ticks s)) in
  if fd =? -1 then throw RuntimeError else ret tt.

Definition px_delete : M posix unit :=
  do* px_access in
  modify (fun s => mkPosix (px_sock s) (px_open s ∖ {[ px_sock s ]}) (px_addr s) (px_port s)
                     (px_exit s) (px_on s) (px_ticks s)).

Definition px_bind_socket (local_ip : bytes) (local_port : Z) : M posix unit :=
  let* addr := (if bool_decide (local_ip = []) then ret INADDR_ANY
                else let* r := px_call (fun t => px_inet_pton t local_ip) in
                     if r.1 <=? 0 then throw RuntimeError else ret r.2) in
  let* s := gets px_sock in
  let* r := px_call (fun t => px_bind t s addr (to_big16 local_port)) in
  if r =? -1 then throw RuntimeError else ret tt.

Definition px_wait_for_data (timeout_ms : Z) : M posix WaitResult :=
  let* select_ret := px_call px_select in of_result (wait_for_data select_ret).

Definition px_receive (buffer_size : nat) : M posix bytes :=
  let* r := px_call px_recvfrom in
  let* d := of_result (receive_udp r buffer_size) in
  do* modify (fun s => mkPosix (px_sock s) (px_open s) (to_big32 (remote_ip d)) (to_big16 (remote_port d))
                         (px_exit s) (px_on s) (px_ticks s)) in
  ret (payload d).

Definition px_send_reply (data : bytes) : M posix Z :=
  let* r := px_call (fun t => px_sendto t data) in of_result (send_reply_udp r).

Definition px_remote_ip (s : posix) : Z := from_big32 (px_addr s).
Definition px_remote_port (s : posix) : Z := from_big16 (px_port s).
Definition px_remote_ip_str : M posix bytes :=
  let* addr := gets px_addr in
  let* text := px_call (fun t => px_inet_ntop t addr) in
  match text with Some text => ret text | None => throw RuntimeError end.

(** The test of [exit_flag]. *)
Definition px_poll (s : posix) : bool * posix :=
  let s := (px_access s).2 in (px_exit s, s).

#[export] Instance posix_udp : UdpSocket posix := {|
  sock_new := px_new;
  sock_delete := px_delete;
  sock_bind := px_bind_socket;
  sock_wait_for_data := px_wait_for_data;
  sock_receive := px_receive;
  sock_send_reply := px_send_reply;
  sock_remote_ip := px_remote_ip;
  sock_remote_port := px_remote_port;
  sock_remote_ip_str := px_remote_ip_str;
  sock_pointer := fun _ s => s;
  sock_signals := fun on s => mkPosix (px_sock s) (px_open s) (px_addr s) (px_port s) (px_exit s) on (px_ticks s);
  sock_exit := fun s => mkPosix (px_sock s) (px_open s) (px_addr s) (px_port s) true (px_on s) (px_ticks s);
  sock_poll := px_poll |}.

#[export] Instance posix_signals : Signals posix := {|
  accesses := px_ticks; exit_set := px_exit; handlers_on := px_on;
  arrives := fun t => px_signal t = true |}.
End PosixSocket.

(** *** On Windows *)

Section WindowsSocket.
Context `{!Windows, NAT : !Native}.

Definition win_poll (s : win) : bool * win := let s := (preempt s).2 in (exit_flag s, s).

#[export] Instance windows_udp : UdpSocket win := {|
  sock_new := new_Impl;
  sock_delete := delete_Impl;
  sock_bind := win_bind;
  sock_wait_for_data := win_wait_for_data;
  sock_receive := win_receive;
  sock_send_reply := win_send_reply;
  sock_remote_ip := get_last_remote_ip;
  sock_remote_port := get_last_remote_port;
  sock_remote_ip_str := get_last_remote_ip_str;
  sock_pointer := fun p s => set_main (exit_flag s) (signals_set s) p s;
  sock_signals := fun on s => set_main (exit_flag s) on (udp_socket_ptr s) s;
  sock_exit := fun s => set_main true (signals_set s) (udp_socket_ptr s) s;
  sock_poll := win_poll |}.

#[export] Instance windows_signals : Signals win := {|
  accesses := ticks; exit_set := exit_flag; handlers_on := signals_set;
  arrives := fun t => (0 < handler_steps t)%nat |}.
End WindowsSocket.

(** ** Transports *)

Class MainIO (W S : Type) := {
  (** construct and set up; a failure leaves nothing behind *)
  io_open : Options -> M S unit;
  (** one turn of the loop of [main], without the test of [exit_flag]: what
      happened, the datagram that was served ([[]] when none was), the
      transport and the server after it *)
  io_turn : translit_map -> Z -> Options -> srv W -> S -> turn * bytes * S * srv W;
  (** the destructor *)
  io_close : M S unit;
  io_pointer : bool -> S -> S;
  io_signals : bool -> S -> S;
  io_exit : S -> S;
  io_poll : S -> bool * S;
}.

Section Udp.
Context {W S : Type} `{!Host W, !DosAttrs W, CAL : !Calendar} `{NAT : !Native} `{SOCK : !UdpSocket S}.
Context (tmap : translit_map) (ulong_bits : Z).

(** What [main] does with [sock] in one turn. *)
Definition socket_turn (s : srv W) (io : S) : turn * bytes * S * srv W :=
  match sock_wait_for_data 10000 io with
  | (Throw ex, io) => (Ends ex, [], io, s)
  | (Ok TIMEOUT, io) | (Ok SIGNAL, io) => (Waits, [], io, s)
  | (Ok READY, io) =>
      match sock_receive request_packet_size io with
      | (Throw ex, io) => (Ends ex, [], io, s)
      | (Ok request_packet, io) =>
          let last_remote_ip := sock_remote_ip io in
          let last_remote_port := sock_remote_port io in
          match sock_remote_ip_str io with
          | (Throw ex, io) => (Ends ex, [], io, s)
          | (Ok _, io) =>
              let '(ev, s) := serve tmap ulong_bits last_remote_ip last_remote_port request_packet s in
              match ev with
              | Stops ex => (Ends ex, request_packet, io, s)
              | Sends reply =>
                  match sock_send_reply reply io with
                  | (Throw ex, io) => (Ends ex, request_packet, io, s)
                  | (Ok _, io) => (Serves ev (Some (Sent reply)), request_packet, io, s)
                  end
              | _ => (Serves ev None, request_packet, io, s)
              end
          end
      end
  end.
End Udp.

(** [sock.reset(new UdpSocket); sock->bind(...)]: when [bind] throws, the
    object is destroyed at the return from [main]. *)
Definition open_socket {S} `{UdpSocket S} (o : Options) : M S unit :=
  do* sock_new in
  try_catch (sock_bind (bind_addr o) (bind_port o)) (fun ex => do* sock_delete in throw ex).

#[export] Instance udp_io {W S} `{!Host W, !DosAttrs W, CAL : !Calendar} `{NAT : !Native}
    `{SOCK : !UdpSocket S} : MainIO W S := {|
  io_open := open_socket;
  io_turn := fun tmap ulong_bits _ => socket_turn tmap ulong_bits;
  io_close := sock_delete;
  io_pointer := sock_pointer;
  io_signals := sock_signals;
  io_exit := sock_exit;
  io_poll := sock_poll |}.

(** *** A serial port on POSIX *)

(** The calls made in turn number [n]; [read]s give a count and a byte. *)
Class PosixLine := {
  ln_open : bytes -> Z;
  ln_tcgetattr : Z;
  ln_tcsetattr : Z;
  ln_reads : nat -> list (Z * Z);
  ln_write : nat -> bytes -> Z;
  ln_signal : nat -> bool;
}.

Record line := mkLine {
  ln_tty : tty;
  ln_slip : SlipUdpSerial;
  (** read from the port before a datagram was complete *)
  ln_pending : list read;
  ln_exit : bool;
  ln_on : bool;
  ln_turns : nat;
}.

Section Line.
Context {W : Type} `{!Host W, !DosAttrs W, CAL : !Calendar} `{NAT : !Native} `{!Termios, !PosixLine}.

Definition line_tick (l : line) : line :=
  mkLine (ln_tty l) (ln_slip l) (ln_pending l) (ln_exit l || ln_on l && ln_signal (ln_turns l))
    (ln_on l) (S (ln_turns l)).
Definition set_tty t (l : line) :=
  mkLine t (ln_slip l) (ln_pending l) (ln_exit l) (ln_on l) (ln_turns l).

(** [SlipUdpSerial(slip_dev)] and [setup]. *)
Definition line_open (o : Options) : M line unit := fun l =>
  match tty_open (ln_open (slip_dev o)) (ln_tty l) with
  | (Throw ex, t) => (Throw ex, set_tty t l)
  | (Ok _, t) =>
      match tty_setup ln_tcgetattr ln_tcsetattr (slip_speed o) (slip_hw_flow_control o) t with
      | (Throw ex, t) => (Throw ex, set_tty (tty_close t) l)
      | (Ok _, t) => (Ok tt, mkLine t (SlipUdpSerial_init 0) [] (ln_exit l) (ln_on l) (ln_turns l))
      end
  end.

Definition line_turn (tmap : translit_map) (ulong_bits : Z) (o : Options) (s : srv W) (l : line)
  : turn * bytes * line * srv W :=
  let n := ln_turns l in
  let l := line_tick l in
  let reads := ln_pending l ++ ((fun r => as_read (tty_read_byte r.1 r.2)) <$> ln_reads n) in
  let '(t, slip, s, rest) :=
    slip_turn tmap ulong_bits (bind_port o) reads
      (fun frame => as_written (tty_write_bytes (ln_write n frame))) (ln_slip l) s in
  (t, get_last_rx_data slip, mkLine (ln_tty l) slip rest (ln_exit l) (ln_on l) (ln_turns l), s).

#[export] Instance line_io : MainIO W line := {|
  io_open := line_open;
  io_turn := line_turn;
  io_close := modify (fun l => set_tty (tty_close (ln_tty l)) l);
  io_pointer := fun _ l => l;
  io_signals := fun on l => mkLine (ln_tty l) (ln_slip l) (ln_pending l) (ln_exit l) on (ln_turns l);
  io_exit := fun l => mkLine (ln_tty l) (ln_slip l) (ln_pending l) true (ln_on l) (ln_turns l);
  io_poll := fun l => let l := line_tick l in (ln_exit l, l) |}.

#[export] Instance line_signals : Signals line := {|
  accesses := ln_turns; exit_set := ln_exit; handlers_on := ln_on;
  arrives := fun t => ln_signal t = true |}.
End Line.

(** ** main *)

(** How the serving ends: by [exit_flag], by an exception that is logged, or
    without an end the language defines: the turn [t] for [request] wrote or
    read out of a buffer, or the map of names was read out of its bounds. *)
Inductive loop_end :=
  | Stopped
  | Failed (ex : exn)
  | Corrupted (request : bytes) (t : turn)
  | BadMap.

Definition undefined_end (e : loop_end) : bool :=
  match e with Corrupted _ _ | BadMap => true | _ => false end.

(** A turn after which the memory of the server is damaged. *)
Definition corrupts (t : turn) : bool :=
  match t with
  | Serves Undefined _ | Serves _ (Some TxOverflow) => true
  | _ => false
  end.

Section Main.
Context {W S : Type} `{!Host W, !DosAttrs W, CAL : !Calendar} `{NAT : !Native} `{IO : !MainIO W S}.
Context (tmap : translit_map) (ulong_bits : Z) (o : Options).
(** What other programs do to the machine before turn [n]. *)
Context (others : nat -> W -> W).

Definition outside (n : nat) (s : srv W) : srv W :=
  mkSrv (others n (sworld s)) (scwd s) (drives s) (answer_cache s).

(** [while (exit_flag == 0)] in its [try]; [None] when the fuel is used up. *)
Fixpoint main_loop (fuel n : nat) (s : srv W) (io : S) : option (loop_end * S * srv W) :=
  match fuel with
  | O => None
  | Datatypes.S fuel =>
      let '(stop, io) := io_poll io in
      if stop : bool then Some (Stopped, io, s)
      else
        let '(t, request, io, s) := io_turn tmap ulong_bits o (outside n s) io in
        if corrupts t then Some (Corrupted request t, io, s)
        else match t with
             | Ends ex => Some (Failed ex, io, s)
             | _ => main_loop fuel (Datatypes.S n) s io
             end
  end.
End Main.

Section MainProgram.
Context {W S : Type} `{!Host W, !DosAttrs W, CAL : !Calendar} `{NAT : !Native} `{IO : !MainIO W S}.
Context (ulong_bits : Z) (others : nat -> W -> W).

(** [main] from the opening of the transport to its return, after the drives
    are known: [None] inside the result when the transport could not be
    opened, otherwise how the serving ended and the state before the
    destructor; after an undefined end nothing more is executed.  When the map
    of names does not load the loop is not entered. *)
Definition serve_drives (fuel : nat) (o : Options) (map : load_outcome) (s : srv W) (io : S)
  : option (option loop_end * S * srv W) :=
  match io_open o io with
  | (Throw _, io) => Some (None, io, s)
  | (Ok _, io) =>
      let io := io_signals true (io_pointer true io) in
      let run tmap io :=
        match main_loop tmap ulong_bits o others fuel 0 s io with
        | None => None
        | Some (e, io, s) =>
            Some (Some e, if undefined_end e then io else io_pointer false (io_signals false io), s)
        end in
      match map with
      | Loaded tmap => run tmap io
      | LoadThrow => run ∅ (io_exit io)
      | LoadUndefined => Some (Some BadMap, io, s)
      end
  end.
End MainProgram.

(** How [main] ends: with the exit code, the transports after their
    destructors and the server, when it got as far as serving; or after
    undefined behaviour, when nothing is known of anything. *)
Inductive main_end (W U L : Type) :=
  | Returns (code : Z) (udp : U) (serial : L) (served : option (srv W))
  | AnythingAfter (e : loop_end).
Arguments Returns {W U L}.
Arguments AnythingAfter {W U L}.

Section WholeMain.
Context {W U L : Type} `{!Host W, !DosAttrs W, CAL : !Calendar} `{NAT : !Native}
  `{UDP : !MainIO W U, LINE : !MainIO W L}.
Context (long_bits ulong_bits : Z) (others : nat -> W -> W) (file : path -> option bytes).

Definition main_result {S} `{!MainIO W S} (r : option loop_end * S * srv W)
    (finish : S -> U * L) : main_end W U L :=
  match r with
  | (None, io, s) => let '(udp, serial) := finish io in Returns (-1) udp serial None
  | (Some e, io, s) =>
      if undefined_end e then AnythingAfter e
      else let '(udp, serial) := finish (io_close io).2 in Returns 0 udp serial (Some s)
  end.

Definition main (fuel : nat) (args : list bytes) (w : W) (cwd : path) (udp : U) (serial : L)
  : option (main_end W U L) :=
  match startup long_bits w args with
  | None => None
  | Some (inl code) => Some (Returns code udp serial None)
  | Some (inr (o, ds)) =>
      let s := mkSrv w cwd ds ReplyCache_default in
      let map := startup_map ds o file in
      if bool_decide (slip_dev o = []) then
        (fun r => main_result r (fun udp => (udp, serial))) <$> serve_drives ulong_bits others fuel o map s udp
      else
        (fun r => main_result r (fun serial => (udp, serial))) <$> serve_drives ulong_bits others fuel o map s serial
  end.
End WholeMain.

(** ** What the loop relies on *)

Section TurnSpec.
Context {W : Type} `{!Host W, !DosAttrs W, CAL : !Calendar, !HostLaws W} `{NAT : !Native}.

(** Only a packet that does not fit a buffer damages the memory. *)
Definition misfit (request : bytes) (t : turn) : Prop :=
  match t with
  | Serves Undefined _ => exists packet cs, check_packet request = Some (packet, cs)
      /\ (oversized packet \/ oversized_read packet)
  | Serves (Sends reply) (Some TxOverflow) => 1471 < zlen reply
  | _ => False
  end.

(** The server after a turn. *)
Definition turn_good (s : srv W) (t : turn) (request : bytes) (s' : srv W) : Prop :=
  config <$> drives s' = config <$> drives s
  /\ if corrupts t then misfit request t else loop_ok false s'.

Lemma serve_good tmap ulong_bits ip port datagram s ev s' :
  loop_ok false s -> Forall is_byte datagram ->
  serve tmap ulong_bits ip port datagram s = (ev, s') ->
  config <$> drives s' = config <$> drives s
  /\ match ev with
     | Stops _ => False
     | Undefined => exists packet cs, check_packet datagram = Some (packet, cs)
                    /\ (oversized packet \/ oversized_read packet)
     | _ => loop_ok false s'
     end.
Proof.
  intros Hs Hb E. apply (serve_props tmap ulong_bits false) in E as [Hp [Ec _]]; [|done..].
  split; [done|]. destruct ev; try done; [by destruct Hp as [_ ->]|by destruct Hp..].
Qed.
End TurnSpec.

Class MainIOLaws (W S : Type) `{!Host W, !DosAttrs W, CAL : !Calendar, !HostLaws W} `{NAT : !Native}
    `{IO : !MainIO W S, SIG : !Signals S} := {
  (** nothing is held; in use; no handler is under way *)
  io_fresh : S -> Prop;
  io_usable : S -> Prop;
  io_calm : S -> Prop;
  io_open_ok o : yields io_fresh (io_open o) (fun _ => io_usable) io_fresh;
  io_pointer_ok b io : io_usable io -> io_usable (io_pointer b io)
    /\ accesses (io_pointer b io) = accesses io /\ handlers_on (io_pointer b io) = handlers_on io
    /\ (io_calm (io_pointer b io) -> io_calm io);
  io_signals_ok b io : io_usable io -> io_usable (io_signals b io)
    /\ accesses (io_signals b io) = accesses io /\ handlers_on (io_signals b io) = b;
  io_exit_ok io : io_usable io -> io_usable (io_exit io)
    /\ accesses (io_exit io) = accesses io /\ handlers_on (io_exit io) = handlers_on io
    /\ exit_set (io_exit io) = true;
  io_poll_ok io : io_usable io -> io_usable (io_poll io).2 /\ noticed io (io_poll io).2
    /\ (io_poll io).1 = exit_set (io_poll io).2;
  io_turn_ok tmap ulong_bits o s io t request io' s' : io_usable io -> loop_ok false s ->
    io_turn tmap ulong_bits o s io = (t, request, io', s') ->
    io_usable io' /\ noticed io io' /\ (accesses io < accesses io')%nat /\ turn_good s t request s';
  io_close_ok io : io_usable io -> handlers_on io = false -> io_calm io ->
    io_fresh (io_close io).2;
}.

(** ** The loop over any transport *)

Section LoopTheorems.
Context {W S : Type} `{!Host W, !DosAttrs W, CAL : !Calendar, !HostLaws W} `{NAT : !Native}.
Context `{IO : !MainIO W S, SIG : !Signals S, LAW : !MainIOLaws W S}.
Context (tmap : translit_map) (ulong_bits : Z) (o : Options) (others : nat -> W -> W).

Lemma outside_ok n s : loop_ok false s -> loop_ok false (outside others n s).
Proof. intros [[] ?]. by split. Qed.

(** How a loop ends: the transport is in order, the shares are as they were
    configured, and so is the server, but for damage by a packet that does not
    fit. *)
Record ended (s : srv W) (io : S) (e : loop_end) (io' : S) (s' : srv W) : Prop := {
  ended_usable : io_usable io';
  ended_on : handlers_on io' = handlers_on io;
  ended_config : config <$> drives s' = config <$> drives s;
  ended_server : match e with
                 | Corrupted request t => misfit request t
                 | BadMap => False
                 | Stopped => exit_set io' = true /\ loop_ok false s'
                 | Failed _ => loop_ok false s'
                 end;
}.

Lemma main_loop_ended fuel n s io e io' s' : io_usable io -> loop_ok false s ->
  main_loop tmap ulong_bits o others fuel n s io = Some (e, io', s') -> ended s io e io' s'.
Proof.
  revert n s io. induction fuel as [|fuel IH]; intros n s io Hu Hs; [done|]. cbn [main_loop].
  destruct (io_poll_ok io Hu) as (Hu1 & [_ _ Hon1 _] & Hp). destruct (io_poll io) as [stop io1].
  cbn [fst snd] in *. destruct stop; [by intros [= <- <- <-]|].
  destruct (io_turn tmap ulong_bits o (outside others n s) io1) as [[[t request] io2] s2] eqn:Et.
  destruct (io_turn_ok _ _ _ _ _ _ _ _ _ Hu1 (outside_ok n s Hs) Et)
    as (Hu2 & [_ _ Hon2 _] & _ & Hc & Hg).
  destruct (corrupts t) eqn:Eco.
  { intros [= <- <- <-]. by split; [|congruence|..]. }
  assert (main_loop tmap ulong_bits o others fuel (Datatypes.S n) s2 io2 = Some (e, io', s') ->
    ended s io e io' s') as Hgo.
  { intros [H1 H2 H3 H4]%IH; [|done..]. split; [done|congruence|by rewrite H3|done]. }
  destruct t; [exact Hgo|exact Hgo|]. intros [= <- <- <-]. split; [done|congruence|done|done].
Qed.

(** Once [exit_flag] is set no turn is made. *)
Lemma main_loop_stops fuel n s io : io_usable io -> exit_set io = true ->
  is_Some (main_loop tmap ulong_bits o others (Datatypes.S fuel) n s io).
Proof.
  intros Hu He. cbn [main_loop]. destruct (io_poll_ok io Hu) as (_ & [_ Hk _ _] & Hp).
  destruct (io_poll io) as [stop io1]. cbn [fst snd] in *. by rewrite Hp, Hk.
Qed.

(** When a signal arrives at access [t], the loop makes at most as many turns
    as there are accesses up to it. *)
Lemma main_loop_comes_down t fuel n s io : io_usable io -> loop_ok false s ->
  handlers_on io = true -> arrives t ->
  (accesses io <= t)%nat /\ (t - accesses io + 1 < fuel)%nat \/ exit_set io = true /\ (0 < fuel)%nat ->
  is_Some (main_loop tmap ulong_bits o others fuel n s io).
Proof.
  intros Hu Hs Hon Ha Ht. revert n s io Hu Hs Hon Ht.
  induction fuel as [|fuel IH]; intros n s io Hu Hs Hon Ht; [lia|].
  destruct Ht as [[Ht Hf]|[He _]]; [|by apply main_loop_stops].
  cbn [main_loop]. destruct (io_poll_ok io Hu) as (Hu1 & N1 & Hp).
  destruct (io_poll io) as [stop io1]. cbn [fst snd] in *. destruct stop; [done|].
  destruct (io_turn tmap ulong_bits o (outside others n s) io1) as [[[t1 request] io2] s2] eqn:Et.
  destruct (io_turn_ok _ _ _ _ _ _ _ _ _ Hu1 (outside_ok n s Hs) Et) as (Hu2 & N2 & Hlt & Hc & Hg).
  destruct (corrupts t1) eqn:Eco; [done|].
  assert (is_Some (main_loop tmap ulong_bits o others fuel (Datatypes.S n) s2 io2)) as Hgo.
  { destruct N1 as [A1 E1 O1 G1], N2 as [A2 E2 O2 G2]. apply IH; [done|done|congruence|].
    destruct (decide (accesses io2 <= t)%nat) as [|Hn]; [left; lia|]. right. split; [|lia].
    destruct (decide (t < accesses io1)%nat) as [Hl|Hl].
    - apply E2, (G1 t); [lia|done|done].
    - apply (G2 t); [lia|done|congruence]. }
  by destruct t1.
Qed.
End LoopTheorems.

(** ** The three transports *)

(** What a socket promises. *)
Class UdpSocketLaws (S : Type) `{SOCK : !UdpSocket S, SIG : !Signals S} := {
  s_fresh : S -> Prop;
  s_usable : S -> Prop;
  s_calm : S -> Prop;
  s_new_ok : yields s_fresh sock_new (fun _ s => s_usable s /\ handlers_on s = false /\ s_calm s) s_fresh;
  s_bind_ok ip port : triple s_usable noticed (sock_bind ip port) (fun _ => True);
  s_bind_calm ip port s : handlers_on s = false -> s_calm s -> s_calm (sock_bind ip port s).2;
  s_wait_ok ms : triple s_usable noticed (sock_wait_for_data ms) (fun _ => True);
  s_wait_access ms s : s_usable s -> (accesses s < accesses (sock_wait_for_data ms s).2)%nat;
  s_receive_ok n : triple s_usable noticed (sock_receive n) (Forall is_byte);
  s_send_ok data : triple s_usable noticed (sock_send_reply data) (fun _ => True);
  s_ip_str_ok : triple s_usable noticed sock_remote_ip_str (fun _ => True);
  s_poll_ok s : s_usable s -> s_usable (sock_poll s).2 /\ noticed s (sock_poll s).2
    /\ (sock_poll s).1 = exit_set (sock_poll s).2;
  s_pointer_ok b s : s_usable s -> s_usable (sock_pointer b s)
    /\ accesses (sock_pointer b s) = accesses s /\ handlers_on (sock_pointer b s) = handlers_on s
    /\ (s_calm (sock_pointer b s) -> s_calm s);
  s_signals_ok b s : s_usable s -> s_usable (sock_signals b s)
    /\ accesses (sock_signals b s) = accesses s /\ handlers_on (sock_signals b s) = b;
  s_exit_ok s : s_usable s -> s_usable (sock_exit s)
    /\ accesses (sock_exit s) = accesses s /\ handlers_on (sock_exit s) = handlers_on s
    /\ exit_set (sock_exit s) = true;
  s_delete_ok : yields (fun s => s_usable s /\ handlers_on s = false /\ s_calm s) sock_delete
    (fun _ => s_fresh) (fun _ => False);
}.

Section UdpLaws.
Context {W S : Type} `{!Host W, !DosAttrs W, CAL : !Calendar, !HostLaws W} `{NAT : !Native}.
Context `{SOCK : !UdpSocket S, SIG : !Signals S, LAW : !UdpSocketLaws S}.

(** A call of the socket in a turn. *)
Lemma call_ok {A} (m : M S A) Q (io : S) r io' : triple s_usable noticed m Q -> s_usable io ->
  m io = (r, io') -> s_usable io' /\ noticed io io' /\ forall a, r = Ok a -> Q a.
Proof. intros Hm Hu E. specialize (Hm io Hu). by rewrite E in Hm. Qed.

Lemma socket_turn_ok tmap ulong_bits (s : srv W) (io : S) t request io' s' : s_usable io -> loop_ok false s ->
  socket_turn tmap ulong_bits s io = (t, request, io', s') ->
  s_usable io' /\ noticed io io' /\ (accesses io < accesses io')%nat /\ turn_good s t request s'.
Proof.
  intros Hu Hs. unfold socket_turn. pose proof (s_wait_access 10000 io Hu) as Hacc.
  destruct (sock_wait_for_data 10000 io) as [r1 io1] eqn:E1.
  destruct (call_ok _ _ _ _ _ (s_wait_ok 10000) Hu E1) as (Hu1 & N1 & _). cbn [snd] in Hacc.
  assert (forall io2, noticed io1 io2 -> noticed io io2 /\ (accesses io < accesses io2)%nat) as Step.
  { intros io2 N. split; [by etrans|]. destruct N. lia. }
  destruct r1 as [[]|ex]; try (by intros [= <- <- <- <-]).
  destruct (sock_receive _ io1) as [r2 io2] eqn:E2.
  destruct (call_ok _ _ _ _ _ (s_receive_ok _) Hu1 E2) as (Hu2 & N2 & Hb).
  destruct r2 as [packet|ex]; [|intros [= <- <- <- <-]; by destruct (Step _ N2)].
  specialize (Hb packet eq_refl).
  destruct (sock_remote_ip_str io2) as [r3 io3] eqn:E3.
  destruct (call_ok _ _ _ _ _ s_ip_str_ok Hu2 E3) as (Hu3 & N3 & _).
  assert (noticed io1 io3) as N13 by (by etrans).
  destruct r3 as [text|ex]; [|intros [= <- <- <- <-]; by destruct (Step _ N13)].
  destruct (serve tmap ulong_bits _ _ packet s) as [ev s1] eqn:Es.
  destruct (serve_good _ _ _ _ _ _ _ _ Hs Hb Es) as [Hc Hev].
  destruct (Step _ N13) as [N03 L03].
  destruct ev as [| |reply|ex|]; [by intros [= <- <- <- <-]|by intros [= <- <- <- <-]| |done|].
  - destruct (sock_send_reply reply io3) as [r4 io4] eqn:E4.
    destruct (call_ok _ _ _ _ _ (s_send_ok reply) Hu3 E4) as (Hu4 & N4 & _).
    destruct (Step io4) as [N04 L04]; [by etrans|].
    destruct r4; by intros [= <- <- <- <-].
  - intros [= <- <- <- <-]. by split_and!.
Qed.

Lemma open_socket_ok o :
  yields s_fresh (open_socket o) (fun _ => s_usable) s_fresh.
Proof.
  eapply yields_bind; [apply s_new_ok|]. intros [] s (Hu & Hon & Hcalm). unfold try_catch.
  destruct (s_bind_ok (bind_addr o) (bind_port o) s Hu) as (Hu1 & [_ _ Hon1 _] & _).
  pose proof (s_bind_calm (bind_addr o) (bind_port o) s Hon Hcalm) as Hcalm1.
  destruct (sock_bind (bind_addr o) (bind_port o) s) as [[[]|ex] s1]; cbn [snd] in *; [done|].
  unfold bind. pose proof (s_delete_ok s1 (conj Hu1 (conj (eq_trans Hon1 Hon) Hcalm1))) as Hd.
  destruct (sock_delete s1) as [[[]|?] s2]; done.
Qed.

#[export] Instance udp_io_laws : MainIOLaws W S.
Proof.
  refine {| io_fresh := s_fresh : S -> Prop; io_usable := s_usable; io_calm := s_calm |}.
  - apply open_socket_ok.
  - apply s_pointer_ok.
  - apply s_signals_ok.
  - apply s_exit_ok.
  - apply s_poll_ok.
  - intros tmap ulong_bits o. apply socket_turn_ok.
  - intros io Hu Hon Hc. pose proof (s_delete_ok io (conj Hu (conj Hon Hc))) as Hd. cbn.
    by destruct (sock_delete io) as [[]].
Defined.
End UdpLaws.

(** *** Windows *)

(** The bytes of a datagram are bytes. *)
Class WindowsLaws `{!Windows} : Prop := {
  recvfrom_bytes t s d : recvfrom_ret t s = Some d -> Forall is_byte (payload d);
}.

Section WindowsLife.
Context `{WIN : !Windows, NAT : !Native, !WindowsLaws}.

Definition win_usable (s : win) : Prop := exists ps, pointers_ok ps /\ live ps s.

Lemma win_later s s' : later s s' -> noticed s s'.
Proof. by intros []. Qed.

Lemma win_safe {A} (m : M win A) (Q : A -> Prop) :
  (forall ps, pointers_ok ps -> triple (live ps) later m (fun _ => True)) ->
  (forall s a, (m s).1 = Ok a -> Q a) -> triple win_usable noticed m Q.
Proof.
  intros Hm HQ s (ps & Hp & Hs). destruct (Hm ps Hp s Hs) as (Hl & Hn & _).
  split_and!; [by exists ps|by apply win_later|by apply HQ].
Qed.

Lemma win_receive_bytes n s a : (win_receive n s).1 = Ok a -> Forall is_byte a.
Proof.
  unfold win_receive, through, bind at 1 2 3 4, preempt, modify at 1, gets at 1, ret at 1.
  cbn [fst snd]. destruct (recvfrom_ret _ _) as [d|] eqn:E.
  - unfold bind at 1, modify. destruct (_ <? _)%nat.
    + unfold throw_failure, throw_last_error, through, bind, preempt, gets, modify, throw, ret. cbn.
      by case_match.
    + cbn. intros [= <-]. by eapply recvfrom_bytes.
  - unfold throw_failure, throw_last_error, through, bind, preempt, gets, modify, throw, ret. cbn.
    by case_match.
Qed.

(** With no handler installed and none under way, none comes under way. *)
Definition win_quiet (s s' : win) : Prop :=
  signals_set s = false -> handler s = Idle -> signals_set s' = false /\ handler s' = Idle.
#[local] Instance win_quiet_preorder : PreOrder win_quiet.
Proof. split; [by intros s ??|intros a b c H1 H2 Hs Hh; destruct (H1 Hs Hh); auto]. Qed.

Lemma quiet_preempt : keeps win_quiet preempt.
Proof. intros s Hs Hh. unfold preempt. cbn. by rewrite quiet_steps. Qed.
Lemma quiet_ws2_call name s : win_quiet s (ws2_call name s).
Proof. unfold ws2_call. by case_match. Qed.
Lemma quiet_through {A} name (f : nat -> Z -> A) : keeps win_quiet (through name f).
Proof.
  unfold through. apply keeps_bind; [apply _|apply quiet_preempt|intros t].
  apply keeps_bind; [apply _|apply keeps_modify, quiet_ws2_call|intros []].
  apply keeps_bind; [apply _|apply keeps_gets; apply _|intros x]. apply keeps_ret. apply _.
Qed.
#[local] Hint Resolve quiet_preempt quiet_through : keeps.
Lemma quiet_bind ip port : keeps win_quiet (win_bind ip port).
Proof.
  unfold win_bind, ip_from_string, throw_last_error. keeps_tac.
Qed.

#[export] Instance windows_laws : UdpSocketLaws win.
Proof.
  refine {| s_fresh := nothing_held; s_usable := win_usable; s_calm := fun s => handler s = Idle |}.
  - intros s Hs. pose proof (yields_new_Impl s Hs) as Hnew.
    change (sock_new s) with (new_Impl s). destruct (new_Impl s) as [[[]|ex] s']; [|done].
    destruct Hnew as (o & Hr & Hst). split_and!; [|apply Hst|apply Hst].
    exists (pointers o). split; [apply Hr|by apply ready_live].
  - intros ip port. apply win_safe; [|done]. intros ps Hp. by apply life_win_bind.
  - intros ip port s Hon Hc. by destruct (quiet_bind ip port s Hon Hc).
  - intros ms. apply win_safe; [|done]. intros ps Hp. by apply life_wait_for_data.
  - intros ms s (ps & Hp & Hs). by eapply wait_ticks.
  - intros n. apply win_safe; [|apply win_receive_bytes]. intros ps Hp. by apply life_receive.
  - intros data. apply win_safe; [|done]. intros ps Hp. by apply life_send_reply.
  - apply win_safe; [|done]. intros ps Hp. by apply life_ip_str.
  - intros s (ps & Hp & Hs). destruct (life_preempt ps s Hs) as (Hl & Hn & _).
    split_and!; [by exists ps|by apply win_later|done].
  - intros b s (ps & Hp & o & Ho & Hps). split_and!; try done.
    exists ps. split; [done|]. exists o. split; [by destruct Ho|done].
  - intros b s (ps & Hp & o & Ho & Hps). split_and!; try done.
    exists ps. split; [done|]. exists o. split; [by destruct Ho|done].
  - intros s (ps & Hp & o & Ho & Hps). split_and!; try done.
    exists ps. split; [done|]. exists o. split; [by destruct Ho|done].
  - intros s ((ps & Hp & Hs) & Hon & Hc). by apply (yields_delete_Impl ps).
Defined.
End WindowsLife.

(** *** POSIX *)

Class PosixLaws `{!PosixUdp} : Prop := {
  px_recvfrom_bytes t d : px_recvfrom t = Some d -> Forall is_byte (payload d);
}.

(** An address that was stored in network order is read back. *)
Lemma from_big16_to_big16 `{NAT : !Native} x : is_u16 x -> from_big16 (to_big16 x) = x.
Proof.
  intros Hx. unfold from_big16, to_big16. destruct native; [|done].
  rewrite (swap16_split x), byte_swap16_bytes by (done || apply u8_range). unfold is_u16 in Hx.
  Z.to_euclidean_division_equations. lia.
Qed.
Lemma from_big32_to_big32 `{NAT : !Native} x : is_u32 x -> from_big32 (to_big32 x) = x.
Proof.
  intros Hx. unfold from_big32, to_big32. destruct native; [|done].
  rewrite (swap32_split x), byte_swap32_bytes by (done || apply u8_range). symmetry. by apply split32.
Qed.

Section PosixLife.
Context `{PX : !PosixUdp, NAT : !Native, PXL : !PosixLaws}.

Definition px_usable (s : posix) : Prop := px_open s = {[ px_sock s ]}.
Definition px_fresh (s : posix) : Prop := px_open s = ∅ /\ px_on s = false.

Abbreviation px_safe m Q := (triple px_usable noticed m Q).

Lemma px_access_ok : px_safe px_access (fun _ => True).
Proof.
  intros s Hs. cbn. split_and!; [done| |done]. split; cbn; [lia|by intros ->|done|].
  intros t Ht Ha ->. assert (t = px_ticks s) as -> by lia. rewrite Ha. apply orb_true_r.
Qed.
Lemma px_call_ok {A} (f : nat -> A) (Q : A -> Prop) : (forall t, Q (f t)) -> px_safe (px_call f) Q.
Proof.
  intros HQ. eapply triple_bind; [apply _|apply px_access_ok|intros t _].
  apply triple_ret; [apply _|apply HQ].
Qed.
Lemma px_any {A} (f : nat -> A) : px_safe (px_call f) (fun _ => True).
Proof. by apply px_call_ok. Qed.
Lemma px_of_result {A} (r : result A) (Q : A -> Prop) : (forall a, r = Ok a -> Q a) ->
  px_safe (of_result r) Q.
Proof. intros HQ s Hs. cbn. split_and!; [done|done|exact HQ]. Qed.
Lemma px_bind_ok {A B} (m : M posix A) (k : A -> M posix B) P Q :
  px_safe m P -> (forall a, P a -> px_safe (k a) Q) -> px_safe (bind m k) Q.
Proof. intros Hm Hk. by eapply triple_bind; [apply _|..]. Qed.
Lemma px_ret {A} (a : A) (Q : A -> Prop) : Q a -> px_safe (ret a) Q.
Proof. by apply triple_ret, _. Qed.
Lemma px_throw {A} ex (Q : A -> Prop) : px_safe (throw ex) Q.
Proof. apply triple_throw, _. Qed.
Lemma px_gets {A} (f : posix -> A) : px_safe (gets f) (fun _ => True).
Proof. apply triple_gets; [apply _|done]. Qed.

Lemma px_bind_socket_ok ip port : px_safe (px_bind_socket ip port) (fun _ => True).
Proof.
  eapply (px_bind_ok _ _ (fun _ => True)).
  - case_bool_decide; [by apply px_ret|]. eapply (px_bind_ok _ _ (fun _ => True)); [apply px_any|].
    intros r _. case_match; [apply px_throw|by apply px_ret].
  - intros addr _. eapply px_bind_ok; [apply px_gets|intros s _].
    eapply px_bind_ok; [apply px_any|intros r _]. case_match; [apply px_throw|by apply px_ret].
Qed.
Lemma px_wait_ok ms : px_safe (px_wait_for_data ms) (fun _ => True).
Proof. eapply px_bind_ok; [apply px_any|intros r _]. by apply px_of_result. Qed.
Lemma px_receive_ok n : px_safe (px_receive n) (Forall is_byte).
Proof.
  eapply px_bind_ok.
  { apply (px_call_ok px_recvfrom (fun r => forall d, r = Some d -> Forall is_byte (payload d))).
    apply px_recvfrom_bytes. }
  intros r Hr. eapply (px_bind_ok _ _ (fun d => Forall is_byte (payload d))).
  - apply px_of_result. intros d. destruct r as [d'|]; [|done]. intros [= <-].
    cbn. by apply Forall_take, Hr.
  - intros d Hd. eapply (px_bind_ok _ _ (fun _ => True)); [|intros [] _; by apply px_ret].
    intros s Hs. split_and!; [done|by split; [| | |cbn; lia]|done].
Qed.
Lemma px_send_ok data : px_safe (px_send_reply data) (fun _ => True).
Proof. eapply px_bind_ok; [apply px_any|intros r _]. by apply px_of_result. Qed.
Lemma px_ip_str_ok : px_safe px_remote_ip_str (fun _ => True).
Proof.
  eapply px_bind_ok; [apply px_gets|intros a _]. eapply px_bind_ok; [apply px_any|intros [t|] _];
    [by apply px_ret|apply px_throw].
Qed.

#[export] Instance posix_laws : UdpSocketLaws posix.
Proof.
  refine {| s_fresh := px_fresh; s_usable := px_usable; s_calm := fun _ => True |}.
  - intros s [Ho Hon]. cbn. destruct (Z.eqb_spec (px_socket (px_ticks s)) (-1)); cbn; [by split|].
    split_and!; [|done|done]. unfold px_usable. cbn. rewrite Ho. set_solver.
  - apply px_bind_socket_ok.
  - done.
  - apply px_wait_ok.
  - intros ms s _. unfold sock_wait_for_data, posix_udp, px_wait_for_data, px_call, bind, ret, of_result.
    cbn. lia.
  - apply px_receive_ok.
  - apply px_send_ok.
  - apply px_ip_str_ok.
  - intros s Hs. destruct (px_access_ok s Hs) as (H1 & H2 & _). by split_and!.
  - intros b s Hs. by split_and!.
  - intros b s Hs. by split_and!.
  - intros s Hs. by split_and!.
  - intros s (Hu & Hon & _). cbn. split; [|done]. cbn. rewrite Hu. set_solver.
Defined.

(** On POSIX the turn of the loop is the one of Transport.v, with the answers
    of its calls. *)
Lemma posix_turn_answers {W} `{!Host W, !DosAttrs W, CAL : !Calendar} tmap ulong_bits (s : srv W) io :
  let t := px_ticks io in
  (forall a, is_Some (px_inet_ntop (t + 2) a)) ->
  (forall d, px_recvfrom (t + 1) = Some d -> is_u32 (remote_ip d) /\ is_u16 (remote_port d)) ->
  exists request io', socket_turn tmap ulong_bits s io
  = let r := udp_turn tmap ulong_bits (px_select t) (px_recvfrom (t + 1)) (px_sendto (t + 3)) s in
    (r.1, request, io', r.2).
Proof.
  intros t Htext Hfrom.
  rewrite Nat.add_succ_r, Nat.add_1_r in Htext. rewrite !Nat.add_succ_r, Nat.add_0_r in *.
  unfold socket_turn, udp_turn, sock_wait_for_data, sock_receive, sock_remote_ip, sock_remote_port,
    sock_remote_ip_str, sock_send_reply, posix_udp.
  unfold px_wait_for_data, px_call, bind, ret, of_result, px_access. fold t.
  destruct (wait_for_data (px_select t)) as [[]|ex]; cbn [fst snd]; try by do 2 eexists.
  unfold px_receive, px_call, bind, ret, of_result, px_access, modify. cbn [fst snd px_ticks]. fold t.
  destruct (px_recvfrom (S t)) as [d|]; cbn [receive_udp]; [|by do 2 eexists].
  destruct (Hfrom d eq_refl) as [Hip Hport].
  unfold px_remote_ip_str, px_call, bind, ret, gets, px_access, px_remote_ip, px_remote_port.
  cbn [px_ticks px_addr px_port remote_ip remote_port payload]. fold t.
  destruct (Htext (to_big32 (remote_ip d))) as [text Et]. rewrite Et.
  rewrite from_big32_to_big32, from_big16_to_big16 by done.
  destruct (serve _ _ _ _ _ s) as [[] s1]; try by do 2 eexists.
  unfold px_send_reply, px_call, bind, ret, of_result, px_access. cbn [px_ticks]. fold t.
  destruct (send_reply_udp _); by do 2 eexists.
Qed.
End PosixLife.

(** *** A serial line *)

(** The bytes read are bytes. *)
Class PosixLineLaws `{!PosixLine} : Prop := {
  ln_reads_bytes n : Forall (fun r => is_byte r.2) (ln_reads n);
}.

Section LineLife.
Context {W : Type} `{!Host W, !DosAttrs W, CAL : !Calendar, !HostLaws W} `{NAT : !Native}.
Context `{!Termios, LN : !PosixLine, LNL : !PosixLineLaws}.

Record line_usable (l : line) : Prop := {
  lu_open : opened (ln_tty l) = {[ fd (ln_tty l) ]};
  lu_slip : line_ok (ln_slip l);
  lu_pending : Forall read_ok (ln_pending l);
}.
Definition line_fresh (l : line) : Prop := opened (ln_tty l) = ∅ /\ ln_on l = false.

Lemma line_tick_noticed l : noticed l (line_tick l).
Proof.
  split; cbn; [lia|by intros ->|done|]. intros t Ht Ha ->. assert (t = ln_turns l) as -> by lia.
  rewrite Ha. apply orb_true_r.
Qed.

Lemma reads_ok n : Forall read_ok ((fun r => as_read (tty_read_byte r.1 r.2)) <$> ln_reads n).
Proof.
  apply Forall_fmap. eapply Forall_impl; [apply ln_reads_bytes|]. intros [a b] Hb. unfold compose. cbn in *.
  unfold tty_read_byte. case_match; [done|]. cbn. by case_match.
Qed.

Lemma slip_turn_rest tmap ulong_bits port reads write slip (s : srv W) t slip' s' rest :
  slip_turn tmap ulong_bits port reads write slip s = (t, slip', s', rest) ->
  exists pre, reads = pre ++ rest.
Proof.
  unfold slip_turn, receive, recv_decode_slip.
  destruct (recv_loop _ reads false []) as [[r out] rest'] eqn:Er.
  apply recv_loop_suffix in Er. intros E.
  assert (rest' = rest) as <-; [|done]. revert E. repeat case_match; intros ?; by simplify_eq.
Qed.

Lemma line_turn_ok tmap ulong_bits o (s : srv W) l t request l' s' : line_usable l -> loop_ok false s ->
  line_turn tmap ulong_bits o s l = (t, request, l', s') ->
  line_usable l' /\ noticed l l' /\ (accesses l < accesses l')%nat /\ turn_good s t request s'.
Proof.
  intros [Ho Hl Hp] Hs. unfold line_turn. set (reads := ln_pending _ ++ _).
  assert (Forall read_ok reads) as Hr by (apply Forall_app; split; [done|apply reads_ok]).
  destruct (slip_turn _ _ _ reads _ _ s) as [[[t1 slip] s1] rest] eqn:E. intros [= <- <- <- <-].
  pose proof (slip_turn_rest _ _ _ _ _ _ _ _ _ _ _ E) as [pre Er].
  destruct (slip_turn_sound tmap ulong_bits _ _ _ _ _ _ _ _ _ Hs Hl Hr E) as [Hl' Ht].
  split_and!.
  - split; [done|done|]. rewrite Er in Hr. by apply Forall_app in Hr as [].
  - destruct (line_tick_noticed l). by split.
  - cbn. lia.
  - pose proof (slip_turn_config _ _ _ _ _ _ _ _ _ _ _ Hs Hl Hr E) as Hc. split; [done|].
    destruct t1 as [|ev sent|ex]; cbn in *; [by subst| |by destruct Ht as [-> _]].
    destruct ev as [| |reply|ex|]; [| | | |by destruct Ht as (packet & cs & ? & ?); exists packet, cs; split; [|right]].
    all: destruct Ht as [Hok Hover]; destruct sent as [[]|]; try exact Hok.
    all: destruct (Hover eq_refl) as (reply' & E' & Hlen); by simplify_eq.
Qed.

Lemma line_open_ok o : yields line_fresh (line_open o) (fun _ => line_usable) line_fresh.
Proof.
  intros l [Hl Hon]. unfold line_open, tty_open.
  destruct (Z.eqb_spec (ln_open (slip_dev o)) INVALID_FD); [by split|].
  unfold tty_setup. cbn [opened]. rewrite Hl.
  assert (forall f : Z, ({[ f ]} ∪ ∅ : gset Z) ∖ {[ f ]} = ∅) as Hclose by set_solver.
  repeat case_match; simplify_eq; cbn; try (split; [cbn; apply Hclose|done]).
  split; cbn; [set_solver|apply line_init_ok|constructor].
Qed.

#[export] Instance line_io_laws : MainIOLaws W line.
Proof.
  refine {| io_fresh := line_fresh; io_usable := line_usable; io_calm := fun _ => True |}.
  - apply line_open_ok.
  - intros b l Hl. by split_and!.
  - intros b l Hl. split_and!; [by destruct Hl|done|done].
  - intros l Hl. split_and!; [by destruct Hl|done..].
  - intros l Hl. split_and!; [by destruct Hl|apply line_tick_noticed|done].
  - intros tmap ulong_bits o. apply line_turn_ok.
  - intros l [Ho _ _] Hon _. cbn. split; [|done]. cbn. rewrite Ho. set_solver.
Defined.
End LineLife.

(** ** The whole program *)

Section ProgramTheorems.
Context {W S : Type} `{!Host W, !DosAttrs W, CAL : !Calendar, !HostLaws W} `{NAT : !Native}.
Context `{IO : !MainIO W S, SIG : !Signals S, LAW : !MainIOLaws W S}.
Context (ulong_bits : Z) (others : nat -> W -> W) (o : Options).

(** How the serving ends, before the destructor of the transport. *)
Record served_out (s : srv W) (e : loop_end) (io' : S) (s' : srv W) : Prop := {
  so_usable : io_usable io';
  so_off : undefined_end e = false -> handlers_on io' = false;
  so_config : config <$> drives s' = config <$> drives s;
  so_server : match e with
               | Corrupted request t => misfit request t
               | BadMap => False
               | _ => loop_ok false s'
               end;
}.

(** What remains to be done after the loop. *)
Lemma served_after tmap fuel s io3 r io' s' : io_usable io3 -> loop_ok false s ->
  match main_loop tmap ulong_bits o others fuel 0 s io3 with
  | None => None
  | Some (e, io, s) =>
      Some (Some e, if undefined_end e then io else io_pointer false (io_signals false io), s)
  end = Some (r, io', s') ->
  match r with None => False | Some BadMap => False | Some e => served_out s e io' s' end.
Proof.
  intros U3 Hs. destruct (main_loop _ _ _ _ fuel 0 s io3) as [[[e io4] s4]|] eqn:El; [|done].
  destruct (main_loop_ended _ _ _ _ _ _ _ _ _ _ _ U3 Hs El) as [U4 _ Hc Hsrv].
  destruct (io_signals_ok false io4 U4) as (U5 & _ & Hoff).
  destruct (io_pointer_ok false _ U5) as (U6 & _ & Hoff' & _).
  intros [= <- <- <-]. destruct e as [|ex|request t|]; [| | |done]; split; try done; cbn; intros; try congruence.
  apply Hsrv.
Qed.

Lemma serve_drives_result fuel map s io r io' s' : io_fresh io -> loop_ok false s ->
  serve_drives ulong_bits others fuel o map s io = Some (r, io', s') ->
  match r with
  | None => io_fresh io' /\ s' = s
  | Some BadMap => map = LoadUndefined
  | Some e => served_out s e io' s'
  end.
Proof.
  intros Hf Hs. unfold serve_drives. pose proof (io_open_ok o io Hf) as Ho.
  destruct (io_open o io) as [[[]|ex] io0]; [|by intros [= <- <- <-]].
  destruct (io_pointer_ok true io0 Ho) as (U1 & _ & _ & _).
  destruct (io_signals_ok true _ U1) as (U2 & _ & _). set (io2 := io_signals true _) in *.
  destruct map as [tmap| |].
  - intros E%served_after; [|done..]. by destruct r as [[]|].
  - destruct (io_exit_ok io2 U2) as (U3 & _). intros E%served_after; [|done..]. by destruct r as [[]|].
  - by intros [= <- <- <-].
Qed.

Lemma serve_drives_ends t map s io : io_fresh io -> loop_ok false s ->
  (accesses (io_open o io).2 <= t)%nat -> arrives t ->
  exists N, forall fuel, (N <= fuel)%nat -> is_Some (serve_drives ulong_bits others fuel o map s io).
Proof.
  intros Hf Hs Ht Ha. unfold serve_drives. pose proof (io_open_ok o io Hf) as Ho.
  destruct (io_open o io) as [[[]|ex] io0]; [|by exists 0%nat]. cbn [snd] in Ht.
  destruct (io_pointer_ok true io0 Ho) as (U1 & A1 & _ & _).
  destruct (io_signals_ok true _ U1) as (U2 & A2 & On2). set (io2 := io_signals true _) in *.
  exists (t + 2)%nat. intros fuel Hfuel.
  assert (forall tmap io3, io_usable io3 -> accesses io3 = accesses io2 -> handlers_on io3 = true ->
    is_Some match main_loop tmap ulong_bits o others fuel 0 s io3 with
    | None => None
    | Some (e, io, s) =>
        Some (Some e, if undefined_end e then io else io_pointer false (io_signals false io), s)
    end) as Run.
  { intros tmap io3 U3 A3 On3.
    destruct (main_loop_comes_down tmap ulong_bits o others t fuel 0 s io3) as [[[e io4] s4] ->];
      [done|done|done|done|left; lia|done]. }
  destruct map as [tmap| |]; [by apply Run| |done].
  destruct (io_exit_ok io2 U2) as (U3 & A3 & On3 & _). apply Run; [done|done|congruence].
Qed.
End ProgramTheorems.

Lemma loop_ok_relax {W} `{NAT : !Native} strict (s : srv W) : loop_ok true s -> loop_ok strict s.
Proof.
  intros [[Hn Hc Hd] Hi]. split; [|done]. split; [done|done|].
  eapply Forall_impl; [exact Hd|]. intros d H Hu. destruct (H Hu) as [H1 H2 H3 H4 H5]. split; try done.
  eapply Forall_impl; [exact H5|]. intros i [[Hne Hb] He Hf]. split; [|done|done].
  split; [done|]. intros _. by apply Hb.
Qed.

Section MainTheorem.
Context {W U L : Type} `{!Host W, !DosAttrs W, CAL : !Calendar, !HostLaws W} `{NAT : !Native}.
Context `{IOU : !MainIO W U, SIGU : !Signals U, LAWU : !MainIOLaws W U}.
Context `{IOL : !MainIO W L, SIGL : !Signals L, LAWL : !MainIOLaws W L}.
Context (long_bits ulong_bits : Z) (others : nat -> W -> W) (file : path -> option bytes).

(** The serving ended in [io], the destructor was entered in that state, and
    when no thread of the signal handler was under way in it, nothing is held
    any more. *)
Definition closed {S} `{IO : !MainIO W S, SIG : !Signals S, LAW : !MainIOLaws W S}
    (run : option (option loop_end * S * srv W)) (io' : S) : Prop :=
  exists e io s, run = Some (Some e, io, s) /\ io_usable io /\ handlers_on io = false
    /\ io' = (io_close io).2 /\ (io_calm io -> io_fresh io').

(** What [main] reaches when it serves over the transport [io]. *)
Lemma main_result_ok {S} `{IO : !MainIO W S, SIG : !Signals S, LAW : !MainIOLaws W S}
    fuel o map cwd w ds (io : S) r (finish : S -> U * L) :
  let s := mkSrv w cwd ds ReplyCache_default in
  io_fresh io -> loop_ok false s ->
  serve_drives ulong_bits others fuel o map s io = Some r ->
  match main_result r finish with
  | Returns code udp serial served =>
      exists io', (udp, serial) = finish io'
      /\ match served with
         | None => code = -1 /\ io_fresh io'
         | Some s' => code = 0 /\ config <$> drives s' = config <$> ds /\ loop_ok false s'
             /\ closed (Some r) io'
         end
  | AnythingAfter (Corrupted request t) => misfit request t
  | AnythingAfter BadMap => map = LoadUndefined
  | AnythingAfter _ => False
  end.
Proof.
  intros s Hf Hs. destruct r as [[r io'] s']. intros E.
  pose proof (serve_drives_result _ _ _ _ _ _ _ _ _ _ Hf Hs E) as H.
  assert (forall e, served_out s e io' s' -> undefined_end e = false ->
    config <$> drives s' = config <$> ds /\ closed (Some (Some e, io', s')) (io_close io').2) as Fin.
  { intros e [H1 H2 H3 _] He. split; [done|]. exists e, io', s'. split_and!; auto. intros Hc.
    apply io_close_ok; auto. }
  destruct r as [[|ex|request t|]|]; cbn.
  - destruct (finish (io_close io').2) eqn:Ef. exists (io_close io').2. destruct (Fin _ H eq_refl).
    split_and!; try done. apply H.
  - destruct (finish (io_close io').2) eqn:Ef. exists (io_close io').2. destruct (Fin _ H eq_refl).
    split_and!; try done. apply H.
  - apply H.
  - done.
  - destruct (finish io') eqn:Ef. exists io'. by destruct H.
Qed.

(** C4: the server comes down when it is told to: whatever the command line,
    the clients and the other programs of the machine do, when the stop signal
    is sent often enough [main] returns, unless a datagram has damaged the
    memory of the server before - one that carries more than 1500 bytes or a
    READ_FILE of more than 1492, or one whose reply of more than 1471 bytes
    does not fit the serial transmit buffer - or a malformed line of the map
    of names was read out of its bounds; nothing is claimed of these runs.
    When it returns from serving it has served with the shares of
    the command line, unchanged, the server is in a well-formed state, the
    signal handlers are put back, and the destructor of the transport, socket
    or serial port, has given back what was held; on Windows this last part
    needs that no thread of the signal handler is under way when the
    destructor is entered ([io_calm]).  A server that could not start holds
    nothing and reports it by its exit code. *)
Theorem main_comes_down args w cwd (udp : U) (serial : L) :
  io_fresh udp -> io_fresh serial ->
  (forall n, exists t, (n <= t)%nat /\ arrives (S := U) t) ->
  (forall n, exists t, (n <= t)%nat /\ arrives (S := L) t) ->
  exists N, forall fuel, (N <= fuel)%nat -> exists r,
    main long_bits ulong_bits others file fuel args w cwd udp serial = Some r
    /\ match r with
       | Returns code udp' serial' None => io_fresh udp' /\ io_fresh serial'
           /\ (startup long_bits w args = Some (inl code) \/ code = -1)
       | Returns code udp' serial' (Some s') => code = 0
           /\ exists o ds, startup long_bits w args = Some (inr (o, ds))
           /\ config <$> drives s' = config <$> ds /\ loop_ok false s'
           /\ let run {S} `{!MainIO W S} (io : S) :=
                serve_drives ulong_bits others fuel o (startup_map ds o file)
                  (mkSrv w cwd ds ReplyCache_default) io in
              if bool_decide (slip_dev o = []) then closed (run udp) udp' /\ serial' = serial
              else closed (run serial) serial' /\ udp' = udp
       | AnythingAfter (Corrupted request t) => misfit request t
       | AnythingAfter BadMap => exists o ds,
           startup long_bits w args = Some (inr (o, ds)) /\ startup_map ds o file = LoadUndefined
       | AnythingAfter _ => False
       end.
Proof.
  intros Hu Hl Hsu Hsl. unfold main.
  destruct (startup_total long_bits w args) as [[code|[o ds]] Est]; rewrite Est.
  { exists 0%nat. intros fuel _. eexists. split; [reflexivity|]. by split_and!; auto. }
  destruct (startup_ok long_bits w args o ds cwd Est) as [Hs%(loop_ok_relax false) _].
  set (s := mkSrv w cwd ds ReplyCache_default) in *.
  case_bool_decide as Hdev.
  - destruct (Hsu (accesses (io_open o udp).2)) as (t & Ht & Ha).
    destruct (serve_drives_ends ulong_bits others o t (startup_map ds o file) s udp Hu Hs Ht Ha) as [N HN].
    exists N. intros fuel [r E]%HN.
    pose proof (main_result_ok _ _ _ _ _ _ _ _ (fun udp => (udp, serial)) Hu Hs E) as H.
    rewrite E. cbn. eexists. split; [reflexivity|].
    destruct (main_result r _) as [code udp' serial' [s'|]|[]]; [| |done|done|done|by exists o, ds].
    + destruct H as (io' & [= -> ->] & ? & ? & ? & ?). split; [done|]. exists o, ds.
      rewrite bool_decide_eq_true_2, <- E in * by done. by split_and!.
    + destruct H as (io' & [= -> ->] & ? & ?). by split_and!; [..|right].
  - destruct (Hsl (accesses (io_open o serial).2)) as (t & Ht & Ha).
    destruct (serve_drives_ends ulong_bits others o t (startup_map ds o file) s serial Hl Hs Ht Ha) as [N HN].
    exists N. intros fuel [r E]%HN.
    pose proof (main_result_ok _ _ _ _ _ _ _ _ (fun serial => (udp, serial)) Hl Hs E) as H.
    rewrite E. cbn. eexists. split; [reflexivity|].
    destruct (main_result r _) as [code udp' serial' [s'|]|[]]; [| |done|done|done|by exists o, ds].
    + destruct H as (io' & [= -> ->] & ? & ? & ? & ?). split; [done|]. exists o, ds.
      rewrite bool_decide_eq_false_2, <- E in * by done. by split_and!.
    + destruct H as (io' & [= -> ->] & ? & ?). by split_and!; [..|right].
Qed.
End MainTheorem.

(** ** The socket on Windows, from the start of the process *)

Section WindowsTheorem.
Context {W : Type} `{!Host W, !DosAttrs W, CAL : !Calendar, !HostLaws W} `{NAT : !Native}.
Context `{WIN : !Windows, WINL : !WindowsLaws}.
Context (ulong_bits : Z) (others : nat -> W -> W).

(** C21: on Windows, whatever the system answers, whatever is missing from its
    socket library and whenever the thread of the signal handler runs up to
    the point at which the serving ends: no function was called through a null
    pointer or after its library was given back, the socket library was used
    only between its start and its clean-up, and the socket was closed at most
    once.  A constructor that fails leaves nothing held.  Otherwise, unless a
    request or the map of names has damaged the memory, the signal handlers
    are put back, and a destructor that finds no thread of the signal handler
    under way closes the socket if the handler has not, and leaves nothing
    held.  (A thread that is under way then still uses the object: Example
    [handler_outlives_object] of ProgramSamples.v.) *)
Theorem windows_socket_life fuel o map s r io' s' :
  loop_ok false s -> serve_drives ulong_bits others fuel o map s win_start = Some (r, io', s') ->
  match r with
  | None => broken io' = false /\ nothing_held io'
  | Some BadMap => map = LoadUndefined
  | Some (Corrupted request t) => broken io' = false /\ misfit request t
  | Some _ => broken io' = false /\ signals_set io' = false
      /\ (handler io' = Idle -> (delete_Impl io').1 = Ok tt /\ nothing_held (delete_Impl io').2)
  end.
Proof.
  intros Hs E. assert (nothing_held win_start) as H0 by done.
  pose proof (serve_drives_result (IO := udp_io) _ _ _ _ _ _ _ _ _ _ H0 Hs E) as H.
  destruct r as [e|]; [|by destruct H as [Hn _]; split; [apply Hn|]].
  assert (served_out s e io' s' -> broken io' = false) as Hbr.
  { intros [(ps & Hp & Hl) _ _ _]. by destruct Hl as (o' & [] & _). }
  assert (served_out s e io' s' -> undefined_end e = false -> signals_set io' = false
    /\ (handler io' = Idle -> (delete_Impl io').1 = Ok tt /\ nothing_held (delete_Impl io').2)) as Hdel.
  { intros [(ps & Hp & Hl) Hoff _ _] He. split; [by apply Hoff|]. intros Hh.
    pose proof (yields_delete_Impl ps (fun _ => False) io' (conj Hl (conj (Hoff He) Hh))) as Hd.
    by destruct (delete_Impl io') as [[[]|] ?]. }
  destruct e; [by auto|by auto| |done]. split; [by auto|apply H].
Qed.
End WindowsTheorem.
