(* ===== verification/ProgramSamples.v ===== *)
(** * ProgramSamples: runs of the whole server

    A machine with Windows' sockets and one with a serial line, on which the
    theorems of Program.v are applied; and three runs that show what the
    Windows socket does differently from the one for POSIX. *)
From stdpp Require Import gmap.
From S2P Require Import Prelude Words Checksum Slip Unicode Paths FatTime Host Attrs Files Drive.
From S2P Require Import Fcb DriveInv Protocol ReplyCache Server MemFs Samples ServerInv MainLoop Config Transport WinSocket SerialPort Program.
#[local] Open Scope Z_scope.

(** ** Windows

    The constructor makes the accesses 0 to 13 and [bind] the access 14; the
    first turn begins with access 15.  One datagram is ready at access 16;
    then the handler makes [n] steps before access [stop], after which the socket
    is closed. *)
Definition sample_windows (datagram : bytes) (stop n : nat) : Windows := {|
  load_library := fun _ _ => Some 100;
  get_proc_address := fun _ _ => true;
  wsa_startup := fun _ => 0;
  new_socket := fun _ => 7;
  bind_ret := fun _ _ _ _ => 0;
  select_ret := fun t _ _ _ => if (stop <=? t)%nat then SOCKET_ERROR else if (t =? 16)%nat then 1 else 0;
  recvfrom_ret := fun _ s => if s =? 7 then Some (mkFrom datagram 0x0A000001 1024) else None;
  sendto_ret := fun _ _ data _ _ => zlen data;
  inet_pton_ret := fun _ _ => (1, 0x0100007F);
  inet_addr_ret := fun _ _ => 0x0100007F;
  inet_ntop_ret := fun _ _ _ => Some (str "10.0.0.1");
  inet_ntoa_ret := fun _ _ => Some (str "10.0.0.1");
  handler_steps := fun t => if (t =? stop)%nat then n else 0%nat |}.

Lemma sample_windows_laws datagram stop n : Forall is_byte datagram ->
  @WindowsLaws (sample_windows datagram stop n).
Proof. intros Hb. split. intros t s d. cbn. case_match; [|done]. by intros [= <-]. Qed.

Definition sample_others (n : nat) (w : mem) : mem := w.

(** The run with [fuel] turns, from the start of the process. *)
Definition windows_run (datagram : bytes) (stop n fuel : nat) : option (option loop_end * win * srv mem) :=
  let WIN := sample_windows datagram stop n in
  serve_drives 64 sample_others fuel Options_default (Loaded ∅) sample_server win_start.

Definition end_of (r : option (option loop_end * win * srv mem)) : option loop_end := r ≫= fun r => r.1.1.
Definition socket_of (r : option (option loop_end * win * srv mem)) : win :=
  from_option (fun r => r.1.2) win_start r.
Definition server_of (r : option (option loop_end * win * srv mem)) : srv mem :=
  from_option snd sample_server r.

(** A request is served, and a signal between two turns ends the loop. *)
Example windows_serves :
  let r := windows_run make_new 21 4 5 in
  end_of r = Some Stopped /\ is_dir (sworld (server_of r)) [str "srv"; str "new"] = true
  /\ handler (socket_of r) = Idle.
Proof. vm_compute. repeat split; reflexivity. Qed.

(** A signal that comes during [select] ends the loop by an exception, not by
    [WaitResult::SIGNAL]: the error of [select] is looked at before the flag. *)
Example stop_during_select :
  let r := windows_run make_new 22 4 5 in
  end_of r = Some (Failed RuntimeError) /\ exit_flag (socket_of r) = true
  /\ from_option signaled false (impl (socket_of r)) = true.
Proof. vm_compute. repeat split; reflexivity. Qed.

(** When the handler has closed the socket, which wakes [main], and has not
    yet stored [INVALID_SOCKET], [main] ends and destroys the object; the
    handler then writes to it. *)
Example handler_outlives_object :
  let WIN := sample_windows make_new 22 3 in
  let r := windows_run make_new 22 3 5 in
  let io := (delete_Impl (socket_of r)).2 in
  end_of r = Some (Failed RuntimeError) /\ impl io = None /\ broken io = false
  /\ handler io = Closing /\ broken (handler_step io) = true.
Proof. vm_compute. repeat split; reflexivity. Qed.

(** ** POSIX *)

Definition sample_posix (datagram : bytes) (stop : nat) : PosixUdp := {|
  px_socket := fun _ => 3;
  px_inet_pton := fun _ _ => (1, 0);
  px_bind := fun _ _ _ _ => 0;
  px_select := fun t => if (t =? 3)%nat then SelectReady else SelectTimeout;
  px_recvfrom := fun _ => Some (mkFrom datagram 0x0A000001 1024);
  px_sendto := fun _ data => Some (zlen data);
  px_inet_ntop := fun _ _ => Some (str "10.0.0.1");
  px_signal := fun t => (t =? stop)%nat |}.

(** A datagram longer than the buffer. *)
Definition long_datagram : bytes := replicate (Z.to_nat 2049) 65.

(** A datagram of more than 2048 bytes is an error of [recvfrom] on Windows
    and ends the server; on POSIX it is cut, and the server goes on. *)
Example long_datagram_ends_windows :
  end_of (windows_run long_datagram 40 4 20) = Some (Failed RuntimeError)
  /\ exit_flag (socket_of (windows_run long_datagram 40 4 20)) = false
  /\ let PX := sample_posix long_datagram 20 in
     (fun r => r.1.1) <$> serve_drives 64 sample_others 20 Options_default (Loaded ∅) sample_server
       (mkPosix 0 ∅ 0 0 false false 0)
     = Some (Some Stopped).
Proof. vm_compute. repeat split; reflexivity. Qed.

(** ** The theorems on these machines *)

Lemma windows_run_eq datagram stop n fuel : windows_run datagram stop n fuel
  = @serve_drives mem win
      (@udp_io _ _ _ _ _ sample_native (@windows_udp (sample_windows datagram stop n) sample_native))
      64 sample_others fuel Options_default (Loaded ∅) sample_server win_start.
Proof. reflexivity. Qed.

Lemma windows_socket_life_witness :
  exists io' s', windows_run make_new 21 4 5 = Some (Some Stopped, io', s')
  /\ broken io' = false /\ signals_set io' = false /\ @nothing_held (@delete_Impl (sample_windows make_new 21 4) io').2.
Proof.
  destruct (windows_run make_new 21 4 5) as [[[e io'] s']|] eqn:E.
  2: { exfalso. apply (f_equal end_of) in E. vm_compute in E. discriminate E. }
  assert (e = Some Stopped) as ->.
  { apply (f_equal end_of) in E. vm_compute in E. symmetry. exact E. }
  assert (handler io' = Idle) as Hh.
  { apply (f_equal (fun r => handler (socket_of r))) in E. vm_compute in E. symmetry. exact E. }
  exists io', s'. split; [reflexivity|]. rewrite windows_run_eq in E.
  destruct (@windows_socket_life mem _ _ _ _ sample_native (sample_windows make_new 21 4)
    (sample_windows_laws make_new 21 4 make_new_bytes) 64 sample_others 5 Options_default (Loaded ∅)
    sample_server (Some Stopped) io' s' (sample_loop_ok false) E) as (Hb & Hs & Hr).
  split; [exact Hb|]. split; [exact Hs|]. exact (proj2 (Hr Hh)).
Defined.

(** A serial port on which nothing arrives, and a signal at every access. *)
Definition silent_line : PosixLine := {|
  ln_open := fun _ => 4;
  ln_tcgetattr := 0;
  ln_tcsetattr := 0;
  ln_reads := fun _ => [];
  ln_write := fun _ frame => zlen frame;
  ln_signal := fun _ => true |}.

Lemma silent_line_laws : @PosixLineLaws silent_line.
Proof. split. intros n. apply Forall_nil_2. Qed.

(** A machine that is asked to stop again and again. *)
Definition stopping_posix : PosixUdp := {|
  px_socket := fun _ => 3;
  px_inet_pton := fun _ _ => (1, 0);
  px_bind := fun _ _ _ _ => 0;
  px_select := fun _ => SelectReady;
  px_recvfrom := fun _ => Some (mkFrom make_new 0x0A000001 1024);
  px_sendto := fun _ data => Some (zlen data);
  px_inet_ntop := fun _ _ => Some (str "10.0.0.1");
  px_signal := fun t => Nat.even t |}.

Lemma stopping_posix_laws : @PosixLaws stopping_posix.
Proof. split. intros t d [= <-]. exact make_new_bytes. Qed.

Definition sample_line : line :=
  mkLine (mkTty (-1) ∅ cooked) (SlipUdpSerial_init 0) [] false false 0.

(** The server on this machine. *)
Definition stopping_main (fuel : nat) (args : list bytes) : option (main_end mem posix line) :=
  @main mem posix line _ _ (@udp_io _ _ _ _ _ sample_native (@posix_udp stopping_posix _))
    (@line_io _ _ _ _ sample_native linux_termios silent_line)
    64 64 sample_others (fun _ => None) fuel args sample_world (str "/")
    (mkPosix 0 ∅ 0 0 false false 0) sample_line.

Lemma main_comes_down_witness :
  exists N r, stopping_main N [str "--bind-port=700"; str "C=/srv,attrs=extended"] = Some r
  /\ match r with
     | Returns code udp' serial' (Some s') => code = 0 /\ px_open udp' = ∅ /\ serial' = sample_line
     | Returns code udp' serial' None => code = -1 /\ px_open udp' = ∅
     | AnythingAfter (Corrupted request t) => @misfit sample_native request t
     | AnythingAfter _ => False
     end.
Proof.
  destruct (@main_comes_down mem posix line _ _ _ _ sample_native
    (@udp_io _ _ _ _ _ _ (@posix_udp stopping_posix _)) (@posix_signals stopping_posix)
    (@udp_io_laws _ _ _ _ _ _ _ _ _ (@posix_laws stopping_posix _ stopping_posix_laws))
    (@line_io _ _ _ _ _ linux_termios silent_line) (@line_signals silent_line)
    (@line_io_laws _ _ _ _ _ _ linux_termios silent_line silent_line_laws)
    64 64 sample_others (fun _ => None) [str "--bind-port=700"; str "C=/srv,attrs=extended"]
    sample_world (str "/") (mkPosix 0 ∅ 0 0 false false 0) sample_line) as [N HN].
  - split; reflexivity.
  - split; reflexivity.
  - intros n. exists (2 * n)%nat. split; [lia|]. cbn [arrives posix_signals px_signal stopping_posix].
    apply Nat.even_even.
  - intros n. exists n. split; [lia|reflexivity].
  - destruct (HN N (le_n N)) as (r & Hm & Hr). exists N, r. split; [exact Hm|].
    destruct r as [code udp' serial' [s'|]|[| |request t|]].
    + destruct Hr as (Hc & o & ds & Hs & _ & _ & Hr).
      assert (slip_dev o = []) as Hd.
      { apply (f_equal (fun s => match s with Some (inr (o, _)) => slip_dev o | _ => [] end)) in Hs.
        vm_compute in Hs. symmetry. exact Hs. }
      rewrite bool_decide_eq_true_2 in Hr by exact Hd. destruct Hr as [(e & io & s & _ & _ & _ & _ & Hf) Hl].
      destruct (Hf I) as [Ho _]. split; [exact Hc|]. split; [exact Ho|exact Hl].
    + destruct Hr as ([Ho _] & _ & [Hc|Hc]); [vm_compute in Hc; discriminate Hc|].
      split; [exact Hc|exact Ho].
    + exact Hr.
    + exact Hr.
    + exact Hr.
    + destruct Hr as (o & ds & _ & Hb). unfold startup_map in Hb. destruct (_ && _); discriminate Hb.
Defined.

(** One that is served over the socket, one over the line, one that is
    refused. *)
Example main_runs :
  let codes args := match stopping_main 5 args with
    | Some (Returns code udp serial served) =>
        Some (code, bool_decide (px_open udp = ∅), bool_decide (opened (ln_tty serial) = ∅),
              bool_decide (is_Some served))
    | _ => None
    end in
  codes [str "C=/srv"] = Some (0, true, true, true)
  /\ codes [str "--slip-dev=/dev/tty1"; str "--slip-speed=9600"; str "C=/srv"] = Some (0, true, true, true)
  /\ codes [str "--slip-dev=/dev/tty1"; str "--slip-speed=777"; str "C=/srv"] = Some (-1, true, true, false).
Proof. vm_compute. repeat split; reflexivity. Qed.
