(* ===== verification/Resident.v ===== *)
(** * Resident: the data and the helpers of the DOS client (netmount.c,
    shared/shdata.h, shared/dos.h, i86.h)

    The resident part of netmount.c lives in memory shared by the INT 2Fh
    handler and the receive interrupt of the packet driver.  [client] holds its
    variables, [dos] what the handler reads and writes of DOS: the registers of
    the caller, the swappable data area and the structures ES:DI and the DTA
    point to.  Far pointers are followed here: a field holds what is pointed
    to.  The machine is a PC, so all words in memory are little-endian. *)
From S2P Require Import Prelude Words Checksum Fcb.

(** ** Computations of the client

    C code that may write past the end of a buffer ([Overrun]) or wait longer
    than its fuel ([Waiting]). *)
Inductive outcome (A : Type) :=
  | Done (a : A)
  | Overrun
  | Waiting.
Arguments Done {A} a. Arguments Overrun {A}. Arguments Waiting {A}.

Definition C (S A : Type) : Type := S -> outcome (A * S).

Section Computations.
Context {S : Type}.

Definition pure {A} (a : A) : C S A := fun s => Done (a, s).
Definition andthen {A B} (m : C S A) (k : A -> C S B) : C S B :=
  fun s => match m s with
           | Done (a, s) => k a s
           | Overrun => Overrun
           | Waiting => Waiting
           end.
Definition reads {A} (f : S -> A) : C S A := fun s => Done (f s, s).
Definition writes (f : S -> S) : C S unit := fun s => Done (tt, f s).
End Computations.

Declare Scope client_scope.
Delimit Scope client_scope with client.
Notation "'let!' x ':=' m 'in' k" := (andthen m (fun x => k))
  (at level 10, x name, m at level 100, k at level 200) : client_scope.
Notation "'let!' ' p ':=' m 'in' k" := (andthen m (fun x => match x with p => k end))
  (at level 10, p pattern, m at level 100, k at level 200) : client_scope.
Notation "'do!' m 'in' k" := (andthen m (fun _ => k))
  (at level 10, m at level 100, k at level 200) : client_scope.
Open Scope client_scope.

(** ** Sizes and constants *)

Abbreviation FILE_BUFFER_SIZE := 64 (only parsing).
Abbreviation MAX_FRAMESIZE := 1518 (only parsing).
Abbreviation NETWORK_ERROR := 0xFFFF (only parsing).
Abbreviation ARP_REQUEST_RCV_TMO_SEC := 1 (only parsing).
Abbreviation ARP_REQUEST_MAX_RETRIES := 4 (only parsing).
Abbreviation CHECKSUM_IP_HEADER := 1 (only parsing).
Abbreviation CHECKSUM_NETMOUNT_PROTO := 2 (only parsing).
Abbreviation DOS_EXTERR_ATTEMPT_REMOVE_CUR_DIR := 16 (only parsing).
Abbreviation DOS_EXTERR_NOT_SAME_DEVICE := 17 (only parsing).
Abbreviation I86_FLAG_CF := 1 (only parsing).

(** Where the headers and the data of a request lie in an [ether_frame]. *)
Abbreviation sizeof_mac_hdr := 14 (only parsing).
Abbreviation sizeof_ipv4_hdr := 20 (only parsing).
Abbreviation sizeof_udp_hdr := 8 (only parsing).
Abbreviation sizeof_drive_proto_hdr := 8 (only parsing).
Abbreviation UDP_DATA := 42%nat (only parsing).
Abbreviation DRIVE_DATA_OFFSET := 50%nat (only parsing).

(** ** The shared data *)

Record drive_info := mkDriveInfo {
  remote_ip_idx : Z;
  remote_port : Z;
  min_rcv_tmo_18_2_ticks_shr_2 : Z;
  max_rcv_tmo_18_2_ticks_shr_2 : Z;
  max_request_retries : Z;
  enabled_checksums : Z;
  min_server_read_len : Z;
}.

Record ip_mac := mkIpMac { ip_value : Z; mac_bytes : bytes }.

Record shared_data := mkShared {
  drive_map : list Z;
  drive_infos : list drive_info;
  local_ipv4 : Z;
  net_mask : Z;
  local_port : Z;
  disable_sending_arp_request : Z;
  gateway_ip_slot : Z;
  interface_mtu : Z;
  ip_mac_map : list ip_mac;
  local_mac_addr : bytes;
  last_remote_ip : Z;
  last_remote_udp_port : Z;
  server_response_received : Z;
  has_drive_extended_features : list Z;
}.

(** Elements of the fixed arrays; the indices are in range, see [client_ok]. *)
Definition drive_info_of (sh : shared_data) (drive : Z) : drive_info :=
  nth (Z.to_nat drive) (drive_infos sh) (mkDriveInfo 0 0 0 0 0 0 0).
Definition ip_mac_of (sh : shared_data) (slot : Z) : ip_mac :=
  nth (Z.to_nat slot) (ip_mac_map sh) (mkIpMac 0 [0; 0; 0; 0; 0; 0]).

Record file_buffer := mkFileBuffer {
  fb_timestamp : Z;
  fb_offset : Z;
  fb_start_cluster : Z;
  fb_drive_no : Z;
  valid_bytes : Z;
  fb_data : bytes;
}.

(** The variables of the resident part. *)
Record client := mkClient {
  shared : shared_data;
  recv_buff : bytes;
  recv_data_len : Z;
  send_buff : bytes;
  arp_request_buff : bytes;
  ipv4_last_sent_packet_id : Z;
  request_last_sent_seq_num : Z;
  req_drive : Z;
  read_file_buffer : file_buffer;
}.

(** ** What the client sees of DOS *)

Record regs_pack := mkRegs {
  r_ax : Z; r_bx : Z; r_cx : Z; r_dx : Z; r_si : Z; r_di : Z; r_flags : Z;
}.

Record dos_sft := mkSft {
  handle_count : Z;
  sft_open_mode : Z;
  file_attr : Z;
  dev_info_word : Z;
  redir_data : Z;
  sft_start_cluster : Z;
  file_time : Z;
  sft_file_size : Z;
  file_pos : Z;
  original_file_time : Z;
  dir_sector : Z;
  sft_dir_entry_no : Z;
  sft_file_name : fcb_file_name;
}.

Record dos_search := mkSearch {
  srch_drive_no : Z;
  srch_tmpl : fcb_file_name;
  srch_attr : Z;
  srch_dir_entry_no : Z;
  srch_cluster : Z;
}.

Record dos_directory_entry := mkDirEntry {
  de_name : fcb_file_name;
  de_attrs : Z;
  time_update : Z;
  date_update : Z;
  de_start_cluster : Z;
  de_size : Z;
}.

(** [sft], [search] and [entry_behind] are what ES:DI or the DTA point to in
    the calls that use them, [dta] the memory at the DTA of a read or a write,
    [lock_params] that at DS:DX, [stack_word] the word the caller pushed. *)
Record dos := mkDos {
  regs : regs_pack;
  fn1 : bytes;
  fn2 : bytes;
  drive_cds_path : bytes;
  sda_srch_attr : Z;
  action_ext : Z;
  mode_ext : Z;
  found_file : dos_directory_entry;
  stack_word : Z;
  dta : bytes;
  lock_params : bytes;
  sft : dos_sft;
  search : dos_search;
  entry_behind : dos_directory_entry;
}.

(** ** Small string functions *)

(** The characters of an array up to its terminating zero. *)
Fixpoint c_string (l : bytes) : bytes :=
  match l with
  | [] => []
  | c :: l => if c =? CH_NUL then [] else c :: c_string l
  end.

(** [while (src_pos > 0 && *src != '\0') { --src_pos; ++src; }] *)
Fixpoint skip_chars (src_pos : nat) (src : bytes) : nat * bytes :=
  match src_pos, src with
  | S n, _ :: src => skip_chars n src
  | _, _ => (src_pos, src)
  end.

(** The value returned and the characters copied. *)
Definition my_strcpy_noterm_nf (src : bytes) (src_pos : nat) : Z * bytes :=
  let '(rest, src) := skip_chars src_pos (c_string src) in
  if (0 <? rest)%nat then (- Z.of_nat rest, []) else (zlen src, src).

Definition char_to_upper (character : Z) : Z :=
  if (CH_a <=? character) && (character <=? CH_z) then character - CH_a + CH_A else character.

Definition contains_wildcard (s : bytes) : bool :=
  existsb (fun c => (c =? CH_QMARK) || (c =? 42)) (c_string s).

(** A loop that copies up to [room] characters while [ok] holds of them. *)
Fixpoint copy_while (ok : Z -> bool) (room : nat) (s : bytes) : bytes :=
  match room, s with
  | S room, c :: s => if ok c then c :: copy_while ok room s else []
  | _, _ => []
  end.

(** "move to dot" *)
Fixpoint move_to_dot (s : bytes) : bytes :=
  match s with
  | c :: s' => if c =? CH_DOT then s else move_to_dot s'
  | [] => []
  end.

Definition blank_pad (n : nat) (s : bytes) : bytes := s ++ replicate (n - length s) CH_SPACE.

Definition to_dos_fn (file_name : bytes) : fcb_file_name :=
  let file_name := c_string file_name in
  let dots := copy_while (fun c => c =? CH_DOT) sizeof_name file_name in
  let name := copy_while (fun c => negb (c =? CH_DOT)) (sizeof_name - length dots)
                (drop (length dots) file_name) in
  let ext :=
    match move_to_dot (drop (length dots + length name) file_name) with
    | [] => []
    | _ :: rest => copy_while (fun c => negb (c =? CH_DOT)) sizeof_ext rest
    end in
  mkFcb (blank_pad sizeof_name (dots ++ name)) (blank_pad sizeof_ext ext).

(** The last slash or backslash at or after [it], if there is one. *)
Definition is_slash (c : Z) : bool := (c =? CH_BACKSLASH) || (c =? CH_SLASH).
Fixpoint find_last_slash (last it : bytes) : bytes :=
  match it with
  | [] => last
  | c :: rest => find_last_slash (if is_slash c then it else last) rest
  end.

Definition get_dos_fn_from_full_path (full_path : bytes) : fcb_file_name :=
  let full_path := c_string full_path in
  let full_path := match full_path with
                   | c :: d :: rest => if d =? CH_COLON then rest else full_path
                   | _ => full_path
                   end in
  match find_last_slash full_path full_path with
  | c :: rest => to_dos_fn (if is_slash c then rest else c :: rest)
  | [] => to_dos_fn []
  end.

(** The comparisons of the assembly code are signed. *)
Definition i8 (x : Z) : Z := (x + 2 ^ 7) mod 2 ^ 8 - 2 ^ 7.
Definition drive_to_num (drive_letter : Z) : Z :=
  if (i8 drive_letter <? CH_a) || (CH_z <? i8 drive_letter) then u8 (drive_letter - CH_A)
  else u8 (drive_letter - CH_a).

Definition swap_word (value : Z) : Z := u16 (Z.lor (Z.shiftl (u16 value) 8) (Z.shiftr (u16 value) 8)).

(** [flags & bit] as a condition. *)
Definition has_flag (flags bit : Z) : bool := negb (Z.land flags bit =? 0).

(** ** Checksums *)

(** [ror ax, 1; mov dl, [bx]; add ax, dx] *)
Definition ror1_add (ax byte : Z) : Z :=
  u16 (Z.lor (Z.shiftr ax 1) (Z.shiftl (Z.land ax 1) 15) + byte).

(** [loop next]: CX counts down to zero. *)
Fixpoint checksum_loop (cx : nat) (addr : bytes) (ax : Z) : Z :=
  match cx, addr with
  | S cx, b :: addr => checksum_loop cx addr (ror1_add ax b)
  | _, _ => ax
  end.

Definition bsd_checksum_asm (addr : bytes) (len : Z) : Z :=
  checksum_loop (Z.to_nat (u16 len)) addr 0.

(** The same text as in slip_udp_serial.cpp, on a little-endian machine. *)
Definition internet_checksum_le (addr : bytes) (len : Z) : Z :=
  @internet_checksum little addr len.
