(* ===== verification/Network.v ===== *)
(** * Network: frames, ARP, the receive interrupt and requests (netmount.c,
    shared/nettypes.h)

    [pktdrv_recv] is what the packet driver's two calls do with a frame that
    arrives; [send_request] sends a request and waits for its reply.  While it
    waits the interrupts go on: before each turn of a waiting loop [interrupt]
    takes from the [Wire] at most one timer tick or one frame.  Two frames
    between two turns are covered by a wire that loses the second, which is
    what the driver does when the buffer is full. *)
From S2P Require Import Prelude Words Checksum Fcb Resident.

(** ** The far end *)

Inductive input :=
  | Tick                 (** the timer interrupt *)
  | Frame (f : bytes).   (** a frame the packet driver has received *)

(** The network card with the network behind it: what sending a frame does,
    and what comes next. *)
Class Wire (N : Type) := {
  transmit : bytes -> N -> N;
  arrive : N -> option input * N;
}.

(** The count at 0040:006C after a timer interrupt. *)
Class Timer := next_tick : Z -> Z.

(** The PC: its clock, the resident client, the data of DOS and the wire. *)
Record pc (N : Type) := mkPc {
  ticks : Z;
  cl : client;
  mem : dos;
  wire : N;
}.
Arguments mkPc {N}. Arguments ticks {N}. Arguments cl {N}. Arguments mem {N}. Arguments wire {N}.

Definition set_ticks {N} t (s : pc N) := mkPc t (cl s) (mem s) (wire s).
Definition set_cl {N} c (s : pc N) := mkPc (ticks s) c (mem s) (wire s).
Definition set_mem {N} m (s : pc N) := mkPc (ticks s) (cl s) m (wire s).
Definition set_wire {N} (w : N) (s : pc N) := mkPc (ticks s) (cl s) (mem s) w.

(** *** Assignments to variables of the client *)

Definition set_shared sh (c : client) :=
  mkClient sh (recv_buff c) (recv_data_len c) (send_buff c) (arp_request_buff c)
    (ipv4_last_sent_packet_id c) (request_last_sent_seq_num c) (req_drive c) (read_file_buffer c).
Definition set_recv_buff b (c : client) :=
  mkClient (shared c) b (recv_data_len c) (send_buff c) (arp_request_buff c)
    (ipv4_last_sent_packet_id c) (request_last_sent_seq_num c) (req_drive c) (read_file_buffer c).
Definition set_recv_data_len n (c : client) :=
  mkClient (shared c) (recv_buff c) n (send_buff c) (arp_request_buff c)
    (ipv4_last_sent_packet_id c) (request_last_sent_seq_num c) (req_drive c) (read_file_buffer c).
Definition set_send_buff b (c : client) :=
  mkClient (shared c) (recv_buff c) (recv_data_len c) b (arp_request_buff c)
    (ipv4_last_sent_packet_id c) (request_last_sent_seq_num c) (req_drive c) (read_file_buffer c).
Definition set_arp_request_buff b (c : client) :=
  mkClient (shared c) (recv_buff c) (recv_data_len c) (send_buff c) b
    (ipv4_last_sent_packet_id c) (request_last_sent_seq_num c) (req_drive c) (read_file_buffer c).
Definition set_packet_id i (c : client) :=
  mkClient (shared c) (recv_buff c) (recv_data_len c) (send_buff c) (arp_request_buff c)
    i (request_last_sent_seq_num c) (req_drive c) (read_file_buffer c).
Definition set_seq_num n (c : client) :=
  mkClient (shared c) (recv_buff c) (recv_data_len c) (send_buff c) (arp_request_buff c)
    (ipv4_last_sent_packet_id c) n (req_drive c) (read_file_buffer c).
Definition set_file_buffer b (c : client) :=
  mkClient (shared c) (recv_buff c) (recv_data_len c) (send_buff c) (arp_request_buff c)
    (ipv4_last_sent_packet_id c) (request_last_sent_seq_num c) (req_drive c) b.

Definition set_ip_mac_map m (sh : shared_data) :=
  mkShared (drive_map sh) (drive_infos sh) (local_ipv4 sh) (net_mask sh) (local_port sh)
    (disable_sending_arp_request sh) (gateway_ip_slot sh) (interface_mtu sh) m
    (local_mac_addr sh) (last_remote_ip sh) (last_remote_udp_port sh)
    (server_response_received sh) (has_drive_extended_features sh).
Definition set_last_remote ip port (sh : shared_data) :=
  mkShared (drive_map sh) (drive_infos sh) (local_ipv4 sh) (net_mask sh) (local_port sh)
    (disable_sending_arp_request sh) (gateway_ip_slot sh) (interface_mtu sh) (ip_mac_map sh)
    (local_mac_addr sh) ip port
    (server_response_received sh) (has_drive_extended_features sh).
Definition set_response_received b (sh : shared_data) :=
  mkShared (drive_map sh) (drive_infos sh) (local_ipv4 sh) (net_mask sh) (local_port sh)
    (disable_sending_arp_request sh) (gateway_ip_slot sh) (interface_mtu sh) (ip_mac_map sh)
    (local_mac_addr sh) (last_remote_ip sh) (last_remote_udp_port sh)
    b (has_drive_extended_features sh).
Definition set_extended_features l (sh : shared_data) :=
  mkShared (drive_map sh) (drive_infos sh) (local_ipv4 sh) (net_mask sh) (local_port sh)
    (disable_sending_arp_request sh) (gateway_ip_slot sh) (interface_mtu sh) (ip_mac_map sh)
    (local_mac_addr sh) (last_remote_ip sh) (last_remote_udp_port sh)
    (server_response_received sh) l.

(** ** Building headers *)

Definition ipv4_header (id dst_addr src_addr data_len protocol hdr_csum : Z) : bytes :=
  [Z.lor (Z.shiftl 4 4) (sizeof_ipv4_hdr / 4); 0]
  ++ le16_bytes (swap_word (sizeof_ipv4_hdr + data_len))
  ++ le16_bytes (swap_word id) ++ le16_bytes (swap_word (Z.shiftl 2 13))
  ++ [64; protocol] ++ le16_bytes hdr_csum ++ le32_bytes src_addr ++ le32_bytes dst_addr.

(** The header, and the packet id left behind. *)
Definition create_ip (last_id src_addr dst_addr data_len protocol : Z) : bytes * Z :=
  let id := u16 (last_id + 1) in
  let hdr_csum := internet_checksum_le
                    (ipv4_header id dst_addr src_addr data_len protocol 0) sizeof_ipv4_hdr in
  (ipv4_header id dst_addr src_addr data_len protocol hdr_csum, id).

Definition create_udp (src_port dst_port data_len : Z) : bytes :=
  le16_bytes (swap_word src_port) ++ le16_bytes (swap_word dst_port)
  ++ le16_bytes (swap_word (sizeof_udp_hdr + data_len)) ++ le16_bytes 0.

(** ** Receiving *)

(** Replace the MAC address of slot [i]. *)
Definition set_mac (i : nat) (mac : bytes) (m : list ip_mac) : list ip_mac :=
  alter (fun e => mkIpMac (ip_value e) mac) i m.

(** The inner loop: the gateway's address for all slots outside the network. *)
Definition use_gateway (i : nat) (net_mask network : Z) (mac : bytes) (m : list ip_mac)
  : list ip_mac :=
  imap (fun j e => if negb (j =? i)%nat && negb (Z.land (ip_value e) net_mask =? network)
                   then mkIpMac (ip_value e) mac else e) m.

(** "If the remote IP address is in my IP MAC table, update the MAC address." *)
Definition learn_mac (ip : Z) (mac : bytes) (sh : shared_data) : list ip_mac :=
  match list_find (fun e => ip_value e = ip) (ip_mac_map sh) with
  | Some (i, _) =>
      let m := set_mac i mac (ip_mac_map sh) in
      if Z.of_nat i =? gateway_ip_slot sh
      then use_gateway i (net_mask sh) (Z.land (local_ipv4 sh) (net_mask sh)) mac m else m
  | None => ip_mac_map sh
  end.

(** The received request, turned into a reply in place. *)
Definition arp_reply (sh : shared_data) (b : bytes) : bytes :=
  take 6 (drop 6 b) ++ local_mac_addr sh ++ le16_bytes (swap_word 0x0806)
  ++ le16_bytes (swap_word 1) ++ le16_bytes (swap_word 0x0800) ++ [6; 4]
  ++ le16_bytes (swap_word 2) ++ local_mac_addr sh ++ le32_bytes (local_ipv4 sh)
  ++ take 6 (drop 22 b) ++ take 4 (drop 28 b) ++ drop 42 b.

Section Receive.
Context {N : Type} `{WIRE : !Wire N}.

(** [send_frame]: the packet driver takes the frame. *)
Definition send_frame (frame_length : Z) (sndbuff : bytes) (s : pc N) : pc N :=
  set_wire (transmit (take (Z.to_nat frame_length) sndbuff) (wire s)) s.

Definition handle_arp (s : pc N) : pc N :=
  let sh := shared (cl s) in
  let b := recv_buff (cl s) in
  if negb (le16 b 14 =? swap_word 1) then s
  else if negb (le32 b 38 =? local_ipv4 sh) then s
  else
    let sh := set_ip_mac_map (learn_mac (le32 b 28) (take 6 (drop 22 b)) sh) sh in
    let s := set_cl (set_shared sh (cl s)) s in
    if negb (le16 b 20 =? swap_word 1) then s
    else
      let b := arp_reply sh b in
      send_frame 42 b (set_cl (set_recv_buff b (cl s)) s).

(** Whether the frame is kept (the value 0), with
    [server_response_received = 1]. *)
Definition handle_ipv4 (c : client) : bool :=
  let sh := shared c in
  let b := recv_buff c in
  (byte_at b 23 =? 17)
  && (le32 b 30 =? local_ipv4 sh)
  && (le32 b 26 =? last_remote_ip sh)
  && (le16 b 34 =? swap_word (last_remote_udp_port sh))
  && (le16 b 36 =? swap_word (local_port sh))
  && negb (recv_data_len c <? Z.of_nat UDP_DATA + sizeof_drive_proto_hdr)
  && (byte_at b UDP_DATA =? 1)
  && negb (has_flag (enabled_checksums (drive_info_of sh (req_drive c))) CHECKSUM_IP_HEADER
           && negb (internet_checksum_le (drop 14 b) sizeof_ipv4_hdr =? 0)).

(** Both calls of the packet driver for one frame. *)
Definition pktdrv_recv (frame : bytes) (s : pc N) : pc N :=
  let c := cl s in
  if (MAX_FRAMESIZE <? zlen frame) || negb (recv_data_len c =? 0) then s
  else
    let c := set_recv_data_len (zlen frame) (set_recv_buff (write_at 0 frame (recv_buff c)) c) in
    let s := set_cl c s in
    let drop_frame s := set_cl (set_recv_data_len 0 (cl s)) s in
    if zlen frame <? 34 then drop_frame s
    else if le16 (recv_buff c) 12 =? 0x0008 then
      if handle_ipv4 c
      then set_cl (set_shared (set_response_received 1 (shared c)) c) s
      else drop_frame s
    else if zlen frame <? 42 then drop_frame s
    else if le16 (recv_buff c) 12 =? 0x0608 then drop_frame (handle_arp s)
    else drop_frame s.

Context `{TIMER : !Timer}.

(** What happens before the next turn of a waiting loop. *)
Definition interrupt (s : pc N) : pc N :=
  let '(i, w) := arrive (wire s) in
  let s := set_wire w s in
  match i with
  | None => s
  | Some Tick => set_ticks (next_tick (ticks s)) s
  | Some (Frame f) => pktdrv_recv f s
  end.
End Receive.

(** ** Sending requests *)

(** The variables a request's results go to: [reply], [ax] and
    [flag_ext_features] of the handler. *)
Record results := mkResults { reply_data : bytes; reply_ax : Z; flag_ext_features : Z }.

Definition is_broadcast (mac : bytes) : bool := forallb (fun b => b =? 0xFF) mac.

(** Building the request frame in [global_send_buff]. *)
Section BuildRequest.
Context (function local_drive request_data_len flag_ext_features : Z).

(** [snd_drive_proto]; the data of the request is already in the buffer. *)
Definition fill_drive_proto (drv_info : drive_info) (drive seq : Z) (b : bytes) : bytes :=
  let len := u16 (request_data_len + sizeof_drive_proto_hdr) in
  let flags := if flag_ext_features =? 0 then len else Z.lor len 0x2000 in
  let b := write_at 42 [1] b in
  let b := write_at 47 [seq; drive; u8 function] b in
  if has_flag (enabled_checksums drv_info) CHECKSUM_NETMOUNT_PROTO then
    let b := write_at 43 (le16_bytes (Z.lor flags 0x8000)) b in
    write_at 45 (le16_bytes (bsd_checksum_asm (drop 47 b) (u16 (len - 5)))) b
  else write_at 45 (le16_bytes 0x9524) (write_at 43 (le16_bytes flags) b).

(** The frame for the drive's server, and the counters and addresses a reply is
    compared with. *)
Definition build_request (c : client) : client :=
  let sh := shared c in
  let drv_info := drive_info_of sh local_drive in
  let slot := ip_mac_of sh (remote_ip_idx drv_info) in
  let drive := nth (Z.to_nat local_drive) (drive_map sh) 0xFF in
  let remote_ip := ip_value slot in
  let '(ip, id) := create_ip (ipv4_last_sent_packet_id c) (local_ipv4 sh) remote_ip
                     (sizeof_udp_hdr + sizeof_drive_proto_hdr + request_data_len) 17 in
  let udp := create_udp (local_port sh) (remote_port drv_info)
               (sizeof_drive_proto_hdr + request_data_len) in
  let sequence_num := u8 (request_last_sent_seq_num c + 1) in
  let b := write_at 0 (mac_bytes slot) (send_buff c) in
  let b := write_at 34 udp (write_at 14 ip b) in
  let b := fill_drive_proto drv_info drive sequence_num b in
  let sh := set_last_remote remote_ip (remote_port drv_info) sh in
  set_shared (set_response_received 0 sh)
    (set_send_buff b (set_seq_num sequence_num (set_packet_id id c))).
End BuildRequest.

(** The validation of a frame in the receive buffer: the results, unless the
    frame is to be ignored. *)
Definition accept_reply (drv_info : drive_info) (sequence_num : Z) (c : client)
  : option (Z * results) :=
  let b := recv_buff c in
  let length_flags := le16 b 43 in
  let len := Z.land length_flags 0x7FF in
  if u16 (recv_data_len c) <? len then None
  else if len <? sizeof_drive_proto_hdr then None
  else if negb (byte_at b 47 =? sequence_num) then None
  else if
    if has_flag length_flags 0x8000
    then has_flag (enabled_checksums drv_info) CHECKSUM_NETMOUNT_PROTO
         && negb (bsd_checksum_asm (drop 47 b) (len - 5) =? le16 b 45)
    else negb (le16 b 45 =? 0x9524)
  then None
  else Some (len - sizeof_drive_proto_hdr,
             mkResults (drop DRIVE_DATA_OFFSET b) (le16 b 48)
               (if has_flag length_flags 0x2000 then 1 else 0)).

Section Requests.
Context {N : Type} `{WIRE : !Wire N, TIMER : !Timer}.
Context (fuel : nat).

(** [*time_ptr - start], 16-bit. *)
Definition elapsed (start : Z) (s : pc N) : Z := u16 (u16 (ticks s) - start).

(** The inner loop of [send_arp_request]: whether the address became known. *)
Fixpoint wait_mac (turns : nat) (slot start timeout_ticks : Z) : C (pc N) bool :=
  fun s =>
  match turns with
  | O => Waiting
  | S turns =>
      let s := interrupt s in
      if timeout_ticks <? elapsed start s then Done (false, s)
      else if negb (is_broadcast (mac_bytes (ip_mac_of (shared (cl s)) slot))) then Done (true, s)
      else wait_mac turns slot start timeout_ticks s
  end.

(** The loop over the retries. *)
Fixpoint arp_attempts (attempts : nat) (slot : Z) : C (pc N) unit :=
  match attempts with
  | O => pure tt
  | S attempts =>
      do! writes (fun s => send_frame 42 (arp_request_buff (cl s)) s) in
      let! start := reads (fun s => u16 (ticks s)) in
      let! known := wait_mac fuel slot start ((ARP_REQUEST_RCV_TMO_SEC * 182) / 10) in
      if (known : bool) then pure tt else arp_attempts attempts slot
  end.

(** The address to ask for: the gateway's, for one outside the network. *)
Definition arp_target (sh : shared_data) (slot : Z) : Z :=
  let ip := ip_value (ip_mac_of sh slot) in
  let network := Z.land (local_ipv4 sh) (net_mask sh) in
  if negb (Z.land ip (net_mask sh) =? network) && negb (gateway_ip_slot sh =? 0xFF)
  then ip_value (ip_mac_of sh (gateway_ip_slot sh)) else ip.

Definition send_arp_request (local_drive : Z) : C (pc N) unit :=
  let! sh := reads (fun s => shared (cl s)) in
  let slot := remote_ip_idx (drive_info_of sh local_drive) in
  do! writes (fun s => set_cl (set_arp_request_buff
                (write_at 38 (le32_bytes (arp_target sh slot)) (arp_request_buff (cl s))) (cl s)) s) in
  arp_attempts (S (Z.to_nat ARP_REQUEST_MAX_RETRIES)) slot.

(** The inner loop of [send_request]; [None] is a timeout. *)
Fixpoint wait_reply (turns : nat) (drv_info : drive_info) (sequence_num start rcv_tmo : Z)
  : C (pc N) (option (Z * results)) :=
  fun s =>
  match turns with
  | O => Waiting
  | S turns =>
      let s := interrupt s in
      if rcv_tmo <? elapsed start s then Done (None, s)
      else if server_response_received (shared (cl s)) =? 0
      then wait_reply turns drv_info sequence_num start rcv_tmo s
      else match accept_reply drv_info sequence_num (cl s) with
           | Some r => Done (Some r, s)
           | None => wait_reply turns drv_info sequence_num start rcv_tmo
                       (set_cl (set_recv_data_len 0 (cl s)) s)
           end
  end.

(** The loop over the retries, the timeout doubled up to the maximum. *)
Fixpoint send_attempts (attempts : nat) (drv_info : drive_info) (frame_length sequence_num
    rcv_tmo max_rcv_tmo : Z) : C (pc N) (option (Z * results)) :=
  match attempts with
  | O => pure None
  | S attempts =>
      do! writes (fun s => send_frame frame_length (send_buff (cl s)) s) in
      let! start := reads (fun s => u16 (ticks s)) in
      let! r := wait_reply fuel drv_info sequence_num start rcv_tmo in
      match r with
      | Some _ => pure r
      | None =>
          let rcv_tmo := u16 (Z.shiftl rcv_tmo 1) in
          let rcv_tmo := if max_rcv_tmo <? rcv_tmo then max_rcv_tmo else rcv_tmo in
          send_attempts attempts drv_info frame_length sequence_num rcv_tmo max_rcv_tmo
      end
  end.

(** The value returned and the results, which [out] holds before. *)
Definition send_request (function local_drive request_data_len : Z) (out : results)
  : C (pc N) (Z * results) :=
  let frame_length := u16 (sizeof_mac_hdr + sizeof_ipv4_hdr + sizeof_udp_hdr
                           + sizeof_drive_proto_hdr + request_data_len) in
  let! sh := reads (fun s => shared (cl s)) in
  if interface_mtu sh <? u16 (frame_length - sizeof_mac_hdr) then pure (0, out)
  else
    let drv_info := drive_info_of sh local_drive in
    do! (if (disable_sending_arp_request sh =? 0)
            && is_broadcast (mac_bytes (ip_mac_of sh (remote_ip_idx drv_info)))
         then send_arp_request local_drive else pure tt) in
    do! writes (fun s => set_cl (build_request function local_drive request_data_len
                                   (flag_ext_features out) (cl s)) s) in
    let! sequence_num := reads (fun s => request_last_sent_seq_num (cl s)) in
    let! r := send_attempts (S (Z.to_nat (max_request_retries drv_info))) drv_info frame_length
                sequence_num (Z.shiftl (min_rcv_tmo_18_2_ticks_shr_2 drv_info) 2)
                (Z.shiftl (max_rcv_tmo_18_2_ticks_shr_2 drv_info) 2) in
    match r with
    | Some r => pure r
    | None => pure (NETWORK_ERROR, out)
    end.
End Requests.
