(* ===== verification/Redirector.v ===== *)
(** * Redirector: the calls of DOS (handle_request_for_our_drive and
    int2F_redirector of netmount.c)

    One definition per INT 2Fh function: the guards, the request built in the
    send buffer, and what becomes of the reply. *)
From S2P Require Import Prelude Words Checksum Fcb Paths FatTime Host Attrs Unicode Files Protocol.
From S2P Require Import Resident Network.

Abbreviation INT2F_COMMIT_FILE := 0x07 (only parsing).
Abbreviation INT2F_EXTENDED_ATTRS := 0x2D (only parsing).
Abbreviation INT2F_UNUSED := 0xFF (only parsing).

(** [(int)x] on the 16-bit machine. *)
Definition i16 (x : Z) : Z := (x + 2 ^ 15) mod 2 ^ 16 - 2 ^ 15.

(** ** Assignments to the data of DOS *)

Definition set_r_ax x (r : regs_pack) :=
  mkRegs x (r_bx r) (r_cx r) (r_dx r) (r_si r) (r_di r) (r_flags r).
Definition set_r_cx x (r : regs_pack) :=
  mkRegs (r_ax r) (r_bx r) x (r_dx r) (r_si r) (r_di r) (r_flags r).
Definition set_r_flags x (r : regs_pack) :=
  mkRegs (r_ax r) (r_bx r) (r_cx r) (r_dx r) (r_si r) (r_di r) x.

Definition set_regs x (d : dos) :=
  mkDos x (fn1 d) (fn2 d) (drive_cds_path d) (sda_srch_attr d) (action_ext d) (mode_ext d)
    (found_file d) (stack_word d) (dta d) (lock_params d) (sft d) (search d) (entry_behind d).
Definition set_dta x (d : dos) :=
  mkDos (regs d) (fn1 d) (fn2 d) (drive_cds_path d) (sda_srch_attr d) (action_ext d) (mode_ext d)
    (found_file d) (stack_word d) x (lock_params d) (sft d) (search d) (entry_behind d).
Definition set_sft x (d : dos) :=
  mkDos (regs d) (fn1 d) (fn2 d) (drive_cds_path d) (sda_srch_attr d) (action_ext d) (mode_ext d)
    (found_file d) (stack_word d) (dta d) (lock_params d) x (search d) (entry_behind d).
Definition set_found entry srch (d : dos) :=
  mkDos (regs d) (fn1 d) (fn2 d) (drive_cds_path d) (sda_srch_attr d) (action_ext d) (mode_ext d)
    entry (stack_word d) (dta d) (lock_params d) (sft d) srch entry.

Definition set_handle_count x (f : dos_sft) :=
  mkSft x (sft_open_mode f) (file_attr f) (dev_info_word f) (redir_data f) (sft_start_cluster f)
    (file_time f) (sft_file_size f) (file_pos f) (original_file_time f) (dir_sector f)
    (sft_dir_entry_no f) (sft_file_name f).
Definition set_file_pos x (f : dos_sft) :=
  mkSft (handle_count f) (sft_open_mode f) (file_attr f) (dev_info_word f) (redir_data f)
    (sft_start_cluster f) (file_time f) (sft_file_size f) x (original_file_time f) (dir_sector f)
    (sft_dir_entry_no f) (sft_file_name f).
Definition set_sft_size x (f : dos_sft) :=
  mkSft (handle_count f) (sft_open_mode f) (file_attr f) (dev_info_word f) (redir_data f)
    (sft_start_cluster f) (file_time f) x (file_pos f) (original_file_time f) (dir_sector f)
    (sft_dir_entry_no f) (sft_file_name f).

Definition set_valid_bytes x (b : file_buffer) :=
  mkFileBuffer (fb_timestamp b) (fb_offset b) (fb_start_cluster b) (fb_drive_no b) x (fb_data b).

(** "set AX (error code) to 0, clear CF"; "copy error code to AX, set CF". *)
Definition with_success (r : regs_pack) : regs_pack :=
  set_r_flags (Z.ldiff (r_flags r) I86_FLAG_CF) (set_r_ax 0 r).
Definition with_error (x : Z) (r : regs_pack) : regs_pack :=
  set_r_flags (Z.lor (r_flags r) I86_FLAG_CF) (set_r_ax x r).

(** ** The bit per drive of [has_drive_extended_features] *)

Definition set_drive_ext (local_drive_no has_ext_features : Z) (l : list Z) : list Z :=
  alter (fun x => let bit := Z.shiftl 1 (local_drive_no mod 8) in
                  if has_ext_features =? 0 then Z.ldiff x bit else Z.lor x bit)
    (Z.to_nat (local_drive_no / 8)) l.
Definition get_drive_has_ext_features (local_drive_no : Z) (l : list Z) : bool :=
  has_flag (nth (Z.to_nat (local_drive_no / 8)) l 0) (Z.shiftl 1 (local_drive_no mod 8)).

Section Calls.
Context {N : Type} `{WIRE : !Wire N, TIMER : !Timer}.
(** The turns of a waiting loop, and what [reply] and [ax] hold before a
    reply has come. *)
Context (fuel : nat) (uninit : results).

Abbreviation CALL := (C (pc N)).

(** *** Memory *)

Definition upd_regs (f : regs_pack -> regs_pack) : CALL unit :=
  writes (fun s => set_mem (set_regs (f (regs (mem s))) (mem s)) s).
Definition set_success : CALL unit := upd_regs with_success.
Definition set_error (x : Z) : CALL unit := upd_regs (with_error x).
Definition upd_sft (f : dos_sft -> dos_sft) : CALL unit :=
  writes (fun s => set_mem (set_sft (f (sft (mem s))) (mem s)) s).
Definition upd_client (f : client -> client) : CALL unit := writes (fun s => set_cl (f (cl s)) s).
Definition get_dos {A} (f : dos -> A) : CALL A := reads (fun s => f (mem s)).
Definition get_buffer : CALL file_buffer := reads (fun s => read_file_buffer (cl s)).
Definition invalidate : CALL unit :=
  upd_client (fun c => set_file_buffer (set_valid_bytes 0 (read_file_buffer c)) c).

(** Bytes of [src], read by [my_memcpy_ff]. *)
Definition copy_from (src : bytes) (off n : Z) : CALL bytes :=
  if off + Z.max 0 (i16 n) <=? zlen src
  then pure (take (Z.to_nat (i16 n)) (drop (Z.to_nat off) src)) else fun _ => Overrun.

(** Stores at [buff + off] and at [curr_dta + off]. *)
Definition put_args (off : Z) (bs : bytes) : CALL unit :=
  fun s => let b := send_buff (cl s) in
           if Z.of_nat DRIVE_DATA_OFFSET + off + zlen bs <=? zlen b
           then Done (tt, set_cl (set_send_buff
                            (write_at (DRIVE_DATA_OFFSET + Z.to_nat off) bs b) (cl s)) s)
           else Overrun.
Definition put_dta (off : Z) (bs : bytes) : CALL unit :=
  fun s => let b := dta (mem s) in
           if off + zlen bs <=? zlen b
           then Done (tt, set_mem (set_dta (write_at (Z.to_nat off) bs b) (mem s)) s)
           else Overrun.

(** "copy ... to buff (but skip drive part)" *)
Definition put_path (off : Z) (src : bytes) : CALL Z :=
  let '(len, chars) := my_strcpy_noterm_nf src 2 in
  do! put_args off chars in pure len.

Definition set_drive_has_ext_features (reqdrv has_ext_features : Z) : CALL unit :=
  upd_client (fun c => set_shared (set_extended_features
    (set_drive_ext reqdrv has_ext_features (has_drive_extended_features (shared c))) (shared c)) c).

Definition request (function reqdrv len : Z) : CALL (Z * results) :=
  send_request fuel function reqdrv (u16 len) (mkResults (reply_data uninit) (reply_ax uninit) 0).

(** The error in [ax], if there is one. *)
Definition check_ax (out : results) : CALL unit :=
  if negb (reply_ax out =? 0) then set_error (reply_ax out) else pure tt.

(** ** Directories *)

Definition call_make_remove_dir (subfunction reqdrv : Z) : CALL unit :=
  let! d := get_dos id in
  if (subfunction =? INT2F_REMOVE_DIR)
     && bool_decide (c_string (fn1 d) = c_string (drive_cds_path d))
  then set_error DOS_EXTERR_ATTEMPT_REMOVE_CUR_DIR
  else
    let! len := put_path 0 (fn1 d) in
    if len <? 0 then set_error DOS_EXTERR_PATH_NOT_FOUND
    else
      let! '(i, out) := request subfunction reqdrv len in
      if i =? 0 then
        do! set_drive_has_ext_features reqdrv (flag_ext_features out) in check_ax out
      else set_error DOS_EXTERR_FILE_NOT_FOUND.

Definition call_change_dir (subfunction reqdrv : Z) : CALL unit :=
  let! path := get_dos fn1 in
  let! len := put_path 0 path in
  if len <? 0 then set_error DOS_EXTERR_PATH_NOT_FOUND
  else
    let! '(i, out) := request subfunction reqdrv len in
    if i =? 0 then
      do! set_drive_has_ext_features reqdrv (flag_ext_features out) in check_ax out
    else set_error DOS_EXTERR_PATH_NOT_FOUND.

(** ** Files *)

Definition call_close_file (subfunction reqdrv : Z) : CALL unit :=
  do! upd_sft (fun f => if 0 <? handle_count f then set_handle_count (handle_count f - 1) f else f) in
  let! f := get_dos sft in
  let! features := reads (fun s => has_drive_extended_features (shared (cl s))) in
  let! '(i, out) :=
    (if negb (file_time f =? original_file_time f) && get_drive_has_ext_features reqdrv features
     then do! put_args 0 (le16_bytes (sft_start_cluster f) ++ le32_bytes (file_time f)) in
          send_request fuel subfunction reqdrv 6
            (mkResults (reply_data uninit) (reply_ax uninit) 1)
     else do! put_args 0 (le16_bytes (sft_start_cluster f)) in
          request subfunction reqdrv 2) in
  if i =? 0 then check_ax out else pure tt.

(** *** Reading *)

Definition readf_args (offset start_cluster length : Z) : bytes :=
  le32_bytes offset ++ le16_bytes start_cluster ++ le16_bytes length.

(** "Use data from the read buffer, if available": the bytes it has for the
    caller. *)
Definition buffered (b : file_buffer) (reqdrv : Z) (f : dos_sft) (cx mask : Z) : option (Z * Z) :=
  let buffer_offset := Z.land (file_pos f) mask in
  let data_offset := u8 (file_pos f - buffer_offset) in
  if (0 <? valid_bytes b) && (fb_drive_no b =? reqdrv)
     && (fb_start_cluster b =? sft_start_cluster f) && (buffer_offset =? fb_offset b)
     && (data_offset <? valid_bytes b)
  then Some (data_offset, Z.min (u8 cx) (u8 (valid_bytes b - data_offset))) else None.

(** Refilling the read buffer from a reply to a read at [read_offset]. *)
Definition refill (reqdrv start_cluster read_offset buffer_offset len : Z) (reply : bytes)
  : CALL unit :=
  if buffer_offset <? u32 (read_offset + len) then
    let n := u32 (read_offset + len - buffer_offset) in
    let! data := copy_from reply (u16 (buffer_offset - read_offset)) n in
    let! now := reads ticks in
    let! b := get_buffer in
    if FILE_BUFFER_SIZE <? zlen data then fun _ => Overrun
    else upd_client (set_file_buffer (mkFileBuffer now buffer_offset start_cluster reqdrv (u8 n)
                       (write_at 0 data (fb_data b))))
  else pure tt.

(** The rest of a short read: the server is asked for a whole block, so that
    the read buffer is refilled, and for what lies before it. *)
Definition read_through_buffer (subfunction reqdrv cx mask min_read_len total_read_len : Z)
  : CALL unit :=
  let! f := get_dos sft in
  let position := u32 (file_pos f + total_read_len) in
  let buffer_offset := Z.land (u32 (file_pos f + cx)) mask in
  let '(bytes_to_read, read_offset) :=
    if position <? buffer_offset
    then (u16 (min_read_len + (buffer_offset - position)), position)
    else (min_read_len, buffer_offset) in
  do! put_args 0 (readf_args read_offset (sft_start_cluster f) bytes_to_read) in
  let! '(len, out) := request subfunction reqdrv 8 in
  if len =? NETWORK_ERROR then set_error DOS_EXTERR_FILE_NOT_FOUND
  else if negb (reply_ax out =? 0) then set_error (reply_ax out)
  else
    do! refill reqdrv (sft_start_cluster f) read_offset buffer_offset len (reply_data out) in
    let offset_in_reply := u16 (position - read_offset) in
    let len := if offset_in_reply <? len
               then Z.min (len - offset_in_reply) (u16 (cx - total_read_len)) else 0 in
    let! data := copy_from (reply_data out) (if 0 <? len then offset_in_reply else 0) len in
    do! put_dta total_read_len data in
    let total_read_len := u16 (total_read_len + len) in
    do! upd_sft (fun f => set_file_pos (u32 (file_pos f + total_read_len)) f) in
    upd_regs (set_r_cx total_read_len).

(** "split read request into chunks that fit into a network frame".  Each turn
    stores something at the DTA, which bounds their number. *)
Fixpoint read_chunks (turns : nat) (subfunction reqdrv cx max_chunk_len total_read_len : Z)
  : CALL unit :=
  match turns with
  | O => fun _ => Waiting
  | S turns =>
      let! f := get_dos sft in
      let chunklen := Z.min (u16 (cx - total_read_len)) max_chunk_len in
      do! put_args 0 (readf_args (u32 (file_pos f + total_read_len)) (sft_start_cluster f) chunklen) in
      let! '(len, out) := request subfunction reqdrv 8 in
      if len =? NETWORK_ERROR then set_error DOS_EXTERR_FILE_NOT_FOUND
      else if negb (reply_ax out =? 0) then set_error (reply_ax out)
      else
        let! data := copy_from (reply_data out) 0 len in
        do! put_dta total_read_len data in
        let total_read_len := u16 (total_read_len + len) in
        if (len <? chunklen) || (total_read_len =? cx) then
          do! upd_sft (fun f => set_file_pos (u32 (file_pos f + total_read_len)) f) in
          upd_regs (set_r_cx total_read_len)
        else
          do! upd_client (set_recv_data_len 0) in
          read_chunks turns subfunction reqdrv cx max_chunk_len total_read_len
  end.

Definition call_read_file (subfunction reqdrv : Z) : CALL unit :=
  let! d := get_dos id in
  let f := sft d in
  let cx := r_cx (regs d) in
  if has_flag (sft_open_mode f) 1 then set_error DOS_EXTERR_ACCESS_DENIED
  else if cx =? 0 then pure tt
  else
    let! sh := reads (fun s => shared (cl s)) in
    let min_read_len := min_server_read_len (drive_info_of sh reqdrv) in
    if cx <? min_read_len then
      let mask := u32 (Z.lnot (min_read_len - 1)) in
      let! b := get_buffer in
      match buffered b reqdrv f cx mask with
      | Some (data_offset, n) =>
          let! data := copy_from (fb_data b) data_offset n in
          do! put_dta 0 data in
          if n =? cx then upd_sft (fun f => set_file_pos (u32 (file_pos f + n)) f)
          else read_through_buffer subfunction reqdrv cx mask min_read_len n
      | None => read_through_buffer subfunction reqdrv cx mask min_read_len 0
      end
    else
      let max_chunk_len := u16 (interface_mtu sh + sizeof_mac_hdr - Z.of_nat DRIVE_DATA_OFFSET) in
      read_chunks (S (length (dta d))) subfunction reqdrv cx max_chunk_len 0.
(** *** Writing *)

(** "invalidate the read buffer if a write overlaps the buffered region" *)
Definition write_overlaps (b : file_buffer) (reqdrv : Z) (f : dos_sft) (cx : Z) : bool :=
  (0 <? valid_bytes b) && (fb_drive_no b =? reqdrv)
  && (fb_start_cluster b =? sft_start_cluster f)
  && (file_pos f <? u32 (fb_offset b + valid_bytes b))
  && ((cx =? 0) || (fb_offset b <? u32 (file_pos f + cx))).

(** The position and size of the file after [len] more bytes. *)
Definition advance (len : Z) (f : dos_sft) : dos_sft :=
  let f := set_file_pos (u32 (file_pos f + len)) f in
  if sft_file_size f <? file_pos f then set_sft_size (file_pos f) f else f.

(** "0-bytes write must be sent too, it means truncate" *)
Fixpoint write_chunks (turns : nat) (subfunction reqdrv max_chunk_len total_written_len bytes_left : Z)
  : CALL unit :=
  match turns with
  | O => fun _ => Waiting
  | S turns =>
      let! d := get_dos id in
      let f := sft d in
      let chunklen := if max_chunk_len <? bytes_left then max_chunk_len else bytes_left in
      do! put_args 0 (le32_bytes (file_pos f) ++ le16_bytes (sft_start_cluster f)) in
      let! data := copy_from (dta d) total_written_len chunklen in
      do! put_args 6 data in
      let! '(len, out) := request subfunction reqdrv (chunklen + 6) in
      if len =? NETWORK_ERROR then set_error DOS_EXTERR_FILE_NOT_FOUND
      else if negb (reply_ax out =? 0) || negb (len =? 2) then set_error (reply_ax out)
      else
        let len := le16 (reply_data out) 0 in
        let total_written_len := u16 (total_written_len + len) in
        let bytes_left := u16 (bytes_left - len) in
        do! upd_regs (set_r_cx total_written_len) in
        do! upd_sft (advance len) in
        if negb (len =? chunklen) then pure tt
        else
          do! upd_client (set_recv_data_len 0) in
          if 0 <? bytes_left
          then write_chunks turns subfunction reqdrv max_chunk_len total_written_len bytes_left
          else pure tt
  end.

Definition call_write_file (subfunction reqdrv : Z) : CALL unit :=
  let! d := get_dos id in
  let f := sft d in
  let cx := r_cx (regs d) in
  if Z.land (sft_open_mode f) 3 =? 0 then set_error DOS_EXTERR_ACCESS_DENIED
  else
    let! b := get_buffer in
    do! (if write_overlaps b reqdrv f cx then invalidate else pure tt) in
    let! sh := reads (fun s => shared (cl s)) in
    let max_chunk_len :=
      u16 (interface_mtu sh + sizeof_mac_hdr - Z.of_nat DRIVE_DATA_OFFSET - 6) in
    write_chunks (S (Z.to_nat cx)) subfunction reqdrv max_chunk_len 0 cx.

Definition call_lock_unlock_file (reqdrv : Z) : CALL unit :=
  let! d := get_dos id in
  let bl := u8 (r_bx (regs d)) in
  do! (if 1 <? bl then set_error DOS_EXTERR_FILE_NOT_FOUND else pure tt) in
  let params_count := r_cx (regs d) in
  do! put_args 0 (le16_bytes params_count ++ le16_bytes (sft_start_cluster (sft d))) in
  let params_len := u16 (Z.shiftl params_count 3) in
  let! params := copy_from (lock_params d) 0 params_len in
  do! put_args 4 params in
  let! '(i, out) := request (u8 (INT2F_LOCK_UNLOCK_FILE + bl)) reqdrv (params_len + 4) in
  if i =? 0 then pure tt else set_error DOS_EXTERR_FILE_NOT_FOUND.

(** ** Disks *)

Definition call_disk_info (subfunction reqdrv : Z) : CALL unit :=
  let! '(i, out) := request subfunction reqdrv 0 in
  if i =? 6 then
    do! set_drive_has_ext_features reqdrv (flag_ext_features out) in
    let r := reply_data out in
    upd_regs (fun p => mkRegs (reply_ax out) (le16 r 0) (le16 r 2) (le16 r 4)
                         (r_si p) (r_di p) (r_flags p))
  else set_error DOS_EXTERR_FILE_NOT_FOUND.

Definition call_disk_info_large (subfunction reqdrv : Z) : CALL unit :=
  let! features := reads (fun s => has_drive_extended_features (shared (cl s))) in
  if get_drive_has_ext_features reqdrv features then
    let! '(i, out) := request subfunction reqdrv 0 in
    if i =? 10 then
      let r := reply_data out in
      upd_regs (fun p => mkRegs (u16 (Z.shiftr (le32 r 0) 16)) (u16 (le32 r 0))
                           (u16 (Z.shiftr (le32 r 6) 16)) (u16 (le32 r 6))
                           (le16 r 4) (r_di p) (r_flags p))
    else set_error DOS_EXTERR_FILE_NOT_FOUND
  else
    let! '(i, out) := request INT2F_DISK_INFO reqdrv 0 in
    if i =? 6 then
      do! set_drive_has_ext_features reqdrv (flag_ext_features out) in
      let r := reply_data out in
      upd_regs (fun p => mkRegs 0 (le16 r 0) 0 (le16 r 4) (le16 r 2) (r_di p) (r_flags p))
    else set_error DOS_EXTERR_FILE_NOT_FOUND.

(** ** Attributes *)

Definition call_set_attrs (subfunction reqdrv : Z) : CALL unit :=
  let! d := get_dos id in
  let! len := put_path 1 (fn1 d) in
  if len <? 0 then set_error DOS_EXTERR_PATH_NOT_FOUND
  else
    do! put_args 0 [u8 (stack_word d)] in
    let! '(i, out) := request subfunction reqdrv (len + 1) in
    if negb (i =? 0) then set_error DOS_EXTERR_FILE_NOT_FOUND
    else do! set_drive_has_ext_features reqdrv (flag_ext_features out) in check_ax out.

Definition call_get_attrs (subfunction reqdrv : Z) : CALL unit :=
  let! d := get_dos id in
  let! len := put_path 0 (fn1 d) in
  if len <? 0 then set_error DOS_EXTERR_PATH_NOT_FOUND
  else
    let! '(i, out) := request subfunction reqdrv len in
    if i =? NETWORK_ERROR then set_error DOS_EXTERR_FILE_NOT_FOUND
    else
      do! set_drive_has_ext_features reqdrv (flag_ext_features out) in
      if negb (i =? 9) || negb (reply_ax out =? 0) then set_error (reply_ax out)
      else
        let r := reply_data out in
        upd_regs (fun p => mkRegs (byte_at r 8) (le16 r 6) (le16 r 0) (le16 r 2) (r_si p)
                             (le16 r 4) (r_flags p)).

(** ** Names *)

Definition call_rename_file (subfunction reqdrv : Z) : CALL unit :=
  let! d := get_dos id in
  if negb (byte_at (fn1 d) 0 =? byte_at (fn2 d) 0) then set_error DOS_EXTERR_NOT_SAME_DEVICE
  else if contains_wildcard (fn2 d) then set_error DOS_EXTERR_PATH_NOT_FOUND
  else
    let! len := put_path 1 (fn1 d) in
    if len <? 0 then set_error DOS_EXTERR_FILE_NOT_FOUND
    else
      let first := u8 len in
      do! put_args 0 [first] in
      let! len := put_path (1 + first) (fn2 d) in
      if len <? 0 then set_error DOS_EXTERR_FILE_NOT_FOUND
      else
        let! '(i, out) := request subfunction reqdrv (1 + first + len) in
        if negb (i =? 0) then set_error DOS_EXTERR_FILE_NOT_FOUND
        else do! set_drive_has_ext_features reqdrv (flag_ext_features out) in check_ax out.

Definition call_delete_file (subfunction reqdrv : Z) : CALL unit :=
  let! d := get_dos id in
  let! len := put_path 0 (fn1 d) in
  if len <? 0 then set_error DOS_EXTERR_FILE_NOT_FOUND
  else
    let! '(i, out) := request subfunction reqdrv len in
    if i =? NETWORK_ERROR then set_error DOS_EXTERR_FILE_NOT_FOUND
    else
      do! set_drive_has_ext_features reqdrv (flag_ext_features out) in
      if negb (i =? 0) || negb (reply_ax out =? 0) then set_error (reply_ax out) else pure tt.

(** ** Opening *)

(** The name in a reply, at offset 1. *)
Definition reply_name (r : bytes) : fcb_file_name := mkFcb (take 8 (drop 1 r)) (take 3 (drop 9 r)).

(** The SFT of a file that was opened. *)
Definition opened_sft (reqdrv : Z) (r : bytes) (f : dos_sft) : dos_sft :=
  mkSft (handle_count f) (Z.lor (Z.land (sft_open_mode f) 0xFF00) (byte_at r 24)) (byte_at r 0)
    (Z.lor 0x8040 reqdrv) 0 (le16 r 20) (le32 r 12) (le32 r 16) 0 (le32 r 12) 0 0xFF
    (reply_name r).

Definition call_open_create_file (subfunction reqdrv : Z) : CALL unit :=
  let! d := get_dos id in
  if contains_wildcard (fn1 d) then set_error DOS_EXTERR_PATH_NOT_FOUND
  else
    let! len := put_path 6 (fn1 d) in
    if len <? 0 then set_error DOS_EXTERR_PATH_NOT_FOUND
    else
      do! put_args 0 (le16_bytes (stack_word d)) in
      do! (if subfunction =? INT2F_EXTENDED_OPEN_CREATE_FILE
           then put_args 2 (le16_bytes (action_ext d) ++ le16_bytes (mode_ext d)) else pure tt) in
      let! '(i, out) := request subfunction reqdrv (len + 6) in
      if i =? NETWORK_ERROR then set_error 2
      else
        do! set_drive_has_ext_features reqdrv (flag_ext_features out) in
        if negb (i =? 25) || negb (reply_ax out =? 0) then set_error (reply_ax out)
        else
          let r := reply_data out in
          let! b := get_buffer in
          do! (if (subfunction =? INT2F_CREATE_FILE)
                  || (subfunction =? INT2F_EXTENDED_OPEN_CREATE_FILE)
                     && (le16 r 22 =? RESULT_CODE_TRUNCATED)
                     && (fb_drive_no b =? reqdrv) && (fb_start_cluster b =? le16 r 20)
               then invalidate else pure tt) in
          do! (if subfunction =? INT2F_EXTENDED_OPEN_CREATE_FILE
               then upd_regs (set_r_cx (le16 r 22)) else pure tt) in
          upd_sft (opened_sft reqdrv r).

(** ** Searching *)

Definition find_next_args (t : dos_search) : bytes :=
  le16_bytes (srch_cluster t) ++ le16_bytes (srch_dir_entry_no t) ++ [srch_attr t]
  ++ name_blank_padded (srch_tmpl t) ++ ext_blank_padded (srch_tmpl t).

(** The directory entry built from a reply, and the search record. *)
Definition found_entry (r : bytes) : dos_directory_entry :=
  mkDirEntry (reply_name r) (byte_at r 0) (le16 r 12) (le16 r 14) 0 (le32 r 16).
Definition updated_search (subfunction reqdrv : Z) (r : bytes) (d : dos) : dos_search :=
  if subfunction =? INT2F_FIND_FIRST
  then mkSearch (Z.lor reqdrv 0x80) (get_dos_fn_from_full_path (fn1 d)) (sda_srch_attr d)
         (le16 r 22) (le16 r 20)
  else mkSearch (srch_drive_no (search d)) (srch_tmpl (search d)) (srch_attr (search d))
         (le16 r 22) (le16 r 20).

Definition call_find (subfunction reqdrv : Z) : CALL unit :=
  let! d := get_dos id in
  let! len :=
    (if subfunction =? INT2F_FIND_FIRST
     then do! put_args 0 [sda_srch_attr d] in
          let! len := put_path 1 (fn1 d) in pure (len + 1)
     else do! put_args 0 (find_next_args (search d)) in pure 16) in
  let! '(i, out) := request subfunction reqdrv len in
  if i =? NETWORK_ERROR then
    set_error (if subfunction =? INT2F_FIND_FIRST then DOS_EXTERR_FILE_NOT_FOUND
               else DOS_EXTERR_NO_MORE_FILES)
  else
    do! set_drive_has_ext_features reqdrv (flag_ext_features out) in
    if negb (reply_ax out =? 0) || negb (i =? 24) then set_error (reply_ax out)
    else
      let r := reply_data out in
      writes (fun s => set_mem (set_found (found_entry r)
                                  (updated_search subfunction reqdrv r (mem s)) (mem s)) s).

Definition call_seek_from_end (subfunction reqdrv : Z) : CALL unit :=
  let! d := get_dos id in
  do! put_args 0 (le16_bytes (r_dx (regs d)) ++ le16_bytes (r_cx (regs d))
                  ++ le16_bytes (sft_start_cluster (sft d))) in
  let! '(i, out) := request subfunction reqdrv 6 in
  if i =? NETWORK_ERROR then set_error DOS_EXTERR_FILE_NOT_FOUND
  else if negb (reply_ax out =? 0) || negb (i =? 4) then set_error (reply_ax out)
  else
    let r := reply_data out in
    upd_regs (fun p => mkRegs (le16 r 0) (r_bx p) (r_cx p) (le16 r 2) (r_si p) (r_di p) (r_flags p)).

(** ** The switch *)

Definition switch (subfunction reqdrv : Z) : CALL unit :=
  if (subfunction =? INT2F_REMOVE_DIR) || (subfunction =? INT2F_MAKE_DIR)
  then call_make_remove_dir subfunction reqdrv
  else if subfunction =? INT2F_CHANGE_DIR then call_change_dir subfunction reqdrv
  else if subfunction =? INT2F_CLOSE_FILE then call_close_file subfunction reqdrv
  else if subfunction =? INT2F_COMMIT_FILE then pure tt
  else if subfunction =? INT2F_READ_FILE then call_read_file subfunction reqdrv
  else if subfunction =? INT2F_WRITE_FILE then call_write_file subfunction reqdrv
  else if subfunction =? INT2F_LOCK_UNLOCK_FILE then call_lock_unlock_file reqdrv
  else if subfunction =? INT2F_UNLOCK_FILE then set_error DOS_EXTERR_FUNC_NUM_INVALID
  else if subfunction =? INT2F_DISK_INFO then call_disk_info subfunction reqdrv
  else if subfunction =? INT2F_DISK_INFO_LARGE then call_disk_info_large subfunction reqdrv
  else if subfunction =? INT2F_SET_ATTRS then call_set_attrs subfunction reqdrv
  else if subfunction =? INT2F_GET_ATTRS then call_get_attrs subfunction reqdrv
  else if subfunction =? INT2F_RENAME_FILE then call_rename_file subfunction reqdrv
  else if subfunction =? INT2F_DELETE_FILE then call_delete_file subfunction reqdrv
  else if (subfunction =? INT2F_OPEN_FILE) || (subfunction =? INT2F_CREATE_FILE)
          || (subfunction =? INT2F_EXTENDED_OPEN_CREATE_FILE)
  then call_open_create_file subfunction reqdrv
  else if (subfunction =? INT2F_FIND_FIRST) || (subfunction =? INT2F_FIND_NEXT)
  then call_find subfunction reqdrv
  else if subfunction =? INT2F_SEEK_FROM_END then call_seek_from_end subfunction reqdrv
  else if subfunction =? INT2F_EXTENDED_ATTRS then upd_regs (set_r_ax 2)
  else pure tt.

(** "Keep file_buffer data valid for no more than 5 seconds." *)
Definition expire_buffer (now : Z) (b : file_buffer) : file_buffer :=
  if (0 <? valid_bytes b) && (5 * 18 <? u32 (now - fb_timestamp b)) then set_valid_bytes 0 b else b.

Definition handle_request_for_our_drive : CALL unit :=
  let! r := get_dos regs in
  let! reqdrv := reads (fun s => req_drive (cl s)) in
  let subfunction := u8 (r_ax r) in
  do! set_success in
  let! now := reads ticks in
  do! upd_client (fun c => set_file_buffer (expire_buffer now (read_file_buffer c)) c) in
  do! switch subfunction reqdrv in
  upd_client (set_recv_data_len 0).
End Calls.

(** ** The interrupt handler *)

(** [supported_functions_table]; it has no entries for 0x29 to 0x2B. *)
Definition supported_functions_table : list Z :=
  [ 0x00; INT2F_REMOVE_DIR; INT2F_UNUSED; INT2F_MAKE_DIR; INT2F_UNUSED; INT2F_CHANGE_DIR;
    INT2F_CLOSE_FILE; INT2F_COMMIT_FILE; INT2F_READ_FILE; INT2F_WRITE_FILE;
    INT2F_LOCK_UNLOCK_FILE; INT2F_UNLOCK_FILE; INT2F_DISK_INFO; INT2F_UNUSED; INT2F_SET_ATTRS;
    INT2F_GET_ATTRS; INT2F_UNUSED; INT2F_RENAME_FILE; INT2F_UNUSED; INT2F_DELETE_FILE;
    INT2F_UNUSED; INT2F_UNUSED; INT2F_OPEN_FILE; INT2F_CREATE_FILE; INT2F_UNUSED; INT2F_UNUSED;
    INT2F_UNUSED; INT2F_FIND_FIRST; INT2F_FIND_NEXT; INT2F_UNUSED; INT2F_UNUSED; INT2F_UNUSED;
    INT2F_UNUSED; INT2F_SEEK_FROM_END; INT2F_UNUSED; INT2F_UNUSED; INT2F_UNUSED; INT2F_UNUSED;
    INT2F_UNUSED; INT2F_UNUSED; INT2F_UNUSED; INT2F_UNUSED; INT2F_EXTENDED_ATTRS;
    INT2F_EXTENDED_OPEN_CREATE_FILE ].

(** What the handler does with an interrupt: the two calls to its own multiplex
    id, the handler chained to, or a request for one of its drives. *)
Inductive int2f_action :=
  | InstalledReply
  | SharedDataReply
  | NothingDone
  | PrevHandler
  | OurHandler (reqdrv : Z).

Section Dispatch.
(** The bytes in memory behind the table, the first character of the path of
    the CDS at ES:DI and the drive number of the SDA's search record. *)
Context (behind_table : nat -> Z) (cds_letter sdb_drive_no : Z).

Definition supported_entry (al : Z) : Z :=
  let i := Z.to_nat al in
  match supported_functions_table !! i with
  | Some x => x
  | None => behind_table (i - length supported_functions_table)
  end.

Definition function_supported (al : Z) : bool :=
  (al =? INT2F_DISK_INFO_LARGE)
  || (negb (0x2E <? al) && negb (supported_entry al =? INT2F_UNUSED)).

(** Where DOS keeps the drive of the call. *)
Definition requested_drive (al : Z) (d : dos) : Z :=
  if (al =? INT2F_SEEK_FROM_END) || (al =? INT2F_EXTENDED_ATTRS)
     || negb (al <? INT2F_CLOSE_FILE) && negb (INT2F_UNLOCK_FILE <? al)
  then Z.land (u8 (dev_info_word (sft d))) 0x3F
  else if al =? INT2F_FIND_NEXT then Z.land sdb_drive_no 0x1F
  else if existsb (Z.eqb al) [INT2F_SET_ATTRS; INT2F_GET_ATTRS; INT2F_DELETE_FILE;
            INT2F_OPEN_FILE; INT2F_CREATE_FILE; INT2F_EXTENDED_OPEN_CREATE_FILE;
            INT2F_MAKE_DIR; INT2F_REMOVE_DIR; INT2F_CHANGE_DIR; INT2F_RENAME_FILE]
  then drive_to_num (byte_at (fn1 d) 0)
  else drive_to_num cds_letter.

Definition int2F_redirector (my_2Fmux_id ax bx : Z) (sh : shared_data) (d : dos) : int2f_action :=
  let ah := u8 (Z.shiftr ax 8) in
  let al := u8 ax in
  if ah =? my_2Fmux_id then
    if al =? 0 then InstalledReply
    else if (al =? 1) && (bx =? 1) then SharedDataReply else NothingDone
  else if negb (ah =? 0x11) || (al =? 0) || negb (function_supported al) then PrevHandler
  else
    let bl := requested_drive al d in
    if negb (bl <? 26) || (nth (Z.to_nat bl) (drive_map sh) 0xFF =? 0xFF) then PrevHandler
    else OurHandler bl.
End Dispatch.
