(* ===== verification/NetworkInv.v ===== *)
(** * NetworkInv: waiting for replies

    [send_request] always comes back; what it returns is taken from a frame of
    the drive's server that repeats the sequence number of the request; and a
    frame that was kept in the receive buffer before the call makes it fail. *)
From S2P Require Import Prelude Words Checksum Fcb Resident Network.

(** ** Computations with fuel *)

(** [m] comes to the same end whenever it is given enough fuel. *)
Definition ends {S A} (m : nat -> C S A) (s : S) (o : outcome (A * S)) : Prop :=
  exists n, forall fuel, (n <= fuel)%nat -> m fuel s = o.
Definition returns {S A} (m : nat -> C S A) (s : S) : Prop := exists a s', ends m s (Done (a, s')).

Lemma ends_const {S A} (m : C S A) s : ends (fun _ => m) s (m s).
Proof. by exists 0%nat. Qed.

Lemma ends_bind {S A B} (m : nat -> C S A) (k : nat -> A -> C S B) s a s' o :
  ends m s (Done (a, s')) -> ends (fun fuel => k fuel a) s' o ->
  ends (fun fuel => andthen (m fuel) (k fuel)) s o.
Proof.
  intros [n Hm] [n' Hk]. exists (Nat.max n n'). intros fuel Hf. unfold andthen.
  rewrite Hm by lia. apply Hk. lia.
Qed.

Lemma returns_andthen {S A B} (m : nat -> C S A) (k : nat -> A -> C S B) s :
  returns m s -> (forall a s', returns (fun fuel => k fuel a) s') ->
  returns (fun fuel => andthen (m fuel) (k fuel)) s.
Proof.
  intros (a & s' & Hm) Hk. destruct (Hk a s') as (b & s2 & Hb).
  exists b, s2. by eapply ends_bind.
Qed.

Lemma returns_const {S A} (m : C S A) s a s' : m s = Done (a, s') -> returns (fun _ => m) s.
Proof. intros E. exists a, s'. rewrite <- E. apply ends_const. Qed.

Lemma returns_reads {S A B} (f : S -> A) (k : nat -> A -> C S B) s :
  returns (fun fuel => k fuel (f s)) s -> returns (fun fuel => andthen (reads f) (k fuel)) s.
Proof. done. Qed.
Lemma returns_writes {S B} (f : S -> S) (k : nat -> unit -> C S B) s :
  returns (fun fuel => k fuel tt) (f s) -> returns (fun fuel => andthen (writes f) (k fuel)) s.
Proof. done. Qed.
Lemma returns_pure {S A} (a : A) (s : S) : returns (fun _ => pure a) s.
Proof. by eapply returns_const. Qed.

(** ** The laws of the wire and the timer *)

(** A turn of a waiting loop without a tick, and with what the client sends
    then. *)
Definition quiet {N} `{WIRE : !Wire N} (w' w : N) : Prop :=
  exists i w1, arrive w = (i, w1) /\ i <> Some Tick /\ (w' = w1 \/ exists f, w' = transmit f w1).

(** The timer goes on: after finitely many turns there is a tick. *)
Class WireLaws N `{WIRE : !Wire N} := wire_ticks : well_founded quiet.

(** No interval below 2^16 - 1 ticks lasts for ever. *)
Class TimerLaws `{TIMER : !Timer} := clock_passes : forall t start tmo, tmo < 0xFFFF ->
  exists k, tmo < u16 (u16 (Nat.iter (S k) next_tick t) - start).

Section Interrupts.
Context {N : Type} `{WIRE : !Wire N, TIMER : !Timer}.

(** What a frame can change: the receive buffer with its length, the table of
    MAC addresses and the flag; it may be answered. *)
Lemma handle_arp_wire s : wire (handle_arp s) = wire s \/ exists f, wire (handle_arp s) = transmit f (wire s).
Proof. unfold handle_arp. repeat case_match; simpl; eauto. Qed.

Lemma pktdrv_recv_wire f s :
  ticks (pktdrv_recv f s) = ticks s
  /\ (wire (pktdrv_recv f s) = wire s \/ exists g, wire (pktdrv_recv f s) = transmit g (wire s)).
Proof.
  unfold pktdrv_recv. repeat case_match; simpl; auto.
  split; [unfold handle_arp; repeat case_match; done|].
  match goal with |- context [handle_arp ?t] => destruct (handle_arp_wire t); auto end.
Qed.

Lemma interrupt_cases s i w : arrive (wire s) = (i, w) ->
  (i = Some Tick /\ ticks (interrupt s) = next_tick (ticks s))
  \/ (i <> Some Tick /\ ticks (interrupt s) = ticks s
      /\ (wire (interrupt s) = w \/ exists g, wire (interrupt s) = transmit g w)).
Proof.
  intros E. unfold interrupt. rewrite E. destruct i as [[|f]|]; [left|right|right].
  - done.
  - destruct (pktdrv_recv_wire f (set_wire w s)) as [Ht Hw]. done.
  - simpl. auto.
Qed.

(** A loop that polls after each interrupt and stops at a timeout. *)
Context `{LAWS : !WireLaws N, TL : !TimerLaws}.
Context {A : Type} (loop : nat -> C (pc N) A) (start tmo : Z).

(** One turn: a timeout, a result, or another turn in a state with the same
    clock and wire. *)
Hypothesis loop_turn : forall s,
  (exists a s', forall turns, loop (S turns) s = Done (a, s'))
  \/ (elapsed start (interrupt s) <= tmo
      /\ exists s', ticks s' = ticks (interrupt s) /\ wire s' = wire (interrupt s)
         /\ forall turns, loop (S turns) s = loop turns s').

Lemma loop_returns s : tmo < 0xFFFF -> returns loop s.
Proof.
  intros Ht. destruct (clock_passes (ticks s) start tmo Ht) as [k Hk].
  revert s Hk. induction k as [k IHk] using lt_wf_ind. intros s Hk.
  remember (wire s) as w eqn:Ew. revert s Hk Ew.
  induction (wire_ticks w) as [w _ IHw]. intros s Hk Ew.
  destruct (loop_turn s) as [(a & s' & E)|(He & s' & Tk & Wi & E)].
  { exists a, s', 1%nat. intros [|fuel] Hf; [lia|]. apply E. }
  assert (returns loop s') as (a & s2 & n & Hn).
  { destruct (arrive w) as [i w'] eqn:Ea. subst w.
    destruct (interrupt_cases s i w' Ea) as [[-> Ht1]|(Hi & Ht1 & Hw')].
    - rewrite Nat.iter_succ_r in Hk. destruct k as [|k].
      + unfold elapsed in He. rewrite Ht1 in He. simpl in Hk. lia.
      + apply (IHk k); [lia|]. by rewrite Tk, Ht1.
    - apply (IHw (wire s')); [|by rewrite Tk, Ht1|done].
      exists i, w'. rewrite Wi. auto. }
  exists a, s2, (S n). intros [|fuel] Hf; [lia|]. rewrite E. apply Hn. lia.
Qed.
End Interrupts.

(** ** Requests come back *)

Section Returns.
Context {N : Type} `{WIRE : !Wire N, TIMER : !Timer, LAWS : !WireLaws N, TL : !TimerLaws}.

Lemma wait_mac_returns slot start tmo (s : pc N) : tmo < 0xFFFF ->
  returns (fun turns => wait_mac turns slot start tmo) s.
Proof.
  intros Ht. apply (loop_returns _ start tmo); [|done]. intros t. cbn [wait_mac].
  destruct (Z.ltb_spec tmo (elapsed start (interrupt t))); [left; by do 2 eexists|].
  case_match; [left; by do 2 eexists|]. right. split; [done|]. by exists (interrupt t).
Qed.

Lemma wait_reply_returns drv seq start tmo (s : pc N) : tmo < 0xFFFF ->
  returns (fun turns => wait_reply turns drv seq start tmo) s.
Proof.
  intros Ht. apply (loop_returns _ start tmo); [|done]. intros t. cbn [wait_reply].
  destruct (Z.ltb_spec tmo (elapsed start (interrupt t))); [left; by do 2 eexists|].
  case_match; [right; split; [done|]; by exists (interrupt t)|].
  case_match; [left; by do 2 eexists|]. right. split; [done|].
  by exists (set_cl (set_recv_data_len 0 (cl (interrupt t))) (interrupt t)).
Qed.

Lemma arp_attempts_returns n slot (s : pc N) : returns (fun fuel => arp_attempts fuel n slot) s.
Proof.
  revert s. induction n as [|n IH]; intros s; cbn [arp_attempts]; [apply returns_pure|].
  apply returns_writes, returns_reads, returns_andthen; [by apply wait_mac_returns|].
  intros [] s3; [apply returns_pure|apply IH].
Qed.

Lemma send_attempts_returns n drv len seq tmo max (s : pc N) : tmo < 0xFFFF -> max < 0xFFFF ->
  returns (fun fuel => send_attempts fuel n drv len seq tmo max) s.
Proof.
  intros Ht Hm. revert tmo Ht s.
  induction n as [|n IH]; intros tmo Ht s; cbn [send_attempts]; [apply returns_pure|].
  apply returns_writes, returns_reads, returns_andthen; [by apply wait_reply_returns|].
  intros [r|] s3; [apply returns_pure|]. apply IH. case_match; lia.
Qed.

(** The timeouts of a drive, in units of four ticks, are bytes. *)
Definition timeouts_ok (d : drive_info) : Prop :=
  is_byte (min_rcv_tmo_18_2_ticks_shr_2 d) /\ is_byte (max_rcv_tmo_18_2_ticks_shr_2 d).

Lemma tmo_bound x : is_byte x -> Z.shiftl x 2 < 0xFFFF.
Proof. unfold is_byte. intros. rewrite Z.shiftl_mul_pow2 by lia. lia. Qed.

Lemma send_request_ends function drive len out (s : pc N) :
  timeouts_ok (drive_info_of (shared (cl s)) drive) ->
  exists n r, forall fuel, (n <= fuel)%nat -> send_request fuel function drive len out s = Done r.
Proof.
  intros [Hmin Hmax].
  assert (returns (fun fuel => send_request fuel function drive len out) s) as (a & s' & n & Hn);
    [|by exists n, (a, s')].
  apply returns_reads. case_match; [apply returns_pure|].
  apply returns_andthen.
  { case_match; [|apply returns_pure]. apply returns_reads, returns_writes, arp_attempts_returns. }
  intros [] s1. apply returns_writes, returns_reads, returns_andthen.
  - apply send_attempts_returns; by apply tmo_bound.
  - intros [r|] s2; apply returns_pure.
Qed.
(** A request always comes back: however the network behaves, as long as
    the timer goes on, [send_request] returns after finitely many turns of its
    waiting loops. *)
Theorem send_request_returns function drive len out (s : pc N) :
  timeouts_ok (drive_info_of (shared (cl s)) drive) ->
  exists n r, forall fuel, (n <= fuel)%nat -> send_request fuel function drive len out s = Done r.
Proof. apply send_request_ends. Qed.
End Returns.

(** ** What waiting does *)

(** Partial correctness of a computation of the client. *)
Definition hoare {S A} (P : S -> Prop) (m : C S A) (Q : A -> S -> Prop) : Prop :=
  forall s a s', P s -> m s = Done (a, s') -> Q a s'.

Section Hoare.
Context {S : Type}.

Lemma hoare_pure {A} (a : A) (P : S -> Prop) (Q : A -> S -> Prop) :
  (forall s, P s -> Q a s) -> hoare P (pure a) Q.
Proof. intros H s b s' Hs [= <- <-]. auto. Qed.
Lemma hoare_writes (f : S -> S) (P : S -> Prop) (Q : unit -> S -> Prop) :
  (forall s, P s -> Q tt (f s)) -> hoare P (writes f) Q.
Proof. intros H s [] s' Hs [= <-]. auto. Qed.
Lemma hoare_reads {A} (f : S -> A) (P : S -> Prop) (Q : A -> S -> Prop) :
  (forall s, P s -> Q (f s) s) -> hoare P (reads f) Q.
Proof. intros H s b s' Hs [= <- <-]. auto. Qed.
Lemma hoare_bind {A B} (m : C S A) (k : A -> C S B) P R (Q : B -> S -> Prop) :
  hoare P m R -> (forall a, hoare (R a) (k a) Q) -> hoare P (andthen m k) Q.
Proof.
  intros Hm Hk s b s' Hs E. unfold andthen in E.
  destruct (m s) as [[a s1]| |] eqn:Em; try done. eapply Hk; [by eapply Hm|done].
Qed.
Lemma hoare_pre {A} (m : C S A) (P P' : S -> Prop) Q :
  (forall s, P s -> P' s) -> hoare P' m Q -> hoare P m Q.
Proof. intros H Hm s a s' Hs. apply Hm; auto. Qed.
Lemma hoare_post {A} (m : C S A) P (Q Q' : A -> S -> Prop) :
  (forall a s, Q' a s -> Q a s) -> hoare P m Q' -> hoare P m Q.
Proof. intros H Hm s a s' Hs E. apply H. by eapply Hm. Qed.
End Hoare.

Section Waiting.
Context {N : Type} `{WIRE : !Wire N, TIMER : !Timer}.
Implicit Types (s : pc N).

(** An invariant of the interrupts that also holds when a frame is ignored. *)
Context (I : pc N -> Prop).
Hypothesis I_interrupt : forall s, I s -> I (interrupt s).
Hypothesis I_ignore : forall s, I s -> server_response_received (shared (cl s)) <> 0 ->
  I (set_cl (set_recv_data_len 0 (cl s)) s).

Lemma wait_mac_holds turns slot start tmo :
  hoare I (wait_mac turns slot start tmo) (fun _ s => I s).
Proof.
  induction turns as [|turns IH]; intros s a s' Hs; cbn [wait_mac]; [done|].
  pose proof (I_interrupt s Hs) as Hi.
  case_match; [by intros [= <- <-]|]. case_match; [by intros [= <- <-]|]. by apply IH.
Qed.

Lemma arp_attempts_holds fuel n slot :
  (forall s, I s -> I (send_frame 42 (arp_request_buff (cl s)) s)) ->
  hoare I (arp_attempts fuel n slot) (fun _ s => I s).
Proof.
  intros I_send. induction n as [|n IH]; cbn [arp_attempts]; [by apply hoare_pure|].
  apply (hoare_bind _ _ _ (fun _ => I)); [by apply hoare_writes|intros []].
  apply (hoare_bind _ _ _ (fun _ => I)); [by apply hoare_reads|intros start].
  eapply hoare_bind; [apply wait_mac_holds|intros []; [by apply hoare_pure|apply IH]].
Qed.

Lemma wait_reply_holds turns drv seq start tmo :
  hoare I (wait_reply turns drv seq start tmo) (fun r s => I s /\
    forall a, r = Some a -> server_response_received (shared (cl s)) <> 0
                            /\ accept_reply drv seq (cl s) = Some a).
Proof.
  induction turns as [|turns IH]; intros s a s' Hs; cbn [wait_reply]; [done|].
  pose proof (I_interrupt s Hs) as Hi.
  case_match; [by intros [= <- <-]|].
  destruct (Z.eqb_spec (server_response_received (shared (cl (interrupt s)))) 0) as [Hr|Hr];
    [by apply IH|].
  destruct (accept_reply drv seq (cl (interrupt s))) as [r|] eqn:Er.
  - intros [= <- <-]. split; [done|]. intros a [= <-]. done.
  - apply IH. by apply I_ignore.
Qed.

Lemma send_attempts_holds fuel n drv len seq tmo max :
  (forall s, I s -> I (send_frame len (send_buff (cl s)) s)) ->
  hoare I (send_attempts fuel n drv len seq tmo max) (fun r s => I s /\
    forall a, r = Some a -> server_response_received (shared (cl s)) <> 0
                            /\ accept_reply drv seq (cl s) = Some a).
Proof.
  intros I_send. revert tmo.
  induction n as [|n IH]; intros tmo; cbn [send_attempts]; [by apply hoare_pure|].
  apply (hoare_bind _ _ _ (fun _ => I)); [by apply hoare_writes|intros []].
  apply (hoare_bind _ _ _ (fun _ => I)); [by apply hoare_reads|intros start].
  eapply hoare_bind; [apply wait_reply_holds|]. intros [r|].
  - by apply hoare_pure.
  - eapply hoare_pre; [|apply IH]. by intros s [Hs _].
Qed.
End Waiting.

(** ** What interrupts leave alone *)

(** The configuration of the client: everything shared but the MAC addresses,
    the last remote address and the flag. *)
Definition config_of (sh : shared_data) :=
  (drive_map sh, drive_infos sh, local_ipv4 sh, net_mask sh, local_port sh,
   disable_sending_arp_request sh, gateway_ip_slot sh, interface_mtu sh,
   ip_value <$> ip_mac_map sh, local_mac_addr sh, has_drive_extended_features sh).

(** The sizes of the buffers of the resident part; the ARP request is filled in
    when the program starts. *)
Record buffers_ok (c : client) : Prop := {
  recv_buff_size : zlen (recv_buff c) = MAX_FRAMESIZE;
  send_buff_size : zlen (send_buff c) = MAX_FRAMESIZE;
  arp_buff_size : length (arp_request_buff c) = 42%nat;
  arp_buff_type : le16 (arp_request_buff c) 12 = 0x0608;
  local_mac_size : length (local_mac_addr (shared c)) = 6%nat;
  mac_sizes : Forall (fun e => length (mac_bytes e) = 6%nat) (ip_mac_map (shared c));
}.

Lemma learn_mac_sizes ip mac sh : length mac = 6%nat ->
  Forall (fun e => length (mac_bytes e) = 6%nat) (ip_mac_map sh) ->
  Forall (fun e => length (mac_bytes e) = 6%nat) (learn_mac ip mac sh).
Proof.
  intros Hm Ha. unfold learn_mac. destruct (list_find _ _) as [[i e]|]; [|done].
  assert (Forall (fun e => length (mac_bytes e) = 6%nat) (set_mac i mac (ip_mac_map sh))) as Hs.
  { unfold set_mac. apply Forall_alter; [done|]. done. }
  case_match; [|done]. unfold use_gateway. apply Forall_lookup. intros j x.
  rewrite list_lookup_imap. destruct (_ !! j) as [y|] eqn:Ey; [|done]. simpl. intros [= <-].
  case_match; [done|]. rewrite Forall_lookup in Hs. eauto.
Qed.

Lemma learn_mac_ips ip mac sh : ip_value <$> learn_mac ip mac sh = ip_value <$> ip_mac_map sh.
Proof.
  unfold learn_mac. destruct (list_find _ _) as [[i e]|]; [|done].
  assert (ip_value <$> set_mac i mac (ip_mac_map sh) = ip_value <$> ip_mac_map sh) as E.
  { unfold set_mac. apply list_eq. intros j. rewrite !list_lookup_fmap.
    destruct (decide (j = i)) as [->|].
    - rewrite list_lookup_alter_eq. by destruct (ip_mac_map sh !! i).
    - by rewrite list_lookup_alter_ne. }
  case_match; [|done]. rewrite <- E. unfold use_gateway. rewrite fmap_imap.
  apply list_eq. intros j. rewrite list_lookup_imap, list_lookup_fmap.
  destruct (_ !! j); [|done]. simpl. by case_match.
Qed.

Lemma arp_reply_length sh b : length (local_mac_addr sh) = 6%nat -> (42 <= length b)%nat ->
  length (arp_reply sh b) = length b.
Proof.
  intros Hm Hb. unfold arp_reply, le16_bytes, le32_bytes.
  rewrite !length_app, !length_take, !length_drop, Hm. cbn [length]. lia.
Qed.

(** Both states of a wait agree on what the interrupts leave alone. *)
Record undisturbed {N} (s s' : pc N) : Prop := {
  same_mem : mem s' = mem s;
  same_file_buffer : read_file_buffer (cl s') = read_file_buffer (cl s);
  same_req_drive : req_drive (cl s') = req_drive (cl s);
  same_config : config_of (shared (cl s')) = config_of (shared (cl s));
  same_buffers : buffers_ok (cl s) -> buffers_ok (cl s');
}.

#[export] Instance undisturbed_preorder {N} : PreOrder (@undisturbed N).
Proof.
  split; [by intros s|]. intros s1 s2 s3 [? ? ? ? H1] [? ? ? ? H2].
  split; try congruence. auto.
Qed.

(** In addition, the request being answered is the same. *)
Record waiting_step {N} (s s' : pc N) : Prop := {
  sr_undisturbed : undisturbed s s';
  sr_send_buff : send_buff (cl s') = send_buff (cl s);
  sr_seq : request_last_sent_seq_num (cl s') = request_last_sent_seq_num (cl s);
  sr_id : ipv4_last_sent_packet_id (cl s') = ipv4_last_sent_packet_id (cl s);
  sr_ip : last_remote_ip (shared (cl s')) = last_remote_ip (shared (cl s));
  sr_port : last_remote_udp_port (shared (cl s')) = last_remote_udp_port (shared (cl s));
}.

#[export] Instance waiting_step_preorder {N} : PreOrder (@waiting_step N).
Proof.
  split; [by intros s|]. intros s1 s2 s3 [? ? ? ? ? ?] [? ? ? ? ? ?].
  split; try congruence. by etrans.
Qed.

Section Disturbance.
Context {N : Type} `{WIRE : !Wire N, TIMER : !Timer}.
Implicit Types (s : pc N).

Lemma set_recv_data_len_same n s : waiting_step s (set_cl (set_recv_data_len n (cl s)) s).
Proof. split; [split|..]; try done. by intros []. Qed.

Lemma handle_arp_same s : (42 <= length (recv_buff (cl s)))%nat -> waiting_step s (handle_arp s).
Proof.
  intros Hl. unfold handle_arp. repeat case_match; try done;
    (split; [split|..]; try done; simpl;
     [unfold config_of; simpl; by rewrite learn_mac_ips |]);
    intros [Hr Hs Ha Hat Hm Hms]; split; simpl in *; try done;
    try (apply learn_mac_sizes; [rewrite length_take, length_drop; lia|done]).
  by rewrite arp_reply_length.
Qed.

Lemma write_at_length0 (f b : bytes) : (length f <= length b)%nat -> length (write_at 0 f b) = length b.
Proof. intros Hl. unfold write_at. rewrite take_0. simpl. rewrite length_app, length_drop. lia. Qed.

Lemma pktdrv_recv_same f s : waiting_step s (pktdrv_recv f s).
Proof.
  unfold pktdrv_recv. destruct ((MAX_FRAMESIZE <? zlen f) || _) eqn:Ef; [done|].
  apply orb_false_iff in Ef as [Hlen _]. apply Z.ltb_ge in Hlen.
  set (c := set_recv_data_len (zlen f) _).
  assert (waiting_step s (set_cl c s)) as Hc.
  { split; [split|..]; try done. intros [Hr Hs Ha Hat Hm Hms]. split; simpl in *; try done.
    rewrite write_at_length0 by lia. done. }
  assert (forall t, waiting_step s t ->
    waiting_step s (set_cl (set_recv_data_len 0 (cl t)) t)) as Hd.
  { intros t Ht. etrans; [exact Ht|apply set_recv_data_len_same]. }
  destruct (Z.ltb_spec (zlen f) 34); [apply (Hd _ Hc)|].
  destruct (_ =? 0x0008).
  { destruct (handle_ipv4 c); [|apply (Hd _ Hc)]. etrans; [exact Hc|]. split; [split|..]; try done.
    by intros []. }
  destruct (Z.ltb_spec (zlen f) 42); [apply (Hd _ Hc)|]. destruct (_ =? 0x0608); [|apply (Hd _ Hc)].
  apply Hd. etrans; [exact Hc|]. apply handle_arp_same. simpl.
  unfold write_at. rewrite !length_app. simpl. lia.
Qed.

Lemma interrupt_same s : waiting_step s (interrupt s).
Proof.
  unfold interrupt. destruct (arrive (wire s)) as [i w].
  assert (waiting_step s (set_wire w s)) as Hw by (split; [split|..]; done).
  destruct i as [[|f]|]; [|etrans; [exact Hw|apply pktdrv_recv_same]|done].
  etrans; [exact Hw|]. split; [split|..]; done.
Qed.

Lemma send_frame_same n b s : waiting_step s (send_frame n b s).
Proof. split; [split|..]; done. Qed.
End Disturbance.
#[export] Hint Resolve set_recv_data_len_same interrupt_same send_frame_same : core.

(** ** The shape of a request *)

Section Request.
Context {N : Type} `{WIRE : !Wire N, TIMER : !Timer}.
Implicit Types (s : pc N).

(** The request fits in one frame of the interface. *)
Definition frame_length_of (request_data_len : Z) : Z :=
  u16 (sizeof_mac_hdr + sizeof_ipv4_hdr + sizeof_udp_hdr + sizeof_drive_proto_hdr
       + request_data_len).
Definition fits (sh : shared_data) (request_data_len : Z) : Prop :=
  u16 (frame_length_of request_data_len - sizeof_mac_hdr) <= interface_mtu sh.

(** [I] holds until the frame is built, [J] from then on. *)
Context (I J : pc N -> Prop) (function drive len : Z) (out : results) (drv : drive_info) (q : Z).
Hypothesis I_drive : forall s, I s -> drive_info_of (shared (cl s)) drive = drv.
Hypothesis I_fits : forall s, I s -> fits (shared (cl s)) len.
Hypothesis I_interrupt : forall s, I s -> I (interrupt s).
Hypothesis I_send : forall s, I s -> I (send_frame 42 (arp_request_buff (cl s)) s).
Hypothesis I_arp : forall s ip, I s ->
  I (set_cl (set_arp_request_buff (write_at 38 (le32_bytes ip) (arp_request_buff (cl s))) (cl s)) s).
Hypothesis I_build : forall s, I s ->
  J (set_cl (build_request function drive len (flag_ext_features out) (cl s)) s).
Hypothesis J_interrupt : forall s, J s -> J (interrupt s).
Hypothesis J_send : forall s, J s -> J (send_frame (frame_length_of len) (send_buff (cl s)) s).
Hypothesis J_ignore : forall s, J s -> server_response_received (shared (cl s)) <> 0 ->
  J (set_cl (set_recv_data_len 0 (cl s)) s).
Hypothesis J_seq : forall s, J s -> request_last_sent_seq_num (cl s) = q.

Lemma send_arp_request_holds fuel : hoare I (send_arp_request fuel drive) (fun _ s => I s).
Proof.
  intros s a s' Hs. unfold send_arp_request, andthen at 1, reads at 1. cbv beta iota.
  revert a s'. unfold andthen at 1, writes at 1. cbv beta iota. intros a s'.
  apply (arp_attempts_holds I); auto.
Qed.

Lemma send_request_holds fuel :
  hoare I (send_request fuel function drive len out) (fun r s => J s /\
    (r = (NETWORK_ERROR, out)
     \/ server_response_received (shared (cl s)) <> 0 /\ accept_reply drv q (cl s) = Some r)).
Proof.
  intros s r s' Hs. unfold send_request. unfold andthen at 1, reads at 1. cbv beta iota.
  rewrite (I_drive s Hs).
  fold (frame_length_of len).
  destruct (Z.ltb_spec (interface_mtu (shared (cl s)))
    (u16 (frame_length_of len - sizeof_mac_hdr))) as [Hf|_];
    [pose proof (I_fits s Hs); unfold fits in *; lia|].
  cbv zeta. set (arp := (_ =? 0) && _). clearbody arp. revert s r s' Hs.
  match goal with |- forall s r s', _ -> ?m s = _ -> _ => change (hoare I m (fun r s => J s /\
    (r = (NETWORK_ERROR, out)
     \/ server_response_received (shared (cl s)) <> 0 /\ accept_reply drv q (cl s) = Some r))) end.
  apply (hoare_bind _ _ _ (fun _ => I)).
  { destruct arp; [apply send_arp_request_holds|by apply hoare_pure]. }
  intros []. apply (hoare_bind _ _ _ (fun _ => J)); [by apply hoare_writes|intros []].
  apply (hoare_bind _ _ _ (fun n s => n = q /\ J s)); [apply hoare_reads; auto|].
  intros n s r s' [-> HJ]. revert s r s' HJ. eapply hoare_bind.
  - by apply (send_attempts_holds J).
  - intros [r|]; apply hoare_pure; intros s [Hs Hr]; (split; [done|]); [right; auto|by left].
Qed.
End Request.

(** ** The request frame, written out *)

Lemma write_at_segment (n : nat) (bs a m z : bytes) : length a = n -> length bs = length m ->
  write_at n bs (a ++ m ++ z) = a ++ bs ++ z.
Proof.
  intros <- Hl. unfold write_at. rewrite take_app_length, Hl.
  by rewrite drop_app_add, drop_app_length.
Qed.

(** Cutting a buffer. *)
Lemma cut_at (n m : nat) (b : bytes) : drop n b = take m (drop n b) ++ drop (n + m) b.
Proof. by rewrite <- drop_drop, take_drop. Qed.

Lemma fill_drive_proto_eq function len ext drv drive seq (pre b4 rest : bytes) :
  length pre = 42%nat -> length b4 = 8%nat ->
  let tail := [seq; drive; u8 function] ++ rest in
  let n := u16 (len + sizeof_drive_proto_hdr) in
  let flags := if ext =? 0 then n else Z.lor n 0x2000 in
  let on := has_flag (enabled_checksums drv) CHECKSUM_NETMOUNT_PROTO in
  fill_drive_proto function len ext drv drive seq (pre ++ b4 ++ rest)
  = pre ++ [1] ++ le16_bytes (if on then Z.lor flags 0x8000 else flags)
        ++ le16_bytes (if on then bsd_checksum_asm tail (u16 (n - 5)) else 0x9524) ++ tail.
Proof.
  intros Lp L4. destruct b4 as [|v [|l0 [|l1 [|c0 [|c1 [|q [|d [|f [|]]]]]]]]]; try done.
  cbv zeta. unfold fill_drive_proto.
  set (flags := if _ =? _ then _ else _). set (tail := [seq; drive; u8 function] ++ rest).
  assert (forall k x, (k <= 8)%nat -> forall b : bytes, (k + length x <= length b)%nat ->
    write_at (42 + k) x (pre ++ b) = pre ++ write_at k x b) as W.
  { intros k x _ b _. unfold write_at. rewrite take_app, Lp, (take_ge pre) by lia.
    replace (42 + k - 42)%nat with k by lia. rewrite <- app_assoc. do 3 f_equal.
    rewrite drop_app_ge by lia. f_equal. lia. }
  pose proof (W 0%nat [1]) as W0. pose proof (W 5%nat [seq; drive; u8 function]) as W5.
  pose proof (fun x => W 1%nat (le16_bytes x)) as W1.
  pose proof (fun x => W 3%nat (le16_bytes x)) as W3. clear W. cbn [Nat.add] in *.
  rewrite W0 by (cbn [length app]; lia).
  change (write_at 0 [1] ([v; l0; l1; c0; c1; q; d; f] ++ rest))
    with ([1; l0; l1; c0; c1; q; d; f] ++ rest).
  rewrite W5 by (cbn [length app]; lia).
  change (write_at 5 [seq; drive; u8 function] ([1; l0; l1; c0; c1; q; d; f] ++ rest))
    with ([1; l0; l1; c0; c1] ++ tail).
  assert (forall x, write_at 43 (le16_bytes x) (pre ++ [1; l0; l1; c0; c1] ++ tail)
    = pre ++ [1] ++ le16_bytes x ++ [c0; c1] ++ tail) as E1
    by (intros x; rewrite W1 by (cbn [length app le16_bytes]; lia); done).
  assert (forall x y, write_at 45 (le16_bytes y) (pre ++ [1] ++ le16_bytes x ++ [c0; c1] ++ tail)
    = pre ++ [1] ++ le16_bytes x ++ le16_bytes y ++ tail) as E3
    by (intros x y; rewrite W3 by (cbn [length app le16_bytes]; lia); done).
  assert (forall x, drop 47 (pre ++ [1] ++ le16_bytes x ++ [c0; c1] ++ tail) = tail) as D1.
  { intros x. rewrite drop_app_ge by lia. by rewrite Lp. }
  case_match; rewrite E1, ?D1, E3; done.
Qed.

Section RequestFrame.
Context (function local_drive len ext : Z) (c : client).

(** The drive and its server. *)
Definition request_drive_info : drive_info := drive_info_of (shared c) local_drive.
Definition request_server : ip_mac :=
  ip_mac_of (shared c) (remote_ip_idx request_drive_info).

Definition request_seq : Z := u8 (request_last_sent_seq_num c + 1).

Definition request_flags : Z :=
  let n := u16 (len + sizeof_drive_proto_hdr) in
  let flags := if ext =? 0 then n else Z.lor n 0x2000 in
  if has_flag (enabled_checksums request_drive_info) CHECKSUM_NETMOUNT_PROTO
  then Z.lor flags 0x8000 else flags.

(** The bytes behind the checksum. *)
Definition request_tail : bytes :=
  [request_seq; nth (Z.to_nat local_drive) (drive_map (shared c)) 0xFF; u8 function]
  ++ drop DRIVE_DATA_OFFSET (send_buff c).

Definition request_checksum : Z :=
  if has_flag (enabled_checksums request_drive_info) CHECKSUM_NETMOUNT_PROTO
  then bsd_checksum_asm request_tail (u16 (u16 (len + sizeof_drive_proto_hdr) - 5)) else 0x9524.

(** The message of the NetMount protocol, with what is in the buffer behind. *)
Definition request_message : bytes :=
  [1] ++ le16_bytes request_flags ++ le16_bytes request_checksum ++ request_tail.

Definition request_ip : bytes :=
  (create_ip (ipv4_last_sent_packet_id c) (local_ipv4 (shared c)) (ip_value request_server)
     (sizeof_udp_hdr + sizeof_drive_proto_hdr + len) 17).1.
Definition request_udp : bytes :=
  create_udp (local_port (shared c)) (remote_port request_drive_info) (sizeof_drive_proto_hdr + len).

Lemma build_request_frame : length (mac_bytes request_server) = 6%nat ->
  (DRIVE_DATA_OFFSET <= length (send_buff c))%nat ->
  send_buff (build_request function local_drive len ext c)
  = mac_bytes request_server ++ take 8 (drop 6 (send_buff c)) ++ request_ip ++ request_udp
    ++ request_message.
Proof.
  unfold build_request, request_ip, request_message, request_checksum, request_flags, request_tail,
    request_seq, request_udp, request_server, request_drive_info.
  set (drv := drive_info_of _ _). set (slot := ip_mac_of _ _). intros Hm Hb.
  destruct (create_ip _ _ _ _ _) as [ip id] eqn:Eip. cbn [send_buff set_shared set_send_buff fst].
  assert (length ip = 20%nat) as Lip by (injection Eip as <- _; done).
  set (udp := create_udp _ _ _). assert (length udp = 8%nat) as Ludp by done. clearbody udp.
  set (b := send_buff c) in *. clear Eip.
  assert (b = take 6 b ++ take 8 (drop 6 b) ++ take 20 (drop 14 b) ++ take 8 (drop 34 b)
              ++ take 8 (drop 42 b) ++ drop 50 b) as Eb.
  { pose proof (cut_at 6 8 b) as E1. pose proof (cut_at 14 20 b) as E2.
    pose proof (cut_at 34 8 b) as E3. pose proof (cut_at 42 8 b) as E4. cbn [Nat.add] in *.
    by rewrite <- E4, <- E3, <- E2, <- E1, take_drop. }
  rewrite Eb at 1.
  assert (length (take 6 b) = 6%nat) as L0 by (rewrite length_take; lia).
  assert (length (take 8 (drop 6 b)) = 8%nat) as L1 by (rewrite length_take, length_drop; lia).
  assert (length (take 20 (drop 14 b)) = 20%nat) as L2 by (rewrite length_take, length_drop; lia).
  assert (length (take 8 (drop 34 b)) = 8%nat) as L3 by (rewrite length_take, length_drop; lia).
  assert (length (take 8 (drop 42 b)) = 8%nat) as L4 by (rewrite length_take, length_drop; lia).
  clear Eb.
  pose proof (write_at_segment 0 (mac_bytes slot) [] (take 6 b)) as W. cbn [app] in W.
  rewrite W by (done || congruence). clear W. rewrite (app_assoc (mac_bytes slot)).
  rewrite (write_at_segment 14 ip) by (rewrite ?length_app; congruence || lia).
  rewrite (app_assoc _ ip).
  rewrite (write_at_segment 34 udp) by (rewrite ?length_app; congruence || lia).
  rewrite (app_assoc _ udp). rewrite fill_drive_proto_eq by (rewrite ?length_app; congruence || lia).
  by rewrite <- !app_assoc.
Qed.

Lemma build_request_size : length (mac_bytes request_server) = 6%nat ->
  (DRIVE_DATA_OFFSET <= length (send_buff c))%nat ->
  length (send_buff (build_request function local_drive len ext c)) = length (send_buff c).
Proof.
  intros Hm Hb. rewrite build_request_frame by done.
  assert (length request_ip = 20%nat) as Li by done.
  assert (length request_udp = 8%nat) as Lu by done.
  unfold request_message, request_tail.
  rewrite !length_app, length_take, !length_drop, Hm, Li, Lu. cbn [length le16_bytes]. lia.
Qed.

(** Everything else the function assigns. *)
Lemma build_request_eq : build_request function local_drive len ext c
  = set_shared (set_response_received 0 (set_last_remote (ip_value request_server)
                 (remote_port request_drive_info) (shared c)))
      (set_send_buff (send_buff (build_request function local_drive len ext c))
         (set_seq_num request_seq (set_packet_id (u16 (ipv4_last_sent_packet_id c + 1)) c))).
Proof. done. Qed.
End RequestFrame.

(** The frame behind its destination address. *)
Definition request_rest (function local_drive len ext : Z) (c : client) : bytes :=
  take 8 (drop 6 (send_buff c)) ++ request_ip local_drive len c ++ request_udp local_drive len c
  ++ request_message function local_drive len ext c.

Lemma ip_value_of sh i : ip_value (ip_mac_of sh i) = nth (Z.to_nat i) (ip_value <$> ip_mac_map sh) 0.
Proof. unfold ip_mac_of. change 0 with (ip_value (mkIpMac 0 [0; 0; 0; 0; 0; 0])). by rewrite map_nth. Qed.

(** Nothing a request is made of changes while the client waits. *)
Lemma request_same {N} function drive len ext (s t : pc N) : waiting_step s t ->
  drive_info_of (shared (cl t)) drive = drive_info_of (shared (cl s)) drive
  /\ request_seq (cl t) = request_seq (cl s)
  /\ ip_value (request_server drive (cl t)) = ip_value (request_server drive (cl s))
  /\ request_rest function drive len ext (cl t) = request_rest function drive len ext (cl s).
Proof.
  intros [[_ _ _ Hc _] Hb Hs Hi _ _].
  unfold request_rest, request_message, request_ip, request_udp, request_checksum, request_flags,
    request_tail, request_server, request_drive_info, request_seq, drive_info_of.
  rewrite Hb, Hs, Hi. unfold config_of in Hc.
  injection Hc as E1 E2 E3 E4 E5 E6 E7 E8 E9 E10 E11.
  rewrite !ip_value_of, E1, E2, E3, E5, E9. done.
Qed.

(** ** What the receive buffer holds *)

(** The buffer holds [f], a frame that passed the checks of [handle_ipv4]. *)
Definition holds_frame (f : bytes) (c : client) : Prop :=
  recv_data_len c = zlen f /\ (exists b, recv_buff c = write_at 0 f b) /\ handle_ipv4 c = true.

Lemma holds_frame_same f c c' : holds_frame f c -> config_of (shared c') = config_of (shared c) ->
  last_remote_ip (shared c') = last_remote_ip (shared c) ->
  last_remote_udp_port (shared c') = last_remote_udp_port (shared c) ->
  req_drive c' = req_drive c -> recv_buff c' = recv_buff c -> recv_data_len c' = recv_data_len c ->
  holds_frame f c'.
Proof.
  unfold holds_frame. intros (Hl & Hb & Hh) Hc Hip Hp Hd Eb El. rewrite Eb, El.
  split_and!; [done|done|]. revert Hh. unfold handle_ipv4, drive_info_of.
  rewrite Eb, El, Hip, Hp, Hd. unfold config_of in Hc. by injection Hc as _ -> -> _ -> _ _ _ _ _ _.
Qed.

Section Provenance.
Context {N : Type} `{WIRE : !Wire N, TIMER : !Timer}.
Implicit Types (s : pc N).

(** A buffer in use is left alone. *)
Lemma pktdrv_recv_busy f s : recv_data_len (cl s) <> 0 -> pktdrv_recv f s = s.
Proof.
  intros Hr. unfold pktdrv_recv. destruct (Z.eqb_spec (recv_data_len (cl s)) 0); [done|].
  by rewrite orb_true_r.
Qed.

Lemma interrupt_busy s : recv_data_len (cl s) <> 0 -> cl (interrupt s) = cl s.
Proof.
  intros Hr. unfold interrupt. destruct (arrive (wire s)) as [[[|f]|] w]; try done.
  by rewrite pktdrv_recv_busy.
Qed.

(** A frame is either dropped, which leaves the buffer empty, or kept. *)
Lemma pktdrv_recv_kept f s : recv_data_len (cl s) = 0 ->
  recv_data_len (cl (pktdrv_recv f s)) = 0
  \/ holds_frame f (cl (pktdrv_recv f s)).
Proof.
  intros Hr. unfold pktdrv_recv. rewrite Hr. destruct (Z.ltb_spec MAX_FRAMESIZE (zlen f)); [by left|].
  cbn [orb negb Z.eqb]. set (c := set_recv_data_len (zlen f) _).
  case_match; [by left|]. destruct (_ =? 0x0008).
  - destruct (handle_ipv4 c) eqn:Eh; [|by left]. right. split_and!; [done|by eexists|]. exact Eh.
  - case_match; [by left|]. destruct (_ =? 0x0608); by left.
Qed.

(** *** Requests over a wire with an invariant *)

(** The states [WI] of the wire survive what the client sends, ARP packets and
    request frames, which satisfy [Q]; what it delivers satisfies [G], which
    stays true. *)
Context (WI : N -> Prop) (G : N -> bytes -> Prop) (Q : bytes -> Prop).
Hypothesis WI_arrive : forall w i w', WI w -> arrive w = (i, w') ->
  WI w' /\ forall f, i = Some (Frame f) -> G w' f.
Hypothesis G_arrive : forall w i w' f, G w f -> arrive w = (i, w') -> G w' f.
Hypothesis G_transmit : forall w g f, G w f -> G (transmit g w) f.
Hypothesis WI_arp : forall w f, WI w -> le16 f 12 = 0x0608 -> WI (transmit f w).
Hypothesis WI_request : forall w f, WI w -> Q f -> WI (transmit f w).

Lemma arp_reply_type sh b : length (local_mac_addr sh) = 6%nat -> (42 <= length b)%nat ->
  le16 (take 42 (arp_reply sh b)) 12 = 0x0608.
Proof.
  intros Hm Hb. unfold arp_reply.
  destruct (local_mac_addr sh) as [|m0 [|m1 [|m2 [|m3 [|m4 [|m5 [|]]]]]]]; try done.
  destruct b as [|b0 [|b1 [|b2 [|b3 [|b4 [|b5 b]]]]]]; try (cbn [length] in Hb; lia).
  destruct b as [|b6 [|b7 [|b8 [|b9 [|b10 [|b11 b]]]]]]; try (cbn [length] in Hb; lia). done.
Qed.

Lemma pktdrv_recv_WI f s : buffers_ok (cl s) -> WI (wire s) -> WI (wire (pktdrv_recv f s)).
Proof.
  intros Hb Hw. unfold pktdrv_recv. case_match; [done|].
  case_match; [done|]. case_match; [by case_match|]. destruct (Z.ltb_spec (zlen f) 42); [done|].
  case_match; [|done]. simpl. unfold handle_arp. repeat case_match; try done. simpl.
  apply WI_arp; [done|]. apply arp_reply_type; [apply Hb|]. simpl.
  unfold write_at. rewrite !length_app. simpl. lia.
Qed.

Lemma interrupt_WI s : buffers_ok (cl s) -> WI (wire s) -> WI (wire (interrupt s)).
Proof.
  intros Hb Hw. unfold interrupt. destruct (arrive (wire s)) as [i w] eqn:E.
  destruct (WI_arrive _ _ _ Hw E) as [Hw' _].
  destruct i as [[|f]|]; [done|by apply pktdrv_recv_WI|done].
Qed.

(** *** From the call to the reply *)

Context (function drive len : Z) (out : results) (s0 : pc N).
Let c0 := cl s0.
Let ext := flag_ext_features out.
Let rest := request_rest function drive len ext c0.

Hypothesis Q_request : forall mac, length mac = 6%nat ->
  Q (take (Z.to_nat (frame_length_of len)) (mac ++ rest)).

(** Until the frame is built, and from then on. *)
Record before_request (s : pc N) : Prop := {
  br_step : waiting_step s0 s;
  br_buffers : buffers_ok (cl s);
  br_wire : WI (wire s);
}.

Record awaiting_reply (s : pc N) : Prop := {
  aw_undisturbed : undisturbed s0 s;
  aw_buffers : buffers_ok (cl s);
  aw_wire : WI (wire s);
  aw_seq : request_last_sent_seq_num (cl s) = request_seq c0;
  aw_ip : last_remote_ip (shared (cl s)) = ip_value (request_server drive c0);
  aw_port : last_remote_udp_port (shared (cl s)) = remote_port (request_drive_info drive c0);
  aw_frame : exists mac, length mac = 6%nat /\ send_buff (cl s) = mac ++ rest;
  aw_received : server_response_received (shared (cl s)) <> 0 ->
    recv_data_len (cl s) = 0 \/ exists f, G (wire s) f /\ holds_frame f (cl s);
}.

Lemma before_interrupt s : before_request s -> before_request (interrupt s).
Proof.
  intros [Hs Hb Hw]. pose proof (interrupt_same s) as Hi. split; [by etrans| |by apply interrupt_WI].
  by apply (same_buffers _ _ (sr_undisturbed _ _ Hi)).
Qed.

Lemma before_send s : before_request s ->
  before_request (send_frame 42 (arp_request_buff (cl s)) s).
Proof.
  intros [Hs Hb Hw]. split; [by etrans; [|apply send_frame_same]|done|]. simpl.
  apply WI_arp; [done|]. rewrite take_ge by (rewrite (arp_buff_size _ Hb); lia). apply Hb.
Qed.

Lemma before_arp s ip : before_request s -> before_request
  (set_cl (set_arp_request_buff (write_at 38 (le32_bytes ip) (arp_request_buff (cl s))) (cl s)) s).
Proof.
  assert (forall b : bytes, length b = 42%nat -> length (write_at 38 (le32_bytes ip) b) = 42%nat
    /\ le16 (write_at 38 (le32_bytes ip) b) 12 = le16 b 12) as W.
  { intros b Lb. unfold write_at. split.
    - rewrite !length_app, length_take, length_drop. cbn [length le32_bytes]. lia.
    - assert (length (take 38 b) = 38%nat) as Lt by (rewrite length_take; lia).
      unfold le16. rewrite !byte_at_app_l by lia. unfold byte_at.
      rewrite <- (take_drop 38 b) at 3 4. by rewrite !app_nth1 by lia. }
  intros [Hs [Hr Hb Ha Ht Hm Hms] Hw]. destruct (W _ Ha) as [W1 W2].
  split; [|split; simpl; try done; by rewrite W2|done].
  etrans; [exact Hs|]. split; [split|..]; try done. intros [? ? ? ? ? ?].
  split; simpl; try done. by rewrite W2.
Qed.

Lemma mac_of_size sh i : Forall (fun e => length (mac_bytes e) = 6%nat) (ip_mac_map sh) ->
  length (mac_bytes (ip_mac_of sh i)) = 6%nat.
Proof.
  intros Hm. unfold ip_mac_of. destruct (nth_in_or_default (Z.to_nat i) (ip_mac_map sh)
    (mkIpMac 0 [0; 0; 0; 0; 0; 0])) as [Hin| ->]; [|done].
  rewrite Forall_forall in Hm. apply Hm, list_elem_of_In, Hin.
Qed.

Lemma build_awaiting s : before_request s ->
  awaiting_reply (set_cl (build_request function drive len ext (cl s)) s).
Proof.
  intros [Hs Hb Hw]. destruct (request_same function drive len ext _ _ Hs) as (Hd & Hq & Hip & Hr).
  assert (length (mac_bytes (request_server drive (cl s))) = 6%nat) as Hm by (apply mac_of_size, Hb).
  assert (send_buff (build_request function drive len ext (cl s))
    = mac_bytes (request_server drive (cl s)) ++ rest) as Ef.
  { rewrite build_request_frame; [|done|pose proof (send_buff_size _ Hb); lia].
    unfold rest, c0. rewrite <- Hr. done. }
  pose proof (build_request_size function drive len ext (cl s) Hm) as Hl.
  rewrite build_request_eq in *. set (b := send_buff (build_request _ _ _ _ _)) in *.
  cbn [send_buff set_shared set_send_buff] in Ef, Hl. clearbody b.
  assert (zlen b = MAX_FRAMESIZE) as Hlb.
  { pose proof (send_buff_size _ Hb). lia. }
  destruct Hs as [Hu _ _ _ _ _], Hb as [Br Bs Ba Bt Bm Bms].
  split; simpl; [|by split|done|done|done| |by eexists|done].
  - destruct Hu as [? ? ? ? ?]. by split.
  - unfold request_drive_info. by rewrite Hd.
Qed.

(** After an interrupt the buffer is empty or holds a frame of the wire. *)
Lemma interrupt_holds s : WI (wire s) -> recv_data_len (cl s) = 0 ->
  recv_data_len (cl (interrupt s)) = 0
  \/ exists f, G (wire (interrupt s)) f /\ holds_frame f (cl (interrupt s)).
Proof.
  intros Hw Hz. unfold interrupt. destruct (arrive (wire s)) as [i w] eqn:E.
  destruct (WI_arrive _ _ _ Hw E) as [_ HG]. destruct i as [[|f]|]; [by left| |by left].
  destruct (pktdrv_recv_kept f (set_wire w s) Hz) as [H|H]; [by left|right; exists f].
  split; [|done]. destruct (pktdrv_recv_wire f (set_wire w s)) as [_ [->|[g ->]]]; simpl; auto.
Qed.

Lemma awaiting_interrupt s : awaiting_reply s -> awaiting_reply (interrupt s).
Proof.
  intros [Hu Hb Hw Hq Hip Hp Hf Hr]. pose proof (interrupt_same s) as [Hu' Hsb Hsq _ Hsi Hsp].
  split; try congruence.
  - by etrans.
  - by apply (same_buffers _ _ Hu').
  - by apply interrupt_WI.
  - by rewrite Hsb.
  - intros Hrec. destruct (Z.eq_dec (recv_data_len (cl s)) 0) as [Hz|Hz].
    + by apply interrupt_holds.
    + rewrite (interrupt_busy _ Hz) in *. destruct (Hr Hrec) as [|(f & Hg & Hh)]; [by left|right].
      exists f. split; [|done]. destruct (arrive (wire s)) as [i w] eqn:E.
      destruct (interrupt_cases s i w E) as [[-> _]|(_ & _ & [->|[g ->]])]; eauto.
      unfold interrupt. rewrite E. simpl. eauto.
Qed.

Lemma awaiting_send s : awaiting_reply s ->
  awaiting_reply (send_frame (frame_length_of len) (send_buff (cl s)) s).
Proof.
  intros [Hu Hb Hw Hq Hip Hp Hf Hr]. split; try done.
  - etrans; [exact Hu|apply send_frame_same].
  - destruct Hf as (mac & Hm & Ef). simpl. rewrite Ef. auto.
  - intros Hrec. destruct (Hr Hrec) as [|(f & Hg & Hh)]; [by left|right]. exists f. simpl. auto.
Qed.

Lemma awaiting_ignore s : awaiting_reply s ->
  awaiting_reply (set_cl (set_recv_data_len 0 (cl s)) s).
Proof.
  intros [Hu Hb Hw Hq Hip Hp Hf Hr]. split; try done.
  - etrans; [exact Hu|apply set_recv_data_len_same].
  - by destruct Hb.
  - by left.
Qed.

(** What a call of [send_request] does: it leaves DOS and the configuration
    alone, and a reply it returns is a frame [f] of the wire that passed the
    checks of [handle_ipv4] and [accept_reply]. *)
Lemma send_request_result fuel r s : before_request s0 -> fits (shared c0) len ->
  send_request fuel function drive len out s0 = Done (r, s) ->
  awaiting_reply s /\
  (r = (NETWORK_ERROR, out)
   \/ exists f, G (wire s) f /\ holds_frame f (cl s)
      /\ accept_reply (request_drive_info drive c0) (request_seq c0) (cl s) = Some r).
Proof.
  intros H0 Hf E.
  eapply (send_request_holds before_request awaiting_reply function drive len out
    (request_drive_info drive c0) (request_seq c0)) in E; auto using before_interrupt, before_send,
    before_arp, build_awaiting, awaiting_interrupt, awaiting_send, awaiting_ignore.
  - destruct E as [Ha [->|[Hrec Hacc]]]; (split; [done|]); [by left|right].
    destruct (aw_received _ Ha Hrec) as [Hz|(f & HG & Hh)]; [exfalso|by exists f].
    unfold accept_reply in Hacc. rewrite Hz in Hacc.
    destruct (Z.ltb_spec (u16 0) (Z.land (le16 (recv_buff (cl s)) 43) 0x7FF)) as [|Hl]; [done|].
    change (u16 0) with 0 in Hl.
    by destruct (Z.ltb_spec (Z.land (le16 (recv_buff (cl s)) 43) 0x7FF) sizeof_drive_proto_hdr); [|lia].
  - intros t [Hs _ _]. by destruct (request_same function drive len ext _ _ Hs).
  - intros t [[[_ _ _ Hc _] _ _ _ _ _] _ _]. unfold fits in *. unfold config_of in Hc.
    by injection Hc as _ _ _ _ _ _ _ -> _ _ _.
  - apply aw_seq.
Qed.
End Provenance.
