(* ===== verification/NetworkSpec.v ===== *)
(** * NetworkSpec: what a reply can be trusted for, and when none is heard

    The two faces of [send_request]: a reply it returns comes from the drive's
    server and answers this very request; a frame left in the receive buffer
    makes it deaf.  A client with a scripted wire shows that the hypotheses can
    be met. *)
From S2P Require Import Prelude Words Checksum Fcb Resident Network NetworkInv.

(** ** A wire that answers from a script *)

(** The timer ticks at every other turn; in between the queued frames arrive,
    and a frame that is sent queues what [respond] answers to it, which may
    change the state [behind] the wire. *)
Record serving (St : Type) := mkServing { tick_next : bool; to_come : list bytes; behind : St }.
Arguments mkServing {St} _ _ _.
Arguments tick_next {St} _.
Arguments to_come {St} _.
Arguments behind {St} _.

Definition serving_wire {St} (respond : bytes -> St -> list bytes * St) : Wire (serving St) := {|
  transmit f w := let '(q, st) := respond f (behind w) in
                  mkServing (tick_next w) (to_come w ++ q) st;
  arrive w :=
    if tick_next w then (Some Tick, mkServing false (to_come w) (behind w))
    else match to_come w with
         | f :: q => (Some (Frame f), mkServing true q (behind w))
         | [] => (None, mkServing true [] (behind w))
         end;
|}.

Lemma serving_laws {St} respond : @WireLaws (serving St) (serving_wire respond).
Proof.
  assert (forall w, tick_next w = true -> Acc (@quiet _ (serving_wire respond)) w) as Ht.
  { intros w Hw. constructor. intros w' (i & w1 & E & Hi & _). cbn in E. rewrite Hw in E.
    by injection E as <- _. }
  intros w. constructor. intros w' (i & w1 & E & Hi & Hw'). apply Ht.
  assert (tick_next w1 = true) as H1.
  { cbn in E. destruct (tick_next w); [by injection E as <- _|].
    destruct (to_come w); by injection E as _ <-. }
  destruct Hw' as [->|[f ->]]; [done|]. cbn. by destruct (respond f (behind w1)).
Qed.

(** Nothing behind it. *)
Definition script : Type := serving unit.
Definition mkScript (tick : bool) (q : list bytes) : script := mkServing tick q tt.
Definition scripted (respond : bytes -> list bytes) : Wire script :=
  serving_wire (fun f st => (respond f, st)).
Lemma scripted_laws respond : @WireLaws script (scripted respond).
Proof. apply serving_laws. Qed.

Definition counting : Timer := fun t => u32 (t + 1).

Lemma counting_iter k t : Nat.iter (S k) counting t = u32 (t + Z.of_nat (S k)).
Proof.
  induction k as [|k IH]; [done|].
  change (Nat.iter (S (S k)) counting t) with (counting (Nat.iter (S k) counting t)).
  rewrite IH. unfold counting, u32.
  rewrite Zplus_mod_idemp_l. f_equal. lia.
Qed.

Lemma u16_u32_sub x start : u16 (u16 (u32 x) - start) = u16 (x - start).
Proof.
  unfold u16, u32. rewrite Z.mod_mod_divide by (by exists (2 ^ 16)).
  by rewrite Zminus_mod_idemp_l.
Qed.

Lemma counting_laws : @TimerLaws counting.
Proof.
  intros t start tmo Ht. exists (Z.to_nat ((start - t - 2) mod 2 ^ 16)).
  change (@next_tick counting) with counting. rewrite counting_iter, u16_u32_sub.
  rewrite Nat2Z.inj_succ, Z2Nat.id by (apply Z.mod_pos_bound; lia).
  unfold u16. replace (t + Z.succ ((start - t - 2) mod 2 ^ 16) - start)
    with ((start - t - 2) mod 2 ^ 16 + (t + 1 - start)) by lia.
  rewrite Zplus_mod_idemp_l. replace (start - t - 2 + (t + 1 - start)) with (-1) by lia.
  change (-1 mod 2 ^ 16) with 0xFFFF. done.
Qed.

(** ** A reply is to be trusted *)

Section Spec.
Context {N : Type} `{WIRE : !Wire N, TIMER : !Timer}.
Implicit Types (s : pc N).

(** [b] holds a frame from the drive's server to this client, with the sequence
    number of the request made in [c], whose length was [n] with its header and
    whose checksum or magic number was verified. *)
Record authentic_reply (drive : Z) (c : client) (n : Z) (b : bytes) : Prop := {
  from_ip : le32 b 26 = ip_value (request_server drive c);
  from_port : le16 b 34 = swap_word (remote_port (request_drive_info drive c));
  to_ip : le32 b 30 = local_ipv4 (shared c);
  to_port : le16 b 36 = swap_word (local_port (shared c));
  same_sequence : byte_at b 47 = request_seq c;
  message_length : Z.land (le16 b 43) 0x7FF = n;
  verified :
    if has_flag (le16 b 43) 0x8000
    then has_flag (enabled_checksums (request_drive_info drive c)) CHECKSUM_NETMOUNT_PROTO = true ->
         bsd_checksum_asm (drop 47 b) (n - 5) = le16 b 45
    else le16 b 45 = 0x9524;
}.

Lemma accept_reply_props drv seq c n out : accept_reply drv seq c = Some (n, out) ->
  let b := recv_buff c in
  n = Z.land (le16 b 43) 0x7FF - 8 /\ 0 <= n
  /\ Z.land (le16 b 43) 0x7FF <= u16 (recv_data_len c) /\ byte_at b 47 = seq
  /\ reply_data out = drop DRIVE_DATA_OFFSET b /\ reply_ax out = le16 b 48
  /\ (if has_flag (le16 b 43) 0x8000
      then has_flag (enabled_checksums drv) CHECKSUM_NETMOUNT_PROTO = true ->
           bsd_checksum_asm (drop 47 b) (n + 3) = le16 b 45
      else le16 b 45 = 0x9524).
Proof.
  unfold accept_reply. intros E.
  destruct (Z.ltb_spec (u16 (recv_data_len c)) (Z.land (le16 (recv_buff c) 43) 0x7FF)) as [|Hl]; [done|].
  destruct (Z.ltb_spec (Z.land (le16 (recv_buff c) 43) 0x7FF) sizeof_drive_proto_hdr) as [|Hl']; [done|].
  destruct (Z.eqb_spec (byte_at (recv_buff c) 47) seq) as [Hs|]; [|done]. cbn [negb] in E.
  set (b := recv_buff c) in *.
  assert (exists ok, (if ok : bool then None else Some (Z.land (le16 b 43) 0x7FF - sizeof_drive_proto_hdr,
    mkResults (drop DRIVE_DATA_OFFSET b) (le16 b 48) (if has_flag (le16 b 43) 0x2000 then 1 else 0)))
    = Some (n, out) /\ ok = if has_flag (le16 b 43) 0x8000
      then has_flag (enabled_checksums drv) CHECKSUM_NETMOUNT_PROTO
           && negb (bsd_checksum_asm (drop 47 b) (Z.land (le16 b 43) 0x7FF - 5) =? le16 b 45)
      else negb (le16 b 45 =? 0x9524)) as (ok & Eok & Ok) by (by eexists).
  destruct ok; [done|]. injection Eok as <- <-. split_and!; try done; [lia|].
  replace (Z.land (le16 b 43) 0x7FF - 8 + 3) with (Z.land (le16 b 43) 0x7FF - 5) by lia.
  destruct (has_flag (le16 b 43) 0x8000).
  - intros Hc. rewrite Hc in Ok. cbn [andb] in Ok. symmetry in Ok.
    apply negb_false_iff, Z.eqb_eq in Ok. done.
  - symmetry in Ok. by apply negb_false_iff, Z.eqb_eq in Ok.
Qed.

(** C16: a reply that [send_request] returns was received from the address and
    port of the drive's server, is addressed to this client, repeats the
    sequence number of this request and passed the test of its checksum or
    magic number; DOS and the configuration are untouched meanwhile. *)
Theorem send_request_authentic fuel function drive len out s n out' s' :
  buffers_ok (cl s) -> fits (shared (cl s)) len ->
  send_request fuel function drive len out s = Done ((n, out'), s') ->
  mem s' = mem s /\ config_of (shared (cl s')) = config_of (shared (cl s))
  /\ (n <> NETWORK_ERROR ->
      authentic_reply drive (cl s) (n + 8) (recv_buff (cl s'))
      /\ reply_data out' = drop DRIVE_DATA_OFFSET (recv_buff (cl s'))
      /\ reply_ax out' = le16 (recv_buff (cl s')) 48).
Proof.
  intros Hb Hf E.
  apply (send_request_result (fun _ => True) (fun _ _ => True) (fun _ => True)) in E; try done.
  destruct E as [[Hu _ _ _ Hip Hp _ _] E]. split_and!; [apply Hu|apply Hu|].
  intros Hn. destruct E as [[= -> _]|(f & _ & (_ & _ & Hh) & Hacc)]; [done|].
  destruct (accept_reply_props _ _ _ _ _ Hacc) as (-> & _ & _ & Hs & Hd & Hax & Hck).
  split_and!; [|done..]. unfold handle_ipv4 in Hh. rewrite Hip, Hp in Hh.
  apply andb_prop in Hh as [[[[[[[_ H2]%andb_prop H3]%andb_prop H4]%andb_prop H5]%andb_prop _]%andb_prop _]%andb_prop _].
  apply Z.eqb_eq in H2, H3, H4, H5.
  destruct Hu as [_ _ _ Hc _]. unfold config_of in Hc. injection Hc as _ _ E3 _ E5 _ _ _ _ _ _.
  split; [done|done|congruence|congruence|done|lia|].
  by replace (Z.land (le16 (recv_buff (cl s')) 43) 0x7FF - 8 + 8 - 5)
    with (Z.land (le16 (recv_buff (cl s')) 43) 0x7FF - 8 + 3) by lia.
Qed.

(** ** A full buffer makes deaf *)

(** A frame, or the promise of one, fills the buffer. *)
Definition occupied s : Prop := recv_data_len (cl s) <> 0.

(** When a frame is kept in the receive buffer before a call (a reply that
    was repeated, or came late, after the last call had ended), nothing more
    is received and the request fails, however often it is sent and whatever
    the server answers. *)
Theorem stale_frame_blocks fuel function drive len out s r s' :
  occupied s -> fits (shared (cl s)) len ->
  send_request fuel function drive len out s = Done (r, s') -> r = (NETWORK_ERROR, out).
Proof.
  intros Hr Hf E.
  set (drv := drive_info_of (shared (cl s)) drive). set (q := request_seq (cl s)).
  set (I := fun t : pc N => shared (cl t) = shared (cl s) /\ recv_data_len (cl t) = recv_data_len (cl s)
                     /\ request_last_sent_seq_num (cl t) = request_last_sent_seq_num (cl s)).
  set (J := fun t : pc N => server_response_received (shared (cl t)) = 0
                     /\ recv_data_len (cl t) = recv_data_len (cl s)
                     /\ request_last_sent_seq_num (cl t) = q).
  apply (send_request_holds I J function drive len out drv q) in E.
  - destruct E as [[Hz _] [->|[Hnz _]]]; done.
  - intros t (-> & _). done.
  - intros t (-> & _). done.
  - intros t (E1 & E2 & E3). unfold I. rewrite interrupt_busy by congruence. done.
  - done.
  - intros t ip Ht. done.
  - intros t (E1 & E2 & E3). rewrite build_request_eq. unfold J, q. simpl.
    split_and!; [done|done|]. unfold request_seq. by rewrite E3.
  - intros t (E1 & E2 & E3). unfold J. rewrite interrupt_busy by congruence. done.
  - done.
  - intros t (E1 & _). by rewrite E1.
  - by intros t (_ & _ & E3).
  - done.
Qed.
End Spec.

(** ** A client and its server, for the witnesses *)

Definition ip_10_0_0 (host : Z) : Z := 10 + 2 ^ 24 * host.

Definition sample_drive : drive_info := mkDriveInfo 0 12200 4 22 1 3 64.

Definition shared_with (drv : drive_info) : shared_data :=
  mkShared (<[2%nat := 2]> (replicate 26 0xFF)) (replicate 26 drv) (ip_10_0_0 2)
    0x00FFFFFF 12201 0 0xFF 1500
    (mkIpMac (ip_10_0_0 1) [2; 0; 0; 0; 0; 1]
     :: replicate 3 (mkIpMac 0xFFFFFFFF (replicate 6 0xFF)))
    [2; 0; 0; 0; 0; 2] 0 0 0 [0; 0; 0; 0].
Definition sample_shared : shared_data := shared_with sample_drive.

Definition client_with (drv : drive_info) : client :=
  mkClient (shared_with drv) (replicate (Z.to_nat MAX_FRAMESIZE) 0) 0
    (replicate 12 0 ++ [8; 0] ++ replicate (Z.to_nat MAX_FRAMESIZE - 14) 0)
    (replicate 12 0 ++ [8; 6] ++ replicate 28 0) 0 0 2
    (mkFileBuffer 0 0 0 0 0 (replicate (Z.to_nat FILE_BUFFER_SIZE) 0)).
Definition sample_client : client := client_with sample_drive.

Definition no_name : fcb_file_name := mkFcb (replicate 8 CH_SPACE) (replicate 3 CH_SPACE).
Definition sample_dos : dos :=
  mkDos (mkRegs 0 0 0 0 0 0 0) [] [] [] 0 0 0 (mkDirEntry no_name 0 0 0 0 0) 0 [] []
    (mkSft 1 0 0 0x8042 0 7 0 100 0 0 0 0xFF no_name) (mkSearch 0 no_name 0 0 0)
    (mkDirEntry no_name 0 0 0 0 0).

(** A frame from the server to the client, and a message of the protocol. *)
Definition server_frame (payload : bytes) : bytes :=
  [2; 0; 0; 0; 0; 2] ++ [2; 0; 0; 0; 0; 1] ++ [8; 0]
  ++ (create_ip 0 (ip_10_0_0 1) (ip_10_0_0 2) (8 + zlen payload) 17).1
  ++ create_udp 12200 12201 (zlen payload) ++ payload.
Definition reply_message (seq ax : Z) (data : bytes) : bytes :=
  [1] ++ le16_bytes (8 + zlen data) ++ le16_bytes 0x9524 ++ [seq] ++ le16_bytes ax ++ data.

Definition sample_pc (respond : bytes -> list bytes) (q : list bytes) : pc script :=
  mkPc 0 sample_client sample_dos (mkScript false q).

(** Every request is answered with the same data. *)
Definition answer_with (data : bytes) (f : bytes) : list bytes :=
  [server_frame (reply_message (byte_at f 47) 0 data)].

Lemma sample_buffers_ok : buffers_ok sample_client.
Proof. split; try reflexivity. repeat constructor. Qed.

Lemma send_request_returns_witness :
  timeouts_ok (drive_info_of sample_shared 2) /\
  exists n r, forall fuel, (n <= fuel)%nat ->
    @send_request _ (scripted (fun _ => [])) counting fuel 0x0C 2 0 (mkResults [] 0 0)
      (sample_pc (fun _ => []) []) = Done r.
Proof.
  split; [split; vm_compute; split; congruence|].
  apply (@send_request_returns _ (scripted (fun _ => [])) counting (scripted_laws _) counting_laws
           0x0C 2 0 (mkResults [] 0 0) (sample_pc (fun _ => []) [])).
  split; vm_compute; split; congruence.
Defined.

Lemma send_request_authentic_witness :
  exists out' s', @send_request _ (scripted (answer_with [1; 2; 3])) counting 20 0x0C 2 0
    (mkResults [] 0 0) (sample_pc (answer_with [1; 2; 3]) []) = Done ((3, out'), s')
  /\ authentic_reply 2 sample_client 11 (recv_buff (cl s')).
Proof.
  destruct (@send_request _ (scripted (answer_with [1; 2; 3])) counting 20 0x0C 2 0
    (mkResults [] 0 0) (sample_pc (answer_with [1; 2; 3]) [])) as [[[n out'] s']| |] eqn:E;
    [|vm_compute in E; discriminate E|vm_compute in E; discriminate E].
  assert (n = 3) as ->.
  { apply (f_equal (fun o => match o with Done (n, _, _) => n | _ => 0 end)) in E.
    vm_compute in E. by symmetry. }
  exists out', s'. split; [done|].
  apply (@send_request_authentic _ (scripted (answer_with [1; 2; 3])) counting 20 0x0C 2 0
    (mkResults [] 0 0) (sample_pc (answer_with [1; 2; 3]) []) 3 out' s' sample_buffers_ok) in E;
    [by apply E|vm_compute; congruence].
Defined.

(** *** A reply that comes twice

    The network repeats the reply to a first request.  The call ends with the
    first copy; the second arrives before the next call. *)
Definition twice (f : bytes) : list bytes := answer_with [1; 2; 3] f ++ answer_with [1; 2; 3] f.
#[export] Instance repeating : Wire script := scripted twice.

Definition call_once (s : pc script) : outcome ((Z * results) * pc script) :=
  @send_request _ repeating counting 100 0x0C 2 0 (mkResults [] 0 0) s.

(** [*recvbufflen_ptr = 0] at the end of the call, and two turns of other
    programs. *)
Definition later (o : outcome ((Z * results) * pc script)) : pc script :=
  match o with
  | Done (_, s) =>
      @interrupt _ repeating counting (@interrupt _ repeating counting
        (set_cl (set_recv_data_len 0 (cl s)) s))
  | _ => sample_pc twice []
  end.

Lemma stale_frame_blocks_witness :
  (exists r s, call_once (sample_pc twice []) = Done (r, s) /\ r.1 = 3)
  /\ occupied (later (call_once (sample_pc twice [])))
  /\ exists s, call_once (later (call_once (sample_pc twice [])))
               = Done ((NETWORK_ERROR, mkResults [] 0 0), s).
Proof.
  split; [|split].
  - destruct (call_once (sample_pc twice [])) as [[r s]| |] eqn:E;
      [|vm_compute in E; discriminate E|vm_compute in E; discriminate E].
    exists r, s. split; [done|].
    apply (f_equal (fun o => match o with Done (r, _) => r.1 | _ => 0 end)) in E.
    vm_compute in E. by symmetry.
  - vm_compute. discriminate.
  - assert (recv_data_len (cl (later (call_once (sample_pc twice [])))) <> 0) as Hr
      by (vm_compute; discriminate).
    assert (fits (shared (cl (later (call_once (sample_pc twice []))))) 0) as Hf
      by (vm_compute; congruence).
    assert (match call_once (later (call_once (sample_pc twice []))) with
            | Done _ => True | _ => False end) as Hd by (vm_compute; exact I).
    revert Hr Hf Hd. generalize (later (call_once (sample_pc twice []))). intros st Hr Hf Hd.
    destruct (call_once st) as [[r s]| |] eqn:E; [|contradiction|contradiction].
    exists s. f_equal. f_equal.
    exact (@stale_frame_blocks _ repeating counting 100 0x0C 2 0 (mkResults [] 0 0) st r s Hr Hf E).
Defined.
