(* ===== verification/ReadAhead.v ===== *)
(** * ReadAhead: reading a file through the read buffer

    The client answers short reads from a buffer of up to 64 bytes that it
    refills from the server.  Against any service that answers READ_FILE with
    the bytes of a file ([FileService], a promise of the server and the
    network), a read delivers exactly the bytes of the file at the position of
    the handle, whether they come from the buffer, from the server or from
    both, and the buffer stays consistent with the file. *)
From S2P Require Import Prelude Words Checksum Fcb Paths FatTime Host Attrs Unicode Files Protocol.
From S2P Require Import Resident Network NetworkInv NetworkSpec Redirector.

(** ** Total correctness *)

(** With enough fuel [m] returns, in a state that satisfies [Q]. *)
Definition ensures {S A} (m : nat -> C S A) (s : S) (Q : A -> S -> Prop) : Prop :=
  exists a s', ends m s (Done (a, s')) /\ Q a s'.

Lemma ensures_bind {S A B} (m : nat -> C S A) (k : nat -> A -> C S B) s R Q :
  ensures m s R -> (forall a s', R a s' -> ensures (fun fuel => k fuel a) s' Q) ->
  ensures (fun fuel => andthen (m fuel) (k fuel)) s Q.
Proof.
  intros (a & s' & Hm & HR) Hk. destruct (Hk a s' HR) as (b & s2 & Hb & HQ).
  exists b, s2. split; [by eapply ends_bind|done].
Qed.

Lemma ensures_now {S A} (m : C S A) s a s' (Q : A -> S -> Prop) : m s = Done (a, s') -> Q a s' ->
  ensures (fun _ => m) s Q.
Proof. intros E HQ. exists a, s'. rewrite <- E. split; [apply ends_const|done]. Qed.

Lemma ensures_step {S A B} (m : C S A) (k : nat -> A -> C S B) s a s' Q :
  m s = Done (a, s') -> ensures (fun fuel => k fuel a) s' Q ->
  ensures (fun fuel => andthen m (k fuel)) s Q.
Proof.
  intros E Hk. apply (ensures_bind (fun _ => m) k s (fun b t => b = a /\ t = s')).
  - by eapply ensures_now.
  - by intros ? ? [-> ->].
Qed.

Lemma ensures_post {S A} (m : nat -> C S A) s (Q Q' : A -> S -> Prop) :
  ensures m s Q' -> (forall a t, Q' a t -> Q a t) -> ensures m s Q.
Proof. intros (a & t & H & HQ) HQQ. exists a, t. auto. Qed.

(** ** Aligning to the block of the read buffer *)

(** The lengths [min_server_read_len] may have: a power of two up to 64; 0
    switches the buffer off. *)
Definition block_size (m : Z) : Prop := exists j, 0 <= j <= 6 /\ m = 2 ^ j.

Lemma land_mask x m : block_size m -> is_u32 x -> Z.land x (u32 (Z.lnot (m - 1))) = x - x mod m.
Proof.
  unfold is_u32. intros (j & Hj & ->) Hx. unfold u32.
  rewrite <- Z.land_ones by lia. rewrite Z.land_assoc, Z.land_comm, Z.land_assoc.
  rewrite (Z.land_comm (Z.ones 32) x), Z.land_ones, (Z.mod_small x) by lia.
  change (2 ^ j - 1) with (Z.pred (2 ^ j)). rewrite <- Z.ones_equiv.
  rewrite <- (Z.ldiff_land x (Z.ones j)), Z.ldiff_ones_r by lia.
  rewrite Z.shiftr_div_pow2, Z.shiftl_mul_pow2 by lia.
  pose proof (Z.div_mod x (2 ^ j) ltac:(lia)). lia.
Qed.

Lemma align_bounds x m : block_size m -> 0 <= x mod m < m /\ 1 <= m <= 64.
Proof.
  intros (j & Hj & ->).
  assert (1 <= 2 ^ j <= 64).
  { split; [apply (Z.pow_le_mono_r 2 0 j); lia|apply (Z.pow_le_mono_r 2 j 6); lia]. }
  split; [apply Z.mod_pos_bound; lia|done].
Qed.

(** ** The service *)

Section Reading.
Context {N : Type} `{WIRE : !Wire N, TIMER : !Timer, LAWS : !WireLaws N, TL : !TimerLaws}.
Context (uninit : results) (reqdrv cluster : Z) (content : bytes).
Implicit Types (s : pc N).

(** [n] bytes of the file from [p] on. *)
Definition slice (p n : Z) : bytes := take (Z.to_nat n) (drop (Z.to_nat p) content).
(** How many of them there are. *)
Definition available (p n : Z) : Z := Z.min n (Z.max 0 (zlen content - p)).

(** The arguments of a request, in the send buffer. *)
Definition args_at (bs : bytes) (c : client) : Prop :=
  take (length bs) (drop DRIVE_DATA_OFFSET (send_buff c)) = bs.

(** What the server and the network promise: in the states [Inv] between two
    requests, a READ_FILE that is answered without an error is answered with
    the bytes of the file. *)
Class FileService (Inv : pc N -> Prop) := {
  service_local : forall s s', Inv s -> ticks s' = ticks s -> wire s' = wire s ->
    shared (cl s') = shared (cl s) -> recv_buff (cl s') = recv_buff (cl s) ->
    recv_data_len (cl s') = recv_data_len (cl s) ->
    arp_request_buff (cl s') = arp_request_buff (cl s) ->
    request_last_sent_seq_num (cl s') = request_last_sent_seq_num (cl s) ->
    req_drive (cl s') = req_drive (cl s) -> buffers_ok (cl s') -> Inv s';
  service_read : forall fuel s offset n len out s',
    Inv s -> buffers_ok (cl s) -> is_u32 offset -> 0 <= n <= 1464 ->
    args_at (readf_args offset cluster n) (cl s) ->
    send_request fuel INT2F_READ_FILE reqdrv 8
      (mkResults (reply_data uninit) (reply_ax uninit) 0) s = Done ((len, out), s') ->
    Inv (set_cl (set_recv_data_len 0 (cl s')) s')
    /\ (len = NETWORK_ERROR
        \/ (reply_ax out <> 0 /\ 0 <= len)
        \/ (reply_ax out = 0 /\ len = available offset n
            /\ take (Z.to_nat len) (reply_data out) = slice offset n));
}.

Context (Inv : pc N -> Prop) `{SRV : !FileService Inv}.

(** [s] once its receive buffer is free again. *)
Definition released s : pc N := set_cl (set_recv_data_len 0 (cl s)) s.

(** A client that is set up, with the drive mounted. *)
Record client_fit (c : client) : Prop := {
  fit_buffers : buffers_ok c;
  fit_timeouts : timeouts_ok (drive_info_of (shared c) reqdrv);
  fit_mtu : 560 <= interface_mtu (shared c) <= 1500;
}.

Lemma client_fit_undisturbed s s' : undisturbed s s' -> client_fit (cl s) -> client_fit (cl s').
Proof.
  intros [_ _ _ Hc Hb] [Hb0 Ht Hm]. unfold config_of in Hc.
  injection Hc as _ E2 _ _ _ _ _ E8 _ _ _. split; [auto|unfold drive_info_of; by rewrite E2|by rewrite E8].
Qed.

Lemma read_fits c : client_fit c -> fits (shared c) 8.
Proof. intros [_ _ Hm]. unfold fits. change (u16 (frame_length_of 8 - sizeof_mac_hdr)) with 44. lia. Qed.

(** Storing the arguments of a request. *)
Definition with_args (bs : bytes) s : pc N :=
  set_cl (set_send_buff (write_at DRIVE_DATA_OFFSET bs (send_buff (cl s))) (cl s)) s.

Lemma put_args_eq bs s : buffers_ok (cl s) -> zlen bs <= 1468 ->
  put_args 0 bs s = Done (tt, with_args bs s).
Proof.
  intros Hb Hl. unfold put_args. rewrite (send_buff_size _ Hb), Z.add_0_r.
  by destruct (Z.leb_spec (Z.of_nat DRIVE_DATA_OFFSET + zlen bs) MAX_FRAMESIZE); [|lia].
Qed.

Lemma with_args_ok bs s : buffers_ok (cl s) -> zlen bs <= 1468 ->
  buffers_ok (cl (with_args bs s)) /\ args_at bs (cl (with_args bs s)).
Proof.
  intros [Br Bs Ba Bt Bm Bms] Hl. split.
  - split; try done. simpl. unfold write_at.
    rewrite !length_app, length_take, length_drop. lia.
  - unfold args_at. simpl. unfold write_at.
    rewrite drop_app_length' by (rewrite length_take; lia). by rewrite take_app_length.
Qed.

Lemma with_args_undisturbed bs s : zlen bs <= 1468 -> undisturbed s (with_args bs s).
Proof. intros Hl. split; try done. intros Hb. by apply with_args_ok. Qed.

Lemma readf_args_size a b c : zlen (readf_args a b c) = 8.
Proof. done. Qed.

(** A READ_FILE request: it comes back, and what it brings. *)
Record read_result s offset n (r : Z * results) s' : Prop := {
  rr_undisturbed : undisturbed s s';
  rr_inv : Inv (released s');
  rr_reply :
    r.1 = NETWORK_ERROR
    \/ (reply_ax r.2 <> 0 /\ r.1 <> NETWORK_ERROR)
    \/ (reply_ax r.2 = 0 /\ r.1 = available offset n
        /\ take (Z.to_nat r.1) (reply_data r.2) = slice offset n /\ zlen (reply_data r.2) = 1468);
}.

Lemma read_request s offset n : Inv s -> client_fit (cl s) -> is_u32 offset -> 0 <= n <= 1464 ->
  args_at (readf_args offset cluster n) (cl s) ->
  ensures (fun fuel => request fuel uninit INT2F_READ_FILE reqdrv 8) s (read_result s offset n).
Proof.
  intros HI Hfit Ho Hn Ha. unfold request. change (u16 8) with 8.
  destruct (send_request_ends INT2F_READ_FILE reqdrv 8
    (mkResults (reply_data uninit) (reply_ax uninit) 0) s (fit_timeouts _ Hfit)) as (k & [[len out] s'] & Hk).
  exists (len, out), s'. split; [by exists k|]. specialize (Hk k (le_n k)).
  pose proof Hk as E. eapply service_read in E; [|done|apply Hfit|done..].
  destruct E as [HI' Hr].
  apply (send_request_result (fun _ => True) (fun _ _ => True) (fun _ => True)) in Hk;
    [|done..|split; [done|apply Hfit|done]|by apply read_fits].
  destruct Hk as [Haw Hacc]. split; [apply Haw|exact HI'|]. cbn [fst snd].
  destruct (Z.eq_dec len NETWORK_ERROR) as [He|Hne]; [by left|right].
  destruct Hr as [?|[[Hx Hp]|(Hx & Hl & Hd)]]; [done|by left|right].
  split_and!; [done..|]. destruct Hacc as [[= ? _]|(f & _ & _ & Hacc)]; [done|].
  apply accept_reply_props in Hacc as (_ & _ & _ & _ & -> & _).
  assert (buffers_ok (cl s')) as Hb by (by destruct Haw).
  rewrite length_drop. pose proof (recv_buff_size _ Hb). lia.
Qed.

(** *** Slices *)

Lemma slice_length p n : 0 <= p -> 0 <= n -> zlen (slice p n) = available p n.
Proof. intros Hp Hn. unfold slice, available. rewrite length_take, length_drop. lia. Qed.

Lemma take_slice k p n : 0 <= k <= n -> take (Z.to_nat k) (slice p n) = slice p k.
Proof. intros Hk. unfold slice. rewrite take_take. f_equal. lia. Qed.

Lemma drop_slice d p n : 0 <= p -> 0 <= d <= n -> drop (Z.to_nat d) (slice p n) = slice (p + d) (n - d).
Proof.
  intros Hp Hd. unfold slice. rewrite skipn_firstn_comm, drop_drop. f_equal; [lia|f_equal; lia].
Qed.

Lemma slice_app p a b : 0 <= p -> 0 <= a -> 0 <= b -> slice p a ++ slice (p + a) b = slice p (a + b).
Proof.
  intros Hp Ha Hb. rewrite <- (take_drop (Z.to_nat a) (slice p (a + b))).
  rewrite take_slice, drop_slice by lia. do 2 f_equal. lia.
Qed.

Lemma slice_available p n : 0 <= p -> 0 <= n -> slice p n = slice p (available p n).
Proof.
  intros Hp Hn. rewrite <- (take_slice (available p n) p n) by (unfold available; lia).
  rewrite take_ge; [done|]. pose proof (slice_length p n Hp Hn). lia.
Qed.

(** Storing one slice behind another. *)
Lemma write_slices p a b (d : bytes) : 0 <= p -> 0 <= a -> 0 <= b ->
  a = 0 \/ p + a <= zlen content -> a <= zlen d ->
  write_at (Z.to_nat a) (slice (p + a) b) (write_at 0 (slice p a) d) = write_at 0 (slice p (a + b)) d.
Proof.
  intros Hp Ha Hb Hc Hd. pose proof (slice_length p a Hp Ha) as L. unfold available in L.
  unfold write_at. rewrite !take_0. cbn [app]. rewrite Nat.add_0_l.
  rewrite take_app_length' by lia. rewrite <- (slice_app p a b) by done.
  rewrite <- app_assoc, length_app. do 2 f_equal.
  rewrite drop_app_ge by lia. rewrite drop_drop. f_equal. lia.
Qed.

(** *** Moving bytes *)

Lemma copy_from_eq src off n s : 0 <= off -> 0 <= n < 2 ^ 15 -> off + n <= zlen src ->
  copy_from src off n s = Done (take (Z.to_nat n) (drop (Z.to_nat off) src), s).
Proof.
  intros Ho Hn Hl. unfold copy_from.
  assert (i16 n = n) as -> by (unfold i16; rewrite Z.mod_small by lia; lia).
  rewrite Z.max_r by lia. by destruct (Z.leb_spec (off + n) (zlen src)); [|lia].
Qed.

Definition with_dta off bs s : pc N :=
  set_mem (set_dta (write_at (Z.to_nat off) bs (dta (mem s))) (mem s)) s.

Lemma put_dta_eq off bs s : off + zlen bs <= zlen (dta (mem s)) ->
  put_dta off bs s = Done (tt, with_dta off bs s).
Proof. intros Hl. unfold put_dta. by destruct (Z.leb_spec (off + zlen bs) (zlen (dta (mem s)))); [|lia]. Qed.

(** *** The read buffer *)

(** The buffer agrees with the file. *)
Record buffer_ok (b : file_buffer) : Prop := {
  fb_size : zlen (fb_data b) = FILE_BUFFER_SIZE;
  fb_valid : 0 <= valid_bytes b <= FILE_BUFFER_SIZE;
  fb_agrees : 0 < valid_bytes b -> fb_drive_no b = reqdrv -> fb_start_cluster b = cluster ->
    0 <= fb_offset b /\ fb_offset b + valid_bytes b <= zlen content
    /\ take (Z.to_nat (valid_bytes b)) (fb_data b) = slice (fb_offset b) (valid_bytes b);
}.

Definition with_buffer b s : pc N := set_cl (set_file_buffer b (cl s)) s.

Lemma with_buffer_same s : with_buffer (read_file_buffer (cl s)) s = s.
Proof. by destruct s as [? []]. Qed.

Lemma refill_ok roff boff n len reply s : buffer_ok (read_file_buffer (cl s)) ->
  0 <= roff <= boff -> 0 <= n -> roff + n - boff <= FILE_BUFFER_SIZE -> boff - roff < 2 ^ 15 ->
  roff < 2 ^ 32 -> zlen content < 2 ^ 32 -> len = available roff n -> take (Z.to_nat len) reply = slice roff n ->
  zlen reply = 1468 -> n <= 1464 ->
  exists b, buffer_ok b /\ refill reqdrv cluster roff boff len reply s = Done (tt, with_buffer b s).
Proof.
  intros Hb Hr Hn Hs Hd Hw Hc Hl Ht Hrep Hn'. unfold refill.
  assert (0 <= len <= n) as Hln by (subst len; unfold available; lia).
  rewrite (u32_id (roff + len)) by (unfold is_u32; subst len; unfold available in *; lia).
  destruct (Z.ltb_spec boff (roff + len)) as [Hlt|Hge].
  - rewrite u32_id, u16_id by (unfold is_u32, is_u16; lia).
    set (k := roff + len - boff). assert (0 < k <= FILE_BUFFER_SIZE) as Hk by lia.
    unfold andthen. rewrite copy_from_eq by lia.
    assert (take (Z.to_nat k) (drop (Z.to_nat (boff - roff)) reply) = slice boff k) as Es.
    { replace (Z.to_nat k) with (Z.to_nat len - Z.to_nat (boff - roff))%nat by lia.
      rewrite <- skipn_firstn_comm, Ht. rewrite drop_slice by lia.
      replace (roff + (boff - roff)) with boff by lia.
      rewrite slice_available by lia. rewrite (slice_available boff k) by lia. f_equal.
      subst k. unfold available in *. lia. }
    rewrite Es. unfold reads, get_buffer, reads. cbv beta iota.
    assert (zlen (slice boff k) = k) as Lk.
    { rewrite slice_length by lia. subst k. unfold available in *. lia. }
    destruct (Z.ltb_spec FILE_BUFFER_SIZE (zlen (slice boff k))); [lia|].
    eexists. split; [|reflexivity]. destruct Hb as [Hz _ _].
    rewrite u8_id by (unfold is_byte; lia).
    assert (k <= zlen (slice boff k)) by lia.
    split; cbn [fb_data valid_bytes fb_offset fb_drive_no fb_start_cluster]; [|lia|].
    + unfold write_at. rewrite take_0. cbn [app]. rewrite length_app, length_drop. lia.
    + intros _ _ _. split_and!; [lia|subst k; unfold available in *; lia|].
      unfold write_at. rewrite take_0. cbn [app]. rewrite take_app_le by lia. by rewrite take_ge by lia.
  - exists (read_file_buffer (cl s)). split; [done|]. by rewrite with_buffer_same.
Qed.

(** ** A read *)

(** What the caller finds after [n] bytes were read at the position of the
    handle: the bytes, the count in CX and the position advanced. *)
Definition delivered (n : Z) (d : dos) : dos :=
  let p := file_pos (sft d) in
  set_regs (set_r_cx n (regs d))
    (set_sft (set_file_pos (p + n) (sft d)) (set_dta (write_at 0 (slice p n) (dta d)) d)).

(** What a read of [cx] bytes comes to: the bytes there are, or an error, which
    leaves the handle where it was. *)
Record read_outcome (cx : Z) s s' : Prop := {
  ro_config : config_of (shared (cl s')) = config_of (shared (cl s));
  ro_fit : client_fit (cl s');
  ro_inv : Inv (released s');
  ro_buffer : buffer_ok (read_file_buffer (cl s'));
  ro_result :
    mem s' = delivered (available (file_pos (sft (mem s))) cx) (mem s)
    \/ exists x, x <> 0 /\ regs (mem s') = with_error x (regs (mem s))
                /\ sft (mem s') = sft (mem s);
}.

(** A call to read [cx] bytes from the file, into a large enough buffer. *)
Record reading (cx : Z) s : Prop := {
  rd_inv : Inv s;
  rd_fit : client_fit (cl s);
  rd_buffer : buffer_ok (read_file_buffer (cl s));
  rd_cluster : sft_start_cluster (sft (mem s)) = cluster;
  rd_pos : 0 <= file_pos (sft (mem s)) /\ file_pos (sft (mem s)) + cx < 2 ^ 32;
  rd_size : zlen content < 2 ^ 32;
  rd_cx : r_cx (regs (mem s)) = cx /\ 0 < cx < 2 ^ 16;
  rd_dta : cx <= zlen (dta (mem s));
}.

(** States that differ in DOS and in the buffers for requests and files only. *)
Record dos_step s s' : Prop := {
  ds_ticks : ticks s' = ticks s;
  ds_wire : wire s' = wire s;
  ds_shared : shared (cl s') = shared (cl s);
  ds_recv : recv_buff (cl s') = recv_buff (cl s);
  ds_len : recv_data_len (cl s') = recv_data_len (cl s);
  ds_arp : arp_request_buff (cl s') = arp_request_buff (cl s);
  ds_seq : request_last_sent_seq_num (cl s') = request_last_sent_seq_num (cl s);
  ds_drive : req_drive (cl s') = req_drive (cl s);
  ds_send : length (send_buff (cl s')) = length (send_buff (cl s));
}.

Lemma dos_step_buffers s s' : dos_step s s' -> buffers_ok (cl s) -> buffers_ok (cl s').
Proof.
  intros [_ _ Es Er _ Ea _ _ El] [Br Bs Ba Bt Bm Bms]. split; rewrite ?Es, ?Er, ?Ea, ?El; done.
Qed.

Lemma dos_step_inv s s' : dos_step s s' -> buffers_ok (cl s) -> Inv s -> Inv s'.
Proof.
  intros Hd Hb HI. pose proof (dos_step_buffers _ _ Hd Hb). destruct Hd. by eapply service_local.
Qed.

Lemma dos_step_released s s' : dos_step s s' -> dos_step (released s) (released s').
Proof. intros []. by split. Qed.

Lemma dos_step_fit s s' : dos_step s s' -> client_fit (cl s) -> client_fit (cl s').
Proof.
  intros Hd [Hb Ht Hm]. pose proof (dos_step_buffers _ _ Hd Hb). destruct Hd as [_ _ Es _ _ _ _ _ _].
  split; by rewrite ?Es.
Qed.

Lemma with_args_step bs s : buffers_ok (cl s) -> zlen bs <= 1468 -> dos_step s (with_args bs s).
Proof.
  intros Hb Hl. split; try done. destruct (with_args_ok bs s Hb Hl) as [H _].
  pose proof (send_buff_size _ H). pose proof (send_buff_size _ Hb). lia.
Qed.

(** After a request and some work on its reply. *)
Lemma after_request s s2 s3 : client_fit (cl s) -> undisturbed s s2 -> Inv (released s2) ->
  dos_step s2 s3 ->
  config_of (shared (cl s3)) = config_of (shared (cl s)) /\ client_fit (cl s3) /\ Inv (released s3).
Proof.
  intros Hf Hu HI Hd. pose proof (client_fit_undisturbed _ _ Hu Hf) as Hf2.
  split_and!.
  - rewrite (ds_shared _ _ Hd). apply Hu.
  - by apply (dos_step_fit s2).
  - apply (dos_step_inv (released s2)); [by apply dos_step_released| |done].
    by destruct Hf2 as [[] _ _].
Qed.

(** A reply with an error, or none. *)
Lemma failed_read cx s s2 D x : client_fit (cl s) -> undisturbed s s2 -> Inv (released s2) ->
  buffer_ok (read_file_buffer (cl s)) -> x <> 0 ->
  ensures (fun _ => set_error x) s2
    (fun _ => read_outcome cx (set_mem (set_dta D (mem s)) s)).
Proof.
  intros Hf Hu HI Hb Hx. eapply ensures_now; [done|].
  destruct (after_request s s2 (set_mem (set_regs (with_error x (regs (mem s2))) (mem s2)) s2) Hf Hu HI)
    as (H1 & H2 & H3); [by split|].
  split; try done.
  - simpl. by rewrite (same_file_buffer _ _ Hu).
  - right. exists x. simpl. by rewrite (same_mem _ _ Hu).
Qed.

(** The exchange common to both ways of reading: the request, and the checks of
    its reply; [k] goes on with a reply that has the bytes of the file. *)
Lemma exchange_ok cx offset n D s (k : nat -> Z -> results -> C (pc N) unit) :
  Inv s -> client_fit (cl s) -> buffer_ok (read_file_buffer (cl s)) -> is_u32 offset ->
  0 <= n <= 1464 ->
  (forall out s2, undisturbed s s2 -> Inv (released s2) ->
     take (Z.to_nat (available offset n)) (reply_data out) = slice offset n ->
     zlen (reply_data out) = 1468 ->
     ensures (fun fuel => k fuel (available offset n) out) s2
       (fun _ => read_outcome cx (set_mem (set_dta D (mem s)) s))) ->
  ensures (fun fuel =>
    do! put_args 0 (readf_args offset cluster n) in
    let! '(len, out) := request fuel uninit INT2F_READ_FILE reqdrv 8 in
    if len =? NETWORK_ERROR then set_error DOS_EXTERR_FILE_NOT_FOUND
    else if negb (reply_ax out =? 0) then set_error (reply_ax out) else k fuel len out) s
    (fun _ => read_outcome cx (set_mem (set_dta D (mem s)) s)).
Proof.
  intros HI Hfit Hbuf Ho Hn Hk.
  eapply ensures_step; [apply put_args_eq; [apply Hfit|by rewrite readf_args_size]|].
  set (s1 := with_args (readf_args offset cluster n) s).
  assert (dos_step s s1) as Hs1 by (apply with_args_step; [apply Hfit|by rewrite readf_args_size]).
  assert (undisturbed s s1) as Hu1 by (by apply with_args_undisturbed; rewrite readf_args_size).
  eapply ensures_bind.
  { apply (read_request s1 offset n); [|by eapply dos_step_fit|done|done|].
    - eapply dos_step_inv; [done|apply Hfit|done].
    - apply with_args_ok; [apply Hfit|by rewrite readf_args_size]. }
  intros [len out] s2 [Hu2 HI2 Hrep]. cbn [fst snd] in Hrep.
  assert (undisturbed s s2) as Hu by (by etrans).
  destruct (Z.eqb_spec len NETWORK_ERROR) as [->|Hne]; [by eapply failed_read|].
  destruct (Z.eqb_spec (reply_ax out) 0) as [Hax|Hax]; [|by eapply failed_read].
  cbn [negb]. destruct Hrep as [?|[[? _]|(_ & -> & Hdata & Hrl)]]; [done|done|]. by apply Hk.
Qed.

(** The bytes stored so far do not change the size of the caller's buffer. *)
Lemma stored_size p t (d D : bytes) : 0 <= p -> 0 <= t <= zlen D -> d = write_at 0 (slice p t) D ->
  zlen d = zlen D.
Proof.
  intros Hp Ht ->. pose proof (slice_length p t Hp ltac:(lia)) as L. unfold available in L.
  unfold write_at. rewrite take_0. cbn [app]. rewrite length_app, length_drop. lia.
Qed.

(** The bytes for the caller in a reply that starts before them. *)
Lemma reply_slice roff btr p n (reply : bytes) : 0 <= roff <= p -> 0 <= n -> p + n <= roff + btr ->
  n <= available p n ->
  take (Z.to_nat (available roff btr)) reply = slice roff btr ->
  take (Z.to_nat n) (drop (Z.to_nat (p - roff)) reply) = slice p n.
Proof.
  intros Hr Hn Hb Ha Hd. destruct (Z.eq_dec n 0) as [->|]; [done|].
  replace (Z.to_nat n) with (Z.to_nat (p - roff + n) - Z.to_nat (p - roff))%nat by lia.
  rewrite <- skipn_firstn_comm.
  replace (take (Z.to_nat (p - roff + n)) reply) with (slice roff (p - roff + n)).
  - rewrite drop_slice by lia. f_equal; lia.
  - rewrite <- (take_slice (p - roff + n) roff btr) by lia. rewrite <- Hd, take_take. f_equal.
    unfold available in *. lia.
Qed.

Lemma block_geometry p t cx m : block_size m -> 0 <= p -> p + cx < 2 ^ 32 -> 0 <= t < cx -> cx < m ->
  let boff := (p + cx) - (p + cx) mod m in
  exists btr roff,
    (if p + t <? boff then (u16 (m + (boff - (p + t))), p + t) else (m, boff)) = (btr, roff)
    /\ 0 <= roff <= boff /\ 0 <= p + t - roff < m /\ roff + btr = boff + m /\ 0 <= btr <= 128
    /\ p + cx < roff + btr /\ boff < 2 ^ 32.
Proof.
  intros Hm Hp Hw Ht Hc boff. destruct (align_bounds (p + cx) m Hm) as [Ha Hm'].
  pose proof (Z.mod_le (p + cx) m ltac:(lia) ltac:(lia)).
  subst boff. destruct (Z.ltb_spec (p + t) (p + cx - (p + cx) mod m)).
  - rewrite u16_id by (unfold is_u16; lia). do 2 eexists. split; [done|]. lia.
  - do 2 eexists. split; [done|]. lia.
Qed.

Lemma read_through_ok cx m t D s : reading cx s -> block_size m -> cx < m -> 0 <= t < cx ->
  (t = 0 \/ file_pos (sft (mem s)) + t <= zlen content) ->
  dta (mem s) = write_at 0 (slice (file_pos (sft (mem s))) t) D -> cx <= zlen D ->
  ensures (fun fuel => read_through_buffer fuel uninit INT2F_READ_FILE reqdrv cx
                         (u32 (Z.lnot (m - 1))) m t) s
    (fun _ => read_outcome cx (set_mem (set_dta D (mem s)) s)).
Proof.
  intros [HI Hfit Hbuf Hcl [Hp Hw] Hsz [Hrcx Hcx] _] Hm Hcm Ht Hts HD HDl.
  set (p := file_pos (sft (mem s))) in *.
  pose proof (stored_size p t _ D Hp ltac:(lia) HD) as LD.
  destruct (align_bounds 0 m Hm) as [_ Hm64].
  destruct (block_geometry p t cx m Hm Hp Hw Ht Hcm)
    as (btr & roff & Eg & Hr & Ho & Hbe & Hbtr & Hend & Hbo).
  unfold read_through_buffer. eapply ensures_step; [done|]. fold p. cbv zeta.
  rewrite (u32_id (p + t)), (u32_id (p + cx)) by (unfold is_u32; lia).
  rewrite land_mask by (done || unfold is_u32; lia). rewrite Eg, Hcl.
  apply exchange_ok; [done..|unfold is_u32; lia|lia|].
  intros out s2 Hu HI2 Hdata Hrl. set (len := available roff btr) in *.
  destruct (refill_ok roff (p + cx - (p + cx) mod m) btr len (reply_data out) s2)
    as (b & Hb & Eb); [by rewrite (same_file_buffer _ _ Hu)|lia..|done|done|done|done|lia|].
  eapply ensures_step; [exact Eb|]. rewrite u16_id by (unfold is_u16; lia).
  set (off := p + t - roff) in *. set (n := available (p + t) (cx - t)).
  assert ((if off <? len then Z.min (len - off) (u16 (cx - t)) else 0) = n) as ->.
  { rewrite u16_id by (unfold is_u16; lia). subst n off len. unfold available.
    destruct (Z.ltb_spec (p + t - roff) (Z.min btr (Z.max 0 (zlen content - roff)))); lia. }
  assert (0 <= n <= cx - t) as Hn by (subst n; unfold available; lia).
  assert (t + n = available p cx) as Etn.
  { subst n. unfold available. destruct Hts as [->|]; lia. }
  eapply ensures_step.
  { apply copy_from_eq; [destruct (0 <? n); lia|lia|]. rewrite Hrl. destruct (Z.ltb_spec 0 n); lia. }
  assert (take (Z.to_nat n) (drop (Z.to_nat (if 0 <? n then off else 0)) (reply_data out))
    = slice (p + t) n) as ->.
  { destruct (Z.ltb_spec 0 n); [|by replace n with 0 by lia].
    apply (reply_slice roff btr); [lia..|unfold n, available in *; lia|done]. }
  pose proof (slice_length (p + t) n ltac:(lia) ltac:(lia)) as Lsl.
  assert (zlen (slice (p + t) n) <= n) as Lsl' by (rewrite Lsl; unfold available; lia).
  eapply ensures_step; [apply put_dta_eq; simpl; rewrite (same_mem _ _ Hu); lia|].
  eapply ensures_step; [reflexivity|]. eapply ensures_now; [reflexivity|].
  match goal with |- read_outcome _ _ ?t => set (s4 := t) end.
  destruct (after_request s s2 s4 Hfit Hu HI2) as (H1 & H2 & H3); [by split|].
  split; [done|done|done|done|left]. subst s4. unfold delivered. simpl.
  rewrite (same_mem _ _ Hu). fold p. rewrite (u16_id (t + n)) by (unfold is_u16; lia).
  rewrite Etn. rewrite (u32_id (p + available p cx)) by (unfold is_u32, available; lia).
  rewrite HD, write_slices by lia. by rewrite Etn.
Qed.

Lemma outcome_same cx s t s' : config_of (shared (cl t)) = config_of (shared (cl s)) ->
  mem t = mem s -> read_outcome cx t s' -> read_outcome cx s s'.
Proof. intros Hc Hm [H1 H2 H3 H4 H5]. rewrite Hm in H5. split; congruence. Qed.

Lemma read_chunks_ok turns cx max t D s : reading cx s -> 0 < max <= 1464 -> 0 <= t < cx ->
  (t = 0 \/ file_pos (sft (mem s)) + t <= zlen content) ->
  dta (mem s) = write_at 0 (slice (file_pos (sft (mem s))) t) D -> cx <= zlen D ->
  cx - t < Z.of_nat turns ->
  ensures (fun fuel => read_chunks fuel uninit turns INT2F_READ_FILE reqdrv cx max t) s
    (fun _ => read_outcome cx (set_mem (set_dta D (mem s)) s)).
Proof.
  revert t s. induction turns as [|turns IH]; [intros; lia|].
  intros t s [HI Hfit Hbuf Hcl [Hp Hw] Hsz [Hrcx Hcx] Hrd] Hmax Ht Hts HD HDl Htu.
  set (p := file_pos (sft (mem s))) in *.
  pose proof (stored_size p t _ D Hp ltac:(lia) HD) as LD.
  cbn [read_chunks]. eapply ensures_step; [done|]. fold p. rewrite Hcl.
  rewrite (u16_id (cx - t)), (u32_id (p + t)) by (unfold is_u16, is_u32; lia).
  set (chunk := Z.min (cx - t) max). assert (0 < chunk <= 1464) as Hch by lia.
  apply exchange_ok; [done..|unfold is_u32; lia|lia|].
  intros out s2 Hu HI2 Hdata Hrl. set (len := available (p + t) chunk) in *.
  assert (0 <= len <= chunk) as Hln by (unfold len, available; lia).
  eapply ensures_step; [apply copy_from_eq; lia|]. rewrite drop_0, Hdata.
  rewrite slice_available by lia. fold len.
  assert (zlen (slice (p + t) len) = len) as Lsl
    by (rewrite slice_length by lia; unfold len, available; lia).
  eapply ensures_step; [apply put_dta_eq; rewrite (same_mem _ _ Hu); lia|].
  rewrite (u16_id (t + len)) by (unfold is_u16; lia).
  set (s3 := with_dta t (slice (p + t) len) s2).
  assert (mem s3 = set_dta (write_at 0 (slice p (t + len)) D) (mem s)) as Em3.
  { subst s3. unfold with_dta. simpl. rewrite (same_mem _ _ Hu), HD. by rewrite write_slices by lia. }
  destruct ((len <? chunk) || (t + len =? cx)) eqn:Ee.
  - assert (t + len = available p cx) as Etn.
    { apply orb_prop in Ee as [Ee%Z.ltb_lt|Ee%Z.eqb_eq]; unfold len, available in *; destruct Hts; lia. }
    eapply ensures_step; [reflexivity|]. eapply ensures_now; [reflexivity|].
    match goal with |- read_outcome _ _ ?t => set (s4 := t) end.
    destruct (after_request s s2 s4 Hfit Hu HI2) as (H1 & H2 & H3); [by split|].
    split; [done|done|done| |left].
    + simpl. by rewrite (same_file_buffer _ _ Hu).
    + subst s4. unfold delivered. simpl. rewrite (same_mem _ _ Hu). fold p. rewrite HD.
      rewrite write_slices by lia. rewrite Etn.
      by rewrite (u32_id (p + available p cx)) by (unfold is_u32, available; lia).
  - apply orb_false_iff in Ee as [Ee1%Z.ltb_ge Ee2%Z.eqb_neq].
    eapply ensures_step; [reflexivity|].
    destruct (after_request s s2 s3 Hfit Hu HI2) as (H1 & H2 & H3); [by split|].
    assert (t + len = 0 \/ p + (t + len) <= zlen content) as Hts'
      by (unfold len, available in *; lia).
    assert (mem (released s3) = mem s3) as Emr by done.
    pose proof (stored_size p (t + len) (dta (mem s3)) D Hp ltac:(lia) ltac:(by rewrite Em3)) as LD3.
    eapply ensures_post; [apply (IH (t + len) (released s3))|]; rewrite ?Emr, ?Em3; try done; try lia.
    + split; rewrite ?Emr; rewrite ?Em3; try done.
      * by destruct H2 as [[] ? ?].
      * simpl. by rewrite (same_file_buffer _ _ Hu).
      * rewrite <- LD3, Em3 in *. done.
    + intros _ s' Hs'. eapply outcome_same; [| |exact Hs']; [|done]. exact H1.
Qed.

(** *** The whole call *)

Lemma buffered_ok b f cx m data_offset n : buffer_ok b -> block_size m -> 0 < cx < m ->
  is_u32 (file_pos f) -> sft_start_cluster f = cluster ->
  buffered b reqdrv f cx (u32 (Z.lnot (m - 1))) = Some (data_offset, n) ->
  0 <= data_offset /\ 0 < n <= cx /\ data_offset + n <= FILE_BUFFER_SIZE
  /\ file_pos f + n <= zlen content
  /\ take (Z.to_nat n) (drop (Z.to_nat data_offset) (fb_data b)) = slice (file_pos f) n.
Proof.
  intros [Hs Hv Ha] Hm Hcx Hp Hcl. unfold buffered. rewrite land_mask by done.
  destruct (align_bounds (file_pos f) m Hm) as [Hal Hm64].
  replace (file_pos f - (file_pos f - file_pos f mod m)) with (file_pos f mod m) by lia.
  rewrite u8_id by (unfold is_byte; lia).
  destruct ((0 <? valid_bytes b) && _ && _ && _ && _) eqn:E; [|done]. intros [= <- <-].
  apply andb_prop in E as [[[[E1%Z.ltb_lt E2%Z.eqb_eq]%andb_prop E3%Z.eqb_eq]%andb_prop
    E4%Z.eqb_eq]%andb_prop E5%Z.ltb_lt].
  rewrite !u8_id by (unfold is_byte; lia).
  destruct (Ha E1 E2 ltac:(congruence)) as (Ho & Hb & Ht).
  set (o := file_pos f mod m) in *. set (k := Z.min cx (valid_bytes b - o)).
  split_and!; [lia..|].
  replace (Z.to_nat k) with (Z.to_nat (o + k) - Z.to_nat o)%nat by lia.
  rewrite <- skipn_firstn_comm.
  replace (take (Z.to_nat (o + k)) (fb_data b)) with (slice (fb_offset b) (o + k)).
  - rewrite drop_slice by lia. f_equal; lia.
  - rewrite <- (take_slice (o + k) (fb_offset b) (valid_bytes b)) by lia.
    rewrite <- Ht, take_take. f_equal. lia.
Qed.

Lemma released_inv s : recv_data_len (cl s) = 0 -> Inv s -> Inv (released s).
Proof. intros Hr. unfold released. rewrite <- Hr. by destruct s as [? [] ? ?]. Qed.

(** A call to read any number of bytes. *)
Lemma call_read_ok cx s : reading cx s -> recv_data_len (cl s) = 0 ->
  has_flag (sft_open_mode (sft (mem s))) 1 = false ->
  (let m := min_server_read_len (drive_info_of (shared (cl s)) reqdrv) in m = 0 \/ block_size m) ->
  ensures (fun fuel => call_read_file fuel uninit INT2F_READ_FILE reqdrv) s
    (fun _ => read_outcome cx s).
Proof.
  intros Hrd Hfree Hop Hm. pose proof Hrd as [HI Hfit Hbuf Hcl [Hp Hw] Hsz [Hrcx Hcx] Hdta].
  assert (set_mem (set_dta (dta (mem s)) (mem s)) s = s) as Eta by (by destruct s as [? ? [] ?]).
  unfold call_read_file. eapply ensures_step; [reflexivity|]. cbv zeta. unfold id.
  rewrite Hop, Hrcx. destruct (Z.eqb_spec cx 0) as [|Hcx0]; [lia|].
  eapply ensures_step; [reflexivity|].
  set (m := min_server_read_len _) in *. set (p := file_pos (sft (mem s))) in *.
  destruct (Z.ltb_spec cx m) as [Hlt|Hge].
  - assert (block_size m) as Hbs by (destruct Hm; [lia|done]).
    eapply ensures_step; [reflexivity|].
    destruct (buffered _ _ _ _ _) as [[off n]|] eqn:Eb.
    + apply buffered_ok in Eb as (Ho & Hn & Hon & Hpn & Hd);
        [|done|done|lia|unfold is_u32; lia|done].
      fold p in Hpn, Hd.
      eapply ensures_step; [apply copy_from_eq; [lia|lia|by rewrite (fb_size _ Hbuf)]|].
      rewrite Hd. assert (zlen (slice p n) = n) as Ln
        by (rewrite slice_length by lia; unfold available; lia).
      eapply ensures_step; [apply put_dta_eq; lia|].
      set (s1 := with_dta 0 (slice p n) s). assert (dos_step s s1) as Hd1 by (by split).
      destruct (Z.eqb_spec n cx) as [->|Hne].
      * eapply ensures_now; [reflexivity|]. split.
        -- done.
        -- by apply (dos_step_fit s1).
        -- eapply (dos_step_inv (released s)); [by split|by destruct Hfit as [[] _ _]|].
           by apply released_inv.
        -- done.
        -- left. fold p. replace (available p cx) with cx by (unfold available; lia).
           unfold delivered. fold p. simpl. rewrite (u32_id (file_pos (sft (mem s)) + cx))
             by (fold p; unfold is_u32; lia). fold p. rewrite <- Hrcx.
           by destruct (mem s) as [[] ? ? ? ? ? ? ? ? ? ? ? ? ?].
      * pose proof (read_through_ok cx m n (dta (mem s)) s1) as H.
        assert (set_mem (set_dta (dta (mem s)) (mem s1)) s1 = s) as E1
          by (subst s1; by destruct s as [? [] [] ?]).
        rewrite E1 in H. apply H; [|done|lia|lia|by right|done|done].
        assert (zlen (dta (mem s1)) = zlen (dta (mem s))) as Ld1
          by (by apply (stored_size p n _ (dta (mem s))); [| lia|]).
        split; try done; [by eapply dos_step_inv; [|apply Hfit|]|by rewrite Ld1].
    + pose proof (read_through_ok cx m 0 (dta (mem s)) s) as H. rewrite Eta in H.
      apply H; [done..|lia| |done|done]; by left.
  - pose proof (fit_mtu _ Hfit) as Hmtu.
    pose proof (read_chunks_ok (S (length (dta (mem s)))) cx
      (u16 (interface_mtu (shared (cl s)) + sizeof_mac_hdr - Z.of_nat DRIVE_DATA_OFFSET))
      0 (dta (mem s)) s) as H.
    rewrite Eta in H.
    apply H; [done|rewrite u16_id by (unfold is_u16; lia); lia|lia|by left|done|done|lia].
Qed.

Lemma expire_ok now b : buffer_ok b -> buffer_ok (expire_buffer now b).
Proof.
  intros [Hs Hv Ha]. unfold expire_buffer. case_match; [|done].
  split; simpl; [done|lia|]. intros. lia.
Qed.

(** The data of DOS when the call begins: AX and the carry flag are cleared. *)
Definition entered (d : dos) : dos := set_regs (with_success (regs d)) d.

Definition started s : pc N :=
  set_cl (set_file_buffer (expire_buffer (ticks s) (read_file_buffer (cl s))) (cl s))
    (set_mem (entered (mem s)) s).

(** The first steps of the handler, and the last. *)
Lemma handle_request_ok sub s Q : req_drive (cl s) = reqdrv -> u8 (r_ax (regs (mem s))) = sub ->
  ensures (fun fuel => switch fuel uninit sub reqdrv) (started s) (fun _ t => Q tt (released t)) ->
  ensures (fun fuel => handle_request_for_our_drive fuel uninit) s Q.
Proof.
  intros Hd Ha Hcall. unfold handle_request_for_our_drive.
  eapply ensures_step; [reflexivity|]. eapply ensures_step; [reflexivity|]. cbv zeta.
  rewrite Hd, Ha. eapply ensures_step; [reflexivity|]. eapply ensures_step; [reflexivity|].
  eapply ensures_step; [reflexivity|].
  eapply ensures_bind; [exact Hcall|]. intros [] t HQ. by eapply ensures_now.
Qed.

(** C10: a read of the DOS client, of any length, of a file whose bytes the server
    and the network deliver, always ends; without an error it leaves exactly
    the bytes of the file at the position of the handle in the caller's
    buffer, as many as there are, with their number in CX and the position
    advanced by it, no matter which of them came from the read buffer; with an
    error the handle stays where it was; and the read buffer agrees with the
    file afterwards. *)
Theorem read_file_exact s :
  req_drive (cl s) = reqdrv -> u8 (r_ax (regs (mem s))) = INT2F_READ_FILE ->
  has_flag (sft_open_mode (sft (mem s))) 1 = false ->
  recv_data_len (cl s) = 0 -> reading (r_cx (regs (mem s))) s ->
  (let m := min_server_read_len (drive_info_of (shared (cl s)) reqdrv) in m = 0 \/ block_size m) ->
  exists fuel0 s', (forall fuel, (fuel0 <= fuel)%nat ->
    handle_request_for_our_drive fuel uninit s = Done (tt, s'))
  /\ (mem s' = delivered (available (file_pos (sft (mem s))) (r_cx (regs (mem s)))) (entered (mem s))
      \/ exists x, x <> 0 /\ regs (mem s') = with_error x (with_success (regs (mem s)))
                  /\ sft (mem s') = sft (mem s))
  /\ buffer_ok (read_file_buffer (cl s')) /\ Inv s' /\ client_fit (cl s').
Proof.
  intros Hd Ha Hop Hfree Hrd Hm.
  assert (ensures (fun fuel => handle_request_for_our_drive fuel uninit) s (fun _ s' =>
    (mem s' = delivered (available (file_pos (sft (mem s))) (r_cx (regs (mem s)))) (entered (mem s))
      \/ exists x, x <> 0 /\ regs (mem s') = with_error x (with_success (regs (mem s)))
                  /\ sft (mem s') = sft (mem s))
    /\ buffer_ok (read_file_buffer (cl s')) /\ Inv s' /\ client_fit (cl s')))
    as ([] & s' & [fuel0 Hf] & HQ); [|by exists fuel0, s'].
  apply (handle_request_ok INT2F_READ_FILE); [done|done|].
  destruct Hrd as [HI Hfit Hbuf Hcl Hp Hsz Hcx Hdta].
  assert (dos_step s (started s)) as Hst by (by split).
  eapply ensures_post; [apply (call_read_ok (r_cx (regs (mem s))) (started s))|]; try done.
  - split; try done; [by eapply dos_step_inv; [|apply Hfit|]|by eapply dos_step_fit|by apply expire_ok].
  - intros [] t [H1 H2 H3 H4 H5]. split_and!; [exact H5|exact H4|exact H3|].
    destruct H2 as [[] ? ?]. by split.
Qed.
End Reading.
