(* ===== verification/FileServer.v ===== *)
(** * FileServer: a wire that serves a file

    A scripted wire that answers every READ_FILE with the bytes of a file keeps
    the promise of ReadAhead.v; the client of NetworkSpec.v reads from it. *)
From S2P Require Import Prelude Words Checksum Fcb Paths FatTime Host Attrs Unicode Files Protocol.
From S2P Require Import Resident Network NetworkInv NetworkSpec Redirector ReadAhead.

(** ** Requests that are answered at once *)

Section QuickAnswer.
Context {St : Type} (respond : bytes -> St -> list bytes * St).
#[local] Instance quick_wire : Wire (serving St) := serving_wire respond.
#[local] Instance quick_timer : Timer := counting.
Implicit Types (s : pc (serving St)).

(** The client once [f] is in its buffer. *)
Definition got_frame (f : bytes) (c : client) : client :=
  let c := set_recv_data_len (zlen f) (set_recv_buff (write_at 0 f (recv_buff c)) c) in
  set_shared (set_response_received 1 (shared c)) c.

(** A frame that is kept. *)
Definition kept_by (c : client) (f : bytes) : Prop :=
  34 <= zlen f <= MAX_FRAMESIZE /\ le16 (write_at 0 f (recv_buff c)) 12 = 8
  /\ handle_ipv4 (set_recv_data_len (zlen f) (set_recv_buff (write_at 0 f (recv_buff c)) c)) = true.

Lemma pktdrv_recv_keeps f s : recv_data_len (cl s) = 0 -> kept_by (cl s) f ->
  pktdrv_recv f s = set_cl (got_frame f (cl s)) s.
Proof.
  intros Hr (Hl & Ht & Hh). unfold pktdrv_recv. rewrite Hr.
  destruct (Z.ltb_spec MAX_FRAMESIZE (zlen f)); [lia|]. cbn [orb negb Z.eqb].
  destruct (Z.ltb_spec (zlen f) 34); [lia|].
  change (recv_buff (set_recv_data_len (zlen f) (set_recv_buff (write_at 0 f (recv_buff (cl s))) (cl s))))
    with (write_at 0 f (recv_buff (cl s))).
  rewrite Ht. cbn [Z.eqb Pos.eqb]. by rewrite Hh.
Qed.

(** The turn in which the frame arrives. *)
Lemma frame_turn turns drv q start tmo f r s : tick_next (wire s) = false -> to_come (wire s) = [f] ->
  recv_data_len (cl s) = 0 -> kept_by (cl s) f -> elapsed start s <= tmo ->
  accept_reply drv q (got_frame f (cl s)) = Some r ->
  wait_reply (S turns) drv q start tmo s
  = Done (Some r, mkPc (ticks s) (got_frame f (cl s)) (mem s) (mkServing true [] (behind (wire s)))).
Proof.
  intros Ht Hq Hr Hk He Ha. cbn [wait_reply]. unfold interrupt. cbn [arrive quick_wire serving_wire].
  rewrite Ht, Hq. cbv beta iota. rewrite pktdrv_recv_keeps by done.
  set (s1 := set_cl _ _).
  assert (cl s1 = got_frame f (cl s)) as E1 by done.
  assert (elapsed start s1 = elapsed start s) as E2 by done.
  rewrite E2, E1. destruct (Z.ltb_spec tmo (elapsed start s)) as [Hlt|_]; [lia|].
  change (server_response_received (shared (got_frame f (cl s)))) with 1. cbn [Z.eqb].
  by rewrite Ha.
Qed.

Lemma one_tick t : u16 (u16 (u32 (t + 1)) - u16 t) = 1.
Proof.
  rewrite u16_u32_sub. unfold u16. rewrite Zminus_mod_idemp_r.
  replace (t + 1 - t) with 1 by lia. done.
Qed.

(** Waiting for a frame that is on its way: it takes at most two turns. *)
Lemma wait_frame turns drv q tmo f r s a s' : to_come (wire s) = [f] ->
  recv_data_len (cl s) = 0 -> server_response_received (shared (cl s)) = 0 ->
  kept_by (cl s) f -> 1 <= tmo -> accept_reply drv q (got_frame f (cl s)) = Some r ->
  wait_reply turns drv q (u16 (ticks s)) tmo s = Done (a, s') ->
  a = Some r /\ cl s' = got_frame f (cl s) /\ mem s' = mem s /\ to_come (wire s') = []
  /\ behind (wire s') = behind (wire s).
Proof.
  intros Hq Hr Hz Hk Ht Ha E. destruct turns as [|turns]; [done|].
  assert (elapsed (u16 (ticks s)) s = 0) as E0 by (unfold elapsed; by rewrite Z.sub_diag).
  destruct (tick_next (wire s)) eqn:Etk.
  - cbn [wait_reply] in E. unfold interrupt in E. cbn [arrive quick_wire serving_wire] in E.
    rewrite Etk in E. cbv beta iota in E.
    set (s1 := set_ticks _ _) in E.
    assert (elapsed (u16 (ticks s)) s1 = 1) as E1 by (apply one_tick).
    rewrite E1 in E. destruct (Z.ltb_spec tmo 1); [lia|].
    change (server_response_received (shared (cl s1))) with (server_response_received (shared (cl s))) in E.
    rewrite Hz in E. cbn [Z.eqb] in E. destruct turns as [|turns]; [done|].
    rewrite (frame_turn turns drv q (u16 (ticks s)) tmo f r s1) in E by (done || lia).
    by injection E as <- <-.
  - rewrite (frame_turn turns drv q (u16 (ticks s)) tmo f r s) in E by (done || lia).
    by injection E as <- <-.
Qed.

(** A request that is answered at once. *)
Lemma quick_request fuel function drive len out f st r s a s' :
  let c := build_request function drive len (flag_ext_features out) (cl s) in
  let drv := drive_info_of (shared (cl s)) drive in
  to_come (wire s) = [] -> recv_data_len (cl s) = 0 -> fits (shared (cl s)) len ->
  is_broadcast (mac_bytes (ip_mac_of (shared (cl s)) (remote_ip_idx drv))) = false ->
  1 <= Z.shiftl (min_rcv_tmo_18_2_ticks_shr_2 drv) 2 ->
  respond (take (Z.to_nat (frame_length_of len)) (send_buff c)) (behind (wire s)) = ([f], st) ->
  kept_by c f -> accept_reply drv (request_seq (cl s)) (got_frame f c) = Some r ->
  send_request fuel function drive len out s = Done (a, s') ->
  a = r /\ cl s' = got_frame f c /\ mem s' = mem s /\ to_come (wire s') = [] /\ behind (wire s') = st.
Proof.
  intros c drv Hq Hr Hf Hm Ht Hresp Hk Ha E. unfold send_request in E.
  unfold andthen at 1, reads at 1 in E. cbv beta iota in E. fold (frame_length_of len) in E.
  destruct (Z.ltb_spec (interface_mtu (shared (cl s))) (u16 (frame_length_of len - sizeof_mac_hdr)));
    [unfold fits in Hf; lia|].
  cbv zeta in E. fold drv in E. rewrite Hm, andb_false_r in E.
  unfold andthen at 1, pure at 1 in E. cbv beta iota in E.
  unfold andthen at 1, writes at 1 in E. cbv beta iota in E. fold c in E.
  unfold andthen at 1, reads at 1 in E. cbv beta iota in E.
  unfold andthen at 1 in E. cbn [send_attempts] in E.
  unfold andthen at 1, writes at 1 in E. cbv beta iota in E.
  set (s1 := send_frame _ _ _) in E.
  unfold andthen at 1, reads at 1 in E. cbv beta iota in E.
  change (request_last_sent_seq_num (cl (set_cl c s))) with (request_seq (cl s)) in E.
  unfold andthen at 1 in E.
  destruct (wait_reply fuel drv (request_seq (cl s)) (u16 (ticks s1)) _ s1) as [[b s2]| |] eqn:Ew;
    [|done|done].
  assert (wire s1 = mkServing (tick_next (wire s)) [f] st) as Ew1.
  { unfold s1, send_frame. cbn [wire set_wire set_cl cl transmit quick_wire serving_wire].
    rewrite Hresp, Hq. done. }
  apply (wait_frame fuel drv (request_seq (cl s)) _ f r s1) in Ew; rewrite ?Ew1; try done.
  destruct Ew as (-> & Ec & Em & Eq & Es). cbn in E. injection E as <- <-. by rewrite Ew1 in Es.
Qed.
End QuickAnswer.

(** ** The file server *)

Definition file_drive : drive_info := mkDriveInfo 0 12200 4 22 1 2 64.

(** Between two requests nothing is on its way. *)
Record idle {St} (s : pc (serving St)) : Prop := {
  idle_queue : to_come (wire s) = [];
  idle_buffer : recv_data_len (cl s) = 0;
  idle_shared : exists ip port b e, shared (cl s)
    = set_extended_features e (set_response_received b (set_last_remote ip port (shared_with file_drive)));
  idle_drive : req_drive (cl s) = 2;
}.

Lemma land_pow2_small n k : 0 <= n < 2 ^ k -> 0 <= k -> Z.land n (2 ^ k) = 0.
Proof.
  intros Hn Hk. apply Z.bits_inj'. intros i Hi. rewrite Z.land_spec, Z.bits_0, Z.pow2_bits_eqb by lia.
  destruct (Z.eqb_spec k i) as [->|]; [|by rewrite andb_false_r].
  rewrite <- (Z.mod_small n (2 ^ i)) by lia. by rewrite Z.mod_pow2_bits_high by lia.
Qed.

Lemma server_frame_length p : zlen (server_frame p) = 42 + zlen p.
Proof.
  assert (forall a b c d e, length (create_ip a b c d e).1 = 20%nat) as H1 by reflexivity.
  assert (forall a b c, length (create_udp a b c) = 8%nat) as H2 by reflexivity.
  unfold server_frame. rewrite !length_app, H1, H2. cbn [length]. lia.
Qed.

Lemma reply_message_length q ax data : zlen (reply_message q ax data) = 8 + zlen data.
Proof. unfold reply_message. rewrite !length_app. cbn [length le16_bytes]. lia. Qed.

Lemma le16_bytes_value x : is_u16 x -> x mod 2 ^ 8 + 2 ^ 8 * (x / 2 ^ 8 mod 2 ^ 8) = x.
Proof. intros Hx. exact (le16_roundtrip x [] Hx). Qed.

(** What the client makes of the answer. *)
Lemma accept_answer (c : client) drv q ax data : zlen data <= 1464 -> is_u16 ax ->
  let f := server_frame (reply_message q ax data) in
  accept_reply drv q (got_frame f c)
  = Some (zlen data, mkResults (data ++ drop (length f) (recv_buff c)) ax 0).
Proof.
  intros Hd Hax f. unfold accept_reply.
  change (recv_data_len (got_frame f c)) with (zlen f).
  assert (zlen f = 50 + zlen data) as Lf
    by (unfold f; rewrite server_frame_length, reply_message_length; lia).
  set (n := 8 + zlen data).
  assert (recv_buff (got_frame f c) = server_frame (reply_message q ax data) ++ drop (length f) (recv_buff c))
    as Eb by done.
  set (tl := drop (length f) (recv_buff c)) in *. rewrite Eb.
  assert (le16 (server_frame (reply_message q ax data) ++ tl) 43 = n) as E43
    by (apply (le16_bytes_value n); unfold is_u16; lia).
  assert (le16 (server_frame (reply_message q ax data) ++ tl) 48 = ax) as E48
    by (by apply (le16_bytes_value ax)).
  assert (drop DRIVE_DATA_OFFSET (server_frame (reply_message q ax data) ++ tl) = data ++ tl) as Ed by done.
  assert (byte_at (server_frame (reply_message q ax data) ++ tl) 47 = q) as E47 by done.
  assert (le16 (server_frame (reply_message q ax data) ++ tl) 45 = 0x9524) as E45 by done.
  rewrite E43, E45, E47, E48, Ed, Lf. rewrite (u16_id (50 + zlen data)) by (unfold is_u16; lia).
  assert (Z.land n 0x7FF = n) as En.
  { change 0x7FF with (Z.ones 11). rewrite Z.land_ones by lia. apply Z.mod_small. lia. }
  rewrite En. destruct (Z.ltb_spec (50 + zlen data) n); [lia|].
  destruct (Z.ltb_spec n sizeof_drive_proto_hdr); [lia|]. rewrite Z.eqb_refl. cbn [negb].
  unfold has_flag. change 0x8000 with (2 ^ 15). change 0x2000 with (2 ^ 13).
  rewrite !land_pow2_small by lia. cbn [Z.eqb negb]. do 3 f_equal. lia.
Qed.

(** The answer is kept. *)
Lemma answer_kept (c : client) ip port e q ax data : zlen data <= 1464 ->
  shared c
  = set_extended_features e (set_response_received 0 (set_last_remote ip port (shared_with file_drive))) ->
  ip = ip_10_0_0 1 -> port = 12200 -> req_drive c = 2 ->
  kept_by c (server_frame (reply_message q ax data)).
Proof.
  intros Hd Hs -> -> Hr. set (f := server_frame _).
  assert (zlen f = 50 + zlen data) as Lf
    by (unfold f; rewrite server_frame_length, reply_message_length; lia).
  split; [lia|]. split; [done|]. unfold handle_ipv4.
  change (shared (set_recv_data_len (zlen f) (set_recv_buff (write_at 0 f (recv_buff c)) c))) with (shared c).
  change (recv_data_len (set_recv_data_len (zlen f) (set_recv_buff (write_at 0 f (recv_buff c)) c)))
    with (zlen f).
  change (req_drive (set_recv_data_len (zlen f) (set_recv_buff (write_at 0 f (recv_buff c)) c)))
    with (req_drive c).
  rewrite Hs, Hr, Lf. destruct (Z.ltb_spec (50 + zlen data) (Z.of_nat UDP_DATA + sizeof_drive_proto_hdr)); [lia|].
  reflexivity.
Qed.

(** The frame of a request with the arguments [args]. *)
Lemma request_frame function drive ext (args : bytes) c : buffers_ok c -> zlen args <= 1464 -> args_at args c ->
  exists pre, length pre = 50%nat /\ byte_at pre 47 = request_seq c /\ byte_at pre 49 = u8 function
  /\ take (Z.to_nat (frame_length_of (zlen args))) (send_buff (build_request function drive (zlen args) ext c))
     = pre ++ args.
Proof.
  intros Hb Hz Ha. pose proof (send_buff_size _ Hb) as Hl.
  assert (length (mac_bytes (request_server drive c)) = 6%nat) as Hm by (apply mac_of_size, Hb).
  rewrite build_request_frame by (done || lia).
  assert (length (request_ip drive (zlen args) c) = 20%nat) as Li by done.
  assert (length (request_udp drive (zlen args) c) = 8%nat) as Lu by done.
  unfold request_message, request_tail.
  set (P := mac_bytes (request_server drive c) ++ take 8 (drop 6 (send_buff c)) ++ request_ip drive (zlen args) c
            ++ request_udp drive (zlen args) c).
  assert (length P = 42%nat) as LP
    by (unfold P; rewrite !length_app, length_take, length_drop, Hm, Li, Lu; lia).
  set (hd := [1; byte_at (le16_bytes (request_flags drive (zlen args) ext c)) 0;
              byte_at (le16_bytes (request_flags drive (zlen args) ext c)) 1;
              byte_at (le16_bytes (request_checksum function drive (zlen args) c)) 0;
              byte_at (le16_bytes (request_checksum function drive (zlen args) c)) 1;
              request_seq c; nth (Z.to_nat drive) (drive_map (shared c)) 255; u8 function]).
  exists (P ++ hd). split; [by rewrite length_app, LP|].
  split; [change 47%nat with (42 + 5)%nat; rewrite <- LP at 1; by rewrite byte_at_app_r|].
  split; [change 49%nat with (42 + 7)%nat; rewrite <- LP at 1; by rewrite byte_at_app_r|].
  match goal with |- take _ ?l = _ => replace l with (P ++ hd ++ drop DRIVE_DATA_OFFSET (send_buff c))
    by (unfold P, hd; rewrite <- !app_assoc; reflexivity) end.
  replace (Z.to_nat (frame_length_of (zlen args))) with (42 + (8 + length args))%nat
    by (unfold frame_length_of; rewrite u16_id by (unfold is_u16; lia); lia).
  rewrite (take_app_add' P) by done. rewrite take_app_add' by done.
  unfold args_at in Ha. rewrite Ha. apply app_assoc.
Qed.

(** A request to a server that answers at once. *)
Lemma server_answers {St} (respond : bytes -> St -> list bytes * St) fuel function len out ax data st s r s' :
  idle s -> len <= 1464 -> zlen data <= 1464 -> is_u16 ax -> 0 <= len ->
  respond (take (Z.to_nat (frame_length_of len))
             (send_buff (build_request function 2 len (flag_ext_features out) (cl s)))) (behind (wire s))
  = ([server_frame (reply_message (request_seq (cl s)) ax data)], st) ->
  @send_request _ (serving_wire respond) counting fuel function 2 len out s = Done (r, s') ->
  r.1 = zlen data /\ reply_ax r.2 = ax /\ (exists tl, reply_data r.2 = data ++ tl)
  /\ idle (released s') /\ behind (wire s') = st.
Proof.
  intros [Hq Hr (ip & port & b & e & Hs) Hd] Hn Hld Hax Hn0 Hresp E.
  set (f := server_frame (reply_message (request_seq (cl s)) ax data)) in *.
  set (c := build_request function 2 len (flag_ext_features out) (cl s)) in *.
  assert (drive_info_of (shared (cl s)) 2 = file_drive) as Edrv by (by rewrite Hs).
  apply (quick_request respond fuel function 2 len out f st
    (zlen data, mkResults (data ++ drop (length f) (recv_buff c)) ax 0)) in E.
  all: try rewrite Edrv; try done.
  - destruct E as (-> & Ec & Em & Eq & Est). split_and!; [done|done|by eexists| |done].
    split; simpl; rewrite ?Ec; try done. exists (ip_10_0_0 1), 12200, 1, e. simpl. by rewrite Hs.
  - unfold fits, frame_length_of. rewrite (u16_id (_ + len)) by (unfold is_u16; lia).
    rewrite u16_id by (unfold is_u16; lia). rewrite Hs. simpl. lia.
  - by rewrite Hs.
  - apply (answer_kept c (ip_10_0_0 1) 12200 e); [done| |done|done|done].
    unfold c. rewrite build_request_eq. simpl.
    unfold request_server, request_drive_info. by rewrite Hs.
  - by apply accept_answer.
Qed.

Section FileServer.
Context (content : bytes).

(** The answer to a READ_FILE; ARP packets have 42 bytes. *)
Definition file_answer (f : bytes) : list bytes :=
  if zlen f <=? 42 then []
  else [server_frame (reply_message (byte_at f 47) 0 (slice content (le32 f 50) (le16 f 56)))].

#[local] Instance file_wire : Wire script := scripted file_answer.
#[local] Instance file_timer : Timer := counting.

#[export] Instance file_service uninit cluster : FileService uninit 2 cluster content idle.
Proof.
  split.
  - intros s s' [Hq Hr Hs Hd] _ Ew Es _ El _ _ Ed _. split; congruence || (by rewrite Es).
  - intros fuel s offset n len out s' HI Hb Ho Hn Ha E.
    set (data := slice content offset n).
    assert (zlen data <= 1464) as Hld.
    { unfold data, slice. rewrite length_take. lia. }
    apply (server_answers _ fuel INT2F_READ_FILE 8 _ 0 data tt) in E; [|done..|].
    + destruct E as (El & Ex & (tl & Ed) & HI' & _). cbn [fst snd] in *. split; [done|right; right].
      rewrite Ed, El, Nat2Z.id, take_app_length. split_and!; [done| |done].
      apply slice_length; [apply Ho|lia].
    + destruct (request_frame INT2F_READ_FILE 2 0 (readf_args offset cluster n) (cl s) Hb ltac:(done) Ha)
        as (pre & Lp & E47 & _ & Ef).
      change (zlen (readf_args offset cluster n)) with 8 in Ef. cbn [flag_ext_features]. rewrite Ef.
      unfold file_answer. assert (zlen (pre ++ readf_args offset cluster n) = 58) as -> by
        (rewrite length_app, Lp; reflexivity).
      cbn [Z.leb Z.compare Pos.compare Pos.compare_cont].
      rewrite byte_at_app_l by lia. rewrite E47. pose proof (le32_app_r pre (readf_args offset cluster n) 0) as E50.
      pose proof (le16_app_r pre (readf_args offset cluster n) 6) as E56.
      rewrite Lp in E50, E56. cbn [Nat.add] in E50, E56. rewrite E50, E56.
      unfold data. do 5 f_equal.
      * by apply le32_roundtrip.
      * apply (le16_bytes_value n). unfold is_u16. lia.
      * by destruct (behind (wire s)).
Qed.
End FileServer.

(** ** A client that reads *)

Definition sample_content : bytes := seqZ 0 100.
Definition no_results : results := mkResults [] 0 0.

(** A call to read [cx] bytes at [pos]. *)
Definition reading_dos (cx pos : Z) : dos :=
  mkDos (mkRegs 0x1108 0 cx 0 0 0 0) [] [] [] 0 0 0 (mkDirEntry no_name 0 0 0 0 0) 0
    (replicate (Z.to_nat cx) 0) []
    (mkSft 1 0 0 0x8042 0 7 0 100 pos 0 0 0xFF no_name) (mkSearch 0 no_name 0 0 0)
    (mkDirEntry no_name 0 0 0 0 0).
Definition reading_pc (cx pos : Z) : pc script :=
  mkPc 0 (client_with file_drive) (reading_dos cx pos) (mkScript false []).

Lemma file_client_fit : client_fit 2 (client_with file_drive).
Proof.
  split; [split; try reflexivity; repeat constructor| |split; vm_compute; congruence].
  split; split; vm_compute; congruence.
Qed.

Lemma reading_pc_ok : reading 2 7 sample_content idle 10 (reading_pc 10 60).
Proof.
  split; try reflexivity; try (split; vm_compute; congruence); try (vm_compute; congruence).
  - split; try reflexivity. by eexists 0, 0, 0, _.
  - apply file_client_fit.
  - split; [reflexivity|split; vm_compute; congruence|intros H; vm_compute in H; discriminate H].
  - split; [reflexivity|lia].
Qed.

Lemma read_file_exact_witness :
  exists fuel0 s', (forall fuel, (fuel0 <= fuel)%nat ->
    @handle_request_for_our_drive _ (file_wire sample_content) counting fuel no_results
      (reading_pc 10 60) = Done (tt, s'))
  /\ (mem s' = delivered sample_content 10 (entered (reading_dos 10 60))
      \/ exists x, x <> 0 /\ regs (mem s') = with_error x (with_success (regs (reading_dos 10 60)))
                  /\ sft (mem s') = sft (reading_dos 10 60)).
Proof.
  destruct (@read_file_exact script (file_wire sample_content) counting (scripted_laws _)
    counting_laws no_results 2 7 sample_content idle (file_service sample_content no_results 7)
    (reading_pc 10 60) eq_refl eq_refl eq_refl eq_refl reading_pc_ok) as (fuel0 & s' & H1 & H2 & _).
  - right. exists 6. split; [lia|reflexivity].
  - exists fuel0, s'. split; [exact H1|exact H2].
Defined.

(** Two reads in a row: the second is answered from the read buffer; nothing
    is sent. *)
Definition read_bytes (o : outcome (unit * pc script)) : option (bytes * Z) :=
  match o with Done (_, s) => Some (dta (mem s), request_last_sent_seq_num (cl s)) | _ => None end.
Definition read_once (s : pc script) : outcome (unit * pc script) :=
  @handle_request_for_our_drive _ (file_wire sample_content) counting 10 no_results s.

Example second_read_buffered :
  read_bytes (read_once (reading_pc 10 60)) = Some (seqZ 60 10, 1)
  /\ match read_once (reading_pc 10 60) with
     | Done (_, s) => read_bytes (read_once (set_mem (reading_dos 5 70) s)) = Some (seqZ 70 5, 1)
     | _ => False
     end.
Proof. split; vm_compute; reflexivity. Qed.
