(* ===== verification/Exchange.v ===== *)
(** * Exchange: a client, a network and the server

    The resident client of Network.v and the server of Server.v joined by a
    network that may lose, repeat and delay datagrams.  A request frame of the
    client passes the checks of the server, and a reply of the server those of
    the client; and an exchange has the request executed at most once, exactly
    once when the client gets a reply, which is then the one of that
    execution. *)
From stdpp Require Import relations.
From S2P Require Import Prelude Words Checksum Paths FatTime Host Attrs Unicode Fcb Files.
From S2P Require Import Drive Handles DriveOps DriveInv Protocol HandlerInv ReplyCache Server.
From S2P Require Import MemFs Samples ServerInv MainLoop Resident Network NetworkInv NetworkSpec.

(** ** The checksum in assembly and the one in C++ *)

Lemma ror1_add_eq ax b : is_u16 ax -> ror1_add ax b = bsd_step ax b.
Proof.
  intros Hax. unfold ror1_add, bsd_step. rewrite rotate_eq by done. f_equal. f_equal.
  change 1 with (Z.ones 1) at 2. rewrite Z.land_ones by lia. change (2 ^ 1) with 2.
  rewrite Z.shiftr_div_pow2, Z.shiftl_mul_pow2 by lia. change (2 ^ 1) with 2.
  apply lor_disjoint; [lia|]. unfold is_u16 in Hax. Z.to_euclidean_division_equations. lia.
Qed.

Lemma checksum_loop_eq n l ax : is_u16 ax -> checksum_loop n l ax = foldl bsd_step ax (take n l).
Proof.
  revert l ax. induction n as [|n IH]; intros [|b l] ax Hax; try done. cbn [checksum_loop take foldl].
  rewrite ror1_add_eq by done. apply IH, bsd_step_range.
Qed.

(** The assembly code and the C++ code compute the same checksum. *)
Lemma bsd_checksum_asm_eq l n : bsd_checksum_asm l n = bsd_checksum l n.
Proof. apply checksum_loop_eq. unfold is_u16. lia. Qed.

Lemma bsd_checksum_take l n : 0 <= n < 2 ^ 16 -> bsd_checksum (take (Z.to_nat n) l) n = bsd_checksum l n.
Proof.
  intros Hn. unfold bsd_checksum. rewrite u16_id by (unfold is_u16; lia).
  by rewrite take_take, Nat.min_id.
Qed.

(** ** A request passes the server's checks *)

(** The datagram of a request: the message up to its length. *)
Definition request_datagram (function drive len ext : Z) (c : client) : bytes :=
  take (Z.to_nat (8 + len)) (request_message function drive len ext c).

(** The bytes of a request come from bytes. *)
Record request_bytes (drive : Z) (c : client) : Prop := {
  rb_buffer : Forall is_byte (send_buff c);
  rb_drive : is_byte (nth (Z.to_nat drive) (drive_map (shared c)) 0xFF);
}.

Section Accepted.
Context `{NAT : !Native}.
Context (function drive len ext : Z) (c : client).
Hypothesis Hbytes : request_bytes drive c.
Hypothesis Hbuf : buffers_ok c.
Hypothesis Hlen : 0 <= len <= 1464.

Lemma request_message_bytes : Forall is_byte (request_message function drive len ext c).
Proof.
  destruct Hbytes as [Hb Hd]. unfold request_message, request_tail.
  rewrite !Forall_app. split_and!; [|apply le16_bytes_byte|apply le16_bytes_byte| |].
  - apply Forall_singleton. unfold is_byte. lia.
  - apply Forall_cons; split; [apply u8_range|]. apply Forall_cons; split; [exact Hd|].
    apply Forall_singleton, u8_range.
  - by apply Forall_drop.
Qed.

Lemma request_message_length : (1476 <= length (request_message function drive len ext c))%nat.
Proof.
  unfold request_message, request_tail. rewrite !length_app, length_drop. cbn [length le16_bytes].
  pose proof (send_buff_size _ Hbuf). lia.
Qed.

Lemma request_datagram_length : zlen (request_datagram function drive len ext c) = 8 + len.
Proof.
  unfold request_datagram. rewrite length_take. pose proof request_message_length. lia.
Qed.

(** The flags: the length, whether the request is extended, whether it has a
    checksum. *)
Lemma request_flags_props :
  let flags := request_flags drive len ext c in
  is_u16 flags /\ Z.land flags 0x7FF = 8 + len
  /\ has flags 0x8000 = has_flag (enabled_checksums (request_drive_info drive c)) CHECKSUM_NETMOUNT_PROTO
  /\ has flags 0x2000 = negb (ext =? 0).
Proof.
  unfold request_flags. rewrite u16_id by (unfold is_u16; lia).
  replace (len + sizeof_drive_proto_hdr) with (8 + len) by lia.
  assert (forall i, 11 <= i -> Z.testbit (8 + len) i = false) as Hhi.
  { intros i Hi. rewrite <- (Z.mod_small (8 + len) (2 ^ 11)) by lia. by apply Z.mod_pow2_bits_high. }
  assert (forall x k, 0 <= k -> has x (2 ^ k) = Z.testbit x k) as Hhas.
  { intros x k Hk. unfold has. rewrite Z.land_comm. destruct (Z.testbit x k) eqn:E.
    - destruct (Z.eqb_spec (Z.land (2 ^ k) x) 0) as [Hz|]; [|done].
      apply (f_equal (fun z => Z.testbit z k)) in Hz.
      rewrite Z.land_spec, Z.bits_0, Z.pow2_bits_true, E in Hz by lia. done.
    - replace (Z.land (2 ^ k) x) with 0; [done|]. symmetry. apply Z.bits_inj'. intros i Hi.
      rewrite Z.land_spec, Z.bits_0, Z.pow2_bits_eqb by lia.
      destruct (Z.eqb_spec k i) as [<-|]; [|done]. by rewrite E. }
  assert (Z.land (8 + len) 0x7FF = 8 + len) as Hl.
  { change 0x7FF with (Z.ones 11). rewrite Z.land_ones by lia. apply Z.mod_small. lia. }
  set (on := has_flag _ _). change 0x8000 with (2 ^ 15). change 0x2000 with (2 ^ 13).
  rewrite !Hhas by lia.
  assert (is_u16 (8 + len)) as H16 by (unfold is_u16; lia).
  destruct (ext =? 0), on; rewrite ?Z.land_lor_distr_l, ?Hl, ?Z.lor_spec, ?Hhi by lia;
    (split_and!; [repeat apply is_u16_lor; unfold is_u16 in *; lia|try done; by rewrite ?Z.lor_0_r|done|done]).
Qed.

(** The datagram, field by field. *)
Lemma request_datagram_eq :
  request_datagram function drive len ext c
  = [1] ++ le16_bytes (request_flags drive len ext c) ++ le16_bytes (request_checksum function drive len c)
    ++ [request_seq c; nth (Z.to_nat drive) (drive_map (shared c)) 0xFF; u8 function]
    ++ take (Z.to_nat len) (drop DRIVE_DATA_OFFSET (send_buff c)).
Proof.
  unfold request_datagram, request_message, request_tail.
  by replace (Z.to_nat (8 + len)) with (8 + Z.to_nat len)%nat by lia.
Qed.

Lemma request_checksum_range : is_u16 (request_checksum function drive len c).
Proof.
  unfold request_checksum. case_match; [rewrite bsd_checksum_asm_eq; apply bsd_checksum_range|].
  unfold is_u16. lia.
Qed.

Lemma request_datagram_bytes : Forall is_byte (request_datagram function drive len ext c).
Proof. apply Forall_take, request_message_bytes. Qed.

Lemma request_words :
  let d := request_datagram function drive len ext c in
  from_little16 (load16 d off_length_flags) = request_flags drive len ext c
  /\ from_little16 (load16 d off_checksum) = request_checksum function drive len c.
Proof.
  cbv zeta. rewrite !from_little16_load16 by apply request_datagram_bytes. rewrite request_datagram_eq.
  split; [exact (le16_roundtrip _ [] (proj1 request_flags_props))|].
  exact (le16_roundtrip _ [] request_checksum_range).
Qed.

Lemma request_checked :
  let d := request_datagram function drive len ext c in
  check_packet d
  = Some (d, has_flag (enabled_checksums (request_drive_info drive c)) CHECKSUM_NETMOUNT_PROTO).
Proof.
  intros d. pose proof request_datagram_length as Ld. fold d in Ld.
  destruct request_flags_props as (_ & Hfl & Hfc & _). destruct request_words as [Ef Ec].
  fold d in Ef, Ec. unfold check_packet. rewrite Ef, Ec, Hfl, Hfc, Ld.
  assert (drop off_sequence d = take (Z.to_nat (3 + len)) (request_tail function drive c)) as Ed.
  { unfold d. rewrite request_datagram_eq. unfold request_tail.
    by replace (Z.to_nat (3 + len)) with (3 + Z.to_nat len)%nat by lia. }
  assert ((byte_at d off_version =? DRIVE_PROTO_VERSION) = true) as ->
    by (unfold d; by rewrite request_datagram_eq).
  destruct (Z.ltb_spec (8 + len) (Z.of_nat sizeof_hdr)); [unfold sizeof_hdr in *; lia|].
  cbn [negb]. rewrite Z.ltb_irrefl. rewrite take_ge by lia. rewrite Ed.
  unfold request_checksum. destruct (has_flag _ _); [|by rewrite Z.eqb_refl].
  rewrite u16_id by (rewrite u16_id by (unfold is_u16; lia); unfold is_u16; lia).
  rewrite u16_id by (unfold is_u16; lia).
  rewrite bsd_checksum_asm_eq. replace (8 + len - 5) with (3 + len) by lia.
  replace (len + sizeof_drive_proto_hdr - 5) with (3 + len) by lia.
  by rewrite bsd_checksum_take, Z.eqb_refl by lia.
Qed.

End Accepted.

(** ** The frame of a request carries its datagram *)

Lemma swap_word_eq x : is_u16 x -> swap_word x = byte_swap16 x.
Proof. intros Hx. unfold swap_word, byte_swap16. rewrite (u16_id x) by done. by rewrite Z.lor_comm. Qed.

Lemma be16_swapped x l : is_u16 x -> be16 (le16_bytes (swap_word x) ++ l) 0 = x.
Proof.
  intros Hx. assert (x = u8 x + 2 ^ 8 * (x / 2 ^ 8)) as Ex
    by (unfold u8; pose proof (Z.div_mod x (2 ^ 8) ltac:(lia)); lia).
  assert (is_byte (x / 2 ^ 8)) as Hb
    by (unfold is_u16, is_byte in *; Z.to_euclidean_division_equations; lia).
  assert (swap_word x = x / 2 ^ 8 + 2 ^ 8 * u8 x) as E.
  { rewrite swap_word_eq by done. rewrite Ex at 1. by rewrite byte_swap16_bytes by (apply u8_range || done). }
  pose proof (u8_range x) as Hu. unfold be16, byte_at. cbn [app nth le16_bytes].
  change (0 + 1)%nat with 1%nat. cbn [nth]. rewrite E.
  assert ((x / 2 ^ 8 + 2 ^ 8 * u8 x) mod 2 ^ 8 = x / 2 ^ 8) as -> by (unfold is_byte in *; mod_is (u8 x)).
  assert ((x / 2 ^ 8 + 2 ^ 8 * u8 x) / 2 ^ 8 = u8 x) as -> by (unfold is_byte in *; div_is (x / 2 ^ 8)).
  rewrite Z.mod_small by (unfold is_byte in *; lia). lia.
Qed.

(** The data of a UDP datagram in a frame. *)
Definition udp_payload (f : bytes) : bytes := take (Z.to_nat (be16 f 38 - 8)) (drop 42 f).

Lemma be16_app_r l k i : be16 (l ++ k) (length l + i) = be16 k i.
Proof.
  unfold be16. rewrite byte_at_app_r. by rewrite <- Nat.add_assoc, byte_at_app_r.
Qed.
Lemma le16_app_l l k i : (i + 1 < length l)%nat -> le16 (l ++ k) i = le16 l i.
Proof. intros Hi. unfold le16. by rewrite !byte_at_app_l by lia. Qed.
Lemma le16_drop l i j : le16 (drop i l) j = le16 l (i + j).
Proof.
  unfold le16, byte_at. rewrite !nth_skipn. by rewrite Nat.add_assoc.
Qed.

Lemma request_frame_eq function drive len ext c mac :
  buffers_ok c -> 0 <= len <= 1464 -> length mac = 6%nat ->
  exists hd, length hd = 42%nat
  /\ take 14 hd = mac ++ take 8 (drop 6 (send_buff c)) /\ be16 hd 38 = 16 + len
  /\ take (Z.to_nat (frame_length_of len)) (mac ++ request_rest function drive len ext c)
     = hd ++ request_datagram function drive len ext c.
Proof.
  intros Hb Hlen Hm. pose proof (send_buff_size _ Hb) as Hs. unfold request_rest.
  set (ty := take 8 (drop 6 (send_buff c))). set (ip := request_ip drive len c).
  set (udp := request_udp drive len c). set (msg := request_message function drive len ext c).
  assert (length ty = 8%nat) as Lt by (unfold ty; rewrite length_take, length_drop; lia).
  assert (length ip = 20%nat) as Li by done. assert (length udp = 8%nat) as Lu by done.
  assert (frame_length_of len = 50 + len) as ->.
  { unfold frame_length_of. rewrite u16_id by (unfold is_u16; lia). lia. }
  exists ((mac ++ ty) ++ ip ++ udp). split_and!.
  - rewrite !length_app. lia.
  - rewrite take_app_le by (rewrite length_app; lia). apply take_ge. rewrite length_app. lia.
  - set (pre := (mac ++ ty) ++ ip).
    assert (length pre = 34%nat) as Lp by (unfold pre; rewrite !length_app; lia).
    rewrite app_assoc. fold pre. change 38%nat with (34 + 4)%nat. rewrite <- Lp, be16_app_r.
    change (be16 udp 4)
      with (be16 (le16_bytes (swap_word (sizeof_udp_hdr + (sizeof_drive_proto_hdr + len))) ++ []) 0).
    rewrite be16_swapped by (unfold is_u16; lia). lia.
  - set (hd := (mac ++ ty) ++ ip ++ udp).
    assert (length hd = 42%nat) as Lh by (unfold hd; rewrite !length_app; lia).
    assert (mac ++ ty ++ ip ++ udp ++ msg = hd ++ msg) as -> by (unfold hd; by rewrite <- !app_assoc).
    rewrite take_app_ge by lia.
    by assert (Z.to_nat (50 + len) - length hd = Z.to_nat (8 + len))%nat as -> by lia.
Qed.

Lemma udp_payload_eq hd function drive len ext c : buffers_ok c -> 0 <= len <= 1464 ->
  length hd = 42%nat -> be16 hd 38 = 16 + len ->
  udp_payload (hd ++ request_datagram function drive len ext c)
  = request_datagram function drive len ext c.
Proof.
  intros Hb Hlen Lh Hl. unfold udp_payload, be16. rewrite !byte_at_app_l by lia.
  unfold be16 in Hl. rewrite Hl. rewrite <- Lh, drop_app_length. apply take_ge.
  pose proof (request_datagram_length function drive len ext c Hb Hlen). lia.
Qed.

Lemma request_frame_payload function drive len ext c mac :
  buffers_ok c -> 0 <= len <= 1464 -> le16 (send_buff c) 12 = 8 -> length mac = 6%nat ->
  let f := take (Z.to_nat (frame_length_of len)) (mac ++ request_rest function drive len ext c) in
  le16 f 12 = 8 /\ udp_payload f = request_datagram function drive len ext c.
Proof.
  intros Hb Hlen Ht Hm f.
  destruct (request_frame_eq function drive len ext c mac Hb Hlen Hm) as (hd & Lh & Ehd & Hl & Ef).
  unfold f. rewrite Ef. split; [|by apply udp_payload_eq].
  rewrite le16_app_l by lia. rewrite <- Ht. unfold le16.
  assert (forall i, (6 + i < 14)%nat -> byte_at hd (6 + i) = byte_at (send_buff c) (6 + i)) as Hty.
  { intros i Hi. rewrite <- (byte_at_take 14 hd), Ehd by lia.
    pose proof (byte_at_app_r mac (take 8 (drop 6 (send_buff c))) i) as E. rewrite Hm in E.
    rewrite E, byte_at_take by lia. unfold byte_at. by rewrite nth_skipn. }
  f_equal; [exact (Hty 6%nat ltac:(lia))|f_equal; exact (Hty 7%nat ltac:(lia))].
Qed.

(** C17: the frame the client sends for a request, on a drive with or without
    checksums, ordinary or extended, carries a datagram that passes the checks
    of the server, whatever the byte order of its machine, and is taken in
    full; the server reads from it the function, the remote drive, the
    sequence number the client waits for and the data the client put in.  The
    request has at most 1464 bytes of data, and the buffers of the client have
    their sizes and hold bytes. *)
Theorem request_accepted `{NAT : !Native} function drive len ext c :
  request_bytes drive c -> buffers_ok c -> 0 <= len <= 1464 ->
  let sent := build_request function drive len ext c in
  let datagram := udp_payload (take (Z.to_nat (50 + len)) (send_buff sent)) in
  check_packet datagram
  = Some (datagram, has_flag (enabled_checksums (drive_info_of (shared c) drive)) CHECKSUM_NETMOUNT_PROTO)
  /\ byte_at datagram off_sequence = request_last_sent_seq_num sent
  /\ byte_at datagram off_drive = nth (Z.to_nat drive) (drive_map (shared c)) 0xFF
  /\ byte_at datagram off_function = u8 function
  /\ drop sizeof_hdr datagram = take (Z.to_nat len) (drop DRIVE_DATA_OFFSET (send_buff c))
  /\ has (from_little16 (load16 datagram off_length_flags)) DRIVE_PROTO_FLAG_EXTENDED_FEATURES
     = negb (ext =? 0).
Proof.
  intros Hbytes Hb Hlen sent datagram. pose proof (send_buff_size _ Hb) as Hs.
  assert (length (mac_bytes (request_server drive c)) = 6%nat) as Hm by (apply mac_of_size, Hb).
  assert (datagram = request_datagram function drive len ext c) as ->.
  { unfold datagram, sent. rewrite build_request_frame by (done || lia).
    destruct (request_frame_eq function drive len ext c _ Hb Hlen Hm) as (hd & Lh & _ & Hl & Ef).
    assert (frame_length_of len = 50 + len) as El
      by (unfold frame_length_of; rewrite u16_id by (unfold is_u16; lia); lia).
    rewrite El in Ef. unfold request_rest in Ef. rewrite Ef. by apply udp_payload_eq. }
  change (request_last_sent_seq_num sent) with (request_seq c).
  split_and!; [by apply request_checked|by rewrite request_datagram_eq..|].
  rewrite (proj1 (request_words function drive len ext c Hbytes Hlen)). by apply request_flags_props.
Qed.

(** ** The network

    Datagrams to the server and replies from it stay in the network once they
    have been sent, so that a plan may have them arrive late, often or never,
    in any order.  [wrap] puts a reply into the headers of UDP, IP and
    Ethernet; the server sees this client at [cip] and [cport]. *)
Inductive move (W : Type) :=
  | Arrives (i : nat)      (** the [i]-th datagram reaches the server, which serves it *)
  | Comes (j : nat)        (** the [j]-th reply reaches the client *)
  | Others (w : W)         (** somebody else changes the server's machine *)
  | Junk (f : bytes)       (** a frame from elsewhere *)
  | Pass.                  (** the client's timer ticks *)
Arguments Arrives {W} i. Arguments Comes {W} j. Arguments Others {W} w. Arguments Junk {W} f.
Arguments Pass {W}.

Record net (W : Type) := mkNet {
  server : srv W;
  in_flight : list bytes;
  replies : list bytes;
  plan : list (move W);
}.
Arguments mkNet {W}. Arguments server {W}. Arguments in_flight {W}. Arguments replies {W}.
Arguments plan {W}.

Section Network.
Context {W : Type} `{!Host W, !DosAttrs W, CAL : !Calendar, !HostLaws W} `{NAT : !Native}.
Context (tmap : translit_map) (ulong_bits : Z) (wrap : bytes -> bytes) (cip cport : Z).

Definition net_transmit (f : bytes) (n : net W) : net W :=
  if le16 f 12 =? 8 then mkNet (server n) (in_flight n ++ [udp_payload f]) (replies n) (plan n) else n.

Definition net_arrive (n : net W) : option input * net W :=
  match plan n with
  | [] => (Some Tick, n)
  | m :: rest =>
      let n := mkNet (server n) (in_flight n) (replies n) rest in
      match m with
      | Arrives i =>
          match in_flight n !! i with
          | None => (None, n)
          | Some d =>
              let '(ev, sv) := serve tmap ulong_bits cip cport d (server n) in
              (None, mkNet sv (in_flight n)
                       (match ev with Sends r => replies n ++ [r] | _ => replies n end) rest)
          end
      | Comes j => (match replies n !! j with Some r => Some (Frame (wrap r)) | None => None end, n)
      | Others w =>
          (None, mkNet (mkSrv w (scwd (server n)) (drives (server n)) (answer_cache (server n)))
                   (in_flight n) (replies n) rest)
      | Junk f => (Some (Frame f), n)
      | Pass => (Some Tick, n)
      end
  end.

#[export] Instance net_wire : Wire (net W) := {| transmit := net_transmit; arrive := net_arrive |}.

Lemma net_transmit_plan f n : plan (net_transmit f n) = plan n.
Proof. unfold net_transmit. by case_match. Qed.

Lemma net_arrive_plan n i n' : net_arrive n = (i, n') ->
  plan n' = tail (plan n) /\ (plan n = [] -> i = Some Tick /\ n' = n).
Proof.
  unfold net_arrive. destruct (plan n) as [|m rest] eqn:Ep; [by intros [= <- <-]|].
  intros E. split; [|done]. simpl in *. destruct m; try (by injection E as <- <-).
  destruct (in_flight n !! i0); [|by injection E as <- <-].
  destruct (serve _ _ _ _ _ _). by injection E as <- <-.
Qed.

#[export] Instance net_laws : WireLaws (net W).
Proof.
  intros n. remember (length (plan n)) as k eqn:Ek. revert n Ek.
  induction (lt_wf k) as [k _ IH]. intros n ->. constructor. intros n' (i & n1 & E & Hi & Hn).
  cbn in E. destruct (net_arrive_plan _ _ _ E) as [Hp Ht].
  assert (plan n' = tail (plan n)) as Hp' by (destruct Hn as [->|[f ->]]; [done|by cbn; rewrite net_transmit_plan]).
  destruct (plan n) as [|m rest] eqn:Epl; [by destruct (Ht eq_refl)|].
  apply (IH (length (plan n'))); [|done]. rewrite Hp'. simpl. lia.
Qed.

(** ** One exchange *)

Context `{TIMER : !Timer}.
Context (function drive len : Z) (out : results) (s0 : pc (net W)).

Let c0 := cl s0.
Let datagram := request_datagram function drive len (flag_ext_features out) c0.
Let sv0 := server (wire s0).
Let plan0 := plan (wire s0).

(** From [sv] to [sv'] nothing was executed: the drives and the working
    directory are the same, and the machine is unless others changed it. *)
Definition untouched (sv sv' : srv W) : Prop :=
  drives sv' = drives sv /\ scwd sv' = scwd sv
  /\ (sworld sv' = sworld sv \/ Others (sworld sv') ∈ plan0).

(** A reply to another request, and a frame from elsewhere. *)
Definition stale (r : bytes) : Prop := 8 <= zlen r /\ byte_at r off_sequence <> request_seq c0.
Definition foreign (f : bytes) : Prop :=
  le32 f 26 <> ip_value (request_server drive c0)
  \/ le16 f 34 <> swap_word (remote_port (request_drive_info drive c0)).

(** Before the call: a server in order, no datagram of this client on its way
    and no reply with the sequence number of the request. *)
Record ready : Prop := {
  ready_server : loop_ok false sv0;
  ready_flight : in_flight (wire s0) = [];
  ready_replies : Forall stale (replies (wire s0));
  ready_junk : forall f, Junk f ∈ plan0 -> foreign f;
}.

(** The history of the exchange so far: the request was not served, or it was
    served once, by [serve] in a state [sv1], and not again since. *)
Inductive history (n : net W) : Prop :=
  | not_yet :
      untouched sv0 (server n) -> Forall stale (replies n) -> history n
  | once sv1 ev sv2 :
      untouched sv0 sv1 -> serve tmap ulong_bits cip cport datagram sv1 = (ev, sv2) ->
      untouched sv2 (server n) -> served cip cport datagram ev (server n) ->
      Forall (fun r => stale r \/ ev = Sends r) (replies n) -> history n.

Record exchanging (n : net W) : Prop := {
  ex_flight : Forall (eq datagram) (in_flight n);
  ex_plan : forall m, m ∈ plan n -> m ∈ plan0;
  ex_server : loop_ok false (server n);
  ex_history : history n;
}.

(** Where a frame that is delivered comes from. *)
Definition delivered_frame (n : net W) (f : bytes) : Prop :=
  foreign f \/ exists r, r ∈ replies n /\ f = wrap r.

Lemma untouched_refl sv : untouched sv sv.
Proof. split_and!; auto. Qed.
Lemma untouched_trans sv1 sv2 sv3 : untouched sv1 sv2 -> untouched sv2 sv3 -> untouched sv1 sv3.
Proof.
  intros (D1 & C1 & W1) (D2 & C2 & W2). split_and!; [congruence..|].
  destruct W2 as [->|W2]; [done|by right].
Qed.

Hypothesis Hready : ready.

(** The request is a well-formed one that the server's buffers can take. *)
Hypothesis client_buffers : buffers_ok c0.
Hypothesis client_bytes : request_bytes drive c0.
Hypothesis length_range : 0 <= len <= 1464.
Hypothesis not_oversized : ~ oversized_read datagram.

(** Serving a copy of the request. *)
Lemma serve_copy sv ev sv' : loop_ok false sv ->
  serve tmap ulong_bits cip cport datagram sv = (ev, sv') ->
  loop_ok false sv' /\ served cip cport datagram ev sv'
  /\ (ev = NoReply \/ exists r, ev = Sends r).
Proof.
  intros Hs E.
  pose proof (request_checked function drive len (flag_ext_features out) c0 client_bytes client_buffers
    length_range) as Hc.
  pose proof (request_datagram_length function drive len (flag_ext_features out) c0 client_buffers
    length_range) as Hl. cbv zeta in Hc. fold datagram in Hc, Hl.
  apply (serve_props tmap ulong_bits false) in E as [Hp _]; try done.
  2: by apply request_datagram_bytes.
  destruct ev as [| |r|ex|]; [by destruct Hp as [Hn _]; rewrite Hc in Hn| |
    |done|destruct Hp as (p & cs' & Hc' & Hov)].
  - destruct Hp. auto.
  - destruct Hp. eauto.
  - rewrite Hc in Hc'. injection Hc' as <- <-. unfold oversized in Hov. destruct Hov; [lia|done].
Qed.

Lemma serve_copy_again sv ev ev' sv' : loop_ok false sv -> served cip cport datagram ev sv ->
  serve tmap ulong_bits cip cport datagram sv = (ev', sv') ->
  ev' = ev /\ untouched sv sv'.
Proof.
  intros Hs Hsv E. pose proof (served_again tmap ulong_bits cip cport datagram ev sv (sworld sv) (scwd sv) Hsv) as E2.
  rewrite srv_eta in E2. rewrite E in E2. injection E2 as -> E2. split; [done|].
  rewrite E2. split_and!; [done..|by left].
Qed.

Lemma serve_next n sv ev : exchanging n ->
  serve tmap ulong_bits cip cport datagram (server n) = (ev, sv) ->
  loop_ok false sv
  /\ forall rest, history (mkNet sv (in_flight n)
       (match ev with Sends r => replies n ++ [r] | _ => replies n end) rest).
Proof.
  intros [_ _ Hl Hh] E. destruct (serve_copy _ _ _ Hl E) as (Hl' & Hsv & Hev).
  split; [done|]. intros rest. destruct Hh as [Hu Hr|sv1 ev1 sv2 Hu E1 Hu2 Hsv2 Hr].
  - eapply (once _ (server n) ev sv); [done|exact E|apply untouched_refl|done|]. simpl.
    assert (Forall (fun r => stale r \/ ev = Sends r) (replies n)) as H
      by (eapply Forall_impl; [exact Hr|]; by left).
    destruct Hev as [->|[r ->]]; [done|]. apply Forall_app. split; [done|].
    apply Forall_singleton. by right.
  - destruct (serve_copy_again _ _ _ _ Hl Hsv2 E) as [-> Hu3].
    eapply (once _ sv1 ev1 sv2); [done|exact E1|by eapply untouched_trans|done|]. simpl.
    destruct Hev as [->|[r ->]]; [done|]. apply Forall_app. split; [done|].
    apply Forall_singleton. by right.
Qed.

Lemma history_same n n' : replies n' = replies n -> untouched (server n) (server n') ->
  answer_cache (server n') = answer_cache (server n) -> history n -> history n'.
Proof.
  intros Er Hu Ec [H1 H2|sv1 ev sv2 H1 E H2 H3 H4].
  - apply not_yet; [by eapply untouched_trans|by rewrite Er].
  - eapply (once _ sv1 ev sv2); [done|done|by eapply untouched_trans| |by rewrite Er].
    destruct H3 as (p & cs & k & i & Hc & Hg & Hk & Ha). exists p, cs, k, i. rewrite Ec.
    split_and!; [done..|]. destruct Ha. split; [done..|]. unfold share_ro in *.
    destruct Hu as (-> & _). done.
Qed.

Lemma exchanging_arrive n i n' : exchanging n -> arrive n = (i, n') ->
  exchanging n' /\ forall f, i = Some (Frame f) -> delivered_frame n' f.
Proof.
  intros [Hf Hp Hl Hh]. cbn. unfold net_arrive.
  destruct (plan n) as [|m rest] eqn:Epl; [intros [= <- <-]; split; [by split; rewrite ?Epl|done]|].
  assert (forall m', m' ∈ rest -> m' ∈ plan0) as Hrest by (intros m' Hm; apply Hp; by right).
  assert (exchanging (mkNet (server n) (in_flight n) (replies n) rest)) as Hn.
  { split; try done. eapply (history_same n); [done|apply untouched_refl|done|done]. }
  cbn [in_flight server replies plan]. destruct m as [j|j|w|f|].
  - destruct (in_flight n !! j) as [d|] eqn:Ed; [|intros [= <- <-]; by split].
    rewrite Forall_lookup in Hf. rewrite <- (Hf _ _ Ed).
    destruct (serve _ _ _ _ _ _) as [ev sv] eqn:E. intros [= <- <-].
    destruct (serve_next n sv ev) as [Hl' Hh']; [split; try done; [by rewrite Forall_lookup|by rewrite Epl]|done|].
    split; [|done]. split; try done. by rewrite Forall_lookup.
  - intros [= <- <-]. split; [done|]. intros f. destruct (replies n !! j) as [r|] eqn:Er; [|done].
    intros [= <-]. right. exists r. split; [by eapply list_elem_of_lookup_2|done].
  - intros [= <- <-]. split; [|done]. split; try done; [by destruct Hl as [[] ?]|].
    eapply (history_same n); try done. split_and!; [done..|]. right. apply Hp. by left.
  - intros [= <- <-]. split; [done|]. intros g [= <-]. left. apply (ready_junk Hready), Hp. by left.
  - intros [= <- <-]. by split.
Qed.

Lemma delivered_arrive n i n' f : delivered_frame n f -> arrive n = (i, n') -> delivered_frame n' f.
Proof.
  intros [Hf|(r & Hr & ->)] E; [by left|right]. exists r. split; [|done]. cbn in E.
  unfold net_arrive in E. destruct (plan n) as [|m rest]; [by injection E as _ <-|].
  cbn [in_flight server replies] in E. destruct m as [j|j|w|g|]; try (by injection E as _ <-).
  destruct (in_flight n !! j); [|by injection E as _ <-].
  destruct (serve _ _ _ _ _ _) as [ev sv]. injection E as _ <-. simpl.
  destruct ev; try done. apply elem_of_app. by left.
Qed.

Lemma delivered_transmit n g f : delivered_frame n f -> delivered_frame (transmit g n) f.
Proof. intros H. cbn. unfold net_transmit. by case_match. Qed.

Lemma exchanging_arp n f : exchanging n -> le16 f 12 = 0x0608 -> exchanging (transmit f n).
Proof. intros Hn Hf. cbn. unfold net_transmit. by rewrite Hf. Qed.

(** The frames of the request. *)
Definition request_copy (f : bytes) : Prop := le16 f 12 = 8 /\ udp_payload f = datagram.

Lemma exchanging_request n f : exchanging n -> request_copy f -> exchanging (transmit f n).
Proof.
  intros [Hf Hp Hl Hh] [Ht Hd]. cbn. unfold net_transmit. rewrite Ht, Hd. cbn [Z.eqb Pos.eqb].
  split; try done; [by apply Forall_app_2, Forall_singleton|].
  eapply (history_same n); [done|apply untouched_refl|done|done].
Qed.

Lemma exchanging_start : exchanging (wire s0).
Proof.
  destruct Hready as [Hl Hf Hr _]. split; try done; [by rewrite Hf|].
  apply not_yet; [apply untouched_refl|done].
Qed.

(** *** What the client takes for the answer *)

Lemma whole_length r cs : native = little -> check_packet r = Some (r, cs) ->
  Z.land (le16 r 1) 0x7FF = zlen r.
Proof.
  intros Hn Hc. pose proof (check_packet_props _ _ _ Hc) as [Hr _]. revert Hc.
  unfold check_packet, from_little16, load16. rewrite Hn. set (l := Z.land (le16 r _) _).
  change (Z.land (le16 r 1) 0x7FF) with l.
  destruct (zlen r <? _); [done|]. destruct (negb (byte_at r _ =? _)); [done|].
  destruct (Z.ltb_spec l (Z.of_nat sizeof_hdr)) as [|H1]; [done|].
  destruct (Z.ltb_spec (zlen r) l) as [|H2]; [done|]. intros E.
  assert (take (Z.to_nat l) r = r) as Et by (by repeat case_match; simplify_eq).
  apply (f_equal length) in Et. rewrite length_take in Et. lia.
Qed.

Hypothesis wrap_payload : forall r, exists t, drop 42 (wrap r) = r ++ t.
Hypothesis little_server : native = little.

(** A reply the client accepts is one with the sequence number it waits for. *)
Lemma accepted_frame n' c drv n out' f : exchanging n' -> delivered_frame n' f ->
  holds_frame f c -> last_remote_ip (shared c) = ip_value (request_server drive c0) ->
  last_remote_udp_port (shared c) = remote_port (request_drive_info drive c0) ->
  accept_reply drv (request_seq c0) c = Some (n, out') ->
  exists r t, r ∈ replies n' /\ ~ stale r /\ drop 42 (recv_buff c) = r ++ t.
Proof.
  intros Hn Hd (Hl & (b & Eb) & Hh) Hip Hport Ha.
  unfold handle_ipv4 in Hh. rewrite Hip, Hport, Hl in Hh.
  apply andb_prop in Hh as [Hh _].
  apply andb_prop in Hh as [[[[[[_ _]%andb_prop H1]%andb_prop H2]%andb_prop _]%andb_prop H3]%andb_prop _].
  apply Z.eqb_eq in H1, H2. apply negb_true_iff, Z.ltb_ge in H3.
  change (Z.of_nat UDP_DATA + sizeof_drive_proto_hdr) with 50 in H3.
  assert (recv_buff c = f ++ drop (length f) b) as E by exact Eb.
  destruct Hd as [[Hf|Hf]|(r & Hr & ->)].
  - exfalso. apply Hf. rewrite <- H1, E. unfold le32. by rewrite !byte_at_app_l by lia.
  - exfalso. apply Hf. rewrite <- H2, E. by rewrite le16_app_l by lia.
  - destruct (wrap_payload r) as [t Et].
    assert (drop 42 (recv_buff c) = r ++ t ++ drop (length (wrap r)) b) as Ed.
    { rewrite E, drop_app_le by lia. by rewrite Et, <- app_assoc. }
    exists r, (t ++ drop (length (wrap r)) b). split_and!; [done| |done].
    intros [Hr8 Hs]. apply Hs. apply accept_reply_props in Ha as (_ & _ & _ & Hseq & _).
    rewrite <- Hseq. replace (byte_at (recv_buff c) 47) with (byte_at (drop 42 (recv_buff c)) 5)
      by (unfold byte_at; by rewrite nth_skipn).
    rewrite Ed. symmetry. apply byte_at_app_l. lia.
Qed.
(** What the client reads of a reply that is whole. *)
Lemma accepted_results c drv seq n out' r t cs : check_packet r = Some (r, cs) -> 8 <= zlen r ->
  drop 42 (recv_buff c) = r ++ t -> accept_reply drv seq c = Some (n, out') ->
  n = zlen r - 8 /\ take (Z.to_nat n) (reply_data out') = drop 8 r /\ reply_ax out' = le16 r 6.
Proof.
  intros Hc Hr8 Ed Ha. apply accept_reply_props in Ha as (Hn & _ & _ & _ & Hd & Hax & _).
  assert (forall i, le16 (recv_buff c) (42 + i) = le16 (r ++ t) i) as Hw by (intros i; by rewrite <- Ed, le16_drop).
  assert (n = zlen r - 8) as En.
  { rewrite Hn. change 43%nat with (42 + 1)%nat. rewrite Hw, le16_app_l by lia.
    by rewrite (whole_length r cs little_server Hc). }
  split; [done|]. split.
  - rewrite Hd. change DRIVE_DATA_OFFSET with (42 + 8)%nat. rewrite <- drop_drop, Ed, drop_app_le by lia.
    apply take_app_length'. rewrite length_drop. lia.
  - rewrite Hax. change 48%nat with (42 + 6)%nat. rewrite Hw. apply le16_app_l. lia.
Qed.

End Network.

(** ** A reply passes the client's checks *)

(** The message of a frame in the client's receive buffer. *)
Definition carries (message : bytes) (c : client) : Prop :=
  (exists padding, drop 42 (recv_buff c) = message ++ padding)
  /\ 42 + zlen message <= recv_data_len c <= MAX_FRAMESIZE.

(** What the words of a packet that passes the server's own checks say. *)
Lemma checked_words `{NAT : !Native} r cs : native = little -> check_packet r = Some (r, cs) ->
  has_flag (le16 r 1) 0x8000 = cs
  /\ if cs then bsd_checksum (drop 5 r) (zlen r - 5) = le16 r 3 else le16 r 3 = 0x9524.
Proof.
  intros Hn Hc. pose proof (whole_length r cs Hn Hc) as Hl. revert Hc.
  unfold check_packet, from_little16, load16. rewrite Hn.
  change (le16 r off_length_flags) with (le16 r 1). rewrite Hl.
  rewrite take_ge by lia. unfold has_flag, has.
  destruct (zlen r <? _); [done|]. destruct (negb (byte_at r _ =? _)); [done|].
  destruct (zlen r <? zlen r); [done|].
  destruct (negb (Z.land (le16 r 1) 0x8000 =? 0)).
  - destruct (Z.eqb_spec (bsd_checksum (drop off_sequence r) (zlen r - 5)) (le16 r off_checksum));
      [|done]. by intros [= <-].
  - destruct (Z.eqb_spec (le16 r off_checksum) 0x9524); [|done]. by intros [= <-].
Qed.

Section Replies.
Context {W : Type} `{!Host W, !DosAttrs W, CAL : !Calendar, !HostLaws W} `{NAT : !Native}.
Context (tmap : translit_map) (ulong_bits : Z).

End Replies.

(** ** Making a directory over a bad network

    The first reply is lost, so the client sends the request again; both copies
    reach the server, the first of them twice.  The directory is made once,
    and the client hears of it. *)
Definition md_data : bytes := str "\new".
Definition md_client : client :=
  set_send_buff (write_at DRIVE_DATA_OFFSET md_data (send_buff sample_client)) sample_client.
Definition bad_network : list (move MemFs.mem) :=
  Arrives 0%nat :: replicate 18 Pass ++ [Arrives 1%nat; Arrives 0%nat; Comes 2%nat].
Definition md_pc : pc (net MemFs.mem) :=
  mkPc 0 md_client sample_dos (mkNet sample_server [] [] bad_network).
#[export] Instance md_wire : Wire (net MemFs.mem) := net_wire ∅ 64 server_frame (ip_10_0_0 2) 12201.
Definition md_request : bytes := request_datagram 0x03 2 4 0 md_client.

Lemma md_bytes : request_bytes 2 md_client.
Proof.
  split; [|split; vm_compute; congruence].
  apply (bool_decide_unpack (Forall is_byte (send_buff md_client))). vm_compute. exact I.
Qed.
Lemma md_buffers : buffers_ok md_client.
Proof. split; try reflexivity. repeat constructor. Qed.

Lemma md_ready : ready 2 md_pc.
Proof.
  split; [apply sample_loop_ok|done|constructor|]. intros f Hf. exfalso.
  apply list_elem_of_In in Hf. cbn in Hf. repeat destruct Hf as [Hf|Hf]; discriminate Hf || done.
Qed.

Lemma request_accepted_witness :
  let datagram := udp_payload (take 54 (send_buff (build_request 0x03 2 4 0 md_client))) in
  check_packet datagram = Some (datagram, true) /\ drop sizeof_hdr datagram = str "\new".
Proof.
  destruct (request_accepted 0x03 2 4 0 md_client md_bytes md_buffers) as (H1 & _ & _ & _ & H2 & _);
    [lia|]. split; [exact H1|]. refine (eq_trans H2 _). vm_compute. reflexivity.
Defined.

(** The reply to [md_request], in the buffer of the client that waits for it. *)
Definition md_reply : bytes :=
  match (serve ∅ 64 (ip_10_0_0 2) 12201 md_request sample_server).1 with Sends r => r | _ => [] end.
Definition md_answered : client :=
  set_recv_data_len 50 (set_recv_buff (write_at 0 (server_frame md_reply) (recv_buff md_client)) md_client).



(** The directory is there, and the request was served three times. *)
Example md_served :
  match @send_request _ md_wire counting 100 0x03 2 4 (mkResults [] 0 0) md_pc with
  | Done (r, s') => is_dir (sworld (server (wire s'))) [str "srv"; str "new"] = true
                    /\ length (in_flight (wire s')) = 2%nat /\ length (replies (wire s')) = 3%nat
  | _ => False
  end.
Proof. vm_compute. done. Qed.
