(* ===== verification/Search.v ===== *)
(** * Search: a directory search from the DOS program to the server

    The client parses the search template of a DOS program with its own code
    and repeats it in every FIND_NEXT, while the server parses the path of the
    FIND_FIRST; both come to the same template.  The entries a DOS program gets
    from the calls FIND_FIRST and FIND_NEXT of the client are those of the
    directory on the server, against any service that answers a request of the
    client as the handlers of the server do ([DirService]). *)
From S2P Require Import Prelude Words Checksum Paths FatTime Host Attrs Unicode Fcb Files MemFs.
From S2P Require Import Drive Handles DriveInv Protocol HandlerInv Samples Listing.
From S2P Require Import Resident Network Redirector NetworkInv NetworkSpec ReadAhead FileServer.

(** ** Two parsers for one name *)

(** Letter case apart. *)
Definition upper_fcb (f : fcb_file_name) : fcb_file_name :=
  mkFcb (ascii_to_upper <$> name_blank_padded f) (ascii_to_upper <$> ext_blank_padded f).

Definition is_dot (c : Z) : bool := c =? CH_DOT.
Definition not_dot (c : Z) : bool := negb (c =? CH_DOT).

Lemma copy_while_length ok room s : (length (copy_while ok room s) <= room)%nat.
Proof.
  revert s. induction room as [|room IH]; intros [|c s]; simpl; try lia.
  case_match; simpl; [|lia]. specialize (IH s). lia.
Qed.

Lemma copy_to_dot_eq room s :
  copy_to_dot room s
  = (ascii_to_upper <$> copy_while not_dot room s, drop (length (copy_while not_dot room s)) s).
Proof.
  revert s. induction room as [|room IH]; intros [|c s]; try done.
  cbn [copy_to_dot copy_while]. unfold not_dot at 1 3. destruct (c =? CH_DOT); [done|].
  cbn [negb]. by rewrite IH.
Qed.

Lemma move_to_dot_after s :
  after_dot s = match move_to_dot s with [] => [] | _ :: rest => rest end.
Proof. induction s as [|c s IH]; [done|]. simpl. by destruct (c =? CH_DOT). Qed.

(** The name does not start with three dots. *)
Definition few_dots (name : bytes) : Prop := forall rest, name <> CH_DOT :: CH_DOT :: CH_DOT :: rest.

Lemma leading_dots_eq name : few_dots name ->
  leading_dots 2 name
  = (copy_while is_dot sizeof_name name, drop (length (copy_while is_dot sizeof_name name)) name).
Proof.
  intros H. unfold sizeof_name, is_dot.
  destruct name as [|c1 name]; [done|]. cbn [leading_dots copy_while].
  destruct (Z.eqb_spec c1 CH_DOT) as [->|]; [|done].
  destruct name as [|c2 name]; [done|]. cbn [copy_while].
  destruct (Z.eqb_spec c2 CH_DOT) as [->|]; [|done].
  destruct name as [|c3 name]; [done|]. cbn [copy_while].
  destruct (Z.eqb_spec c3 CH_DOT) as [->|]; [|done]. by destruct (H name).
Qed.

Lemma upper_pad n s : ascii_to_upper <$> blank_pad n s = pad_to n (ascii_to_upper <$> s).
Proof.
  unfold blank_pad, pad_to. rewrite fmap_app, length_fmap. f_equal.
  generalize (n - length s)%nat. intros k. induction k as [|k IH]; [done|].
  cbn [replicate fmap list_fmap]. by f_equal.
Qed.

Lemma upper_dots room s :
  ascii_to_upper <$> copy_while is_dot room s = copy_while is_dot room s.
Proof.
  revert s. induction room as [|room IH]; intros [|c s]; try done. cbn [copy_while].
  unfold is_dot at 1 3. destruct (Z.eqb_spec c CH_DOT) as [->|]; [|done].
  cbn [fmap list_fmap]. f_equal. apply IH.
Qed.

Lemma c_string_id s : Forall (fun c => c <> CH_NUL) s -> c_string s = s.
Proof.
  induction 1 as [|c s Hc _ IH]; [done|]. cbn [c_string].
  rewrite (proj2 (Z.eqb_neq c CH_NUL)) by done. by f_equal.
Qed.

(** The parsers agree. *)
Lemma to_dos_fn_eq name : Forall (fun c => c <> CH_NUL) name -> few_dots name ->
  upper_fcb (to_dos_fn name) = short_name_to_fcb name.
Proof.
  intros Hz Hd. unfold to_dos_fn, short_name_to_fcb. rewrite c_string_id by done.
  rewrite leading_dots_eq by done.
  change (fun c => c =? CH_DOT) with is_dot. change (fun c => negb (c =? CH_DOT)) with not_dot.
  set (dots := copy_while is_dot sizeof_name name). rewrite copy_to_dot_eq.
  set (base := copy_while not_dot _ _). rewrite copy_to_dot_eq, drop_drop, move_to_dot_after.
  unfold upper_fcb. cbn [name_blank_padded ext_blank_padded]. rewrite !upper_pad, fmap_app.
  unfold dots at 1. rewrite upper_dots. fold dots. f_equal. f_equal.
  by destruct (move_to_dot _).
Qed.

Lemma to_dos_fn_wf name : fcb_wf (to_dos_fn name).
Proof.
  unfold to_dos_fn. set (s := c_string name). set (dots := copy_while _ sizeof_name s).
  set (base := copy_while _ _ (drop (length dots) s)). set (ext := match _ with [] => _ | _ => _ end).
  assert (length dots <= sizeof_name)%nat as H1 by apply copy_while_length.
  assert (length base <= sizeof_name - length dots)%nat as H2 by apply copy_while_length.
  assert (length ext <= sizeof_ext)%nat as H3.
  { unfold ext. destruct (move_to_dot _); [simpl; lia|]. apply copy_while_length. }
  split; cbn [name_blank_padded ext_blank_padded]; unfold blank_pad;
    rewrite length_app, length_replicate, ?length_app; lia.
Qed.

(** Case of letters does not matter to the parser of the server. *)
Lemma lower_dot c : (ascii_to_lower c =? CH_DOT) = (c =? CH_DOT).
Proof. unfold ascii_to_lower. repeat case_match; lia. Qed.

Lemma leading_dots_lower room s :
  leading_dots room (ascii_to_lower <$> s)
  = ((leading_dots room s).1, ascii_to_lower <$> (leading_dots room s).2).
Proof.
  revert s. induction room as [|room IH]; intros [|c s]; try done.
  cbn [fmap list_fmap leading_dots]. rewrite lower_dot. destruct (c =? CH_DOT); [|done].
  rewrite IH. by destruct (leading_dots room s).
Qed.

Lemma copy_to_dot_lower room s :
  copy_to_dot room (ascii_to_lower <$> s)
  = ((copy_to_dot room s).1, ascii_to_lower <$> (copy_to_dot room s).2).
Proof.
  revert s. induction room as [|room IH]; intros [|c s]; try done.
  cbn [fmap list_fmap copy_to_dot]. rewrite lower_dot. destruct (c =? CH_DOT); [done|].
  rewrite IH, ascii_to_upper_lower. by destruct (copy_to_dot room s).
Qed.

Lemma after_dot_lower s : after_dot (ascii_to_lower <$> s) = ascii_to_lower <$> after_dot s.
Proof.
  induction s as [|c s IH]; [done|]. cbn [fmap list_fmap after_dot]. rewrite lower_dot.
  by destruct (c =? CH_DOT).
Qed.

Lemma short_name_to_fcb_lower s : short_name_to_fcb (ascii_to_lower <$> s) = short_name_to_fcb s.
Proof.
  unfold short_name_to_fcb. rewrite leading_dots_lower. destruct (leading_dots 2 s) as [dots it].
  cbn [fst snd]. rewrite copy_to_dot_lower. destruct (copy_to_dot _ it) as [out it'].
  cbn [fst snd]. rewrite after_dot_lower, copy_to_dot_lower. by destruct (copy_to_dot _ (after_dot it')).
Qed.

(** ** The last component of a path *)

Definition no_separator (s : bytes) : Prop := Forall (fun c => Resident.is_slash c = false) s.

Lemma find_last_slash_none last s : no_separator s -> find_last_slash last s = last.
Proof. intros H. revert last. induction H as [|c s Hc _ IH]; intros last; [done|]. simpl. by rewrite Hc. Qed.

Lemma find_last_slash_eq last dir c name : Resident.is_slash c = true -> no_separator name ->
  find_last_slash last (dir ++ c :: name) = c :: name.
Proof.
  intros Hc Hn. revert last. induction dir as [|d dir IH]; intros last; simpl; [|by rewrite IH].
  by rewrite Hc, find_last_slash_none.
Qed.

Lemma fold_no_separator s : no_separator s -> fold_char <$> s = ascii_to_lower <$> s.
Proof.
  induction 1 as [|c s Hc _ IH]; [done|]. cbn [fmap list_fmap]. f_equal; [|done].
  unfold fold_char. destruct (Z.eqb_spec (ascii_to_lower c) CH_BACKSLASH) as [E|]; [|done].
  exfalso. revert Hc E. unfold Resident.is_slash, ascii_to_lower. repeat case_match; lia.
Qed.

Lemma fold_separator c : Resident.is_slash c = true -> fold_char c = CH_SLASH.
Proof.
  unfold Resident.is_slash, fold_char. intros [->%Z.eqb_eq| ->%Z.eqb_eq]%orb_true_iff; done.
Qed.

Lemma take_while_stop f a c b : Forall (fun x => f x = true) a -> f c = false ->
  take_while f (a ++ c :: b) = a.
Proof. intros Ha Hc. induction Ha as [|x a Hx _ IH]; simpl; [by rewrite Hc|]. rewrite Hx. by f_equal. Qed.
Lemma take_while_whole f a : Forall (fun x => f x = true) a -> take_while f a = a.
Proof. induction 1 as [|x a Hx _ IH]; simpl; [done|]. rewrite Hx. by f_equal. Qed.

Lemma filename_last dir name : Forall (fun c => Paths.is_slash c = false) name ->
  filename (relative_path (dir ++ CH_SLASH :: name)) = name.
Proof.
  intros Hn. set (ns := fun c => negb (Paths.is_slash c)).
  assert (Forall (fun c => ns c = true) (reverse name)) as Hr.
  { apply Forall_reverse. eapply Forall_impl; [exact Hn|]. intros c Hc. unfold ns. by rewrite Hc. }
  unfold filename. fold ns. rewrite <- (reverse_involutive name) at 2. f_equal.
  induction dir as [|c dir IH].
  - cbn [app]. unfold relative_path. cbn [drop_while]. destruct Hn as [|x name Hx Hn]; [done|].
    cbn [drop_while]. rewrite Hx. by apply take_while_whole.
  - cbn [app]. unfold relative_path in *. cbn [drop_while]. destruct (Paths.is_slash c); [done|].
    change (c :: dir ++ CH_SLASH :: name) with ((c :: dir) ++ CH_SLASH :: name).
    rewrite reverse_app, reverse_cons, <- app_assoc. by apply take_while_stop.
Qed.

(** The path of a call: a drive, a directory and a last component. *)
Record dos_path (fn : bytes) (rest name : bytes) : Prop := {
  dp_path : exists drive dir sep, c_string fn = drive :: CH_COLON :: dir ++ sep :: name
            /\ rest = dir ++ sep :: name /\ Resident.is_slash sep = true;
  dp_last : no_separator name;
  dp_text : Forall (fun c => c <> CH_NUL) name;
  dp_dots : few_dots name;
}.

(** The template the client puts into the search record, and the one the
    server makes of the path in the request. *)
Lemma same_template fn rest name : dos_path fn rest name ->
  upper_fcb (get_dos_fn_from_full_path fn)
  = short_name_to_fcb (filename (create_relative_path rest)).
Proof.
  intros [(drive & dir & sep & E & -> & Hs) Hn Hz Hd]. unfold get_dos_fn_from_full_path.
  rewrite E. change (CH_COLON =? CH_COLON) with true. cbv iota beta.
  rewrite (find_last_slash_eq _ _ _ _ Hs Hn), Hs, (to_dos_fn_eq name Hz Hd).
  rewrite create_relative_path_fold, fmap_app, fmap_cons, (fold_separator sep Hs),
    (fold_no_separator name Hn), filename_last; [by rewrite short_name_to_fcb_lower|].
  apply Forall_fmap. eapply Forall_impl; [exact Hn|]. intros c Hc. simpl. revert Hc.
  unfold Resident.is_slash, Paths.is_slash, ascii_to_lower.
  intros Hc. repeat case_match; lia.
Qed.

(** Letter case does not matter to the test against a mask. *)
Lemma match_chars_upper mask name :
  match_chars (ascii_to_upper <$> mask) name = match_chars mask name.
Proof.
  revert mask. induction name as [|n name IH]; intros [|m mask]; try done.
  cbn [fmap list_fmap match_chars]. rewrite IH.
  assert (ascii_to_upper (ascii_to_upper m) = ascii_to_upper m) as -> by apply ascii_to_upper_idemp.
  assert ((ascii_to_upper m =? CH_QMARK) = (m =? CH_QMARK)) as ->; [|done].
  unfold ascii_to_upper. repeat case_match; lia.
Qed.

Lemma match_upper_fcb mask f : match_fcb_name_to_mask (upper_fcb mask) f = match_fcb_name_to_mask mask f.
Proof. unfold match_fcb_name_to_mask, upper_fcb. cbn. by rewrite !match_chars_upper. Qed.

Lemma get_dos_fn_wf fn : fcb_wf (get_dos_fn_from_full_path fn).
Proof.
  unfold get_dos_fn_from_full_path. destruct (find_last_slash _ _); [apply to_dos_fn_wf|].
  case_match; apply to_dos_fn_wf.
Qed.

(** ** The entries *)

(** How DOS sees an entry of a directory list. *)
Definition seen (e : DosFileProperties) : dos_directory_entry :=
  mkDirEntry (Files.fcb_name e) (u8 (attrs e)) (u16 (time_date e)) (u16 (Z.shiftr (time_date e) 16)) 0
    (u32 (size e)).

(** *** Replies and requests *)

Section Packets.
Context `{NAT : Native}.

Lemma put32_le x : put32 x = le32_bytes (u32 x).
Proof. unfold put32. apply store32_to_little32. auto with words. Qed.

(** The fields of a reply to a search. *)
Lemma found_reply e h n : fcb_wf (Files.fcb_name e) -> Z.of_nat h < 2 ^ 16 -> Z.of_nat n < 2 ^ 16 ->
  let r := find_reply e h n in
  found_entry r = seen e /\ le16 r 20 = Z.of_nat h /\ le16 r 22 = Z.of_nat n /\ zlen r = 24.
Proof.
  intros [W1 W2] Hh Hn r. assert (is_u16 (Z.of_nat h) /\ is_u16 (Z.of_nat n)) as [Uh Un]
    by (unfold is_u16; lia).
  unfold r, find_reply. rewrite !put16_le, put32_le, (u16_id (Z.of_nat h)), (u16_id (Z.of_nat n)) by done.
  destruct (Files.fcb_name e) as [nm ex] eqn:Ef. cbn [name_blank_padded ext_blank_padded] in W1, W2.
  do 8 (destruct nm as [|? nm]; [discriminate W1|]). destruct nm; [|discriminate W1].
  do 3 (destruct ex as [|? ex]; [discriminate W2|]). destruct ex; [|discriminate W2].
  split_and!; [|exact (le16_roundtrip _ [] Uh)|exact (le16_roundtrip _ [] Un)|done].
  unfold found_entry, seen. rewrite Ef. f_equal.
  - exact (le16_roundtrip _ [] (u16_range _)).
  - exact (le16_roundtrip _ [] (u16_range _)).
  - exact (le32_roundtrip _ [] (u32_range _)).
Qed.
End Packets.

Lemma found_entry_take r : found_entry (take 24 r) = found_entry r.
Proof. do 24 (destruct r as [|? r]; [reflexivity|]). reflexivity. Qed.
Lemma reply_position_take r : le16 (take 24 r) 20 = le16 r 20 /\ le16 (take 24 r) 22 = le16 r 22.
Proof. do 24 (destruct r as [|? r]; [done|]). done. Qed.

Lemma find_entry_ext m1 m2 attr n dl : (forall f, match_fcb_name_to_mask m1 f = match_fcb_name_to_mask m2 f) ->
  find_entry m1 attr n dl = find_entry m2 attr n dl.
Proof.
  intros H. revert n. induction dl as [|e dl IH]; intros n; [done|]. cbn [find_entry].
  unfold entry_matches. by rewrite H, IH.
Qed.

(** ** The calls *)

Section Searching.
Context {N : Type} `{WIRE : !Wire N, TIMER : !Timer, LAWS : !WireLaws N, TL : !TimerLaws}.
Context {W : Type} `{!Host W, !DosAttrs W, CAL : !Calendar, !HostLaws W} `{NAT : !Native}.
Context (tmap : translit_map) (uninit : results) (reqdrv : Z).
Implicit Types (s : pc N) (g : st W).

(** What a program of DOS does: it calls FIND_FIRST with its template in the
    data of DOS, and then FIND_NEXT, as long as the carry flag is clear. *)
Definition search_call (fuel : nat) (function : Z) : C (pc N) (option dos_directory_entry) :=
  do! upd_regs (set_r_ax (0x1100 + function)) in
  do! handle_request_for_our_drive fuel uninit in
  let! d := get_dos id in
  pure (if has_flag (r_flags (regs d)) I86_FLAG_CF then None else Some (found_file d)).

Fixpoint dos_search (fuel calls : nat) (function : Z) : C (pc N) (list dos_directory_entry) :=
  match calls with
  | O => pure []
  | S calls =>
      let! e := search_call fuel function in
      match e with
      | None => pure []
      | Some e => let! es := dos_search fuel calls INT2F_FIND_NEXT in pure (e :: es)
      end
  end.

(** The handler the server has for a request. *)
Definition search_handler (function : Z) (args : bytes) : M (st W) reply :=
  if function =? INT2F_FIND_FIRST then handle_find_first tmap args else handle_find_next tmap args.

(** States of the client that differ in what a call stores before and after a
    request. *)
Record call_step s s' : Prop := {
  cs_ticks : ticks s' = ticks s;
  cs_wire : wire s' = wire s;
  cs_shared : exists e, shared (cl s') = set_extended_features e (shared (cl s));
  cs_recv : recv_buff (cl s') = recv_buff (cl s);
  cs_len : recv_data_len (cl s') = recv_data_len (cl s);
  cs_arp : arp_request_buff (cl s') = arp_request_buff (cl s);
  cs_seq : request_last_sent_seq_num (cl s') = request_last_sent_seq_num (cl s);
  cs_drive : req_drive (cl s') = req_drive (cl s);
  cs_send : length (send_buff (cl s')) = length (send_buff (cl s));
}.

(** A search request with its arguments in the send buffer. *)
Record search_request (function : Z) (args : bytes) s : Prop := {
  sr_function : function = INT2F_FIND_FIRST \/ function = INT2F_FIND_NEXT;
  sr_fit : client_fit reqdrv (cl s);
  sr_size : zlen args <= 130;
  sr_args : args_at args (cl s);
}.

(** The request is sent. *)
Definition sent_request (fuel : nat) (function : Z) (args : bytes) : C (pc N) (Z * results) :=
  send_request fuel function reqdrv (zlen args) (mkResults (reply_data uninit) (reply_ax uninit) 0).

(** What the server and the network promise: in the states [Inv g], between two
    requests with the server in state [g], a request that the server answers
    with at most 24 bytes brings this answer, and the server has handled it
    once; or it brings none. *)
Class DirService (Inv : st W -> pc N -> Prop) := {
  dir_local : forall g s s', Inv g s -> call_step s s' -> buffers_ok (cl s') -> Inv g s';
  dir_find : forall fuel function args g g' ax data ext s len out s',
    Inv g s -> search_request function args s ->
    search_handler function args g = (Ok (Reply ax data ext), g') -> zlen data <= 24 -> is_u16 ax ->
    sent_request fuel function args s = Done ((len, out), s') ->
    len = NETWORK_ERROR
    \/ len = zlen data /\ reply_ax out = ax /\ take (length data) (reply_data out) = data
       /\ Inv g' (released s');
}.

Context (Inv : st W -> pc N -> Prop) `{SRV : !DirService Inv}.

(** Every request that the server answers brings its answer. *)
Definition answering : Prop :=
  forall fuel function args g g' ax data ext s len out s',
    Inv g s -> search_request function args s ->
    search_handler function args g = (Ok (Reply ax data ext), g') -> zlen data <= 24 -> is_u16 ax ->
    sent_request fuel function args s = Done ((len, out), s') -> len <> NETWORK_ERROR.

(** A client between two calls. *)
Record ready g s : Prop := {
  re_inv : Inv g s;
  re_fit : client_fit reqdrv (cl s);
  re_drive : req_drive (cl s) = reqdrv;
}.

Lemma call_step_fit s s' : call_step s s' -> client_fit reqdrv (cl s) -> client_fit reqdrv (cl s').
Proof.
  intros [_ _ (e & Es) Er _ Ea _ _ El] [[Br Bs Ba Bt Bm Bms] Ht Hm].
  split; [split|..]; rewrite ?Es, ?Er, ?Ea, ?El; done.
Qed.
Lemma ready_step g s s' : call_step s s' -> ready g s -> ready g s'.
Proof.
  intros Hc [HI Hf Hd]. pose proof (call_step_fit _ _ Hc Hf) as Hf'. split; [|done|].
  - eapply dir_local; [exact HI|done|apply Hf'].
  - rewrite <- Hd. apply Hc.
Qed.
Lemma call_step_features e s s' : shared (cl s') = shared (cl s) ->
  e = has_drive_extended_features (shared (cl s)) -> shared (cl s') = set_extended_features e (shared (cl s)).
Proof. intros -> ->. by destruct (shared (cl s)). Qed.
Lemma dos_call_step s s' : dos_step s s' -> call_step s s'.
Proof. intros []. split; try done. eexists. by apply call_step_features. Qed.

(** What a call sends, and what it stores when an entry was found. *)
Definition first_args (d : dos) : bytes := sda_srch_attr d :: (my_strcpy_noterm_nf (fn1 d) 2).2.
Definition call_args (function : Z) (d : dos) : bytes :=
  if function =? INT2F_FIND_FIRST then first_args d else find_next_args (search d).
Definition found (function : Z) (data : bytes) (d : dos) : dos :=
  set_found (found_entry data) (updated_search function reqdrv data d) d.

(** The error of a call whose request is not answered. *)
Definition no_answer (function : Z) : Z :=
  if function =? INT2F_FIND_FIRST then DOS_EXTERR_FILE_NOT_FOUND else DOS_EXTERR_NO_MORE_FILES.

(** The request of a search: it comes back, with the answer of the server or
    without one. *)
Lemma search_answered function args g g' ax data ext s : ready g s -> search_request function args s ->
  search_handler function args g = (Ok (Reply ax data ext), g') -> zlen data <= 24 -> is_u16 ax ->
  ensures (fun fuel => request fuel uninit function reqdrv (zlen args)) s (fun r s' =>
    undisturbed s s'
    /\ (~ answering /\ r.1 = NETWORK_ERROR
        \/ r.1 = zlen data /\ reply_ax r.2 = ax /\ take (length data) (reply_data r.2) = data
           /\ ready g' (released s'))).
Proof.
  intros [HI Hfit Hd] Hreq Hh Hl Hax. pose proof Hreq as [_ _ Hsz Ha]. unfold request.
  rewrite u16_id by (unfold is_u16; lia).
  destruct (send_request_ends function reqdrv (zlen args)
    (mkResults (reply_data uninit) (reply_ax uninit) 0) s (fit_timeouts _ _ Hfit)) as (k & [[len out] s'] & Hk).
  exists (len, out), s'. split; [by exists k|]. specialize (Hk k (le_n k)).
  assert (undisturbed s s') as Hu.
  { pose proof Hk as E.
    apply (send_request_result (fun _ => True) (fun _ _ => True) (fun _ => True)) in E;
      [|done..|split; [done|apply Hfit|done]|]; [by destruct E as [[] _]|].
    unfold fits, frame_length_of. pose proof (fit_mtu _ _ Hfit).
    rewrite (u16_id (_ + zlen args)) by (unfold is_u16; lia). rewrite u16_id by (unfold is_u16; lia). lia. }
  split; [done|]. cbn [fst snd].
  pose proof Hk as E. eapply dir_find in E as [->|(El & Ex & Ed & HI')]; [| |done..].
  - left. split; [|done]. intros Hans. by eapply Hans.
  - right. split_and!; [done..|]. pose proof (client_fit_undisturbed _ _ _ Hu Hfit) as Hfit'. split; [done| |].
    + by destruct Hfit' as [[] ? ?].
    + rewrite <- Hd. apply Hu.
Qed.

(** The arguments of a call that can be sent. *)
Definition sendable (function : Z) (d : dos) : Prop :=
  (function = INT2F_FIND_FIRST /\ (my_strcpy_noterm_nf (fn1 d) 2).1 = zlen (my_strcpy_noterm_nf (fn1 d) 2).2
   \/ function = INT2F_FIND_NEXT /\ zlen (find_next_args (search d)) = 16)
  /\ zlen (call_args function d) <= 130.

Lemma write_at_twice o (a b l : bytes) : (o + length a + length b <= length l)%nat ->
  write_at (o + length a) b (write_at o a l) = write_at o (a ++ b) l.
Proof.
  intros Hl. unfold write_at.
  rewrite (app_assoc (take o l) a), take_app_length' by (rewrite length_app, length_take; lia).
  rewrite length_app, <- !app_assoc. do 3 f_equal.
  rewrite (app_assoc (take o l) a), drop_app_ge by (rewrite length_app, length_take; lia).
  rewrite drop_drop. f_equal. rewrite length_app, length_take. lia.
Qed.

(** The arguments are stored in the send buffer. *)
Lemma put_call_args function s : buffers_ok (cl s) -> sendable function (mem s) ->
  (if function =? INT2F_FIND_FIRST
   then do! put_args 0 [sda_srch_attr (mem s)] in
        let! len := put_path 1 (fn1 (mem s)) in pure (len + 1)
   else do! put_args 0 (find_next_args (search (mem s))) in pure 16) s
  = Done (zlen (call_args function (mem s)), with_args (call_args function (mem s)) s).
Proof.
  intros Hb [[[-> Hp]|[-> Hn]] Hl]; unfold call_args in *; cbn [Z.eqb Pos.eqb] in *.
  - unfold andthen at 1. rewrite put_args_eq by (done || (vm_compute; congruence)).
    unfold andthen, put_path. unfold first_args in Hl |- *.
    destruct (my_strcpy_noterm_nf (fn1 (mem s)) 2) as [len chars] eqn:Ep. cbn [fst snd] in *. subst len.
    set (s1 := with_args [sda_srch_attr (mem s)] s).
    destruct (with_args_ok [sda_srch_attr (mem s)] s Hb) as [Hb1 _]; [vm_compute; congruence|].
    pose proof (send_buff_size _ Hb) as Ls. cbn [length] in Hl.
    unfold put_args. cbv beta zeta. unfold andthen. fold s1 in Hb1. rewrite (send_buff_size _ Hb1).
    destruct (Z.leb_spec (Z.of_nat DRIVE_DATA_OFFSET + 1 + zlen chars) MAX_FRAMESIZE); [|lia].
    unfold pure. f_equal. f_equal; [cbn [length]; lia|]. unfold s1, with_args. cbn [set_cl cl send_buff set_send_buff].
    pose proof (write_at_twice DRIVE_DATA_OFFSET [sda_srch_attr (mem s)] chars (send_buff (cl s))) as Wr.
    cbn [app length] in Wr. change (DRIVE_DATA_OFFSET + Z.to_nat 1)%nat with (DRIVE_DATA_OFFSET + 1)%nat.
    rewrite Wr by lia. by destruct s as [? [] ? ?].
  - unfold andthen at 1. rewrite put_args_eq by (done || lia). unfold pure. by rewrite Hn.
Qed.

(** The arguments and the data of DOS that go with them. *)
Lemma with_call_args function s : buffers_ok (cl s) -> sendable function (mem s) ->
  client_fit reqdrv (cl s) ->
  call_step s (with_args (call_args function (mem s)) s)
  /\ search_request function (call_args function (mem s)) (with_args (call_args function (mem s)) s).
Proof.
  intros Hb [Hf Hl] Hfit. destruct (with_args_ok (call_args function (mem s)) s Hb) as [Hb1 Ha]; [lia|].
  assert (call_step s (with_args (call_args function (mem s)) s)) as Hc
    by (apply dos_call_step, with_args_step; [done|lia]).
  split; [done|]. split; [naive_solver|by eapply call_step_fit|done|done].
Qed.

(** What the call makes of an answer. *)
Definition answered_call (function ax : Z) (data : bytes) (d d' : dos) : Prop :=
  if (ax =? 0) && (zlen data =? 24) then d' = found function data d
  else regs d' = with_error ax (regs d).

Lemma found_of_reply function r data d : take (length data) r = data -> zlen data = 24 ->
  set_found (found_entry r) (updated_search function reqdrv r d) d = found function data d.
Proof.
  intros Hd Hl. assert (length data = 24%nat) as El by lia. rewrite El in Hd.
  unfold found, updated_search. rewrite <- Hd, found_entry_take.
  destruct (reply_position_take r) as [-> ->]. done.
Qed.

Lemma call_find_ok function g g' ax data ext s : ready g s -> sendable function (mem s) ->
  search_handler function (call_args function (mem s)) g = (Ok (Reply ax data ext), g') ->
  zlen data <= 24 -> is_u16 ax ->
  ensures (fun fuel => call_find fuel uninit function reqdrv) s (fun _ t =>
    ~ answering /\ regs (mem t) = with_error (no_answer function) (regs (mem s))
    \/ answered_call function ax data (mem s) (mem t) /\ ready g' (released t)).
Proof.
  intros Hr Hs Hh Hl Hax. pose proof (re_fit _ _ Hr) as Hfit. pose proof (fit_buffers _ _ Hfit) as Hb.
  destruct (with_call_args function s Hb Hs Hfit) as [Hstep Hreq].
  unfold call_find. eapply ensures_step; [reflexivity|].
  eapply ensures_step; [by apply put_call_args|].
  set (s1 := with_args _ s) in *.
  eapply ensures_bind; [apply (search_answered function (call_args function (mem s)) g g' ax data ext);
    [by eapply ready_step|done..]|].
  intros [len out] s2 [Hu Hres]. cbn [fst snd] in Hres.
  assert (mem s2 = mem s) as Em by (by rewrite (same_mem _ _ Hu)).
  destruct Hres as [[Hna ->]|(-> & Hx & Hd & Hr2)].
  { rewrite Z.eqb_refl. eapply ensures_now; [reflexivity|]. left. split; [done|]. simpl. by rewrite Em. }
  rewrite (proj2 (Z.eqb_neq (zlen data) NETWORK_ERROR)) by lia.
  eapply ensures_step; [reflexivity|]. rewrite Hx. set (s3 := set_cl _ s2).
  assert (forall t, cl t = cl s3 -> ticks t = ticks s3 -> wire t = wire s3 -> call_step (released s2) (released t))
    as Hc.
  { intros [tt tc tm tw] Ec Et Ew. cbn in *. subst. split; try done. by eexists. }
  unfold answered_call.
  destruct (Z.eqb_spec ax 0) as [->|Hax0], (Z.eqb_spec (zlen data) 24) as [H24|H24]; cbn [negb orb andb].
  - eapply ensures_now; [reflexivity|]. right. split; [|by eapply ready_step; [by apply Hc|]].
    cbn [mem set_mem]. rewrite <- Em. by apply found_of_reply.
  - eapply ensures_now; [reflexivity|]. right. split; [|by eapply ready_step; [by apply Hc|]].
    simpl. by rewrite Em.
  - eapply ensures_now; [reflexivity|]. right. split; [|by eapply ready_step; [by apply Hc|]].
    simpl. by rewrite Em.
  - eapply ensures_now; [reflexivity|]. right. split; [|by eapply ready_step; [by apply Hc|]].
    simpl. by rewrite Em.
Qed.

(** *** The flags and the entry after a call *)

Lemma carry_cleared x r : has_flag (r_flags (with_success r)) I86_FLAG_CF = false
  /\ r_ax (with_error x r) = x /\ has_flag (r_flags (with_error x r)) I86_FLAG_CF = true.
Proof.
  unfold has_flag, with_success, with_error. cbn [r_flags r_ax set_r_ax set_r_flags]. split_and!; [|done|].
  - assert (Z.land (Z.ldiff (r_flags r) 1) 1 = 0) as ->; [|done].
    apply Z.bits_inj'. intros n Hn. rewrite Z.land_spec, Z.ldiff_spec, Z.bits_0.
    by destruct (Z.testbit (r_flags r) n), (Z.testbit 1 n).
  - assert (Z.land (Z.lor (r_flags r) 1) 1 = 1) as ->; [|done].
    apply Z.bits_inj'. intros n Hn. rewrite Z.land_spec, Z.lor_spec.
    by destruct (Z.testbit (r_flags r) n), (Z.testbit 1 n).
Qed.

Lemma search_call_ok function g g' h r s : ready g s -> sendable function (mem s) ->
  search_handler function (call_args function (mem s)) g = (Ok (search_reply h r), g') ->
  Z.of_nat h < 2 ^ 16 ->
  match r with Some (n, e) => fcb_wf (Files.fcb_name e) /\ Z.of_nat (S n) < 2 ^ 16 | None => True end ->
  ensures (fun fuel => search_call fuel function) s (fun found t =>
    ~ answering /\ found = None /\ r_ax (regs (mem t)) = no_answer function
    \/ ready g' t
       /\ match r with
          | None => found = None /\ r_ax (regs (mem t)) = DOS_EXTERR_NO_MORE_FILES
          | Some (n, e) => found = Some (seen e)
              /\ search (mem t) = updated_search function reqdrv (find_reply e h (S n)) (mem s)
          end).
Proof.
  intros Hr Hs Hh Hh16 Hn. pose proof Hs as [Hf _].
  unfold search_call. eapply ensures_step; [reflexivity|].
  set (s1 := set_mem _ s).
  assert (call_step s s1) as Hc1 by (by apply dos_call_step).
  assert (call_step s1 (started s1)) as Hc2 by (by apply dos_call_step).
  pose proof (ready_step _ _ _ Hc2 (ready_step _ _ _ Hc1 Hr)) as Hr2.
  set (data := match r with Some (n, e) => find_reply e h (S n) | None => [] end).
  set (ax := match r with Some _ => 0 | None => DOS_EXTERR_NO_MORE_FILES end).
  assert (exists ext, search_reply h r = Reply ax data ext) as [ext Er]
    by (unfold ax, data; destruct r as [[]|]; by eexists).
  rewrite Er in Hh.
  assert (zlen data <= 24 /\ is_u16 ax) as [Hl Hax].
  { unfold ax, data. destruct r as [[n e]|]; [|by split; [|split]].
    destruct Hn as [Hw Hn]. destruct (found_reply e h (S n) Hw Hh16 Hn) as (_ & _ & _ & ->). by split; [|split]. }
  eapply (ensures_bind (fun fuel => handle_request_for_our_drive fuel uninit) _ _ (fun _ t =>
    ~ answering /\ regs (mem t) = with_error (no_answer function) (regs (mem (started s1)))
    \/ answered_call function ax data (mem (started s1)) (mem t) /\ ready g' t)).
  - apply (handle_request_ok uninit reqdrv function); [apply Hr|by destruct Hf as [[-> _]|[-> _]]|].
    eapply (ensures_post _ _ _ (fun _ t =>
      ~ answering /\ regs (mem t) = with_error (no_answer function) (regs (mem (started s1)))
      \/ answered_call function ax data (mem (started s1)) (mem t) /\ ready g' (released t)));
      [|intros [] t Ht; exact Ht].
    pose proof (call_find_ok function g g' ax data ext (started s1) Hr2 Hs Hh Hl Hax) as Hcall.
    destruct Hf as [[-> _]|[-> _]]; exact Hcall.
  - intros [] t Ht. eapply ensures_step; [reflexivity|]. eapply ensures_now; [reflexivity|].
    set (r0 := regs (mem (started s1))) in *. unfold id.
    destruct Ht as [[Hna Ht]|[Ht Hrt]]; [left|right].
    + rewrite Ht. destruct (carry_cleared (no_answer function) r0) as (_ & -> & ->). by split_and!.
    + split; [done|]. unfold answered_call in Ht. unfold ax, data in Ht. destruct r as [[n e]|].
      * destruct Hn as [Hw Hn]. destruct (found_reply e h (S n) Hw Hh16 Hn) as (Ee & _ & _ & El).
        rewrite El in Ht. cbn [Z.eqb Pos.eqb andb] in Ht. rewrite Ht.
        change (regs (found _ _ _)) with (with_success (regs (mem s1))).
        change (found_file (found _ _ _)) with (found_entry (find_reply e h (S n))).
        destruct (carry_cleared 0 (regs (mem s1))) as (-> & _). by rewrite Ee.
      * cbn [Z.eqb Pos.eqb andb] in Ht. fold r0 in Ht. rewrite Ht.
        destruct (carry_cleared DOS_EXTERR_NO_MORE_FILES r0) as (_ & -> & ->). done.
Qed.

(** *** The whole search *)

(** The search record holds what the next request repeats. *)
Definition continues (function : Z) (d : dos) (attr : Z) (mask : fcb_file_name) : Prop :=
  if function =? INT2F_FIND_FIRST
  then sda_srch_attr d = attr /\ get_dos_fn_from_full_path (fn1 d) = mask
  else srch_attr (search d) = attr /\ srch_tmpl (search d) = mask.

Lemma next_args function d d' attr mask e h n : continues function d attr mask ->
  is_byte attr -> fcb_wf mask -> fcb_wf (Files.fcb_name e) -> Z.of_nat h < 2 ^ 16 -> Z.of_nat n < 2 ^ 16 ->
  search d' = updated_search function reqdrv (find_reply e h n) d ->
  call_args INT2F_FIND_NEXT d' = next_request (find_reply e h n) attr mask
  /\ sendable INT2F_FIND_NEXT d' /\ continues INT2F_FIND_NEXT d' attr mask.
Proof.
  intros Hc Ha Hm Hw Hh Hn Hd. destruct (found_reply e h n Hw Hh Hn) as (_ & Eh & En & _).
  assert (search d' = mkSearch (srch_drive_no (search d')) mask attr (Z.of_nat n) (Z.of_nat h)) as E.
  { rewrite Hd. unfold updated_search, continues in *.
    by destruct (function =? INT2F_FIND_FIRST); destruct Hc as [-> ->]; cbn [srch_drive_no]; rewrite Eh, En. }
  assert (zlen (find_next_args (search d')) = 16) as L.
  { rewrite E. unfold find_next_args. cbn [srch_tmpl]. destruct Hm as [H1 H2].
    rewrite !length_app, H1, H2. done. }
  split; [|split; [|unfold continues; cbn [Z.eqb Pos.eqb]; by rewrite E]].
  - unfold call_args. cbn [Z.eqb Pos.eqb]. rewrite E. unfold find_next_args, next_request.
    cbn [srch_cluster srch_dir_entry_no srch_attr srch_tmpl].
    destruct (find_reply_split e h n Hw) as [-> Hl]. rewrite drop_app_length' by done.
    rewrite take_ge by (rewrite length_app, !put16_length; lia).
    rewrite !put16_le, !u16_id by (unfold is_u16; lia). unfold put8, fcb_bytes. rewrite u8_id by done.
    by rewrite <- !app_assoc.
  - split; [by right|]. unfold call_args. cbn [Z.eqb Pos.eqb]. lia.
Qed.

(** How a search ends. *)
Definition search_end (all : list dos_directory_entry) (function : Z) (es : list dos_directory_entry) s : Prop :=
  es = all /\ r_ax (regs (mem s)) = DOS_EXTERR_NO_MORE_FILES
  \/ ~ answering /\ es `prefix_of` all
     /\ r_ax (regs (mem s)) = match es with [] => no_answer function | _ => DOS_EXTERR_NO_MORE_FILES end.

Definition matching (mask : fcb_file_name) (attr : Z) (dl : list DosFileProperties) : list dos_directory_entry :=
  seen <$> filter (fun e => entry_matches mask attr e = true) dl.

Lemma dos_search_ok calls h attr mask i before rest function g0 g s : fcb_wf mask ->
  is_byte attr -> attr <> FAT_VOLUME -> continues function (mem s) attr mask ->
  ready g0 s -> sendable function (mem s) ->
  search_handler function (call_args function (mem s)) g0
  = (Ok (search_reply h (find_entry mask attr (length before) rest)), g) ->
  items (drive g) !! h = Some i -> item_path i <> [] -> Z.of_nat h < 2 ^ 16 ->
  zlen (directory_list i) < 2 ^ 16 -> Forall (fun e => fcb_wf (Files.fcb_name e)) (directory_list i) ->
  directory_list i = before ++ rest -> (length rest < calls)%nat ->
  ensures (fun fuel => dos_search fuel calls function) s (search_end (matching mask attr rest) function).
Proof.
  intros Hm Hb Ha Hc Hr Hs Hreply Hi Hp Hh Hlen Hw. revert before rest function g0 s Hc Hr Hs Hreply.
  induction calls as [|calls IH]; intros before rest function g0 s Hc Hr Hs Hreply Hd Hf; [lia|].
  pose proof (find_entry_spec mask attr (length before) rest) as F. unfold matching. cbn [dos_search].
  destruct (find_entry mask attr (length before) rest) as [[k e]|] eqn:Efe.
  2: { eapply ensures_bind; [by eapply (search_call_ok function g0 g h None)|].
       rewrite F. intros e t [(Hna & -> & Hx)|(_ & -> & Hx)]; eapply ensures_now; [done| |done|].
       - by right.
       - by left. }
  destruct F as (skipped & after & -> & -> & Hfil).
  set (k := (length before + length skipped)%nat) in *.
  assert (directory_list i = (before ++ skipped ++ [e]) ++ after) as Hd'
    by (by rewrite Hd, <- !app_assoc).
  assert (length (before ++ skipped ++ [e]) = S k) as Hk
    by (rewrite !length_app; simpl; unfold k; lia).
  assert (fcb_wf (Files.fcb_name e)) as He.
  { rewrite Hd' in Hw. apply Forall_app in Hw as [[_ [_ Hw]%Forall_app]%Forall_app _].
    exact (Forall_inv Hw). }
  assert (Z.of_nat (S k) < 2 ^ 16) as Hk2 by (rewrite Hd', length_app, Hk in Hlen; lia).
  rewrite Hfil, fmap_cons.
  eapply ensures_bind; [by eapply (search_call_ok function g0 g h (Some (k, e)))|].
  intros found t [(Hna & -> & Hx)|(Hrt & -> & Hx)].
  { eapply ensures_now; [done|]. right. split_and!; [done|apply prefix_nil|done]. }
  destruct (next_args _ _ (mem t) _ _ e h (S k) Hc Hb Hm He Hh Hk2 Hx) as (En & Hs' & Hc').
  eapply ensures_bind.
  - apply (IH (before ++ skipped ++ [e]) after INT2F_FIND_NEXT g t Hc' Hrt Hs').
    + rewrite En. unfold search_handler. cbn [Z.eqb Pos.eqb].
      rewrite (handle_find_next_eq tmap e h k attr mask g i); try done;
        [|rewrite Hd; by destruct before, skipped].
      by rewrite Hd', <- Hk, drop_app_length.
    + done.
    + rewrite length_app in Hf. simpl in Hf. lia.
  - intros es u Hu. eapply ensures_now; [done|].
    destruct Hu as [[-> Hx']|(Hna & Hpre & Hx')]; [by left|right].
    split_and!; [done|by apply prefix_cons|]. rewrite Hx'. by destruct es.
Qed.

End Searching.

(** ** A server that answers at once *)

(** It handles the requests of searches; ARP packets have 42 bytes. *)
Definition find_answer (f : bytes) (g : st MemFs.mem) : list bytes * st MemFs.mem :=
  if zlen f <=? 42 then ([], g)
  else match search_handler ∅ (byte_at f 49) (drop 50 f) g with
       | (Ok (Reply ax data _), g) => ([server_frame (reply_message (byte_at f 47) ax data)], g)
       | (_, g) => ([], g)
       end.

#[local] Instance find_wire : Wire (serving (st MemFs.mem)) := serving_wire find_answer.
#[local] Instance find_timer : Timer := counting.

Definition serves (g : st MemFs.mem) (s : pc (serving (st MemFs.mem))) : Prop := idle s /\ behind (wire s) = g.

Lemma find_served uninit fuel function args g g' ax data ext s len out s' :
  serves g s -> search_request 2 function args s ->
  search_handler ∅ function args g = (Ok (Reply ax data ext), g') -> zlen data <= 24 -> is_u16 ax ->
  sent_request uninit 2 fuel function args s = Done ((len, out), s') ->
  len = zlen data /\ reply_ax out = ax /\ take (length data) (reply_data out) = data
  /\ serves g' (released s').
Proof.
  intros [HI Hg] [Hf Hfit Hsz Ha] Hh Hl Hax E. unfold sent_request in E.
  apply (server_answers _ fuel function (zlen args) _ ax data g') in E; [|done|lia|lia|done|lia|].
  - destruct E as (El & Ex & (tl & Ed) & HI' & Hst). cbn [fst snd] in *.
    split_and!; [done|done| |by split]. by rewrite Ed, take_app_length.
  - destruct (request_frame function 2 0 args (cl s) (fit_buffers _ _ Hfit) ltac:(lia) Ha)
      as (pre & Lp & E47 & E49 & Ef).
    cbn [flag_ext_features]. rewrite Ef, Hg. unfold find_answer.
    assert ((zlen (pre ++ args) <=? 42) = false) as -> by (apply Z.leb_gt; rewrite length_app, Lp; lia).
    rewrite !byte_at_app_l by lia. rewrite E47, E49, drop_app_length' by done.
    assert (u8 function = function) as -> by (by destruct Hf as [-> | ->]). by rewrite Hh.
Qed.

#[export] Instance find_service uninit : DirService ∅ uninit 2 serves.
Proof.
  split.
  - intros g s s' [[Hq Hr (ip & port & b & e & Hs) Hd] Hg] [_ Ew (e' & Es) _ El _ _ Ed _] _.
    split; [split|]; try congruence. exists ip, port, b, e'. by rewrite Es, Hs.
  - intros fuel function args g g' ax data ext s len out s' H1 H2 H3 H4 H5 E. right.
    by eapply find_served.
Qed.

Lemma serves_answering uninit : answering ∅ uninit 2 serves.
Proof.
  intros fuel function args g g' ax data ext s len out s' H1 H2 H3 H4 H5 E.
  destruct (find_served _ _ _ _ _ _ _ _ _ _ _ _ _ H1 H2 H3 H4 H5 E) as (-> & _). lia.
Qed.

(** *** Listing drive C of the sample server *)

Definition listing_dos : dos :=
  mkDos (mkRegs 0x111B 0 0 0 0 0 0) (str "C:\????????.???" ++ [0; 0xFF]) [] [] 0x16 0 0
    (mkDirEntry no_name 0 0 0 0 0) 0 [] []
    (mkSft 1 0 0 0x8042 0 7 0 100 0 0 0 0xFF no_name) (mkSearch 0 no_name 0 0 0)
    (mkDirEntry no_name 0 0 0 0 0).
Definition listing_pc : pc (serving (st MemFs.mem)) :=
  mkPc 0 (client_with file_drive) listing_dos (mkServing false [] sample_state).

Lemma listing_path : dos_path (fn1 listing_dos) (str "\????????.???") (str "????????.???").
Proof.
  split; [exists CH_C, [], CH_BACKSLASH; by split_and!| | |intros rest E; discriminate E];
    repeat (constructor; [done|]); constructor.
Qed.

Lemma listing_ready : ready 2 serves sample_state listing_pc.
Proof.
  split; [|exact file_client_fit|reflexivity]. split; [|reflexivity].
  split; try reflexivity. by eexists 0, 0, 0, _.
Qed.


(** The calls one after the other: two entries and the error that ends them. *)
Example listing_run :
  match dos_search no_results 10 5 INT2F_FIND_FIRST listing_pc with
  | Done (es, s) => (de_name <$> es, r_ax (regs (mem s)))
  | _ => ([], 0)
  end = ([mkFcb (str "README  ") (str "TXT"); mkFcb (str "SUB     ") (str "   ")], 18).
Proof. vm_compute. reflexivity. Qed.
