(* ===== verification/Dispatch.v ===== *)
(** * Dispatch: which calls of DOS the client takes

    The INT 2Fh handler takes the calls for the drives that are mounted; its
    table of functions has a gap. *)
From S2P Require Import Prelude Words Checksum Fcb Paths FatTime Host Attrs Unicode Files Protocol.
From S2P Require Import Resident Network Redirector NetworkSpec.

(** ** Drive letters *)

Definition letter_of (c drive : Z) : Prop := c = CH_A + drive \/ c = CH_a + drive.

(** A byte has a drive number below 26 just when it is a letter. *)
Lemma drive_to_num_letter c r : is_byte c -> 0 <= r < 26 -> drive_to_num c = r <-> letter_of c r.
Proof.
  intros Hc Hr. assert (forall x, 0 <= x < 256 ->
    (let n := drive_to_num x in
     if n <? 26 then (0 <=? n) && ((x =? CH_A + n) || (x =? CH_a + n))
     else negb ((CH_A <=? x) && (x <=? CH_Z)) && negb ((CH_a <=? x) && (x <=? CH_z))) = true) as H.
  { apply by_enum. vm_compute. reflexivity. }
  specialize (H c Hc). cbv zeta in H. unfold letter_of.
  destruct (Z.ltb_spec (drive_to_num c) 26); lia.
Qed.

(** ** Calls with a path *)

(** The functions that work on the path in the swappable data area. *)
Definition path_calls : list Z :=
  [INT2F_REMOVE_DIR; INT2F_MAKE_DIR; INT2F_CHANGE_DIR; INT2F_SET_ATTRS; INT2F_GET_ATTRS;
   INT2F_RENAME_FILE; INT2F_DELETE_FILE; INT2F_OPEN_FILE; INT2F_CREATE_FILE;
   INT2F_EXTENDED_OPEN_CREATE_FILE].

(** The drive is mounted. *)
Definition mounted (sh : shared_data) (drive : Z) : Prop :=
  0 <= drive < 26 /\ nth (Z.to_nat drive) (drive_map sh) 0xFF <> 0xFF.

(** C18: a redirector call with a path is taken just when the path begins with
    the letter, in upper or lower case, of a mounted drive, and then for that
    drive, whatever the table of functions is followed by in memory; but for
    EXTENDED_OPEN_CREATE_FILE, whose entry is missing: that call is taken only
    if in addition the third byte behind the table is not 0xFF.  (The multiplex
    id of the client is never 0x11.) *)
Theorem path_call_taken behind cds sdb mux al bx sh d r : mux <> 0x11 -> al ∈ path_calls ->
  is_byte (byte_at (fn1 d) 0) ->
  int2F_redirector behind cds sdb mux (0x1100 + al) bx sh d = OurHandler r
  <-> mounted sh r /\ letter_of (byte_at (fn1 d) 0) r
      /\ (al = INT2F_EXTENDED_OPEN_CREATE_FILE -> behind 2%nat <> INT2F_UNUSED).
Proof.
  intros Hmux Hal Hc. unfold int2F_redirector.
  assert (u8 (Z.shiftr (0x1100 + al) 8) = 0x11 /\ u8 (0x1100 + al) = al /\ al <> 0
          /\ requested_drive cds sdb al d = drive_to_num (byte_at (fn1 d) 0)
          /\ function_supported behind al
             = negb (al =? INT2F_EXTENDED_OPEN_CREATE_FILE) || negb (behind 2%nat =? INT2F_UNUSED))
    as (-> & -> & Hz & -> & ->).
  { apply list_elem_of_In in Hal. repeat destruct Hal as [<-|Hal]; done. }
  rewrite (proj2 (Z.eqb_neq 0x11 mux)), (proj2 (Z.eqb_neq al 0)) by done.
  cbn [Z.eqb Pos.eqb negb orb]. set (n := drive_to_num _).
  assert (forall r, 0 <= r < 26 -> n = r <-> letter_of (byte_at (fn1 d) 0) r) as Hn
    by (intros; by apply drive_to_num_letter).
  assert (0 <= n) as H0 by (unfold n, drive_to_num; case_match; apply u8_range).
  destruct (Z.eqb_spec al INT2F_EXTENDED_OPEN_CREATE_FILE) as [Hext|Hext]; cbn [negb orb];
    [destruct (Z.eqb_spec (behind 2%nat) INT2F_UNUSED) as [Hb|Hb]; cbn [negb];
      [by split; [|intros (_ & _ & []%(fun f => f Hext Hb))]|]|].
  all: unfold mounted; destruct (Z.ltb_spec n 26); cbn [negb orb].
  all: try (split; [done|]; intros ([Hr _] & Hl & _); apply Hn in Hl; [|done]; lia).
  all: destruct (Z.eqb_spec (nth (Z.to_nat n) (drive_map sh) 0xFF) 0xFF) as [E|E]; split.
  all: try done.
  all: try (intros ([Hr Hm] & Hl & _); by apply Hn in Hl as <-).
  all: intros [= <-]; split; [done|]; split; [by apply Hn|done].
Qed.

Lemma path_call_taken_witness :
  int2F_redirector (fun _ => 0) 0 0 0xC0 0x1103 0 sample_shared (set_regs (regs sample_dos) sample_dos)
  = PrevHandler
  /\ exists d, fn1 d = str "c:\new"
     /\ int2F_redirector (fun _ => 0) 0 0 0xC0 (0x1100 + INT2F_MAKE_DIR) 0 sample_shared d = OurHandler 2.
Proof.
  split; [vm_compute; reflexivity|].
  exists (mkDos (regs sample_dos) (str "c:\new") [] [] 0 0 0 (found_file sample_dos) 0 [] []
    (sft sample_dos) (search sample_dos) (entry_behind sample_dos)). split; [reflexivity|].
  apply path_call_taken; [discriminate|right; left|split; [discriminate|reflexivity]|].
  split; [split; [split; [discriminate|reflexivity]|vm_compute; discriminate]|].
  split; [right; reflexivity|discriminate].
Defined.

(** ** The gap in the table *)

Section Gap.
Context {N : Type} `{WIRE : !Wire N, TIMER : !Timer}.

(** The functions the switch has a case for. *)
Definition handled_calls : list Z :=
  path_calls ++ [INT2F_CLOSE_FILE; INT2F_COMMIT_FILE; INT2F_READ_FILE; INT2F_WRITE_FILE;
    INT2F_LOCK_UNLOCK_FILE; INT2F_UNLOCK_FILE; INT2F_DISK_INFO; INT2F_DISK_INFO_LARGE;
    INT2F_FIND_FIRST; INT2F_FIND_NEXT; INT2F_SEEK_FROM_END; INT2F_EXTENDED_ATTRS].

(** What lies behind the table matters for three functions only. *)
Lemma supported_behind b1 b2 al : 0 <= al -> al <= 0x2B \/ 0x2E < al ->
  function_supported b1 al = function_supported b2 al.
Proof.
  intros H0 Ha. unfold function_supported. destruct (Z.ltb_spec 0x2E al); [done|].
  unfold supported_entry. destruct (lookup_lt_is_Some_2 supported_functions_table (Z.to_nat al)) as [x ->];
    [simpl; lia|done].
Qed.

(** Up to 0x29 and above 0x2E the functions taken are those the switch
    handles; but 0x2A and 0x2B are taken as well, and answered with success
    although nothing was done and nothing sent. *)
Theorem table_gap behind fuel uninit al : is_byte al -> al <> 0 ->
  (al <= 0x29 \/ 0x2E < al ->
   function_supported behind al = existsb (Z.eqb al) handled_calls)
  /\ (al = 0x2A \/ al = 0x2B ->
      function_supported behind al = true
      /\ forall s : pc N, u8 (r_ax (regs (mem s))) = al ->
         exists c, handle_request_for_our_drive fuel uninit s
                   = Done (tt, mkPc (ticks s) c (set_regs (with_success (regs (mem s))) (mem s)) (wire s))).
Proof.
  intros Hal Hz. split.
  - intros Hr. rewrite (supported_behind behind (fun _ => 0)) by (unfold is_byte in Hal; lia).
    assert (forall x, 0 <= x < 256 ->
      (x =? 0) || ((0x29 <? x) && (x <=? 0x2E))
      || Bool.eqb (function_supported (fun _ => 0) x) (existsb (Z.eqb x) handled_calls) = true) as H
      by (apply by_enum; vm_compute; reflexivity).
    specialize (H al Hal). apply orb_true_iff in H as [H|H]; [lia|]. by apply eqb_prop.
  - intros Hr. split; [by destruct Hr as [-> | ->]|]. intros s Hs.
    unfold handle_request_for_our_drive, andthen, get_dos, reads, writes, set_success, upd_regs, upd_client.
    rewrite Hs. eexists. by destruct Hr as [-> | ->].
Qed.

End Gap.
(** Function 0x2A on drive C. *)
Definition gap_dos : dos := set_regs (mkRegs 0x112A 0 0 0 0 0 1) sample_dos.

Lemma table_gap_witness :
  existsb (Z.eqb 0x2A) handled_calls = false
  /\ function_supported (fun _ => 0) 0x2A = true
  /\ exists s', @handle_request_for_our_drive _ (scripted (fun _ => [])) counting 1 (mkResults [] 0 0)
       (mkPc 0 sample_client gap_dos (mkScript true [])) = Done (tt, s')
       /\ r_flags (regs (mem s')) = 0.
Proof.
  split; [vm_compute; reflexivity|].
  destruct (@table_gap script (scripted (fun _ => [])) counting (fun _ => 0) 1 (mkResults [] 0 0) 0x2A)
    as [_ H]; [split; [discriminate|reflexivity]|discriminate|].
  destruct (H (or_introl eq_refl)) as [Hs Hd]. split; [exact Hs|].
  destruct (Hd (mkPc 0 sample_client gap_dos (mkScript true [])) eq_refl) as [c E].
  eexists. split; [exact E|reflexivity].
Defined.
