(* ===== verification/WriteThrough.v ===== *)
(** * WriteThrough: writing a file in chunks

    The client splits a write into chunks that fit a frame and drops its read
    buffer when the write overlaps it.  Against any service that stores the
    data of a WRITE_FILE ([FileSink], a promise of the server and the network),
    a write puts a prefix of the caller's data into the file at the position of
    the handle, all of it unless the server writes less or reports an error,
    and the read buffer agrees with the changed file. *)
From S2P Require Import Prelude Words Checksum Fcb Paths FatTime Host Attrs Unicode Files Protocol.
From S2P Require Import Resident Network NetworkInv NetworkSpec Redirector ReadAhead FileServer.

(** ** Files as lists of bytes *)

(** A file with [d] at position [p]; a gap is filled with zeros. *)
Definition extended (p : nat) (c : bytes) : bytes := c ++ replicate (p - length c) 0.
Definition overwrite (p : nat) (d c : bytes) : bytes :=
  match d with
  | [] => c
  | _ => take p (extended p c) ++ d ++ drop (p + length d) c
  end.
Definition resized (p : nat) (c : bytes) : bytes := take p (extended p c).

(** What a write of [data] at [offset] leaves when [w] bytes were written; an
    empty one sets the size. *)
Definition effect (offset : Z) (data : bytes) (w : Z) (c : bytes) : bytes :=
  match data with
  | [] => resized (Z.to_nat offset) c
  | _ => overwrite (Z.to_nat offset) (take (Z.to_nat w) data) c
  end.

Lemma extended_length p c : (p <= length (extended p c))%nat.
Proof. unfold extended. rewrite length_app, length_replicate. lia. Qed.

Lemma extended_id p c : (p <= length c)%nat -> extended p c = c.
Proof. intros H. unfold extended. replace (p - length c)%nat with 0%nat by lia. apply app_nil_r. Qed.

Lemma overwrite_ne p d c : d <> [] -> overwrite p d c = take p (extended p c) ++ d ++ drop (p + length d) c.
Proof. by destruct d. Qed.

(** Two writes, one behind the other, are one write. *)
Lemma overwrite_app p a b c : overwrite (p + length a) b (overwrite p a c) = overwrite p (a ++ b) c.
Proof.
  destruct (decide (a = [])) as [->|Ha]; [by rewrite Nat.add_0_r|].
  destruct (decide (b = [])) as [->|Hb]; [by rewrite app_nil_r|].
  rewrite (overwrite_ne p a), (overwrite_ne _ b), (overwrite_ne p (a ++ b)) by (try done; by destruct a).
  pose proof (extended_length p c) as Hl. set (h := take p (extended p c)).
  assert (length h = p) as Lh by (unfold h; rewrite length_take; lia).
  rewrite extended_id by (rewrite !length_app; lia).
  rewrite (app_assoc h a), take_app_length' by (rewrite length_app; lia).
  rewrite drop_app_ge by (rewrite length_app; lia). rewrite drop_drop, <- !app_assoc. do 3 f_equal.
  f_equal. rewrite !length_app. lia.
Qed.

(** A part of the file the write does not reach. *)
Lemma slice_overwrite p d c off n : 0 <= p -> 0 <= off -> 0 <= n -> off + n <= zlen c ->
  off + n <= p \/ p + zlen d <= off ->
  slice (overwrite (Z.to_nat p) d c) off n = slice c off n.
Proof.
  intros Hp Ho Hn Hc Hd. destruct (decide (d = [])) as [->|Hne]; [done|].
  rewrite overwrite_ne by done. unfold slice. pose proof (extended_length (Z.to_nat p) c) as Hl.
  set (h := take (Z.to_nat p) _). assert (length h = Z.to_nat p) as Lh by (unfold h; rewrite length_take; lia).
  destruct Hd as [Hd|Hd].
  - rewrite drop_app_le by lia. rewrite take_app_le by (rewrite length_drop; lia).
    unfold h, extended. rewrite skipn_firstn_comm, take_take.
    rewrite drop_app_le by lia. rewrite take_app_le by (rewrite length_drop; lia). f_equal. lia.
  - rewrite drop_app_ge by lia. rewrite drop_app_ge by lia. rewrite drop_drop. do 2 f_equal. lia.
Qed.

Lemma overwrite_size p d c : zlen c <= zlen (overwrite p d c).
Proof.
  destruct (decide (d = [])) as [->|Hne]; [done|]. rewrite overwrite_ne by done.
  rewrite !length_app, length_take, length_drop. pose proof (extended_length p c). lia.
Qed.

Lemma slice_resized p c off n : 0 <= off -> 0 <= n -> off + n <= zlen c -> off + n <= p ->
  slice (resized (Z.to_nat p) c) off n = slice c off n /\ off + n <= zlen (resized (Z.to_nat p) c).
Proof.
  intros Ho Hn Hc Hp. unfold slice, resized, extended. split.
  - rewrite skipn_firstn_comm, take_take, drop_app_le by lia.
    rewrite take_app_le by (rewrite length_drop; lia). f_equal. lia.
  - rewrite length_take, length_app, length_replicate. lia.
Qed.

(** ** The service *)

Section Writing.
Context {N : Type} `{WIRE : !Wire N, TIMER : !Timer, LAWS : !WireLaws N, TL : !TimerLaws}.
Context (uninit : results) (reqdrv cluster : Z).
(** [short offset data w]: the server may store only [w] bytes of [data] at
    [offset] and say so; [faulty]: a request may fail. *)
Context (short : Z -> bytes -> Z -> Prop) (faulty : Prop).
Implicit Types (s : pc N) (c : bytes).

Definition writef_args (offset : Z) : bytes := le32_bytes offset ++ le16_bytes cluster.

(** What the server and the network promise: in the states [Inv c], between two
    requests with the file at [c], a WRITE_FILE answered without an error has
    stored as many bytes as it says, all of them or as few as [short] allows;
    if it fails, which only a [faulty] service does, the file is as it was or
    as a part of the data left it. *)
Class FileSink (Inv : bytes -> pc N -> Prop) := {
  sink_local : forall c s s', Inv c s -> dos_step s s' -> buffers_ok (cl s') -> Inv c s';
  sink_write : forall fuel c s offset data len out s',
    Inv c s -> buffers_ok (cl s) -> is_u32 offset -> zlen data <= 1458 ->
    args_at (writef_args offset ++ data) (cl s) ->
    send_request fuel INT2F_WRITE_FILE reqdrv (zlen data + 6)
      (mkResults (reply_data uninit) (reply_ax uninit) 0) s = Done ((len, out), s') ->
    exists w, 0 <= w <= zlen data
    /\ ((reply_ax out = 0 /\ len = 2 /\ le16 (reply_data out) 0 = w
         /\ (w = zlen data \/ short offset data w)
         /\ Inv (effect offset data w c) (released s'))
        \/ (faulty /\ (len = NETWORK_ERROR \/ reply_ax out <> 0)
            /\ (Inv c (released s') \/ Inv (effect offset data w c) (released s'))));
}.

Context (Inv : bytes -> pc N -> Prop) `{SINK : !FileSink Inv}.

(** *** The read buffer *)

(** The buffer after the test for an overlap. *)
Definition kept_buffer (b : file_buffer) (f : dos_sft) (cx : Z) : file_buffer :=
  if write_overlaps b reqdrv f cx then set_valid_bytes 0 b else b.

Lemma kept_buffer_ok b f cx D c : buffer_ok reqdrv cluster c b -> sft_start_cluster f = cluster ->
  0 <= file_pos f -> 0 <= cx -> file_pos f + cx < 2 ^ 32 -> zlen c < 2 ^ 32 -> zlen D = cx ->
  buffer_ok reqdrv cluster c (kept_buffer b f cx)
  /\ forall w, 0 <= w <= cx -> buffer_ok reqdrv cluster (effect (file_pos f) D w c) (kept_buffer b f cx).
Proof.
  intros [Hs Hv Ha] Hcl Hp Hcx Hw Hc HD. unfold kept_buffer.
  destruct (write_overlaps b reqdrv f cx) eqn:E.
  { split; [|intros w _]; (split; cbn [fb_data valid_bytes set_valid_bytes]; [done|lia|lia]). }
  split; [done|]. intros w Hww. split; [done|done|]. intros Hpos Hdr Hcl'.
  destruct (Ha Hpos Hdr Hcl') as (Ho & Hend & Ht). rewrite Ht.
  unfold write_overlaps in E.
  rewrite (proj2 (Z.ltb_lt 0 _) Hpos), (proj2 (Z.eqb_eq _ _) Hdr), Hcl', Hcl, Z.eqb_refl in E.
  rewrite !u32_id in E by (unfold is_u32; lia). cbn [andb] in E.
  unfold effect. destruct D as [|x D].
  - assert (cx = 0) as -> by (simpl in HD; lia). cbn [Z.eqb orb] in E. rewrite andb_true_r in E.
    apply Z.ltb_ge in E. destruct (slice_resized (file_pos f) c (fb_offset b) (valid_bytes b))
      as [-> Hl]; [lia..|]. by split_and!.
  - set (d := take (Z.to_nat w) (x :: D)).
    assert (zlen d <= cx) as Hd by (unfold d; rewrite length_take; lia).
    pose proof (overwrite_size (Z.to_nat (file_pos f)) d c).
    rewrite slice_overwrite; [split_and!; [done|lia|done]|lia..|].
    apply andb_false_iff in E as [E%Z.ltb_ge|E]; [by left|right].
    apply orb_false_iff in E as [_ E%Z.ltb_ge]. lia.
Qed.

(** *** A WRITE_FILE request *)

Lemma write_at_after (n : nat) (a b l : bytes) : (n <= length l)%nat ->
  write_at (n + length a) b (write_at n a l) = write_at n (a ++ b) l.
Proof.
  intros Hn. unfold write_at. assert (length (take n l) = n) as L by (rewrite length_take; lia).
  rewrite (app_assoc (take n l) a), take_app_length' by (rewrite length_app; lia).
  rewrite drop_app_ge by (rewrite length_app; lia). rewrite drop_drop, <- !app_assoc.
  do 3 f_equal. f_equal. rewrite !length_app. lia.
Qed.

Lemma put_more_args a data s : buffers_ok (cl s) -> zlen a + zlen data <= 1468 ->
  put_args (zlen a) data (with_args a s) = Done (tt, with_args (a ++ data) s).
Proof.
  intros Hb Hl. destruct (with_args_ok a s Hb ltac:(lia)) as [Hb1 _].
  unfold put_args. rewrite (send_buff_size _ Hb1), Nat2Z.id.
  destruct (Z.leb_spec (Z.of_nat DRIVE_DATA_OFFSET + zlen a + zlen data) MAX_FRAMESIZE); [|lia].
  unfold with_args. cbn [send_buff cl set_cl set_send_buff].
  rewrite write_at_after by (pose proof (send_buff_size _ Hb); lia). done.
Qed.

(** What a request brings about: [r] is an answer, or there is an error. *)
Record write_result c offset data s (r : Z * results) s' : Prop := {
  wr_undisturbed : undisturbed s s';
  wr_stored : exists w, 0 <= w <= zlen data
    /\ ((r.1 = 2 /\ reply_ax r.2 = 0 /\ le16 (reply_data r.2) 0 = w
         /\ (w = zlen data \/ short offset data w)
         /\ Inv (effect offset data w c) (released s'))
        \/ (faulty /\ (r.1 = NETWORK_ERROR \/ r.1 <> NETWORK_ERROR /\ reply_ax r.2 <> 0)
            /\ (Inv c (released s') \/ Inv (effect offset data w c) (released s'))));
}.

Lemma write_request c s offset data : Inv c s -> client_fit reqdrv (cl s) -> is_u32 offset ->
  zlen data + 42 <= interface_mtu (shared (cl s)) -> args_at (writef_args offset ++ data) (cl s) ->
  ensures (fun fuel => request fuel uninit INT2F_WRITE_FILE reqdrv (zlen data + 6)) s
    (write_result c offset data s).
Proof.
  intros HI Hfit Ho Hn Ha. pose proof (fit_mtu _ _ Hfit) as Hmtu. unfold request.
  rewrite u16_id by (unfold is_u16; lia).
  destruct (send_request_ends INT2F_WRITE_FILE reqdrv (zlen data + 6)
    (mkResults (reply_data uninit) (reply_ax uninit) 0) s (fit_timeouts _ _ Hfit)) as (k & [[len out] s'] & Hk).
  exists (len, out), s'. split; [by exists k|]. specialize (Hk k (le_n k)).
  pose proof Hk as E. eapply sink_write in E as (w & Hw & Hr); [|done|apply Hfit|done|lia|done].
  apply (send_request_result (fun _ => True) (fun _ _ => True) (fun _ => True)) in Hk as [Haw _];
    [|done..|split; [done|apply Hfit|done]|].
  2: { unfold fits, frame_length_of. rewrite (u16_id (_ + (zlen data + 6))) by (unfold is_u16; lia).
       rewrite u16_id by (unfold is_u16; lia). lia. }
  split; [apply Haw|]. exists w. split; [done|]. cbn [fst snd].
  destruct Hr as [(Hx & Hl & Hv & Hsh & HI')|(Hfa & He & Hs)]; [by left|right]. split; [done|]. split; [|done].
  destruct (decide (len = NETWORK_ERROR)); [by left|right]. destruct He; [done|]. done.
Qed.

(** *** What DOS sees *)

(** After [w] bytes: the count in CX, the position and the size. *)
Definition wrote (w : Z) (d : dos) : dos :=
  set_sft (advance w (sft d)) (set_regs (set_r_cx w (regs d)) d).
(** Before the first chunk nothing has changed. *)
Definition moved (t : Z) (d : dos) : dos := if t =? 0 then d else wrote t d.

Lemma advance_advance a b f : 0 <= file_pos f -> 0 <= a -> 0 <= b -> file_pos f + a + b < 2 ^ 32 ->
  advance b (advance a f) = advance (a + b) f.
Proof.
  intros Hp Ha Hb Hw. destruct f as [f1 f2 f3 f4 f5 f6 f7 size pos f10 f11 f12 f13].
  cbn [file_pos] in Hp, Hw. unfold advance. cbn [file_pos sft_file_size set_file_pos set_sft_size].
  rewrite !u32_id by (unfold is_u32; lia). rewrite (Z.add_assoc pos a b).
  destruct (Z.ltb_spec size (pos + a)); cbn [file_pos sft_file_size set_file_pos set_sft_size];
    rewrite !u32_id by (unfold is_u32; lia); destruct (Z.ltb_spec size (pos + a + b)); try lia;
    repeat match goal with |- context [?x <? ?y] => destruct (Z.ltb_spec x y); try lia end;
    try done; unfold set_sft_size, set_file_pos; simpl; f_equal; lia.
Qed.

Lemma wrote_moved t w d : 0 <= file_pos (sft d) -> 0 <= t -> 0 <= w -> file_pos (sft d) + t + w < 2 ^ 32 ->
  set_sft (advance w (sft (moved t d))) (set_regs (set_r_cx (t + w) (regs (moved t d))) (moved t d))
  = wrote (t + w) d.
Proof.
  intros Hp Ht Hw Hb. unfold moved. destruct (Z.eqb_spec t 0) as [->|]; [done|].
  unfold wrote. cbn [sft regs set_sft set_regs]. by rewrite advance_advance.
Qed.

(** *** Chunk by chunk *)

Lemma chunk_effect p t w chunk cx (dt c : bytes) : 0 <= p -> 0 <= t -> 0 <= w <= chunk -> chunk <= cx - t ->
  cx <= zlen dt -> 0 < chunk \/ cx = 0 ->
  effect (p + t) (take (Z.to_nat chunk) (drop (Z.to_nat t) dt)) w
    (overwrite (Z.to_nat p) (take (Z.to_nat t) (take (Z.to_nat cx) dt)) c)
  = effect p (take (Z.to_nat cx) dt) (t + w) c.
Proof.
  intros Hp Ht Hw Hc Hcx Hch. destruct (Z.eq_dec cx 0) as [->|].
  { replace t with 0 by lia. replace chunk with 0 by lia. by rewrite Z.add_0_r. }
  set (data := take (Z.to_nat chunk) (drop (Z.to_nat t) dt)). set (D := take (Z.to_nat cx) dt).
  assert (zlen data = chunk) as Ld by (unfold data; rewrite length_take, length_drop; lia).
  assert (zlen D = cx) as LD by (unfold D; rewrite length_take; lia).
  assert (forall off v l c, l <> [] -> effect off l v c = overwrite (Z.to_nat off) (take (Z.to_nat v) l) c)
    as He by (intros ? ? [] ? ?; done).
  rewrite (He _ _ data), (He _ _ D) by (intros E; rewrite E in *; simpl in *; lia).
  set (a := take (Z.to_nat t) D). assert (zlen a = t) as La by (unfold a; rewrite length_take; lia).
  replace (Z.to_nat (p + t)) with (Z.to_nat p + length a)%nat by lia. rewrite overwrite_app. f_equal.
  unfold a, data, D. rewrite !take_take. replace (Z.to_nat t `min` Z.to_nat cx)%nat with (Z.to_nat t) by lia.
  replace (Z.to_nat w `min` Z.to_nat chunk)%nat with (Z.to_nat w) by lia.
  replace (Z.to_nat (t + w) `min` Z.to_nat cx)%nat with (Z.to_nat t + Z.to_nat w)%nat by lia.
  apply take_take_drop.
Qed.

(** The state after a request and some work on its reply. *)
Lemma after_write c s s2 s3 : client_fit reqdrv (cl s) -> undisturbed s s2 -> Inv c (released s2) ->
  dos_step s2 s3 ->
  config_of (shared (cl s3)) = config_of (shared (cl s)) /\ client_fit reqdrv (cl s3)
  /\ Inv c (released s3).
Proof.
  intros Hf Hu HI Hd. pose proof (client_fit_undisturbed _ _ _ Hu Hf) as Hf2.
  pose proof (dos_step_fit _ _ _ Hd Hf2) as Hf3. split_and!; [|done|].
  - rewrite (ds_shared _ _ Hd). apply Hu.
  - eapply sink_local; [exact HI|by apply dos_step_released|]. by destruct Hf3 as [[] _ _].
Qed.

(** Of the data [D] for the position [p], [w] bytes is all there is or where a
    chunk was stored short. *)
Definition complete (p : Z) (D : bytes) (w : Z) : Prop :=
  w = zlen D \/ exists t n, 0 <= t <= w /\ t + n <= zlen D
    /\ short (p + t) (take (Z.to_nat n) (drop (Z.to_nat t) D)) (w - t).

(** What a write of the [cx] bytes [D] comes to, from [s] with the file at [c]:
    [w] bytes are in the file; either all is said in CX and in the handle, or
    there is an error and the handle is behind the [t] bytes confirmed
    before it. *)
Record write_outcome (cx : Z) (D c : bytes) (d : dos) s s' : Prop := {
  wo_config : config_of (shared (cl s')) = config_of (shared (cl s));
  wo_fit : client_fit reqdrv (cl s');
  wo_buffer : read_file_buffer (cl s') = read_file_buffer (cl s);
  wo_result : exists w, 0 <= w <= cx /\
    ((complete (file_pos (sft d)) D w
      /\ Inv (effect (file_pos (sft d)) D w c) (released s') /\ mem s' = wrote w d)
     \/ exists x t, faulty /\ x <> 0 /\ 0 <= t <= w
         /\ (Inv (effect (file_pos (sft d)) D w c) (released s') \/ w = 0 /\ Inv c (released s'))
         /\ mem s' = set_regs (with_error x (regs (moved t d))) (moved t d));
}.

(** The handle between two chunks. *)
Lemma moved_facts t d : 0 <= file_pos (sft d) -> 0 <= t -> file_pos (sft d) + t < 2 ^ 32 ->
  sft_start_cluster (sft (moved t d)) = sft_start_cluster (sft d)
  /\ file_pos (sft (moved t d)) = file_pos (sft d) + t /\ dta (moved t d) = dta d.
Proof.
  intros Hp Ht Hw. unfold moved. destruct (Z.eqb_spec t 0) as [->|]; [split_and!; [done|lia|done]|].
  unfold wrote, advance. cbn [sft set_sft]. rewrite u32_id by (unfold is_u32; lia).
  case_match; by split_and!.
Qed.

(** What is in the file between two chunks. *)
Lemma stored_before c p (D : bytes) t s : 0 <= t -> t < zlen D \/ t = 0 ->
  Inv (overwrite (Z.to_nat p) (take (Z.to_nat t) D) c) s ->
  Inv (effect p D t c) s \/ t = 0 /\ Inv c s.
Proof. destruct D; intros H0 Ht HI; [right|by left]. simpl in Ht. split; [lia|]. by rewrite take_nil in HI. Qed.

Lemma failed_write cx D c d s s2 x t w : faulty -> client_fit reqdrv (cl s) -> undisturbed s s2 ->
  mem s = moved t d -> x <> 0 -> 0 <= t <= w -> w <= cx ->
  Inv (effect (file_pos (sft d)) D w c) (released s2) \/ w = 0 /\ Inv c (released s2) ->
  ensures (fun _ => set_error x) s2 (fun _ => write_outcome cx D c d s).
Proof.
  intros Hfa Hf Hu Hm Hx Ht Hw HI. eapply ensures_now; [reflexivity|].
  set (s3 := set_mem _ s2). assert (dos_step s2 s3) as Hd by (by split).
  pose proof (client_fit_undisturbed _ _ _ Hu Hf) as Hf2. split.
  - apply Hu.
  - by eapply dos_step_fit.
  - simpl. apply (same_file_buffer _ _ Hu).
  - exists w. split; [lia|right]. exists x, t. split_and!; [done|done|lia|lia| |].
    + assert (forall c', Inv c' (released s2) -> Inv c' (released s3)) as Hl; [|destruct HI; naive_solver].
      intros c' H. eapply after_write; [exact Hf|exact Hu|exact H|done].
    + simpl. by rewrite (same_mem _ _ Hu), Hm.
Qed.

Lemma write_chunks_ok turns max cx t (D c : bytes) d s :
  let p := file_pos (sft d) in
  D = take (Z.to_nat cx) (dta d) ->
  Inv (overwrite (Z.to_nat p) (take (Z.to_nat t) D) c) s -> client_fit reqdrv (cl s) ->
  mem s = moved t d -> sft_start_cluster (sft d) = cluster ->
  0 <= p -> p + cx < 2 ^ 32 -> 0 <= cx < 2 ^ 16 -> cx <= zlen (dta d) ->
  0 < max <= 1458 -> max + 42 <= interface_mtu (shared (cl s)) ->
  0 <= t -> t < cx \/ cx = 0 /\ t = 0 -> cx - t < Z.of_nat turns ->
  ensures (fun fuel => write_chunks fuel uninit turns INT2F_WRITE_FILE reqdrv max t (cx - t)) s
    (fun _ => write_outcome cx D c d s).
Proof.
  intros p HD. revert t s. induction turns as [|turns IH]; [intros; lia|].
  intros t s HI Hfit Hm Hcl Hp Hw Hcx Hdt Hmax Hmtu Ht Htc Htu.
  destruct (moved_facts t d Hp Ht) as (Hcl' & Hpos & Hdta); [fold p; lia|].
  rewrite <- Hm in Hcl', Hpos, Hdta. rewrite Hcl in Hcl'. fold p in Hpos.
  set (chunk := if max <? cx - t then max else cx - t).
  assert (0 <= chunk <= cx - t /\ chunk <= max /\ (0 < chunk \/ cx = 0)) as (Hch & Hchm & Hch0)
    by (unfold chunk; destruct (Z.ltb_spec max (cx - t)); lia).
  set (data := take (Z.to_nat chunk) (drop (Z.to_nat t) (dta d))).
  assert (zlen data = chunk) as Ld by (unfold data; rewrite length_take, length_drop; lia).
  assert (zlen (writef_args (p + t)) = 6) as Lw by done.
  cbn [write_chunks]. eapply ensures_step; [reflexivity|]. cbv zeta. unfold id.
  rewrite Hpos, Hcl', Hdta. fold chunk. fold (writef_args (p + t)).
  eapply ensures_step; [apply put_args_eq; [apply Hfit|lia]|].
  eapply ensures_step; [apply copy_from_eq; lia|]. fold data.
  eapply ensures_step; [apply (put_more_args (writef_args (p + t))); [apply Hfit|lia]|].
  rewrite <- Ld. set (s1 := with_args (writef_args (p + t) ++ data) s).
  assert (zlen (writef_args (p + t) ++ data) <= 1468) as La by (rewrite length_app; lia).
  assert (dos_step s s1) as Hs1 by (apply with_args_step; [apply Hfit|done]).
  assert (undisturbed s s1) as Hu1 by (by apply with_args_undisturbed).
  destruct (with_args_ok (writef_args (p + t) ++ data) s (fit_buffers _ _ Hfit) La) as [Hb1 Ha1].
  eapply ensures_bind.
  { apply (write_request (overwrite (Z.to_nat p) (take (Z.to_nat t) D) c) s1 (p + t) data).
    - by eapply sink_local.
    - by eapply dos_step_fit.
    - unfold is_u32. lia.
    - rewrite (ds_shared _ _ Hs1). lia.
    - done. }
  intros [len out] s2 [Hu2 (w & Hww & Hr)]. cbn [fst snd] in Hr. rewrite Ld in Hww.
  assert (undisturbed s s2) as Hu by (by etrans).
  unfold data in Hr. rewrite HD in Hr. rewrite chunk_effect in Hr by (lia || done). rewrite <- HD in Hr.
  fold data in Hr. set (c' := effect p D (t + w) c) in *.
  assert (zlen D = cx) as LD by (rewrite HD, length_take; lia).
  assert (forall x, faulty -> x <> 0 -> Inv (overwrite (Z.to_nat p) (take (Z.to_nat t) D) c) (released s2)
            \/ Inv c' (released s2) ->
          ensures (fun _ => set_error x) s2 (fun _ => write_outcome cx D c d s)) as Hfail.
  { intros x Hfa Hx [Hi|Hi].
    - apply (failed_write cx D c d s s2 x t t); [done..|lia|lia|]. apply stored_before; [lia|lia|done].
    - apply (failed_write cx D c d s s2 x t (t + w)); [done..|lia|lia|]. by left. }
  destruct (Z.eqb_spec len NETWORK_ERROR) as [Hl|Hl].
  { destruct Hr as [(? & _)|(Hfa & _ & Hi)]; [congruence|by apply Hfail]. }
  destruct Hr as [(-> & -> & -> & Hsh & HI')|(Hfa & [?|[_ Hx]] & Hi)]; [|done|].
  2: { rewrite (proj2 (Z.eqb_neq _ _) Hx). by apply Hfail. }
  cbn [Z.eqb Pos.eqb negb orb]. rewrite (u16_id (t + w)), (u16_id (cx - t - w)) by (unfold is_u16; lia).
  eapply ensures_step; [reflexivity|]. eapply ensures_step; [reflexivity|].
  match goal with |- ensures _ ?t _ => set (s3 := t) end.
  assert (mem s3 = wrote (t + w) d) as Em3.
  { unfold s3. simpl. rewrite (same_mem _ _ Hu), Hm. apply wrote_moved; unfold p in *; lia. }
  assert (dos_step s2 s3) as Hd3 by (by split).
  destruct (after_write c' s s2 s3 Hfit Hu HI' Hd3) as (H1 & H2 & H3).
  assert (complete p D (t + w) -> write_outcome cx D c d s s3) as Hdone.
  { intros Hco. split; [done|done|apply (same_file_buffer _ _ Hu)|]. exists (t + w). split; [lia|by left]. }
  assert (data = take (Z.to_nat chunk) (drop (Z.to_nat t) D)) as Edata.
  { unfold data. rewrite HD, skipn_firstn_comm, take_take. f_equal. lia. }
  destruct (Z.eqb_spec w (zlen data)) as [Hwc|Hwc].
  2: { eapply ensures_now; [reflexivity|]. apply Hdone. right. exists t, chunk.
       split_and!; [lia|lia|lia|]. destruct Hsh as [|Hsh]; [done|]. rewrite <- Edata.
       by replace (t + w - t) with w by lia. }
  cbn [negb].
  eapply ensures_step; [reflexivity|]. change (upd_client _ s3) with (Done (tt, released s3)).
  destruct (Z.ltb_spec 0 (cx - t - w)).
  - replace (cx - t - w) with (cx - (t + w)) by lia.
    assert (Inv (overwrite (Z.to_nat p) (take (Z.to_nat (t + w)) D) c) (released s3)) as HI3
      by (revert H3; unfold c', effect; destruct D; [simpl in LD; lia|done]).
    assert (client_fit reqdrv (cl (released s3))) as Hfit3 by (by destruct H2 as [[] ? ?]).
    assert (mem (released s3) = moved (t + w) d) as Em4.
    { change (mem (released s3)) with (mem s3). rewrite Em3. unfold moved.
      by rewrite (proj2 (Z.eqb_neq (t + w) 0)) by lia. }
    assert (max + 42 <= interface_mtu (shared (cl (released s3)))) as Hmtu3.
    { change (shared (cl (released s3))) with (shared (cl s3)).
      assert (interface_mtu (shared (cl s3)) = interface_mtu (shared (cl s))) as Em
        by exact (f_equal (fun t => t.1.1.1.2) H1). lia. }
    eapply ensures_post.
    + apply (IH (t + w) (released s3)); try done; lia.
    + intros _ s' [Ho1 Ho2 Ho3 Ho4]. split; [|done| |done].
      * rewrite Ho1. exact H1.
      * rewrite Ho3. apply (same_file_buffer _ _ Hu).
  - eapply ensures_now; [reflexivity|]. destruct Hdone as [Ho1 Ho2 Ho3 Ho4]; [left; lia|].
    split; [done|by destruct Ho2 as [[] ? ?]|done|exact Ho4].
Qed.

(** *** The whole call *)

(** A call to write [cx] bytes into the file, whose bytes are [c]. *)
Record writing (cx : Z) c s : Prop := {
  wt_inv : Inv c s;
  wt_fit : client_fit reqdrv (cl s);
  wt_buffer : buffer_ok reqdrv cluster c (read_file_buffer (cl s));
  wt_cluster : sft_start_cluster (sft (mem s)) = cluster;
  wt_pos : 0 <= file_pos (sft (mem s)) /\ file_pos (sft (mem s)) + cx < 2 ^ 32;
  wt_size : zlen c < 2 ^ 32;
  wt_cx : r_cx (regs (mem s)) = cx /\ 0 <= cx < 2 ^ 16;
  wt_dta : cx <= zlen (dta (mem s));
}.

Lemma call_write_ok cx c s : writing cx c s -> Z.land (sft_open_mode (sft (mem s))) 3 <> 0 ->
  ensures (fun fuel => call_write_file fuel uninit INT2F_WRITE_FILE reqdrv) s
    (fun _ => write_outcome cx (take (Z.to_nat cx) (dta (mem s))) c (mem s)
                (with_buffer (kept_buffer (read_file_buffer (cl s)) (sft (mem s)) cx) s)).
Proof.
  intros [HI Hfit Hbuf Hcl [Hp Hw] Hsz [Hrcx Hcx] Hdta] Hop.
  unfold call_write_file. eapply ensures_step; [reflexivity|]. cbv zeta. unfold id.
  rewrite (proj2 (Z.eqb_neq _ _) Hop), Hrcx. eapply ensures_step; [reflexivity|].
  set (s1 := with_buffer _ s). assert (dos_step s s1) as Hd1 by (by split).
  eapply (ensures_step _ _ _ tt s1).
  { unfold s1, kept_buffer. case_match; [done|]. by rewrite with_buffer_same. }
  eapply ensures_step; [reflexivity|].
  pose proof (fit_mtu _ _ Hfit) as Hmtu. change (shared (cl s1)) with (shared (cl s)).
  rewrite u16_id by (unfold is_u16; lia).
  match goal with |- ensures (fun fuel => write_chunks fuel _ ?n _ _ ?m _ _) _ _ =>
    pose proof (write_chunks_ok n m cx 0 (take (Z.to_nat cx) (dta (mem s))) c (mem s) s1) as H end.
  rewrite Z.sub_0_r in H. apply H; try done; try lia.
  - assert (Inv c s1) as HI1 by (eapply sink_local; [exact HI|done|by destruct Hfit as [[] _ _]]).
    by rewrite take_0.
  - by eapply dos_step_fit.
  - change (shared (cl s1)) with (shared (cl s)). lia.
Qed.

(** C11: a write of the DOS client, of any length, into a file that the server
    and the network store faithfully, always ends; without an error the file
    holds the first CX bytes of the caller's buffer at the position of the
    handle, a gap filled with zeros, or fewer of them only when the server has
    stored a chunk short and said so, and the handle is advanced by the count
    that CX then gives (a write of no bytes sets the size of the file); there is
    an error only when the service can fail, and then the file holds a prefix of
    the data and the handle is behind the part of it that the server confirmed
    before; and the read buffer never contradicts the file that was changed
    under it. *)
Theorem write_file_exact c s :
  req_drive (cl s) = reqdrv -> u8 (r_ax (regs (mem s))) = INT2F_WRITE_FILE ->
  Z.land (sft_open_mode (sft (mem s))) 3 <> 0 -> writing (r_cx (regs (mem s))) c s ->
  let cx := r_cx (regs (mem s)) in
  let stored w := effect (file_pos (sft (mem s))) (take (Z.to_nat cx) (dta (mem s))) w c in
  let d := entered (mem s) in
  exists fuel0 s' c' w, (forall fuel, (fuel0 <= fuel)%nat ->
    handle_request_for_our_drive fuel uninit s = Done (tt, s'))
  /\ 0 <= w <= cx
  /\ (complete (file_pos (sft (mem s))) (take (Z.to_nat cx) (dta (mem s))) w
      /\ c' = stored w /\ mem s' = wrote w d
      \/ faulty /\ (c' = stored w \/ w = 0 /\ c' = c)
         /\ exists x t, x <> 0 /\ 0 <= t <= w
            /\ mem s' = set_regs (with_error x (regs (moved t d))) (moved t d))
  /\ Inv c' s' /\ buffer_ok reqdrv cluster c' (read_file_buffer (cl s'))
  /\ client_fit reqdrv (cl s').
Proof.
  intros Hd Ha Hop Hwt cx stored d. pose proof Hwt as [HI Hfit Hbuf Hcl Hp Hsz Hcx Hdta].
  assert (dos_step s (started s)) as Hst by (by split).
  assert (writing cx c (started s)) as Hws.
  { split; try done; [|by eapply dos_step_fit|by apply expire_ok].
    eapply sink_local; [exact HI|done|]. by destruct Hfit as [[] _ _]. }
  assert (zlen (take (Z.to_nat cx) (dta (mem s))) = cx) as LD by (rewrite length_take; lia).
  set (b := kept_buffer (read_file_buffer (cl (started s))) (sft (mem s)) cx).
  destruct (kept_buffer_ok (read_file_buffer (cl (started s))) (sft (mem s)) cx
    (take (Z.to_nat cx) (dta (mem s))) c) as [Hb0 Hb1]; [apply Hws|done|lia..|].
  fold b in Hb0, Hb1.
  assert (ensures (fun fuel => handle_request_for_our_drive fuel uninit) s (fun _ s' =>
    read_file_buffer (cl s') = b /\ client_fit reqdrv (cl s') /\ exists w, 0 <= w <= cx /\
      (complete (file_pos (sft (mem s))) (take (Z.to_nat cx) (dta (mem s))) w
       /\ Inv (stored w) s' /\ mem s' = wrote w d
       \/ (Inv (stored w) s' \/ w = 0 /\ Inv c s') /\ faulty /\ exists x t, x <> 0 /\ 0 <= t <= w
          /\ mem s' = set_regs (with_error x (regs (moved t d))) (moved t d))))
    as ([] & s' & [fuel0 Hf] & Eb & Hfit' & w & Hw & Hr).
  { apply (handle_request_ok uninit reqdrv INT2F_WRITE_FILE); [done|done|].
    eapply ensures_post; [apply (call_write_ok cx c (started s) Hws Hop)|].
    intros [] t [H1 H2 H3 (w & Hw & H4)]. split_and!; [exact H3|by (destruct H2 as [[] ? ?]; split)|].
    exists w. split; [done|]. destruct H4 as [H4|(x & t' & ? & ? & ? & ? & ?)]; [by left|right].
    split; [done|]. split; [done|]. by exists x, t'. }
  destruct Hr as [(Hco & HI' & Hm)|([HI'|[-> HI']] & Hfa & He)].
  - exists fuel0, s', (stored w), w. rewrite Eb. do 2 (split; [done|]). split; [by left|by split_and!; [|apply Hb1|]].
  - exists fuel0, s', (stored w), w. rewrite Eb. do 2 (split; [done|]). split; [|by split_and!; [|apply Hb1|]].
    right. split; [done|]. split; [by left|done].
  - exists fuel0, s', c, 0. rewrite Eb. do 2 (split; [done|]). split; [|done].
    right. split; [done|]. split; [by right|done].
Qed.
End Writing.

(** ** A server with a file *)

(** It stores the data of a WRITE_FILE and says how many bytes they were. *)
Definition store_answer (f c : bytes) : list bytes * bytes :=
  if (zlen f <=? 42) || negb (byte_at f 49 =? INT2F_WRITE_FILE) then ([], c)
  else
    let data := drop 56 f in
    ([server_frame (reply_message (byte_at f 47) 0 (le16_bytes (zlen data)))],
     effect (le32 f 50) data (zlen data) c).

#[local] Instance store_wire : Wire (serving bytes) := serving_wire store_answer.
#[local] Instance store_timer : Timer := counting.

Definition stores (c : bytes) (s : pc (serving bytes)) : Prop := idle s /\ behind (wire s) = c.

#[export] Instance file_sink uninit cluster : FileSink uninit 2 cluster (fun _ _ _ => False) False stores.
Proof.
  split.
  - intros c s s' [[Hq Hr Hs Hd] Hc] [_ Ew Es _ El _ _ Ed _] _. split; [split|]; congruence || (by rewrite Es).
  - intros fuel c s offset data len out s' [HI Hc] Hb Ho Hn Ha E.
    assert (zlen (writef_args cluster offset ++ data) = zlen data + 6) as La
      by (rewrite length_app; change (length (writef_args cluster offset)) with 6%nat; lia).
    exists (zlen data). split; [lia|]. left.
    apply (server_answers _ fuel INT2F_WRITE_FILE (zlen data + 6) _ 0 (le16_bytes (zlen data))
      (effect offset data (zlen data) c)) in E; [|done|lia|done|done|lia|].
    + destruct E as (El & Ex & (tl & Ed) & HI' & Hst). cbn [fst snd] in *.
      split_and!; [done|done| |by left|by split]. rewrite Ed. apply (le16_bytes_value (zlen data)).
      unfold is_u16. lia.
    + destruct (request_frame INT2F_WRITE_FILE 2 0 (writef_args cluster offset ++ data) (cl s) Hb
        ltac:(lia) Ha) as (pre & Lp & E47 & E49 & Ef).
      rewrite La in Ef. cbn [flag_ext_features]. rewrite Ef, Hc. unfold store_answer.
      assert ((zlen (pre ++ writef_args cluster offset ++ data) <=? 42) = false) as ->
        by (apply Z.leb_gt; rewrite length_app, Lp; lia).
      rewrite !byte_at_app_l by lia. rewrite E47, E49. cbn [orb negb u8].
      change (u8 INT2F_WRITE_FILE =? INT2F_WRITE_FILE) with true. cbv iota zeta. cbn [negb].
      assert (drop 56 (pre ++ writef_args cluster offset ++ data) = data) as ->
        by (rewrite app_assoc; apply drop_app_length'; by rewrite length_app, Lp).
      pose proof (le32_app_r pre (writef_args cluster offset ++ data) 0) as E50.
      rewrite Lp in E50. cbn [Nat.add] in E50. rewrite E50. do 2 f_equal.
      unfold writef_args. rewrite <- app_assoc. by apply le32_roundtrip.
Qed.

(** *** A client that writes: 3 bytes at the end of a file of 5 *)

Definition writing_dos (data : bytes) (pos : Z) : dos :=
  mkDos (mkRegs 0x1109 0 (zlen data) 0 0 0 0) [] [] [] 0 0 0 (mkDirEntry no_name 0 0 0 0 0) 0
    data [] (mkSft 1 2 0 0x8042 0 7 0 5 pos 0 0 0xFF no_name) (mkSearch 0 no_name 0 0 0)
    (mkDirEntry no_name 0 0 0 0 0).
Definition writing_pc (data : bytes) (pos : Z) (c : bytes) : pc (serving bytes) :=
  mkPc 0 (client_with file_drive) (writing_dos data pos) (mkServing false [] c).

Lemma writing_pc_ok : writing 2 7 stores 3 [1; 2; 3; 4; 5] (writing_pc [7; 8; 9] 4 [1; 2; 3; 4; 5]).
Proof.
  split; try reflexivity; try (split; vm_compute; congruence); try (vm_compute; congruence).
  - split; [|done]. split; try reflexivity. by eexists 0, 0, 0, _.
  - apply file_client_fit.
  - split; [reflexivity|split; vm_compute; congruence|intros H; vm_compute in H; discriminate H].
  - split; [reflexivity|lia].
Qed.

Lemma write_file_exact_witness :
  exists fuel0 s', (forall fuel, (fuel0 <= fuel)%nat ->
    @handle_request_for_our_drive _ store_wire counting fuel no_results
      (writing_pc [7; 8; 9] 4 [1; 2; 3; 4; 5]) = Done (tt, s'))
  /\ stores [1; 2; 3; 4; 7; 8; 9] s' /\ r_cx (regs (mem s')) = 3
  /\ buffer_ok 2 7 [1; 2; 3; 4; 7; 8; 9] (read_file_buffer (cl s')).
Proof.
  destruct (@write_file_exact (serving bytes) store_wire counting (serving_laws _) counting_laws
    no_results 2 7 (fun _ _ _ => False) False stores (file_sink no_results 7) [1; 2; 3; 4; 5]
    (writing_pc [7; 8; 9] 4 [1; 2; 3; 4; 5]) eq_refl eq_refl ltac:(vm_compute; discriminate)
    writing_pc_ok) as (fuel0 & s' & c' & w & H1 & _ & [(H3 & -> & Em)|[[] _]] & H4 & H5 & _).
  assert (w = 3) as -> by (destruct H3 as [->|(? & ? & _ & _ & [])]; reflexivity).
  exists fuel0, s'. split; [exact H1|]. split; [exact H4|]. split; [|exact H5].
  rewrite Em. reflexivity.
Defined.

(** The file and CX afterwards. *)
Definition written (o : outcome (unit * pc (serving bytes))) : option (bytes * Z) :=
  match o with Done (_, s) => Some (behind (wire s), r_cx (regs (mem s))) | _ => None end.

Example write_and_truncate :
  written (@handle_request_for_our_drive _ store_wire counting 10 no_results
    (writing_pc [7; 8; 9] 4 [1; 2; 3; 4; 5])) = Some ([1; 2; 3; 4; 7; 8; 9], 3)
  /\ written (@handle_request_for_our_drive _ store_wire counting 10 no_results
    (writing_pc [] 2 [1; 2; 3; 4; 5])) = Some ([1; 2], 0).
Proof. split; vm_compute; reflexivity. Qed.
