(* ===== verification/Args.v ===== *)
(** * Args: the numbers, addresses and tables of the command line (netmount.c)

    The functions the transient part of the client is written with: comparing
    and reading arguments, printing numbers, checking the network mask and
    assigning a slot of the table of addresses.  A C string is the list of its
    characters without the terminating zero, which [byte_at] finds behind it;
    [endptr] is the rest of the string. *)
From S2P Require Import Prelude Words Checksum Fcb Resident Network.

(** ** Comparing *)

(** [tested_string] stops at its zero, where [upper_string] differs or ends. *)
Fixpoint strn_upper_cmp (tested_string upper_string : bytes) (len : nat) : Z :=
  match len with
  | O => 0
  | S len =>
      let ret := char_to_upper (byte_at tested_string 0) - byte_at upper_string 0 in
      if negb (ret =? 0) then ret
      else strn_upper_cmp (drop 1 tested_string) (drop 1 upper_string) len
  end.

(** The tests of [main]: an argument that is the whole of [word], and one that
    begins with it. *)
Definition is_word (word : string) (arg : bytes) : bool :=
  strn_upper_cmp arg (str word) (S (length (str word))) =? 0.
Definition has_prefix (word : string) (arg : bytes) : bool :=
  strn_upper_cmp arg (str word) (length (str word)) =? 0.

(** ** Numbers *)

Definition digit_of (c : Z) : option Z :=
  if (CH_0 <=? c) && (c <=? CH_9) then Some (c - CH_0)
  else if (CH_A <=? c) && (c <=? 70) then Some (c - CH_A + 10)
  else if (CH_a <=? c) && (c <=? 102) then Some (c - CH_a + 10)
  else None.

Fixpoint ui16_digits (base number : Z) (s : bytes) : Z * bytes :=
  match s with
  | c :: rest =>
      match digit_of c with
      | Some digit => if base <=? digit then (number, s)
                      else ui16_digits base (u16 (number * base + digit)) rest
      | None => (number, s)
      end
  | [] => (number, [])
  end.

Definition strto_ui16 (s : bytes) : Z * bytes :=
  if (byte_at s 0 =? CH_0) && ((byte_at s 1 =? 120) || (byte_at s 1 =? 88))
  then ui16_digits 16 0 (drop 2 s) else ui16_digits 10 0 s.

(** [endptr == str]: nothing was read. *)
Definition nothing_read (s endptr : bytes) : bool := (length endptr =? length s)%nat.

(** The loop of [uint16_to_str], from the last of [i] places to the first. *)
Fixpoint put_digits (i : nat) (num base fill : Z) (behind : bytes) : bytes :=
  match i with
  | O => behind
  | S i =>
      if 0 <? num then
        let tmp := num / base in
        let remain := num - tmp * base in
        put_digits i tmp base fill
          ((if remain <=? 9 then remain + CH_0 else remain - 10 + CH_A) :: behind)
      else put_digits i num base fill (fill :: behind)
  end.
Definition uint16_to_str (num : Z) (buf_size : nat) (base fill : Z) : bytes :=
  put_digits (buf_size - 1) num base fill [].

(** ** IPv4 addresses *)

(** [octets] of the numbers followed by a dot, and one more. *)
Fixpoint parse_octets (octets : nat) (s : bytes) : option (bytes * bytes) :=
  let '(number, endptr) := strto_ui16 s in
  match octets with
  | O => if nothing_read s endptr then None else Some ([u8 number], endptr)
  | S octets =>
      if nothing_read s endptr || negb (byte_at endptr 0 =? CH_DOT) then None
      else match parse_octets octets (drop 1 endptr) with
           | Some (bs, endptr) => Some (u8 number :: bs, endptr)
           | None => None
           end
  end.

(** The address and [endptr]; [None] is [*error = 1], after which every caller
    gives up. *)
Definition parse_ipv4_addr (s : bytes) : option (Z * bytes) :=
  match parse_octets 3 s with
  | Some (addr, endptr) => Some (le32 addr 0, endptr)
  | None => None
  end.

(** ** The network mask *)

(** The inner loop: [prev_bit] behind the [n] lowest bits of [mask_byte], or
    the mask is refused. *)
Fixpoint check_mask_byte (n : nat) (prev_bit mask_byte : Z) : option Z :=
  match n with
  | O => Some prev_bit
  | S n =>
      if negb (prev_bit =? 0) && (Z.land mask_byte 1 =? 0) then None
      else check_mask_byte n (Z.land mask_byte 1) (Z.shiftr mask_byte 1)
  end.
(** The outer loop, from the last byte to the first. *)
Fixpoint check_mask_bytes (prev_bit : Z) (mask : bytes) : bool :=
  match mask with
  | [] => true
  | mask_byte :: mask =>
      match check_mask_byte 8 prev_bit mask_byte with
      | Some prev_bit => check_mask_bytes prev_bit mask
      | None => false
      end
  end.
Definition valid_net_mask (net_mask : Z) : bool :=
  check_mask_bytes 0 (rev (le32_bytes net_mask)).

(** ** The table of addresses *)

Abbreviation NO_IP := 0xFFFFFFFF (only parsing).
Abbreviation NO_SLOT := 0xFF (only parsing).
Abbreviation MAX_DRIVES_COUNT := 26%nat (only parsing).

(** [ip_idx] and [free_ip_idx] behind the first loop. *)
Fixpoint find_ip (i ip free_ip_idx : Z) (m : list ip_mac) : Z * Z :=
  match m with
  | [] => (NO_SLOT, free_ip_idx)
  | e :: m =>
      if ip_value e =? ip then (i, free_ip_idx)
      else find_ip (i + 1) ip (if ip_value e =? NO_IP then i else free_ip_idx) m
  end.

Definition used_by_drive (sh : shared_data) (i : Z) : bool :=
  existsb (fun d => remote_ip_idx d =? i) (take MAX_DRIVES_COUNT (drive_infos sh)).

(** "try if some IP slot can be reused (umounted drive)" *)
Fixpoint reusable_slot (slots : nat) (i : Z) (sh : shared_data) : Z :=
  match slots with
  | O => NO_SLOT
  | S slots =>
      if (i =? gateway_ip_slot sh) || used_by_drive sh i then reusable_slot slots (i + 1) sh else i
  end.

Definition assign_remote_ip_addr_slot (sh : shared_data) (ip : Z) : Z * shared_data :=
  let m := ip_mac_map sh in
  let '(ip_idx, free_ip_idx) := find_ip 0 ip NO_SLOT m in
  let '(ip_idx, free_ip_idx) :=
    if ip_idx =? NO_SLOT then
      if negb (free_ip_idx =? NO_SLOT) then (free_ip_idx, free_ip_idx)
      else let i := reusable_slot (length m) 0 sh in (i, i)
    else (ip_idx, free_ip_idx) in
  (ip_idx,
   if negb (ip_idx =? NO_SLOT) && (ip_idx =? free_ip_idx)
   then set_ip_mac_map (<[Z.to_nat free_ip_idx := mkIpMac ip (replicate 6 0xFF)]> m) sh else sh).

(** ** The network mask is a prefix *)

Lemma check_ones prev b : is_byte b -> prev <> 0 ->
  check_mask_byte 8 prev b = if b =? 255 then Some 1 else None.
Proof.
  intros Hb Hp. pose proof (by_enum 256 (fun b => bool_decide (check_mask_byte 8 1 b
    = if b =? 255 then Some 1 else None)) eq_refl b Hb) as H.
  apply bool_decide_eq_true in H. rewrite <- H. cbn [check_mask_byte].
  by rewrite (proj2 (Z.eqb_neq prev 0) Hp).
Qed.

(** The zeros at the end of the byte that ends the prefix. *)
Definition ends_prefix (b : Z) : bool := existsb (fun j => b =? 256 - 2 ^ j) (seqZ 0 8).

Lemma check_zeros b : is_byte b ->
  check_mask_byte 8 0 b = if b =? 0 then Some 0 else if ends_prefix b then Some 1 else None.
Proof.
  intros Hb. pose proof (by_enum 256 (fun b => bool_decide (check_mask_byte 8 0 b
    = if b =? 0 then Some 0 else if ends_prefix b then Some 1 else None)) eq_refl b Hb) as H.
  by apply bool_decide_eq_true in H.
Qed.

Lemma ends_prefix_spec b : ends_prefix b = true -> exists j, 0 <= j < 8 /\ b = 256 - 2 ^ j.
Proof.
  intros (j & Hj & E)%existsb_exists. apply list_elem_of_In, elem_of_seqZ in Hj.
  exists j. split; [lia|by apply Z.eqb_eq].
Qed.
Lemma prefix_ends j : 0 <= j < 8 -> ends_prefix (256 - 2 ^ j) = true.
Proof.
  intros Hj. apply existsb_exists. exists j. rewrite Z.eqb_refl. split; [|done].
  apply list_elem_of_In, elem_of_seqZ. lia.
Qed.

Lemma all_ones prev l : prev <> 0 -> Forall is_byte l ->
  check_mask_bytes prev l = forallb (fun b => b =? 255) l.
Proof.
  intros Hp Hl. revert prev Hp. induction Hl as [|b l Hb Hl IH]; intros prev Hp; [done|].
  cbn [check_mask_bytes forallb]. rewrite check_ones by done.
  destruct (b =? 255); [by apply IH|done].
Qed.

(** The number with the bytes [l], the lowest first. *)
Definition value_of (l : bytes) : Z := foldr (fun b n => b + 2 ^ 8 * n) 0 l.
Abbreviation width l := (8 * zlen l) (only parsing).

Lemma value_bound l : Forall is_byte l -> 0 <= value_of l < 2 ^ (width l).
Proof.
  induction 1 as [|b l Hb Hl IH]; cbn [value_of foldr length]; [lia|]. fold (value_of l).
  rewrite Nat2Z.inj_succ, Z.mul_succ_r, Z.pow_add_r by lia. unfold is_byte in Hb. lia.
Qed.

Lemma value_ones l : Forall is_byte l ->
  forallb (fun b => b =? 255) l = true <-> value_of l = 2 ^ (width l) - 1.
Proof.
  induction 1 as [|b l Hb Hl IH]; cbn [value_of foldr length forallb]; [done|]. fold (value_of l).
  rewrite andb_true_iff, IH, Z.eqb_eq. pose proof (value_bound l Hl).
  rewrite Nat2Z.inj_succ, Z.mul_succ_r, Z.pow_add_r by lia. unfold is_byte in Hb. lia.
Qed.

Lemma mask_prefix l : Forall is_byte l ->
  check_mask_bytes 0 l = true <->
  exists k, 0 <= k <= width l /\ value_of l = 2 ^ (width l) - 2 ^ k.
Proof.
  induction 1 as [|b l Hb Hl IH]; cbn [check_mask_bytes].
  { split; [|done]. intros _. exists 0. cbn. lia. }
  rewrite (check_zeros b Hb). cbn [value_of foldr length]. fold (value_of l).
  rewrite Nat2Z.inj_succ, Z.mul_succ_r, Z.pow_add_r by lia.
  pose proof (value_bound l Hl) as Hv. unfold is_byte in Hb.
  destruct (Z.eqb_spec b 0) as [->|Hb0].
  - rewrite IH. split; intros (k & Hk & E).
    + exists (k + 8). rewrite Z.pow_add_r by lia. lia.
    + assert (8 <= k) as Hk8.
      { destruct (Z.le_gt_cases 8 k); [done|exfalso].
        assert (2 ^ (8 - k) * 2 ^ k = 2 ^ 8) as Hs by (rewrite <- Z.pow_add_r by lia; f_equal; lia).
        assert (1 < 2 ^ (8 - k)) by (apply (Z.pow_gt_1 2 (8 - k)); lia).
        assert (0 < 2 ^ k) by (apply Z.pow_pos_nonneg; lia). nia. }
      exists (k - 8). replace k with (k - 8 + 8) in E by lia. rewrite Z.pow_add_r in E by lia. lia.
  - destruct (ends_prefix b) eqn:Eb.
    + rewrite all_ones, value_ones by done. apply ends_prefix_spec in Eb as (j & Hj & ->).
      split; [intros E; exists j; lia|]. intros (k & Hk & E).
      assert (0 < 2 ^ j <= 2 ^ 7) by (split; [|apply Z.pow_le_mono_r]; lia).
      destruct (Z.le_gt_cases 8 k) as [Hk8|Hk8].
      * replace k with (k - 8 + 8) in E by lia. rewrite Z.pow_add_r in E by lia. lia.
      * assert (0 < 2 ^ k <= 2 ^ 7) by (split; [|apply Z.pow_le_mono_r]; lia). lia.
    + split; [done|]. intros (k & Hk & E).
      destruct (Z.le_gt_cases 8 k) as [Hk8|Hk8].
      * replace k with (k - 8 + 8) in E by lia. rewrite Z.pow_add_r in E by lia. lia.
      * assert (0 < 2 ^ k <= 2 ^ 7) by (split; [|apply Z.pow_le_mono_r]; lia).
        assert (b = 256 - 2 ^ k) as -> by lia. rewrite prefix_ends in Eb by lia. done.
Qed.

(** INSTALL accepts a network mask just when, read as a number in network
    byte order, it consists of ones followed by zeros. *)
Theorem valid_net_mask_spec a b c d : is_byte a -> is_byte b -> is_byte c -> is_byte d ->
  valid_net_mask (le32 [a; b; c; d] 0) = true <->
  exists k, 0 <= k <= 32 /\ a * 2 ^ 24 + b * 2 ^ 16 + c * 2 ^ 8 + d = 2 ^ 32 - 2 ^ k.
Proof.
  intros Ha Hb Hc Hd. unfold valid_net_mask.
  assert (le32_bytes (le32 [a; b; c; d] 0) = [a; b; c; d]) as -> by (by apply le32_bytes_of).
  cbn [rev app]. rewrite mask_prefix by (by rewrite !Forall_cons).
  unfold value_of. cbn [foldr length]. split; intros (k & Hk & E); exists k; lia.
Qed.
Lemma valid_net_mask_spec_witness :
  valid_net_mask (le32 [255; 255; 240; 0] 0) = true <->
  exists k, 0 <= k <= 32 /\ 255 * 2 ^ 24 + 255 * 2 ^ 16 + 240 * 2 ^ 8 + 0 = 2 ^ 32 - 2 ^ k.
Proof. apply (valid_net_mask_spec 255 255 240 0); unfold is_byte; lia. Defined.

(** ** Numbers *)

(** [c] ends a number in base [base]. *)
Definition ends_number (base : Z) (s : bytes) : Prop :=
  match s with
  | [] => True
  | c :: _ => match digit_of c with Some d => base <= d | None => True end
  end.
Definition is_digit_in (base c : Z) : Prop := exists d, digit_of c = Some d /\ d < base.

Lemma ui16_digits_app base ds rest n : Forall (is_digit_in base) ds -> ends_number base rest ->
  ui16_digits base n (ds ++ rest)
  = (foldl (fun n c => u16 (n * base + default 0 (digit_of c))) n ds, rest).
Proof.
  intros Hds Hr. revert n. induction Hds as [|c ds (d & Ed & Hd) Hds IH]; intros n.
  - destruct rest as [|c rest]; [done|]. cbn. unfold ends_number in Hr.
    destruct (digit_of c); [|done]. by rewrite (proj2 (Z.leb_le _ _) Hr).
  - cbn [app ui16_digits foldl]. rewrite Ed, (proj2 (Z.leb_gt _ _) Hd). apply IH.
Qed.

Lemma ui16_digits_rest base s n : exists ds, s = ds ++ (ui16_digits base n s).2.
Proof.
  revert n. induction s as [|c s IH]; intros n; [by exists []|]. cbn [ui16_digits].
  destruct (digit_of c) as [d|]; [|by exists []]. destruct (base <=? d); [by exists []|].
  destruct (IH (u16 (n * base + d))) as (ds & E). exists (c :: ds). cbn [app]. by rewrite <- E.
Qed.

Lemma ui16_digits_range base s n : is_u16 n -> is_u16 (ui16_digits base n s).1.
Proof.
  revert n. induction s as [|c s IH]; intros n Hn; [done|]. cbn [ui16_digits].
  destruct (digit_of c) as [d|]; [|done]. destruct (base <=? d); [done|].
  apply IH. apply u16_range.
Qed.
Lemma strto_ui16_range s : is_u16 (strto_ui16 s).1.
Proof. unfold strto_ui16. case_match; by apply ui16_digits_range. Qed.

(** Two hexadecimal digits, as the messages and the tables of ports show them. *)
Lemma hex_roundtrip x rest : is_byte x -> ends_number 16 rest ->
  strto_ui16 (str "0x" ++ uint16_to_str x 3 16 CH_0 ++ rest) = (x, rest).
Proof.
  intros Hx Hr. change (strto_ui16 (str "0x" ++ uint16_to_str x 3 16 CH_0 ++ rest))
    with (ui16_digits 16 0 (uint16_to_str x 3 16 CH_0 ++ rest)).
  pose proof (by_enum 256 (fun x => forallb (fun c => match digit_of c with
      Some d => d <? 16 | None => false end) (uint16_to_str x 3 16 CH_0)
    && (foldl (fun n c => u16 (n * 16 + default 0 (digit_of c))) 0 (uint16_to_str x 3 16 CH_0) =? x))
    ltac:(vm_compute; reflexivity) x Hx) as [Hf He%Z.eqb_eq]%andb_prop.
  rewrite ui16_digits_app; [by rewrite He| |done].
  apply Forall_forall. intros c Hc%list_elem_of_In. rewrite forallb_forall in Hf. apply Hf in Hc.
  destruct (digit_of c) as [d|] eqn:Ed; [|done]. exists d. split; [done|]. by apply Z.ltb_lt.
Qed.

(** ** Slots *)

Lemma find_ip_spec ip m : forall i free r f, find_ip i ip free m = (r, f) ->
  0 <= i -> i + zlen m <= NO_SLOT -> (free < i \/ free = NO_SLOT) ->
  (exists j e, m !! j = Some e /\ ip_value e = ip /\ r = i + Z.of_nat j /\ r <> f)
  \/ (r = NO_SLOT /\ Forall (fun e => ip_value e <> ip) m
      /\ ((f = free /\ Forall (fun e => ip_value e <> NO_IP) m)
          \/ exists j e, m !! j = Some e /\ ip_value e = NO_IP /\ f = i + Z.of_nat j)).
Proof.
  induction m as [|e m IH]; intros i free r f; cbn [find_ip length].
  { intros [= <- <-] _ _ _. right. split_and!; [done|done|]. by left. }
  intros E Hi Hm Hf. destruct (Z.eqb_spec (ip_value e) ip) as [He|He].
  { injection E as <- <-. left. exists 0%nat, e. split_and!; [done|done|lia|lia]. }
  apply IH in E as [(j & e' & Hj & Hip & -> & Hne)|(-> & Ha & Hfree)]; [| |lia|lia|case_match; lia].
  - left. exists (S j), e'. split_and!; [done|done|lia|lia].
  - right. split; [done|]. split; [by constructor|].
    destruct Hfree as [[-> Hn]|(j & e' & Hj & Hip & ->)].
    + destruct (Z.eqb_spec (ip_value e) NO_IP) as [Hno|Hno].
      * right. exists 0%nat, e. split_and!; [done|done|lia].
      * left. split; [done|]. by constructor.
    + right. exists (S j), e'. split_and!; [done|done|lia].
Qed.

Lemma reusable_slot_spec sh n : forall i,
  (reusable_slot n i sh = NO_SLOT
   /\ forall k, i <= k < i + Z.of_nat n -> k = gateway_ip_slot sh \/ used_by_drive sh k = true)
  \/ (i <= reusable_slot n i sh < i + Z.of_nat n /\ reusable_slot n i sh <> gateway_ip_slot sh
      /\ used_by_drive sh (reusable_slot n i sh) = false).
Proof.
  induction n as [|n IH]; intros i; cbn [reusable_slot]; [left; split; [done|lia]|].
  destruct ((i =? gateway_ip_slot sh) || used_by_drive sh i) eqn:E.
  - destruct (IH (i + 1)) as [[-> Hk]|(H1 & H2 & H3)]; [left|right; split_and!; [lia|lia|done|done]].
    split; [done|]. intros k Hr. destruct (Z.eq_dec k i) as [->|]; [|apply Hk; lia].
    apply orb_prop in E as [E%Z.eqb_eq|E]; auto.
  - right. apply orb_false_iff in E as [E%Z.eqb_neq E']. split_and!; [lia|lia|done|done].
Qed.

(** What happened to the table: the slots other than [i] are as they were, and
    slot [i] has been given away only when it was free or of no more use. *)
Record slot_assigned (sh sh' : shared_data) (i ip : Z) : Prop := {
  sa_range : 0 <= i < zlen (ip_mac_map sh);
  sa_ip : ip_value <$> ip_mac_map sh' !! Z.to_nat i = Some ip;
  sa_others : forall j, j <> Z.to_nat i -> ip_mac_map sh' !! j = ip_mac_map sh !! j;
  sa_rest : sh' = set_ip_mac_map (ip_mac_map sh') sh;
  sa_reuse : sh' = sh \/ ip_mac_map sh' !! Z.to_nat i = Some (mkIpMac ip (replicate 6 0xFF))
    /\ (ip_value <$> ip_mac_map sh !! Z.to_nat i = Some NO_IP
        \/ i <> gateway_ip_slot sh /\ used_by_drive sh i = false);
}.

Lemma set_ip_mac_map_same sh : set_ip_mac_map (ip_mac_map sh) sh = sh.
Proof. by destruct sh. Qed.

Lemma assign_slot_cases sh ip i sh' : zlen (ip_mac_map sh) < NO_SLOT ->
  assign_remote_ip_addr_slot sh ip = (i, sh') ->
  slot_assigned sh sh' i ip
  \/ (i = NO_SLOT /\ sh' = sh
      /\ Forall (fun e => ip_value e <> ip /\ ip_value e <> NO_IP) (ip_mac_map sh)
      /\ forall k, 0 <= k < zlen (ip_mac_map sh) ->
           k = gateway_ip_slot sh \/ used_by_drive sh k = true).
Proof.
  intros Hlen. unfold assign_remote_ip_addr_slot. set (m := ip_mac_map sh) in *.
  destruct (find_ip 0 ip NO_SLOT m) as [r f] eqn:Ef.
  assert (forall k, 0 <= k < zlen m ->
    ip_value <$> m !! Z.to_nat k = Some NO_IP \/ k <> gateway_ip_slot sh /\ used_by_drive sh k = false ->
    slot_assigned sh (set_ip_mac_map (<[Z.to_nat k := mkIpMac ip (replicate 6 0xFF)]> m) sh) k ip) as Hset.
  { intros k Hk Hre. split; simpl; fold m; [done| | |done|right].
    - by rewrite list_lookup_insert_eq by lia.
    - intros j Hj. by rewrite list_lookup_insert_ne by done.
    - rewrite list_lookup_insert_eq by lia. by split. }
  apply find_ip_spec in Ef as [(j & e & Hj & Hip & -> & Hne)|(-> & Hother & Hfree)]; [| |lia|lia|by right].
  - pose proof (lookup_lt_Some _ _ _ Hj) as Hlt. rewrite Z.add_0_l in *.
    destruct (Z.eqb_spec (Z.of_nat j) NO_SLOT); [lia|]. cbn [negb andb].
    destruct (Z.eqb_spec (Z.of_nat j) f); [lia|]. rewrite andb_false_r. intros [= <- <-]. left.
    split; fold m; [lia| |done|by destruct sh|by left].
    rewrite Nat2Z.id, Hj. cbn. by rewrite Hip.
  - cbn [Z.eqb Pos.eqb]. destruct Hfree as [[-> Hno]|(j & e & Hj & Hip & ->)].
    + cbn [Z.eqb Pos.eqb negb].
      destruct (reusable_slot_spec sh (length m) 0) as [[-> Hk]|(H1 & H2 & H3)].
      * cbn [Z.eqb Pos.eqb negb andb]. intros [= <- <-]. right. split_and!; [done|done| |].
        -- apply Forall_forall. intros e He. rewrite Forall_forall in Hother, Hno. auto.
        -- intros k Hr. apply Hk. lia.
      * set (k := reusable_slot (length m) 0 sh) in *.
        destruct (Z.eqb_spec k NO_SLOT); [lia|]. cbn [negb andb]. rewrite Z.eqb_refl.
        intros [= <- <-]. left. apply Hset; [lia|by right].
    + pose proof (lookup_lt_Some _ _ _ Hj) as Hlt. rewrite Z.add_0_l.
      destruct (Z.eqb_spec (Z.of_nat j) NO_SLOT) as [|Hn]; [lia|]. cbn [negb].
      rewrite (proj2 (Z.eqb_neq _ _) Hn). cbn [negb andb]. rewrite Z.eqb_refl.
      intros [= <- <-]. left. apply Hset; [lia|left]. rewrite Nat2Z.id, Hj. cbn. by rewrite Hip.
Qed.

(** A slot of the table of addresses is assigned to an address so that the
    table maps the slot to the address; no slot that holds the address of the
    gateway or of a drive is touched, and there is none just when every slot
    holds another address and is the gateway's or named by a drive record. *)
Theorem assign_slot_spec sh ip i sh' : zlen (ip_mac_map sh) < NO_SLOT ->
  assign_remote_ip_addr_slot sh ip = (i, sh') ->
  slot_assigned sh sh' i ip
  \/ (i = NO_SLOT /\ sh' = sh
      /\ Forall (fun e => ip_value e <> ip /\ ip_value e <> NO_IP) (ip_mac_map sh)
      /\ forall k, 0 <= k < zlen (ip_mac_map sh) ->
           k = gateway_ip_slot sh \/ used_by_drive sh k = true).
Proof. apply assign_slot_cases. Qed.
