(* ===== verification/Setup.v ===== *)
(** * Setup: installing, mounting, unmounting and uninstalling (netmount.c,
    shared/shdata.h, shared/exitcode.h)

    NETMOUNT is a program of DOS that stays resident after INSTALL; its other
    commands are runs of the same program that find the resident copy by the
    multiplex interrupt and change its shared data.  [program] is an image of
    the program in memory, [machine] what the commands read and change of the
    PC.  DOS, the other programs and the packet drivers are parameters: [Dos]
    and [PacketDriver].  Messages are left out; the functions return the exit
    code of the process. *)
From S2P Require Import Prelude Words Checksum Fcb Resident Network Redirector Args.

(** ** Exit codes (exitcode.h) and defaults (shdata.h) *)

Abbreviation EXIT_OK := 0 (only parsing).
Abbreviation EXIT_MISSING_ARG := 2 (only parsing).
Abbreviation EXIT_UNKNOWN_CMD := 3 (only parsing).
Abbreviation EXIT_UNKNOWN_ARG := 4 (only parsing).
Abbreviation EXIT_BAD_DRIVE_LETTER := 5 (only parsing).
Abbreviation EXIT_BAD_NET_MASK := 6 (only parsing).
Abbreviation EXIT_BAD_ARG := 7 (only parsing).
Abbreviation EXIT_UNSUPPORTED_DOS := (-1) (only parsing).
Abbreviation EXIT_ALREADY_INSTALLED := (-2) (only parsing).
Abbreviation EXIT_NOT_FREE_MULTIPLEX := (-3) (only parsing).
Abbreviation EXIT_PKTDRV_INIT_FAILED := (-4) (only parsing).
Abbreviation EXIT_NOT_INSTALLED := (-5) (only parsing).
Abbreviation EXIT_DRIVE_LETTER_ALREADY_USED := (-6) (only parsing).
Abbreviation EXIT_NOT_FREE_SLOT_FOR_REMOTE_IP := (-7) (only parsing).
Abbreviation EXIT_DRIVE_NOT_MOUNTED := (-8) (only parsing).
Abbreviation EXIT_DRIVE_MOUNTED := (-9) (only parsing).
Abbreviation EXIT_NOT_LAST_IN_INT2F_CHAIN := (-10) (only parsing).
Abbreviation EXIT_INCOMPATIBLE_VERSION := (-11) (only parsing).

Abbreviation ABI_VERSION := 2 (only parsing).
Abbreviation MIN_COMPATIBLE_ABI_VERSION := 1 (only parsing).
Definition NETMOUNT_VERSION : bytes := str "1.8.1".
Abbreviation DRIVE_PROTO_UDP_PORT := 12200 (only parsing).
Abbreviation MAX_PKT_INT := 0x80 (only parsing).
Abbreviation MIN_PKT_INT := 0x60 (only parsing).
Abbreviation MAX_MTU := 1500 (only parsing).
Abbreviation MIN_MTU := 560 (only parsing).
Abbreviation DEFAULT_MTU := 1500 (only parsing).
Abbreviation MAX_RCV_TMO_SEC := 56 (only parsing).
Abbreviation MIN_RCV_TMO_SEC := 1 (only parsing).
Abbreviation DEFAULT_MIN_RCV_TMO_SEC := 1 (only parsing).
Abbreviation DEFAULT_MAX_RCV_TMO_SEC := 5 (only parsing).
Abbreviation MAX_MAX_RETRIES := 254 (only parsing).
Abbreviation MIN_MAX_RETRIES := 0 (only parsing).
Abbreviation DEFAULT_MAX_RETRIES := 4 (only parsing).
Abbreviation MAX_MIN_READ_LEN := 64 (only parsing).
Abbreviation DEFAULT_MIN_READ_LEN := 64 (only parsing).
Abbreviation DEFAULT_ENABLED_CHECKSUMS := 3 (only parsing).
Abbreviation DOS_CDSFLAG_NETWDRV := 0x8000 (only parsing).
Abbreviation DOS_CDSFLAG_PHYSDRV := 0x4000 (only parsing).
Abbreviation PKTDRV_ERROR_BAD_ADDRESS := 14 (only parsing).

(** A far pointer. *)
Definition MK_FP (segment offset : Z) : Z := segment * 2 ^ 16 + offset.

(** ** The program in memory *)

(** The members of [shared_data] that only the commands use. *)
Record install_data := mkInstall {
  abi_version : Z;
  min_compatible_abi_version : Z;
  netmount_version : bytes;
  requested_pktdrv_int : Z;
  used_pktdrv_int : Z;
  arp_pkthandle : Z;
  ipv4_pkthandle : Z;
  psp_segment : Z;
  int2F_redirector_offset : Z;
  saved_INT2F_handler : Z;
  pktdrv_INT_handler : Z;
}.

(** The variables of the resident part: those the handlers use, the rest of the
    shared data, and the globals of the two chained handlers. *)
Record program := mkProgram {
  variables : client;
  install_info : install_data;
  global_orig_INT2F_handler : Z;
  global_pktdrv_INT_handler : Z;
  global_my_2Fmux_id : Z;
}.

(** The file is loaded with zeros in all variables ([db size dup (0)]). *)
Definition loaded_drive : drive_info := mkDriveInfo 0 0 0 0 0 0 0.
Definition loaded_shared : shared_data :=
  mkShared (replicate MAX_DRIVES_COUNT 0) (replicate MAX_DRIVES_COUNT loaded_drive) 0 0 0 0 0 0
    (replicate 4 (mkIpMac 0 (replicate 6 0))) (replicate 6 0) 0 0 0 (replicate 4 0).
Definition loaded_program : program :=
  mkProgram
    (mkClient loaded_shared (replicate (Z.to_nat MAX_FRAMESIZE) 0) 0
       (replicate (Z.to_nat MAX_FRAMESIZE) 0) (replicate 42 0) 0 0 0
       (mkFileBuffer 0 0 0 0 0 (replicate (Z.to_nat FILE_BUFFER_SIZE) 0)))
    (mkInstall 0 0 (replicate 8 0) 0 0 0 0 0 0 0 0) 0 0 0.

Definition prog_shared (p : program) : shared_data := shared (variables p).
Definition upd_variables (f : client -> client) (p : program) : program :=
  mkProgram (f (variables p)) (install_info p) (global_orig_INT2F_handler p)
    (global_pktdrv_INT_handler p) (global_my_2Fmux_id p).
Definition upd_shared (f : shared_data -> shared_data) : program -> program :=
  upd_variables (fun c => set_shared (f (shared c)) c).
Definition upd_install (f : install_data -> install_data) (p : program) : program :=
  mkProgram (variables p) (f (install_info p)) (global_orig_INT2F_handler p)
    (global_pktdrv_INT_handler p) (global_my_2Fmux_id p).
Definition set_orig_handler h (p : program) : program :=
  mkProgram (variables p) (install_info p) h (global_pktdrv_INT_handler p) (global_my_2Fmux_id p).
Definition set_pktdrv_handler h (p : program) : program :=
  mkProgram (variables p) (install_info p) (global_orig_INT2F_handler p) h (global_my_2Fmux_id p).
Definition set_mux_id i (p : program) : program :=
  mkProgram (variables p) (install_info p) (global_orig_INT2F_handler p)
    (global_pktdrv_INT_handler p) i.

(** *** Assignments to shared data *)

Definition set_drives m ds (sh : shared_data) :=
  mkShared m ds (local_ipv4 sh) (net_mask sh) (local_port sh) (disable_sending_arp_request sh)
    (gateway_ip_slot sh) (interface_mtu sh) (ip_mac_map sh) (local_mac_addr sh)
    (last_remote_ip sh) (last_remote_udp_port sh) (server_response_received sh)
    (has_drive_extended_features sh).
Definition set_net ip mask port no_arp gw mtu (sh : shared_data) :=
  mkShared (drive_map sh) (drive_infos sh) ip mask port no_arp gw mtu (ip_mac_map sh)
    (local_mac_addr sh) (last_remote_ip sh) (last_remote_udp_port sh)
    (server_response_received sh) (has_drive_extended_features sh).
Definition set_local_ipv4 x sh := set_net x (net_mask sh) (local_port sh)
  (disable_sending_arp_request sh) (gateway_ip_slot sh) (interface_mtu sh) sh.
Definition set_net_mask x sh := set_net (local_ipv4 sh) x (local_port sh)
  (disable_sending_arp_request sh) (gateway_ip_slot sh) (interface_mtu sh) sh.
Definition set_local_port x sh := set_net (local_ipv4 sh) (net_mask sh) x
  (disable_sending_arp_request sh) (gateway_ip_slot sh) (interface_mtu sh) sh.
Definition set_no_arp x sh := set_net (local_ipv4 sh) (net_mask sh) (local_port sh) x
  (gateway_ip_slot sh) (interface_mtu sh) sh.
Definition set_gateway_ip_slot x sh := set_net (local_ipv4 sh) (net_mask sh) (local_port sh)
  (disable_sending_arp_request sh) x (interface_mtu sh) sh.
Definition set_interface_mtu x sh := set_net (local_ipv4 sh) (net_mask sh) (local_port sh)
  (disable_sending_arp_request sh) (gateway_ip_slot sh) x sh.
Definition set_local_mac_addr x (sh : shared_data) :=
  mkShared (drive_map sh) (drive_infos sh) (local_ipv4 sh) (net_mask sh) (local_port sh)
    (disable_sending_arp_request sh) (gateway_ip_slot sh) (interface_mtu sh) (ip_mac_map sh)
    x (last_remote_ip sh) (last_remote_udp_port sh) (server_response_received sh)
    (has_drive_extended_features sh).

Definition set_pktdrv_ints requested used (d : install_data) :=
  mkInstall (abi_version d) (min_compatible_abi_version d) (netmount_version d) requested used
    (arp_pkthandle d) (ipv4_pkthandle d) (psp_segment d) (int2F_redirector_offset d)
    (saved_INT2F_handler d) (pktdrv_INT_handler d).
Definition set_pkthandles arp ipv4 (d : install_data) :=
  mkInstall (abi_version d) (min_compatible_abi_version d) (netmount_version d)
    (requested_pktdrv_int d) (used_pktdrv_int d) arp ipv4 (psp_segment d)
    (int2F_redirector_offset d) (saved_INT2F_handler d) (pktdrv_INT_handler d).

(** ** The machine *)

(** A directory entry of DOS for a drive letter; 67 characters of path. *)
Record dos_current_dir := mkCds { cds_flags : Z; current_path : bytes }.

(** What the commands call: AX, BX, CX and DX after the installation check of
    another program with a multiplex id, DOS, and the memory of interrupt
    handlers. *)
Class Dos := {
  dos_version : Z * Z;
  mux_other : Z -> Z * Z * Z * Z;
  pktdrv_vector : Z -> Z;
  code_at : Z -> bytes;
  (* "DOS 3.0+ - GET CURRENT PSP ADDRESS", CS and the offset of the handler *)
  current_psp : Z;
  program_cs : Z;
  redirector_offset : Z;
  env_segment : Z;
}.

(** The packet driver behind a far pointer: a carry flag with DH, or the
    results.  [P] is the state of the drivers. *)
Class PacketDriver (P : Type) := {
  access_type : Z -> Z -> P -> (Z + Z) * P;
  release_type : Z -> Z -> P -> Z * P;
  get_address : Z -> Z -> P -> (Z + Z * bytes) * P;
}.

(** [cds_ptr] is [None] for the pointer FFFF:FFFF of some emulators; [freed]
    lists the blocks of memory given back. *)
Record machine (P : Type) := mkMachine {
  resident : option program;
  int2F_vector : Z;
  last_drive : Z;
  cds_ptr : option (list dos_current_dir);
  drivers : P;
  freed : list Z;
}.
Arguments mkMachine {P}. Arguments resident {P}. Arguments int2F_vector {P}.
Arguments last_drive {P}. Arguments cds_ptr {P}. Arguments drivers {P}. Arguments freed {P}.

(** A run of the program: the machine and the program's own image. *)
Record process (P : Type) := mkProcess { pc_of : machine P; own : program }.
Arguments mkProcess {P}. Arguments pc_of {P}. Arguments own {P}.

(** ** The commands *)

(** The signature of the installation check: 'JA', 'RO', 'NM'. *)
Definition SIGNATURE : Z * Z * Z := (0x4A41, 0x524F, 0x4E4D).
Definition PKTDRV_SIGNATURE : bytes := str "PKT DRVR" ++ [CH_NUL].

Section Commands.
Context {P : Type} `{DOS : !Dos, PKT : !PacketDriver P}.

Abbreviation RUN := (C (process P)).

Definition get_machine {A} (f : machine P -> A) : RUN A := reads (fun s => f (pc_of s)).
Definition get_own {A} (f : program -> A) : RUN A := reads (fun s => f (own s)).
Definition upd_machine (f : machine P -> machine P) : RUN unit :=
  writes (fun s => mkProcess (f (pc_of s)) (own s)).
Definition upd_own (f : program -> program) : RUN unit :=
  writes (fun s => mkProcess (pc_of s) (f (own s))).

Definition set_resident r (m : machine P) :=
  mkMachine r (int2F_vector m) (last_drive m) (cds_ptr m) (drivers m) (freed m).
Definition set_int2F_vector v (m : machine P) :=
  mkMachine (resident m) v (last_drive m) (cds_ptr m) (drivers m) (freed m).
Definition set_cds_ptr a (m : machine P) :=
  mkMachine (resident m) (int2F_vector m) (last_drive m) a (drivers m) (freed m).
Definition set_drivers (d : P) (m : machine P) :=
  mkMachine (resident m) (int2F_vector m) (last_drive m) (cds_ptr m) d (freed m).
Definition free_memory segment (m : machine P) :=
  mkMachine (resident m) (int2F_vector m) (last_drive m) (cds_ptr m) (drivers m)
    (segment :: freed m).

(** *** Finding the resident program *)

(** INT 2Fh with AL = 0: the resident handler answers for its own id
    (int2F_redirector). *)
Definition mux_check (m : machine P) (id : Z) : Z * Z * Z * Z :=
  match resident m with
  | Some p => if id =? global_my_2Fmux_id p then (0xFF, SIGNATURE.1.1, SIGNATURE.1.2, SIGNATURE.2)
              else mux_other id
  | None => mux_other id
  end.

(** The loop over the [ids] from AH on; [free_id] is the last free one. *)
Fixpoint scan_ids (m : machine P) (ids : nat) (ah free_id : Z) : bool * Z :=
  match ids with
  | O => (false, free_id)
  | S ids =>
      let '(al, bx, cx, dx) := mux_check m ah in
      if al =? 0 then scan_ids m ids (ah + 1) ah
      else if (al =? 0xFF) && bool_decide ((bx, cx, dx) = SIGNATURE) then (true, ah)
      else scan_ids m ids (ah + 1) free_id
  end.
(** Whether it is installed, and the id. *)
Definition get_install_info (m : machine P) : bool * Z := scan_ids m 64 0xC0 0.

(** INT 2Fh with AL = 1 and BX = 1: what the resident program points to.  Only
    a program with its signature is asked; the memory of another is not known
    here. *)
Definition get_installed (m : machine P) (id : Z) : option program :=
  match resident m with
  | Some p => if id =? global_my_2Fmux_id p then Some p else None
  | None => None
  end.

Definition check_netmount_compatibility (p : program) : Z :=
  if negb (abi_version (install_info p) =? ABI_VERSION) then EXIT_INCOMPATIBLE_VERSION else EXIT_OK.

(** The start of all commands but INSTALL. *)
Definition with_installed (k : program -> RUN Z) : RUN Z :=
  let! '(installed, multiplex_id) := get_machine get_install_info in
  if negb installed then pure EXIT_NOT_INSTALLED
  else
    let! p := get_machine (fun m => get_installed m multiplex_id) in
    match p with
    | None => fun _ => Overrun
    | Some p =>
        let exit_code := check_netmount_compatibility p in
        if negb (exit_code =? EXIT_OK) then pure exit_code else k p
    end.

Definition upd_resident (f : shared_data -> shared_data) : RUN unit :=
  upd_machine (fun m => set_resident (upd_shared f <$> resident m) m).

(** *** The current directory structures *)

(** The index of the entry. *)
Definition get_cds (drive_no : Z) (m : machine P) : option Z :=
  match cds_ptr m with
  | None => None
  | Some _ => if last_drive m <? drive_no then None else Some drive_no
  end.

(** [cds_array[i]], read and written: the array ends where DOS ends it. *)
Definition read_cds (i : Z) : RUN dos_current_dir :=
  fun s => match cds_ptr (pc_of s) with
           | Some cds => match cds !! Z.to_nat i with
                         | Some e => Done (e, s)
                         | None => Overrun
                         end
           | None => Overrun
           end.
Definition write_cds (i : Z) (f : dos_current_dir -> dos_current_dir) : RUN unit :=
  let! e := read_cds i in
  upd_machine (fun m => set_cds_ptr ((fun cds => <[Z.to_nat i := f e]> cds) <$> cds_ptr m) m).

Definition set_cds_flags x (e : dos_current_dir) := mkCds x (current_path e).

(** *** UMOUNT *)

Definition set_remote_ip_idx x (d : drive_info) :=
  mkDriveInfo x (remote_port d) (min_rcv_tmo_18_2_ticks_shr_2 d) (max_rcv_tmo_18_2_ticks_shr_2 d)
    (max_request_retries d) (enabled_checksums d) (min_server_read_len d).

Definition unmounted (drive_no : nat) (sh : shared_data) : shared_data :=
  set_drives (<[drive_no := 0xFF]> (drive_map sh))
    (alter (set_remote_ip_idx NO_SLOT) drive_no (drive_infos sh)) sh.

Definition umount (drive_no : nat) : RUN Z :=
  let! cds := get_machine (get_cds (Z.of_nat drive_no)) in
  match cds with
  | None => pure 1
  | Some i =>
      do! write_cds i (set_cds_flags 0) in
      do! upd_resident (unmounted drive_no) in
      pure 0
  end.

(** [shared_data_ptr->drive_map[drive_no] != 0xFF] *)
Definition is_mounted (sh : shared_data) (drive_no : nat) : bool :=
  negb (nth drive_no (drive_map sh) 0xFF =? 0xFF).

(** The loop of UMOUNT /ALL over the [drives] last drives. *)
Fixpoint umount_all (drives : nat) (retval : Z) : RUN Z :=
  match drives with
  | O => pure retval
  | S drives =>
      let drive_no := (MAX_DRIVES_COUNT - S drives)%nat in
      let! p := get_machine resident in
      match p with
      | Some p =>
          if is_mounted (prog_shared p) drive_no then
            let! r := umount drive_no in umount_all drives (Z.lor retval r)
          else umount_all drives retval
      | None => fun _ => Overrun
      end
  end.

Definition umount_command (argv : list bytes) : RUN Z :=
  with_installed (fun p =>
    if negb (length argv =? 3)%nat then pure EXIT_BAD_ARG
    else
      let arg := nth 2 argv [] in
      if is_word "/ALL" arg then umount_all MAX_DRIVES_COUNT EXIT_OK
      else
        let drive_no := drive_to_num (byte_at arg 0) in
        if 26 <=? drive_no then pure EXIT_BAD_DRIVE_LETTER
        else if negb (is_mounted (prog_shared p) (Z.to_nat drive_no))
        then pure EXIT_DRIVE_NOT_MOUNTED
        else umount (Z.to_nat drive_no)).

(** *** UNINSTALL *)

Definition release (handler handle : Z) : RUN unit :=
  upd_machine (fun m => set_drivers (release_type handler handle (drivers m)).2 m).

Definition uninstall_command (argv : list bytes) : RUN Z :=
  with_installed (fun p =>
    let d := install_info p in
    if negb (length argv =? 2)%nat then pure EXIT_BAD_ARG
    else
      let! v := get_machine int2F_vector in
      if negb (v =? MK_FP (psp_segment d) (int2F_redirector_offset d))
      then pure EXIT_NOT_LAST_IN_INT2F_CHAIN
      else if existsb (is_mounted (prog_shared p)) (seq 0 MAX_DRIVES_COUNT)
      then pure EXIT_DRIVE_MOUNTED
      else
        do! upd_machine (set_int2F_vector (saved_INT2F_handler d)) in
        do! upd_own (set_pktdrv_handler (pktdrv_INT_handler d)) in
        do! release (pktdrv_INT_handler d) (ipv4_pkthandle d) in
        do! release (pktdrv_INT_handler d) (arp_pkthandle d) in
        do! upd_machine (fun m => set_resident None (free_memory (psp_segment d) m)) in
        pure EXIT_OK).

(** *** MOUNT *)

Record mount_args := mkMount {
  mount_drive_set : bool;
  mo_remote_ip : Z;
  mo_remote_port : Z;
  mo_remote_drive_no : Z;
  mo_drive_no : Z;
  mo_min_rcv_tmo_sec : Z;
  mo_max_rcv_tmo_sec : Z;
  mo_max_request_retries : Z;
  mo_enabled_checksums : Z;
  mo_min_server_read_len : Z;
}.
Definition mount_defaults : mount_args :=
  mkMount false 0 DRIVE_PROTO_UDP_PORT 0 0 DEFAULT_MIN_RCV_TMO_SEC DEFAULT_MAX_RCV_TMO_SEC
    DEFAULT_MAX_RETRIES DEFAULT_ENABLED_CHECKSUMS DEFAULT_MIN_READ_LEN.

Definition set_mount_options min_tmo max_tmo retries checksums read_len (o : mount_args) :=
  mkMount (mount_drive_set o) (mo_remote_ip o) (mo_remote_port o) (mo_remote_drive_no o)
    (mo_drive_no o) min_tmo max_tmo retries checksums read_len.
Definition set_mount_drive ip port remote_drive drive (o : mount_args) :=
  mkMount true ip port remote_drive drive (mo_min_rcv_tmo_sec o) (mo_max_rcv_tmo_sec o)
    (mo_max_request_retries o) (mo_enabled_checksums o) (mo_min_server_read_len o).

(** The list of CHECKSUMS; every turn reads a name, so that the length of the
    argument bounds the turns. *)
Fixpoint parse_checksums (turns : nat) (ptr : bytes) (enabled : Z) : option Z :=
  match turns with
  | O => None
  | S turns =>
      let ended n := (byte_at ptr n =? CH_NUL) || (byte_at ptr n =? CH_COMMA) in
      let next n enabled :=
        parse_checksums turns (drop (if byte_at ptr n =? CH_COMMA then S n else n) ptr) enabled in
      if byte_at ptr 0 =? CH_NUL then Some enabled
      else if has_prefix "IP_HEADER" ptr && ended 9%nat
      then next 9%nat (Z.lor enabled CHECKSUM_IP_HEADER)
      else if has_prefix "NETMOUNT" ptr && ended 8%nat
      then next 8%nat (Z.lor enabled CHECKSUM_NETMOUNT_PROTO)
      else None
  end.

Definition in_sec_range (x : Z) : bool := negb ((x <? MIN_RCV_TMO_SEC) || (MAX_RCV_TMO_SEC <? x)).

(** One of the options: the exit code, or what is set. *)
Definition mount_option (arg : bytes) (o : mount_args) : Z + mount_args :=
  let name := drop 1 arg in
  if has_prefix "CHECKSUMS:" name then
    match parse_checksums (S (length arg)) (drop 11 arg) 0 with
    | Some x => inr (set_mount_options (mo_min_rcv_tmo_sec o) (mo_max_rcv_tmo_sec o)
                       (mo_max_request_retries o) x (mo_min_server_read_len o) o)
    | None => inl EXIT_BAD_ARG
    end
  else if has_prefix "MIN_RCV_TMO:" name then
    let x := (strto_ui16 (drop 13 arg)).1 in
    if negb (in_sec_range x) then inl EXIT_BAD_ARG
    else inr (set_mount_options x (mo_max_rcv_tmo_sec o) (mo_max_request_retries o)
                (mo_enabled_checksums o) (mo_min_server_read_len o) o)
  else if has_prefix "MAX_RCV_TMO:" name then
    let x := (strto_ui16 (drop 13 arg)).1 in
    if negb (in_sec_range x) then inl EXIT_BAD_ARG
    else inr (set_mount_options (mo_min_rcv_tmo_sec o) x (mo_max_request_retries o)
                (mo_enabled_checksums o) (mo_min_server_read_len o) o)
  else if has_prefix "MAX_RETRIES:" name then
    let '(x, endptr) := strto_ui16 (drop 13 arg) in
    let tmp := i16 x in
    if nothing_read (drop 13 arg) endptr || (MAX_MAX_RETRIES <? tmp) || (tmp <? MIN_MAX_RETRIES)
    then inl EXIT_BAD_ARG
    else inr (set_mount_options (mo_min_rcv_tmo_sec o) (mo_max_rcv_tmo_sec o) (u8 tmp)
                (mo_enabled_checksums o) (mo_min_server_read_len o) o)
  else if has_prefix "MIN_READ_LEN:" name then
    let '(x, endptr) := strto_ui16 (drop 14 arg) in
    let len := u8 x in
    if nothing_read (drop 14 arg) endptr || (MAX_MIN_READ_LEN <? len)
       || negb (Z.land len (len - 1) =? 0)
    then inl EXIT_BAD_ARG
    else inr (set_mount_options (mo_min_rcv_tmo_sec o) (mo_max_rcv_tmo_sec o)
                (mo_max_request_retries o) (mo_enabled_checksums o) len o)
  else inl EXIT_UNKNOWN_ARG.

(** "<ipv4_addr>[:port]/<remote_drive>": address, port (the one before, if
    there is none) and drive. *)
Definition mount_target (arg : bytes) (port : Z) : Z + Z * Z * Z :=
  match parse_ipv4_addr arg with
  | None => inl EXIT_BAD_ARG
  | Some (ip, endptr) =>
      let port_given := byte_at endptr 0 =? CH_COLON in
      let '(port, endptr) :=
        if port_given then strto_ui16 (drop 1 endptr) else (port, endptr) in
      if port_given && (port =? 0) then inl EXIT_BAD_ARG
      else if negb (byte_at endptr 0 =? CH_SLASH) then inl EXIT_BAD_ARG
      else
        let remote_drive_no := drive_to_num (byte_at endptr 1) in
        if 26 <=? remote_drive_no then inl EXIT_BAD_DRIVE_LETTER
        else inr (ip, port, remote_drive_no)
  end.

(** The loop over the arguments. *)
Fixpoint parse_mount_args (args : list bytes) (o : mount_args) : Z + mount_args :=
  match args with
  | [] => inr o
  | arg :: args =>
      if byte_at arg 0 =? CH_SLASH then
        match mount_option arg o with
        | inl exit_code => inl exit_code
        | inr o => parse_mount_args args o
        end
      else
        match mount_target arg (mo_remote_port o) with
        | inl exit_code => inl exit_code
        | inr (ip, port, remote_drive_no) =>
            match args with
            | [] => inl EXIT_BAD_ARG
            | local :: args =>
                let drive_no := drive_to_num (byte_at local 0) in
                if 26 <=? drive_no then inl EXIT_BAD_DRIVE_LETTER
                else parse_mount_args args (set_mount_drive ip port remote_drive_no drive_no o)
            end
        end
  end.

(** "Convert timeouts to 18.2 Hz ticks (2 least significant bits ignored)." *)
Definition tmo_ticks (sec : Z) : Z := u8 (Z.shiftr (u16 (sec * 182) / 10) 2).

(** The entry of [drives], and the shared data with the drive mounted. *)
Definition mounted_drive (o : mount_args) (slot : Z) : drive_info :=
  mkDriveInfo slot (mo_remote_port o) (tmo_ticks (mo_min_rcv_tmo_sec o))
    (tmo_ticks (mo_max_rcv_tmo_sec o)) (mo_max_request_retries o) (mo_enabled_checksums o)
    (mo_min_server_read_len o).
Definition mounted (o : mount_args) (slot : Z) (sh : shared_data) : shared_data :=
  let i := Z.to_nat (mo_drive_no o) in
  set_extended_features (set_drive_ext (mo_drive_no o) 0 (has_drive_extended_features sh))
    (set_drives (<[i := mo_remote_drive_no o]> (drive_map sh))
       (<[i := mounted_drive o slot]> (drive_infos sh)) sh).

Definition mounted_cds (drive_no : Z) (e : dos_current_dir) : dos_current_dir :=
  mkCds (Z.lor DOS_CDSFLAG_NETWDRV DOS_CDSFLAG_PHYSDRV)
    (write_at 0 [CH_A + drive_no; CH_COLON; CH_BACKSLASH; CH_NUL] (current_path e)).

Definition mount_command (argv : list bytes) : RUN Z :=
  with_installed (fun p =>
    match parse_mount_args (drop 2 argv) mount_defaults with
    | inl exit_code => pure exit_code
    | inr o =>
        if negb (mount_drive_set o) then pure EXIT_MISSING_ARG
        else
          let! cds := get_machine (get_cds (mo_drive_no o)) in
          match cds with
          | None => pure 1
          | Some i =>
              let! e := read_cds i in
              if negb (cds_flags e =? 0) then pure EXIT_DRIVE_LETTER_ALREADY_USED
              else
                let '(remote_ip_idx, sh) := assign_remote_ip_addr_slot (prog_shared p) (mo_remote_ip o) in
                do! upd_resident (fun _ => sh) in
                if remote_ip_idx =? NO_SLOT then pure EXIT_NOT_FREE_SLOT_FOR_REMOTE_IP
                else
                  do! upd_resident (mounted o remote_ip_idx) in
                  do! write_cds i (mounted_cds (mo_drive_no o)) in
                  pure EXIT_OK
          end
    end).

(** *** INSTALL *)

(** [pktdrv_register_type]: DH, or 0 with the handle stored. *)
Definition pktdrv_register_type (packet_type : Z) (store : Z -> install_data -> install_data)
  : RUN Z :=
  let! handler := get_own global_pktdrv_INT_handler in
  let! '(r, d) := get_machine (fun m => access_type handler packet_type (drivers m)) in
  do! upd_machine (set_drivers d) in
  match r with
  | inl error_code => pure error_code
  | inr handle => do! upd_own (upd_install (store handle)) in pure 0
  end.

(** [pktdrv_release_type] with one of the handles. *)
Definition release_own (which : install_data -> Z) : RUN unit :=
  let! p := get_own id in
  release (global_pktdrv_INT_handler p) (which (install_info p)).

(** [pktdrv_getaddr]: CX, or the negated DH; the driver writes at most the six
    bytes it is asked for. *)
Definition pktdrv_getaddr : RUN Z :=
  let! p := get_own id in
  let! '(r, d) := get_machine (fun m => get_address (global_pktdrv_INT_handler p)
                                          (ipv4_pkthandle (install_info p)) (drivers m)) in
  do! upd_machine (set_drivers d) in
  match r with
  | inl error_code => pure (- u8 error_code)
  | inr (cx, mac) =>
      do! upd_own (upd_shared (fun sh =>
            set_local_mac_addr (write_at 0 (take 6 mac) (local_mac_addr sh)) sh)) in
      pure (i16 cx)
  end.

(** [pktdrv_init]: 0, or an error code. *)
Definition pktdrv_init (pktdrv_int_num : Z) : RUN Z :=
  let handler := pktdrv_vector pktdrv_int_num in
  if negb (bool_decide (take 9 (drop 3 (code_at handler)) = PKTDRV_SIGNATURE)) then pure 0xFF
  else
    do! upd_own (set_pktdrv_handler handler) in
    let! error_code := pktdrv_register_type (swap_word 0x0806)
                         (fun h d => set_pkthandles h (ipv4_pkthandle d) d) in
    let! error_code :=
      if error_code =? 0 then
        let! error_code := pktdrv_register_type (swap_word 0x0800)
                             (fun h d => set_pkthandles (arp_pkthandle d) h d) in
        if negb (error_code =? 0) then do! release_own arp_pkthandle in pure error_code
        else pure error_code
      else pure error_code in
    if negb (error_code =? 0) then pure error_code
    else
      let! ret := pktdrv_getaddr in
      let! mac := get_own (fun p => local_mac_addr (prog_shared p)) in
      let all_zeros := forallb (fun b => b =? 0) mac in
      let all_FF := forallb (fun b => b =? 0xFF) mac in
      if (ret =? 6) && negb all_zeros && negb all_FF then
        do! upd_own (upd_install (fun d => set_pktdrv_ints (requested_pktdrv_int d) pktdrv_int_num d)) in
        pure 0
      else
        do! release_own ipv4_pkthandle in
        do! release_own arp_pkthandle in
        pure (if 0 <=? ret then PKTDRV_ERROR_BAD_ADDRESS else u8 (- ret)).

(** "detect first packet driver within int MIN_PKT_INT..MAX_PKT_INT": the
    [ints] from [i] on. *)
Fixpoint detect_pktdrv (ints : nat) (i : Z) : RUN unit :=
  match ints with
  | O => pure tt
  | S ints =>
      let! error_code := pktdrv_init i in
      if error_code =? 0 then pure tt else detect_pktdrv ints (i + 1)
  end.

(** One argument: whether the local address is set, and the image. *)
Definition install_option (arg : bytes) (o : bool * program) : Z + bool * program :=
  let '(local_ip_set, p) := o in
  let name := drop 1 arg in
  let address n := match parse_ipv4_addr (drop n arg) with
                   | Some (ip, endptr) => if byte_at endptr 0 =? CH_NUL then Some ip else None
                   | None => None
                   end in
  let set f := inr (local_ip_set, upd_shared f p) in
  if negb (byte_at arg 0 =? CH_SLASH) then inl EXIT_UNKNOWN_ARG
  else if has_prefix "IP:" name then
    match address 4%nat with
    | Some ip => inr (true, upd_shared (set_local_ipv4 ip) p)
    | None => inl EXIT_BAD_ARG
    end
  else if has_prefix "MASK:" name then
    match address 6%nat with
    | Some mask => set (set_net_mask mask)
    | None => inl EXIT_BAD_ARG
    end
  else if has_prefix "GW:" name then
    match address 4%nat with
    | Some gw => set (fun sh => let '(slot, sh) := assign_remote_ip_addr_slot sh gw in
                                set_gateway_ip_slot slot sh)
    | None => inl EXIT_BAD_ARG
    end
  else if has_prefix "PORT:" name then
    let port := (strto_ui16 (drop 6 arg)).1 in
    if port =? 0 then inl EXIT_BAD_ARG else set (set_local_port port)
  else if has_prefix "PKT_INT:" name then
    let i := u8 (strto_ui16 (drop 9 arg)).1 in
    if (i <? MIN_PKT_INT) || (MAX_PKT_INT <? i) then inl EXIT_BAD_ARG
    else inr (local_ip_set, upd_install (fun d => set_pktdrv_ints i (used_pktdrv_int d) d) p)
  else if has_prefix "MTU:" name then
    let mtu := (strto_ui16 (drop 5 arg)).1 in
    if (MAX_MTU <? mtu) || (mtu <? MIN_MTU) then inl EXIT_BAD_ARG else set (set_interface_mtu mtu)
  else if is_word "NO_ARP_REQUESTS" name then set (set_no_arp 1)
  else inl EXIT_UNKNOWN_ARG.

Fixpoint install_options (args : list bytes) (o : bool * program) : Z + bool * program :=
  match args with
  | [] => inr o
  | arg :: args =>
      match install_option arg o with
      | inl exit_code => inl exit_code
      | inr o => install_options args o
      end
  end.

(** The values before the options are read. *)
Definition install_defaults (sh : shared_data) : shared_data :=
  set_net (local_ipv4 sh) 0 DRIVE_PROTO_UDP_PORT 0 NO_SLOT DEFAULT_MTU
    (set_ip_mac_map ((fun e => mkIpMac NO_IP (mac_bytes e)) <$> ip_mac_map sh) sh).

(** The buffers for requests: the constant parts of their headers. *)
Definition arp_request_frame (sh : shared_data) (b : bytes) : bytes :=
  replicate 6 0xFF ++ local_mac_addr sh ++ le16_bytes (swap_word 0x0806)
  ++ le16_bytes (swap_word 1) ++ le16_bytes (swap_word 0x0800) ++ [6; 4]
  ++ le16_bytes (swap_word 1) ++ local_mac_addr sh ++ le32_bytes (local_ipv4 sh)
  ++ replicate 6 0 ++ drop 38 b.
Definition init_buffers (c : client) : client :=
  let sh := shared c in
  set_arp_request_buff (arp_request_frame sh (arp_request_buff c))
    (set_send_buff (write_at 6 (local_mac_addr sh ++ le16_bytes (swap_word 0x0800)) (send_buff c)) c).

(** What INSTALL writes before the program stays resident. *)
Definition install_record (orig_handler : Z) (p : program) (d : install_data) : install_data :=
  mkInstall ABI_VERSION MIN_COMPATIBLE_ABI_VERSION
    (write_at 0 (take 7 NETMOUNT_VERSION) (netmount_version d)) (requested_pktdrv_int d)
    (used_pktdrv_int d) (arp_pkthandle d) (ipv4_pkthandle d) current_psp redirector_offset
    orig_handler (global_pktdrv_INT_handler p).

(** From the packet driver on. *)
Definition stay_resident : RUN Z :=
  do! upd_own (upd_variables init_buffers) in
  do! upd_own (upd_shared (fun sh => set_drives (replicate MAX_DRIVES_COUNT 0xFF) (drive_infos sh) sh)) in
  let! orig := get_machine int2F_vector in
  do! upd_own (set_orig_handler orig) in
  do! upd_machine (set_int2F_vector (MK_FP program_cs redirector_offset)) in
  do! upd_own (fun p => upd_install (install_record orig p) p) in
  do! upd_machine (free_memory env_segment) in
  do! upd_own (upd_variables (set_recv_data_len 0)) in
  let! p := get_own id in
  do! upd_machine (set_resident (Some p)) in
  pure EXIT_OK.

(** From the free multiplex id on. *)
Definition install_as (multiplex_id : Z) (argv : list bytes) : RUN Z :=
  do! upd_own (set_mux_id multiplex_id) in
  if (length argv <? 3)%nat then pure EXIT_MISSING_ARG
  else
    do! upd_own (upd_shared install_defaults) in
    do! upd_own (upd_install (fun d => set_pktdrv_ints 0 (used_pktdrv_int d) d)) in
    let! p := get_own id in
    match install_options (drop 2 argv) (false, p) with
    | inl exit_code => pure exit_code
    | inr (local_ip_set, p) =>
        do! upd_own (fun _ => p) in
        if negb local_ip_set then pure EXIT_MISSING_ARG
        else if negb (valid_net_mask (net_mask (prog_shared p))) then pure EXIT_BAD_NET_MASK
        else
          do! upd_own (upd_variables (set_recv_data_len 1)) in
          do! upd_own (upd_install (fun d => set_pktdrv_ints (requested_pktdrv_int d) 0 d)) in
          let requested := requested_pktdrv_int (install_info p) in
          do! (if requested =? 0 then detect_pktdrv 33 MIN_PKT_INT
               else let! _ := pktdrv_init requested in pure tt) in
          let! used := get_own (fun p => used_pktdrv_int (install_info p)) in
          if used =? 0 then pure EXIT_PKTDRV_INIT_FAILED else stay_resident
    end.

Definition install_command (argv : list bytes) : RUN Z :=
  let! '(installed, multiplex_id) := get_machine get_install_info in
  if installed then pure EXIT_ALREADY_INSTALLED
  else if multiplex_id =? 0 then pure EXIT_NOT_FREE_MULTIPLEX
  else install_as multiplex_id argv.

(** *** main *)

Definition is_help (arg : bytes) : bool :=
  (byte_at arg 0 =? CH_SLASH) && (byte_at arg 1 =? CH_QMARK) && (byte_at arg 2 =? CH_NUL).

(** The exit code; [argv] begins with the name of the program. *)
Definition netmount_main (argv : list bytes) : RUN Z :=
  if existsb is_help (drop 1 argv) then pure EXIT_OK
  else if dos_version.1 <? 5 then pure EXIT_UNSUPPORTED_DOS
  else if (length argv <? 2)%nat then pure EXIT_UNKNOWN_CMD
  else
    let command := nth 1 argv [] in
    if is_word "UNINSTALL" command then uninstall_command argv
    else if is_word "INSTALL" command then install_command argv
    else if is_word "MOUNT" command then mount_command argv
    else if is_word "UMOUNT" command then umount_command argv
    else pure EXIT_UNKNOWN_CMD.

(** A run of the program, loaded from its file. *)
Definition netmount (argv : list bytes) (m : machine P) : outcome (Z * machine P) :=
  match netmount_main argv (mkProcess m loaded_program) with
  | Done (exit_code, s) => Done (exit_code, pc_of s)
  | Overrun => Overrun
  | Waiting => Waiting
  end.
End Commands.
