(* ===== verification/SetupInv.v ===== *)
(** * SetupInv: what the commands of NETMOUNT establish and preserve

    [configured] is what the resident part relies on: buffers of the right
    sizes, tables of the right lengths and drive records whose numbers keep
    its loops finite and its read buffer aligned.  INSTALL establishes it,
    MOUNT and UMOUNT preserve it.  [PacketLaws] states the documented effect
    of the packet driver's calls on the handles it has given out. *)
From stdpp Require Import gmap.
From S2P Require Import Prelude Words Checksum Fcb Resident Network NetworkInv Redirector ReadAhead.
From S2P Require Import Args Setup.

(** ** Configured programs *)

Record drive_fit (d : drive_info) : Prop := {
  df_timeouts : timeouts_ok d;
  df_block : min_server_read_len d = 0 \/ block_size (min_server_read_len d);
  df_retries : 0 <= max_request_retries d <= 254;
}.

(** The array of the read buffer has its size and is filled at most to it. *)
Definition buffer_shape (b : file_buffer) : Prop :=
  zlen (fb_data b) = FILE_BUFFER_SIZE /\ 0 <= valid_bytes b <= FILE_BUFFER_SIZE.

(** Slot [i] is in the table of addresses. *)
Definition in_table (i : Z) : Prop := 0 <= i < 4.

Record configured (sh : shared_data) : Prop := {
  cf_map : length (drive_map sh) = MAX_DRIVES_COUNT;
  cf_drives : length (drive_infos sh) = MAX_DRIVES_COUNT;
  cf_fit : Forall drive_fit (drive_infos sh);
  cf_table : length (ip_mac_map sh) = 4%nat;
  cf_macs : Forall (fun e => length (mac_bytes e) = 6%nat) (ip_mac_map sh);
  cf_local_mac : length (local_mac_addr sh) = 6%nat;
  cf_mtu : MIN_MTU <= interface_mtu sh <= MAX_MTU;
  cf_port : is_u16 (local_port sh) /\ local_port sh <> 0;
  cf_gateway : gateway_ip_slot sh = NO_SLOT \/ in_table (gateway_ip_slot sh);
  cf_mounted : forall i, is_mounted sh i = true ->
    (exists d, drive_infos sh !! i = Some d /\ in_table (remote_ip_idx d)
               /\ is_u16 (remote_port d) /\ remote_port d <> 0)
    /\ nth i (drive_map sh) 0 < 26;
}.

Record program_ok (p : program) : Prop := {
  po_shared : configured (prog_shared p);
  po_buffers : buffers_ok (variables p);
  po_file : buffer_shape (read_file_buffer (variables p));
  po_version : abi_version (install_info p) = ABI_VERSION;
}.

(** What the resident part needs for a drive, whichever it is. *)
Lemma drive_info_fit sh drive : configured sh -> drive_fit (drive_info_of sh drive).
Proof.
  intros Hc. unfold drive_info_of.
  destruct (nth_in_or_default (Z.to_nat drive) (drive_infos sh) (mkDriveInfo 0 0 0 0 0 0 0)) as [Hin| ->].
  - pose proof (cf_fit _ Hc) as Hf. rewrite Forall_forall in Hf. by apply Hf, list_elem_of_In.
  - split; [split; unfold is_byte; cbn; lia|by left|cbn; lia].
Qed.

Lemma program_client_fit p drive : program_ok p -> client_fit drive (variables p).
Proof.
  intros [Hc Hb _ _]. split; [done| |apply Hc].
  apply drive_info_fit. exact Hc.
Qed.

(** ** Computations that were done *)

Lemma andthen_done {S A B} (c : C S A) (k : A -> C S B) s b s2 : andthen c k s = Done (b, s2) ->
  exists a s1, c s = Done (a, s1) /\ k a s1 = Done (b, s2).
Proof. unfold andthen. destruct (c s) as [[a s1]| |]; [|done|done]. by exists a, s1. Qed.

(** ** The numbers of MOUNT *)

Lemma tmo_ticks_byte sec : is_byte (tmo_ticks sec).
Proof. apply u8_range. Qed.

(** The test of MIN_READ_LEN lets pass nothing but 0 and powers of two. *)
Lemma pow2_test len : is_byte len -> (64 <? len) = false -> Z.land len (len - 1) = 0 ->
  len = 0 \/ block_size len.
Proof.
  intros Hb Hm%Z.ltb_ge Hl. unfold is_byte in Hb.
  pose proof (by_enum 65 (fun len => implb (Z.land len (len - 1) =? 0)
    ((len =? 0) || existsb (fun j => len =? 2 ^ j) (seqZ 0 7))) eq_refl len ltac:(lia)) as H.
  cbv beta in H. rewrite Hl in H. cbn [Z.eqb implb] in H.
  apply orb_prop in H as [H%Z.eqb_eq|(j & Hj & H)%existsb_exists]; [by left|right].
  apply list_elem_of_In, elem_of_seqZ in Hj. exists j. split; [lia|by apply Z.eqb_eq].
Qed.

(** More turns than characters change nothing: each turn reads a name. *)
Lemma parse_checksums_enough n : forall m ptr enabled, (length ptr < n)%nat -> (length ptr < m)%nat ->
  parse_checksums n ptr enabled = parse_checksums m ptr enabled.
Proof.
  induction n as [|n IH]; intros [|m] ptr enabled Hn Hm; [lia..|]. cbn [parse_checksums].
  destruct (byte_at ptr 0 =? CH_NUL) eqn:E0; [done|].
  assert (0 < length ptr)%nat as Hl by (destruct ptr; [done|cbn; lia]).
  assert (forall k e, (0 < k)%nat -> parse_checksums n (drop k ptr) e = parse_checksums m (drop k ptr) e) as H.
  { intros k e Hk. apply IH; rewrite length_drop; lia. }
  destruct (_ && _); [apply H; case_match; lia|]. destruct (_ && _); [apply H; case_match; lia|done].
Qed.

(** Arguments that were accepted. *)
Record mount_args_ok (o : mount_args) : Prop := {
  ma_port : is_u16 (mo_remote_port o) /\ mo_remote_port o <> 0;
  ma_remote : 0 <= mo_remote_drive_no o < 26;
  ma_drive : 0 <= mo_drive_no o < 26;
  ma_retries : 0 <= mo_max_request_retries o <= 254;
  ma_block : mo_min_server_read_len o = 0 \/ block_size (mo_min_server_read_len o);
}.

Lemma mount_defaults_ok : mount_args_ok mount_defaults.
Proof.
  split; cbn; unfold is_u16; try lia. right. exists 6. split; [lia|reflexivity].
Qed.

Lemma mount_option_ok arg o o' : mount_args_ok o -> mount_option arg o = inr o' -> mount_args_ok o'.
Proof.
  intros [H1 H2 H3 H4 H5]. unfold mount_option.
  destruct (has_prefix "CHECKSUMS:" _); [case_match; [|done]; by intros [= <-]|].
  destruct (has_prefix "MIN_RCV_TMO:" _); [case_match; [done|]; by intros [= <-]|].
  destruct (has_prefix "MAX_RCV_TMO:" _); [case_match; [done|]; by intros [= <-]|].
  destruct (has_prefix "MAX_RETRIES:" _).
  { destruct (strto_ui16 _) as [x e]. destruct (_ || _) eqn:E; [done|]. intros [= <-].
    apply orb_false_iff in E as [[_ E1%Z.ltb_ge]%orb_false_iff E2%Z.ltb_ge].
    split; try done. cbn. rewrite u8_id by (unfold is_byte; lia). lia. }
  destruct (has_prefix "MIN_READ_LEN:" _); [|done].
  destruct (strto_ui16 _) as [x e]. destruct (_ || _) eqn:E; [done|]. intros [= <-].
  apply orb_false_iff in E as [[_ E1]%orb_false_iff E2%negb_false_iff%Z.eqb_eq].
  split; try done. cbn. apply pow2_test; [apply u8_range|done|done].
Qed.

Lemma drive_to_num_range c : 0 <= drive_to_num c.
Proof. unfold drive_to_num. case_match; apply u8_range. Qed.

Lemma parse_mount_args_ok args : forall o o', mount_args_ok o -> parse_mount_args args o = inr o' ->
  mount_args_ok o'.
Proof.
  induction args as [args IH] using list_length_ind. intros o o' Ho.
  destruct args as [|arg args]; cbn [parse_mount_args]; [by intros [= <-]|].
  destruct (byte_at arg 0 =? CH_SLASH).
  - destruct (mount_option arg o) as [|o1] eqn:Eo; [done|].
    apply IH; [cbn; lia|]. by eapply mount_option_ok.
  - destruct (mount_target _ _) as [|[[ip port] rd]] eqn:Et; [done|].
    destruct args as [|local args]; [done|].
    destruct (Z.leb_spec 26 (drive_to_num (byte_at local 0))); [done|].
    apply IH; [cbn; lia|]. destruct Ho as [H1 H2 H3 H4 H5].
    unfold mount_target in Et. destruct (parse_ipv4_addr arg) as [[ip' e]|]; [|done]. cbv zeta in Et.
    pose proof (drive_to_num_range (byte_at local 0)).
    destruct (byte_at e 0 =? CH_COLON).
    + pose proof (strto_ui16_range (drop 1 e)) as Hr.
      destruct (strto_ui16 (drop 1 e)) as [port' e']. cbn [andb] in Et.
      destruct (Z.eqb_spec port' 0); [done|]. destruct (negb _); [done|].
      destruct (Z.leb_spec 26 (drive_to_num (byte_at e' 1))); [done|]. injection Et as <- <- <-.
      pose proof (drive_to_num_range (byte_at e' 1)). split; try done; cbn; lia.
    + cbn [andb] in Et. destruct (negb _); [done|].
      destruct (Z.leb_spec 26 (drive_to_num (byte_at e 1))); [done|]. injection Et as <- <- <-.
      pose proof (drive_to_num_range (byte_at e 1)). split; try done; cbn; lia.
Qed.

(** ** The shared data after a command *)

Lemma is_mounted_lookup sh i : is_mounted sh i = true <-> exists x, drive_map sh !! i = Some x /\ x <> 0xFF.
Proof.
  unfold is_mounted. rewrite negb_true_iff, Z.eqb_neq.
  destruct (drive_map sh !! i) as [x|] eqn:E.
  - erewrite nth_lookup_Some by done. split; [by exists x|]. by intros (y & [= ->] & Hy).
  - apply lookup_ge_None in E. rewrite nth_overflow by done. split; [done|]. by intros (y & ? & _).
Qed.

(** Changing the table of addresses. *)
Lemma configured_table m sh : configured sh -> length m = 4%nat ->
  Forall (fun e => length (mac_bytes e) = 6%nat) m -> configured (set_ip_mac_map m sh).
Proof. intros [] Hl Hm. by split. Qed.

Lemma assign_table sh ip i sh' : length (ip_mac_map sh) = 4%nat ->
  Forall (fun e => length (mac_bytes e) = 6%nat) (ip_mac_map sh) ->
  assign_remote_ip_addr_slot sh ip = (i, sh') ->
  length (ip_mac_map sh') = 4%nat /\ Forall (fun e => length (mac_bytes e) = 6%nat) (ip_mac_map sh')
  /\ sh' = set_ip_mac_map (ip_mac_map sh') sh /\ (i = NO_SLOT \/ in_table i).
Proof.
  intros Hl Hm E. apply assign_slot_cases in E as [[Hr Hip Ho Hs Hre]|(-> & -> & _)];
    [|split_and!; [done|done|by destruct sh|by left]|rewrite Hl; lia].
  rewrite Hl in Hr. destruct Hre as [->|[He _]]; [split_and!; [done|done|done|by right]|].
  split_and!; [| |done|by right].
  - apply Nat.le_antisymm.
    + apply Nat.nlt_ge. intros Hlt. destruct (ip_mac_map sh' !! 4%nat) eqn:E4.
      * rewrite Ho in E4 by lia. apply lookup_lt_Some in E4. lia.
      * apply lookup_ge_None in E4. lia.
    + destruct (ip_mac_map sh' !! 3%nat) eqn:E3; [apply lookup_lt_Some in E3; lia|].
      destruct (decide (3%nat = Z.to_nat i)) as [E3'|]; [by rewrite <- E3', E3 in He|].
      rewrite Ho in E3 by done. apply lookup_ge_None in E3. lia.
  - apply Forall_lookup. intros j e Hj. destruct (decide (j = Z.to_nat i)) as [->|Hne].
    + rewrite He in Hj. by injection Hj as <-.
    + rewrite Ho in Hj by done. rewrite Forall_lookup in Hm. eauto.
Qed.

Lemma assign_configured sh ip i sh' : configured sh -> assign_remote_ip_addr_slot sh ip = (i, sh') ->
  configured sh' /\ (i = NO_SLOT \/ in_table i).
Proof.
  intros Hc E. apply assign_table in E as (Hl & Hm & -> & Hi); [|apply Hc..].
  split; [|done]. by apply configured_table.
Qed.

Lemma mounted_is_mounted o slot sh i : mount_args_ok o -> configured sh ->
  is_mounted (mounted o slot sh) i = true <-> i = Z.to_nat (mo_drive_no o) \/ is_mounted sh i = true.
Proof.
  intros Ho Hc. rewrite !is_mounted_lookup. cbn.
  pose proof (ma_drive _ Ho). pose proof (cf_map _ Hc) as Hl. pose proof (ma_remote _ Ho).
  destruct (decide (i = Z.to_nat (mo_drive_no o))) as [->|Hne].
  - rewrite list_lookup_insert_eq by lia. split; [by left|]. intros _.
    exists (mo_remote_drive_no o). split; [done|lia].
  - rewrite list_lookup_insert_ne by done. naive_solver.
Qed.

Lemma mounted_configured o slot sh : mount_args_ok o -> configured sh -> in_table slot ->
  configured (mounted o slot sh).
Proof.
  intros Ho Hc Hs. pose proof Hc as [H1 H2 H3 H4 H5 H6 H7 H8 H9 H10].
  pose proof (ma_drive _ Ho) as Hd. split; try done; cbn.
  - by rewrite length_insert.
  - by rewrite length_insert.
  - apply Forall_insert; [done|]. split; cbn; [split; apply tmo_ticks_byte|apply Ho|apply Ho].
  - intros i Hi. apply mounted_is_mounted in Hi; [|done|done].
    destruct (decide (i = Z.to_nat (mo_drive_no o))) as [->|Hne].
    + split.
      * eexists. rewrite list_lookup_insert_eq by lia. split; [done|]. split; [done|apply Ho].
      * erewrite nth_lookup_Some by (apply list_lookup_insert_eq; lia). apply Ho.
    + destruct Hi as [?|Hi]; [done|]. destruct (H10 i Hi) as [(d & Ed & Hr) Hx]. split.
      * exists d. by rewrite list_lookup_insert_ne.
      * apply is_mounted_lookup in Hi as (x & Ex & _). erewrite nth_lookup_Some in Hx by done.
        by erewrite nth_lookup_Some by (by rewrite list_lookup_insert_ne).
Qed.

Lemma unmounted_is_mounted n sh i : is_mounted (unmounted n sh) i = true <-> i <> n /\ is_mounted sh i = true.
Proof.
  rewrite !is_mounted_lookup. cbn. destruct (decide (i = n)) as [->|Hne].
  - split; [|naive_solver]. intros (x & Ex & Hx).
    destruct (decide (n < length (drive_map sh))%nat).
    + rewrite list_lookup_insert_eq in Ex by done. congruence.
    + rewrite list_insert_ge in Ex by lia. apply lookup_lt_Some in Ex. lia.
  - rewrite list_lookup_insert_ne by done. naive_solver.
Qed.

Lemma unmounted_configured n sh : configured sh -> configured (unmounted n sh).
Proof.
  intros Hc. pose proof Hc as [H1 H2 H3 H4 H5 H6 H7 H8 H9 H10]. split; try done; cbn.
  - by rewrite length_insert.
  - by rewrite length_alter.
  - apply Forall_alter; [done|]. intros d _ [Ha Hb Hd]. by split.
  - intros i Hi. apply unmounted_is_mounted in Hi as [Hne Hi].
    destruct (H10 i Hi) as [(d & Ed & Hr) Hx]. split.
    + exists d. by rewrite list_lookup_alter_ne.
    + apply is_mounted_lookup in Hi as (x & Ex & _). erewrite nth_lookup_Some in Hx by done.
      by erewrite nth_lookup_Some by (by rewrite list_lookup_insert_ne).
Qed.

(** ** The commands keep the resident program configured *)

Lemma upd_shared_ok f p : program_ok p -> configured (f (prog_shared p)) -> program_ok (upd_shared f p).
Proof.
  intros [Hc Hb Hfb Hv] Hf. split; [done| |done|done]. destruct Hb as [B1 B2 B3 B4 B5 B6]. destruct Hf. by split.
Qed.

Section Commands.
Context {P : Type} `{DOS : !Dos, PKT : !PacketDriver P}.
Implicit Types (m : machine P) (s : process P).

(** The resident program is in order and answers for itself. *)
Definition machine_ok m : Prop :=
  forall p, resident m = Some p -> program_ok p /\ get_install_info m = (true, global_my_2Fmux_id p).

Lemma scan_ids_same m m' ids : global_my_2Fmux_id <$> resident m' = global_my_2Fmux_id <$> resident m ->
  forall ah free_id, scan_ids m' ids ah free_id = scan_ids m ids ah free_id.
Proof.
  intros E. induction ids as [|ids IH]; intros ah free_id; cbn [scan_ids]; [done|].
  assert (mux_check m' ah = mux_check m ah) as ->.
  { unfold mux_check. destruct (resident m'), (resident m); try discriminate E; [|done].
    by injection E as ->. }
  destruct (mux_check m ah) as [[[al bx] cx] dx]. by rewrite !IH.
Qed.
Lemma get_install_info_same m m' :
  global_my_2Fmux_id <$> resident m' = global_my_2Fmux_id <$> resident m ->
  get_install_info m' = get_install_info m.
Proof. intros E. by apply scan_ids_same. Qed.
Lemma get_install_info_eq m : get_install_info m = scan_ids m 64 0xC0 0.
Proof. done. Qed.
#[local] Opaque get_install_info.

(** The program may be changed where it is. *)
Lemma machine_ok_same m m' p p' : machine_ok m -> resident m = Some p -> resident m' = Some p' ->
  global_my_2Fmux_id p' = global_my_2Fmux_id p -> program_ok p' -> machine_ok m'.
Proof.
  intros Hm Hp Hp' Hx Hok q Hq. rewrite Hp' in Hq. injection Hq as <-. split; [done|].
  rewrite (get_install_info_same m); [rewrite Hx; by apply Hm|]. rewrite Hp, Hp'. cbn. by rewrite Hx.
Qed.
Lemma machine_ok_kept m m' : machine_ok m -> resident m' = resident m -> machine_ok m'.
Proof.
  intros Hm E q Hq. rewrite E in Hq. destruct (Hm q Hq) as [Hok Hf]. split; [done|].
  rewrite (get_install_info_same m); [done|]. by rewrite E.
Qed.

(** [c] keeps the invariant. *)
Definition steady {A} (c : C (process P) A) : Prop :=
  hoare (fun s => machine_ok (pc_of s)) c (fun _ s => machine_ok (pc_of s)).

Lemma steady_pure {A} (a : A) : steady (pure a).
Proof. by apply hoare_pure. Qed.
Lemma steady_bind {A B} (c : C (process P) A) (k : A -> C (process P) B) :
  steady c -> (forall a, steady (k a)) -> steady (andthen c k).
Proof. intros Hc Hk. by eapply hoare_bind. Qed.
Lemma steady_reads {A} (f : process P -> A) : steady (reads f).
Proof. by apply hoare_reads. Qed.
Lemma steady_machine f : (forall m, machine_ok m -> machine_ok (f m)) -> steady (upd_machine f).
Proof. intros Hf. apply hoare_writes. intros s. apply Hf. Qed.
Lemma steady_own f : steady (@upd_own P f).
Proof. by apply hoare_writes. Qed.
Lemma steady_if {A} (b : bool) (c c' : C (process P) A) :
  (b = true -> steady c) -> (b = false -> steady c') -> steady (if b then c else c').
Proof. destruct b; auto. Qed.

(** Reading the resident program: it is in order. *)
Lemma steady_installed {A} (f : machine P -> option program) (k : option program -> C (process P) A) :
  (forall m p, f m = Some p -> resident m = Some p) -> steady (k None) ->
  (forall p, program_ok p -> steady (k (Some p))) -> steady (andthen (get_machine f) k).
Proof.
  intros Hf Hn Hk s a s' Hs E. unfold andthen, get_machine, reads in E.
  destruct (f (pc_of s)) as [p|] eqn:Ef; [|by eapply Hn]. eapply Hk; [|done|done].
  apply (Hs p). by apply Hf.
Qed.

Lemma steady_with_installed k : (forall p, program_ok p -> steady (k p)) -> steady (with_installed k).
Proof.
  intros Hk. apply steady_bind; [apply steady_reads|intros [installed id]].
  apply steady_if; intros _; [apply steady_pure|]. apply steady_installed.
  - intros m p. unfold get_installed. destruct (resident m); [|done]. case_match; [|done]. by intros [= ->].
  - by intros s a s' _ E.
  - intros p Hp. apply steady_if; intros _; [apply steady_pure|by apply Hk].
Qed.

Lemma steady_resident f : (forall sh, configured sh -> configured (f sh)) ->
  steady (upd_resident f).
Proof.
  intros Hf. apply steady_machine. intros m Hm.
  destruct (resident m) as [q|] eqn:Eq; [|by intros p].
  destruct (Hm q Eq) as [Hq _]. eapply (machine_ok_same m _ q); [done|done|reflexivity|done|].
  apply upd_shared_ok; [done|]. apply Hf, Hq.
Qed.

Lemma steady_read_cds i : steady (read_cds i).
Proof. intros s e s' Hs. unfold read_cds. case_match; [case_match; [|done]|done]. by intros [= <- <-]. Qed.
Lemma steady_write_cds i f : steady (write_cds i f).
Proof.
  apply steady_bind; [apply steady_read_cds|intros e]. apply steady_machine. intros m Hm. by apply (machine_ok_kept m).
Qed.

Lemma steady_umount n : steady (umount n).
Proof.
  apply steady_bind; [apply steady_reads|intros [i|]; [|apply steady_pure]].
  apply steady_bind; [apply steady_write_cds|intros _].
  apply steady_bind; [apply steady_resident, unmounted_configured|intros _]. apply steady_pure.
Qed.

Lemma steady_umount_all drives : forall r, steady (umount_all drives r).
Proof.
  induction drives as [|drives IH]; intros r; cbn [umount_all]; [apply steady_pure|].
  apply steady_installed; [done|by intros s a s' _ E|intros p _].
  apply steady_if; intros _; [|apply IH]. apply steady_bind; [apply steady_umount|intros x; apply IH].
Qed.

Lemma umount_steady argv : steady (umount_command argv).
Proof.
  apply steady_with_installed. intros p _. apply steady_if; intros _; [apply steady_pure|].
  apply steady_if; intros _; [apply steady_umount_all|].
  apply steady_if; intros _; [apply steady_pure|].
  apply steady_if; intros _; [apply steady_pure|apply steady_umount].
Qed.

Lemma mount_steady argv : steady (mount_command argv).
Proof.
  apply steady_with_installed. intros p Hp.
  destruct (parse_mount_args _ _) as [|o] eqn:Eo; [apply steady_pure|].
  pose proof (parse_mount_args_ok _ _ _ mount_defaults_ok Eo) as Ho.
  apply steady_if; intros _; [apply steady_pure|].
  apply steady_bind; [apply steady_reads|intros [i|]; [|apply steady_pure]].
  apply steady_bind; [apply steady_read_cds|intros e].
  apply steady_if; intros _; [apply steady_pure|].
  destruct (assign_remote_ip_addr_slot _ _) as [slot sh] eqn:Es.
  apply assign_configured in Es as [Hsh Hslot]; [|apply Hp].
  apply steady_bind; [by apply steady_resident|intros _].
  apply steady_if; intros Hn; [apply steady_pure|].
  apply steady_bind; [|intros _].
  { apply steady_resident. intros sh' Hsh'. apply mounted_configured; [done|done|].
    destruct Hslot as [->|]; [done|done]. }
  apply steady_bind; [apply steady_write_cds|intros _; apply steady_pure].
Qed.

Lemma uninstall_steady argv : steady (uninstall_command argv).
Proof.
  apply steady_with_installed. intros p Hp. apply steady_if; intros _; [apply steady_pure|].
  apply steady_bind; [apply steady_reads|intros v].
  apply steady_if; intros _; [apply steady_pure|]. apply steady_if; intros _; [apply steady_pure|].
  apply steady_bind; [apply steady_machine; intros m Hm; by apply (machine_ok_kept m)|intros _].
  apply steady_bind; [apply steady_own|intros _].
  apply steady_bind; [apply steady_machine; intros m Hm; by apply (machine_ok_kept m)|intros _].
  apply steady_bind; [apply steady_machine; intros m Hm; by apply (machine_ok_kept m)|intros _].
  apply steady_bind; [by apply steady_machine; intros m Hm p'|intros _; apply steady_pure].
Qed.
End Commands.

(** ** The packet driver *)

(** The handles a driver has given out and not taken back, with the pointer of
    the driver; an error code in DH is not 0. *)
Class PacketLaws (P : Type) `{PKT : !PacketDriver P} := {
  opened : P -> gset (Z * Z);
  access_opens : forall h t d,
    match access_type h t d with
    | (inl e, d') => e <> 0 /\ opened d' = opened d
    | (inr x, d') => ((h, x) ∉ opened d) /\ opened d' = {[(h, x)]} ∪ opened d
    end;
  release_closes : forall h x d, opened (release_type h x d).2 = opened d ∖ {[(h, x)]};
  address_keeps : forall h x d, opened (get_address h x d).2 = opened d;
  address_length : forall h x d cx mac, (get_address h x d).1 = inr (cx, mac) -> 0 <= cx < 2 ^ 15;
}.

Section Install.
Context {P : Type} `{DOS : !Dos, PKT : !PacketDriver P, PL : !PacketLaws P}.
Implicit Types (m : machine P) (s : process P).

Definition open_handles s : gset (Z * Z) := opened (drivers (pc_of s)).

(** The image while a driver is tried: the address of the interface, the
    driver, its handles and its number may differ. *)
Record same_image (p p' : program) : Prop := {
  si_variables : exists mac, length mac = 6%nat
    /\ variables p' = set_shared (set_local_mac_addr mac (prog_shared p)) (variables p);
  si_requested : requested_pktdrv_int (install_info p') = requested_pktdrv_int (install_info p);
  si_mux : global_my_2Fmux_id p' = global_my_2Fmux_id p;
}.
Definition mac_sized (p : program) : Prop := length (local_mac_addr (prog_shared p)) = 6%nat.

Lemma same_image_sized p p' : same_image p p' -> mac_sized p'.
Proof. intros [(mac & Hm & E) _ _]. unfold mac_sized, prog_shared. by rewrite E. Qed.
Lemma same_image_trans p p' p'' : same_image p p' -> same_image p' p'' -> same_image p p''.
Proof.
  intros [(mac & Hm & E) ? ?] [(mac' & Hm' & E') ? ?]. split; [|congruence|congruence].
  exists mac'. split; [done|]. rewrite E'. unfold prog_shared. by rewrite E.
Qed.
Lemma same_image_parts p p' : mac_sized p -> variables p' = variables p ->
  requested_pktdrv_int (install_info p') = requested_pktdrv_int (install_info p) ->
  global_my_2Fmux_id p' = global_my_2Fmux_id p -> same_image p p'.
Proof.
  intros Hm Hv Hr Hx. split; [|done|done]. exists (local_mac_addr (prog_shared p)). split; [done|].
  rewrite Hv. unfold prog_shared. by destruct (variables p) as [[] ? ? ? ? ? ? ? ?].
Qed.

(** Only the drivers may have changed on the machine. *)
Definition same_machine m m' : Prop := m' = set_drivers (drivers m') m.

Lemma same_machine_refl m : same_machine m m.
Proof. by destruct m. Qed.
Lemma same_machine_trans m m' m'' : same_machine m m' -> same_machine m' m'' -> same_machine m m''.
Proof. unfold same_machine. intros E ->. by rewrite E. Qed.

Lemma register_spec packet_type store s a s' :
  pktdrv_register_type packet_type store s = Done (a, s') ->
  same_machine (pc_of s) (pc_of s')
  /\ ((a <> 0 /\ own s' = own s /\ open_handles s' = open_handles s)
      \/ (a = 0 /\ exists x, own s' = upd_install (store x) (own s)
           /\ ((global_pktdrv_INT_handler (own s), x) ∉ open_handles s)
           /\ open_handles s' = {[(global_pktdrv_INT_handler (own s), x)]} ∪ open_handles s)).
Proof.
  unfold pktdrv_register_type, get_own, get_machine, upd_machine, upd_own, andthen, reads, writes, pure.
  pose proof (access_opens (global_pktdrv_INT_handler (own s)) packet_type (drivers (pc_of s))) as H.
  destruct (access_type _ _ _) as [[e|x] d]; cbv beta iota; intros [= <- <-].
  - destruct H as [He Hd]. split; [done|]. left. done.
  - destruct H as [Hx Hd]. split; [done|]. right. split; [done|]. exists x. done.
Qed.

Lemma release_spec which s a s' : release_own which s = Done (a, s') ->
  same_machine (pc_of s) (pc_of s') /\ own s' = own s
  /\ open_handles s' = open_handles s
       ∖ {[(global_pktdrv_INT_handler (own s), which (install_info (own s)))]}.
Proof.
  unfold release_own, release, get_own, upd_machine, andthen, reads, writes.
  intros [= <- <-]. split_and!; [done|done|]. apply release_closes.
Qed.

Lemma getaddr_spec s a s' : pktdrv_getaddr s = Done (a, s') -> mac_sized (own s) ->
  same_machine (pc_of s) (pc_of s') /\ open_handles s' = open_handles s
  /\ same_image (own s) (own s') /\ install_info (own s') = install_info (own s)
  /\ global_pktdrv_INT_handler (own s') = global_pktdrv_INT_handler (own s) /\ (a < 0 -> u8 (- a) <> 0).
Proof.
  unfold pktdrv_getaddr, get_own, get_machine, upd_machine, upd_own, andthen, reads, writes, pure, id.
  intros E Hm.
  pose proof (address_keeps (global_pktdrv_INT_handler (own s)) (ipv4_pkthandle (install_info (own s)))
    (drivers (pc_of s))) as Hk.
  pose proof (address_length (global_pktdrv_INT_handler (own s)) (ipv4_pkthandle (install_info (own s)))
    (drivers (pc_of s))) as Hcx.
  destruct (get_address _ _ _) as [[e|[cx mac]] d]; cbn [fst snd] in Hk, Hcx; injection E as <- <-.
  - split_and!; try done; [by apply same_image_parts|]. intros Hlt. pose proof (u8_range e).
    rewrite Z.opp_involutive, u8_id by (apply u8_range). lia.
  - split_and!; try done.
    + split; [|done|done]. exists (write_at 0 (take 6 mac) (local_mac_addr (prog_shared (own s)))).
      split; [|done]. unfold mac_sized in Hm. unfold write_at.
      rewrite take_0, !length_app, length_drop, length_take, Hm. cbn [length]. lia.
    + specialize (Hcx _ _ eq_refl). intros Hlt. unfold i16 in Hlt. rewrite Z.mod_small in Hlt by lia. lia.
Qed.

(** Both handles, or none. *)
Definition register_handles : C (process P) Z :=
  let! error_code := pktdrv_register_type (swap_word 0x0806)
                       (fun h d => set_pkthandles h (ipv4_pkthandle d) d) in
  if error_code =? 0 then
    let! error_code := pktdrv_register_type (swap_word 0x0800)
                         (fun h d => set_pkthandles (arp_pkthandle d) h d) in
    if negb (error_code =? 0) then do! release_own arp_pkthandle in pure error_code
    else pure error_code
  else pure error_code.

(** The image holds the handles [arp] and [ipv4], new in [s'], of its driver. *)
Definition holds_handles (p : program) s s' : Prop :=
  let h := global_pktdrv_INT_handler p in
  let arp := (h, arp_pkthandle (install_info p)) in
  let ipv4 := (h, ipv4_pkthandle (install_info p)) in
  arp <> ipv4 /\ (arp ∉ open_handles s) /\ (ipv4 ∉ open_handles s)
  /\ open_handles s' = {[ipv4; arp]} ∪ open_handles s.

Lemma register_handles_spec s e s' : register_handles s = Done (e, s') -> mac_sized (own s) ->
  same_machine (pc_of s) (pc_of s') /\ same_image (own s) (own s')
  /\ used_pktdrv_int (install_info (own s')) = used_pktdrv_int (install_info (own s))
  /\ global_pktdrv_INT_handler (own s') = global_pktdrv_INT_handler (own s)
  /\ ((e = 0 /\ holds_handles (own s') s s') \/ (e <> 0 /\ open_handles s' = open_handles s)).
Proof.
  intros E Hm. apply andthen_done in E as (e1 & s1 & E1 & E).
  apply register_spec in E1 as [M1 [(He1 & O1 & H1)|(-> & x & O1 & Hx & H1)]].
  { rewrite (proj2 (Z.eqb_neq _ _) He1) in E. injection E as <- <-. rewrite O1.
    split_and!; [done|by apply same_image_parts|done|done|by right]. }
  cbn [Z.eqb] in E. apply andthen_done in E as (e2 & s2 & E2 & E).
  apply register_spec in E2 as [M2 [(He2 & O2 & H2)|(-> & y & O2 & Hy & H2)]].
  - rewrite (proj2 (Z.eqb_neq _ _) He2) in E. cbn [negb] in E.
    apply andthen_done in E as ([] & s3 & E3 & [= <- <-]). apply release_spec in E3 as (M3 & O3 & H3).
    rewrite O3, O2, O1. split_and!; [by do 2 (eapply same_machine_trans; [eassumption|])
      |by apply same_image_parts|done|done|right].
    split; [done|]. rewrite H3, O2, H2, H1, O1. cbn. set_solver.
  - cbn [Z.eqb negb] in E. injection E as <- <-. rewrite O2, O1. rewrite O1 in H2, Hy.
    cbn [global_pktdrv_INT_handler upd_install] in H2, Hy. rewrite H1 in H2, Hy.
    split_and!; [by eapply same_machine_trans|by apply same_image_parts|done|done|left].
    split; [done|]. unfold holds_handles. cbn. rewrite H2. set_solver.
Qed.

Lemma pktdrv_init_spec num s a s' : pktdrv_init num s = Done (a, s') -> mac_sized (own s) ->
  same_machine (pc_of s) (pc_of s') /\ same_image (own s) (own s')
  /\ ((a = 0 /\ used_pktdrv_int (install_info (own s')) = num /\ holds_handles (own s') s s')
      \/ (a <> 0 /\ used_pktdrv_int (install_info (own s')) = used_pktdrv_int (install_info (own s))
          /\ open_handles s' = open_handles s)).
Proof.
  intros E Hm. unfold pktdrv_init in E. set (h := pktdrv_vector num) in *.
  destruct (negb (bool_decide _)).
  { injection E as <- <-. split; [apply same_machine_refl|]. split; [by apply same_image_parts|].
    right. by split_and!. }
  apply andthen_done in E as ([] & s0 & [= <-] & E). set (s0 := mkProcess _ _) in E.
  assert (same_image (own s) (own s0)) as I0 by (by apply same_image_parts).
  apply andthen_done in E as (e1 & s1 & E1 & E). apply andthen_done in E as (e2 & s2 & E2 & E).
  destruct (register_handles_spec s0 e2 s2) as (M2 & I2 & U2 & G2 & H2); [|done|].
  { unfold register_handles, andthen at 1. by rewrite E1. }
  pose proof (same_image_trans _ _ _ I0 I2) as I02.
  destruct H2 as [[-> H2]|[He2 H2]].
  2: { rewrite (proj2 (Z.eqb_neq _ _) He2) in E. injection E as <- <-. split; [done|].
       split; [done|]. right. split_and!; [done|by rewrite U2|by rewrite H2]. }
  cbn [Z.eqb negb] in E. apply andthen_done in E as (ret & s3 & E3 & E).
  apply getaddr_spec in E3 as (M3 & O3 & I3 & D3 & G3 & R3); [|by eapply same_image_sized].
  pose proof (same_image_trans _ _ _ I02 I3) as I03.
  pose proof (same_machine_trans _ _ _ M2 M3) as M23.
  apply andthen_done in E as (mac & s4 & [= <- <-] & E).
  assert (holds_handles (own s3) s0 s3) as H3.
  { revert H2. unfold holds_handles. by rewrite D3, G3, O3. }
  destruct (_ && _ && _) eqn:Eok.
  - apply andthen_done in E as ([] & s5 & [= <-] & [= <- <-]). split; [done|].
    split; [|by left]. eapply same_image_trans; [exact I03|]. apply same_image_parts; try done.
    by eapply same_image_sized.
  - apply andthen_done in E as ([] & s5 & E5 & E). apply release_spec in E5 as (M5 & P5 & H5).
    apply andthen_done in E as ([] & s6 & E6 & [= <- <-]). apply release_spec in E6 as (M6 & P6 & H6).
    split; [by do 2 (eapply same_machine_trans; [eassumption|])|]. rewrite P6, P5.
    split; [done|right]. split.
    + destruct (Z.leb_spec 0 ret); [done|auto].
    + split; [by rewrite D3, U2|]. rewrite H6, H5, P5. destruct H3 as (Hne & Ha & Hi & ->). 
      change (open_handles s0) with (open_handles s) in *. set_solver.
Qed.
(** *** Trying the drivers *)

(** What a search for a driver comes to, from [s] with no driver in use. *)
Definition driver_found s s' : Prop :=
  same_machine (pc_of s) (pc_of s') /\ same_image (own s) (own s')
  /\ ((used_pktdrv_int (install_info (own s')) <> 0 /\ holds_handles (own s') s s')
      \/ (used_pktdrv_int (install_info (own s')) = 0 /\ open_handles s' = open_handles s)).

Lemma holds_handles_from p s0 s s' : open_handles s0 = open_handles s ->
  holds_handles p s s' -> holds_handles p s0 s'.
Proof. unfold holds_handles. by intros ->. Qed.

Lemma detect_pktdrv_spec ints : forall i s u s', detect_pktdrv ints i s = Done (u, s') -> 0 < i ->
  mac_sized (own s) -> used_pktdrv_int (install_info (own s)) = 0 -> driver_found s s'.
Proof.
  induction ints as [|ints IH]; intros i s u s' E Hi Hm Hu; cbn [detect_pktdrv] in E.
  { injection E as _ <-. split; [apply same_machine_refl|].
    split; [by apply same_image_parts|by right]. }
  apply andthen_done in E as (e & s1 & E1 & E).
  apply pktdrv_init_spec in E1 as (M1 & I1 & [(-> & U1 & H1)|(He & U1 & H1)]); [| |done].
  - injection E as _ <-. split; [done|]. split; [done|]. left. split; [lia|done].
  - rewrite (proj2 (Z.eqb_neq _ _) He) in E.
    apply IH in E as (M2 & I2 & H2); [|lia|by eapply same_image_sized|congruence].
    split; [by eapply same_machine_trans|]. split; [by eapply same_image_trans|].
    destruct H2 as [[? H2]|[? H2]]; [left|right]; (split; [done|]); [|congruence].
    eapply holds_handles_from; [|exact H2]. done.
Qed.

Lemma try_pktdrv_spec requested s u s' :
  (if requested =? 0 then detect_pktdrv 33 MIN_PKT_INT
   else let! _ := pktdrv_init requested in pure tt) s = Done (u, s') ->
  mac_sized (own s) -> used_pktdrv_int (install_info (own s)) = 0 -> driver_found s s'.
Proof.
  intros E Hm Hu. destruct (Z.eqb_spec requested 0) as [|Hr]; [by eapply detect_pktdrv_spec|].
  apply andthen_done in E as (e & s1 & E1 & [= _ <-]).
  apply pktdrv_init_spec in E1 as (M1 & I1 & [(-> & U1 & H1)|(He & U1 & H1)]); [| |done];
    (split; [done|]); (split; [done|]).
  - left. split; [by rewrite U1|done].
  - right. split; [congruence|done].
Qed.

(** *** The options *)

(** The image while the options are read: the drives are as they were loaded. *)
Record installing (p : program) : Prop := {
  in_drives : drive_infos (prog_shared p) = replicate MAX_DRIVES_COUNT loaded_drive;
  in_table_size : length (ip_mac_map (prog_shared p)) = 4%nat;
  in_macs : Forall (fun e => length (mac_bytes e) = 6%nat) (ip_mac_map (prog_shared p));
  in_mtu : MIN_MTU <= interface_mtu (prog_shared p) <= MAX_MTU;
  in_port : is_u16 (local_port (prog_shared p)) /\ local_port (prog_shared p) <> 0;
  in_gateway : gateway_ip_slot (prog_shared p) = NO_SLOT \/ in_table (gateway_ip_slot (prog_shared p));
  in_buffers : variables p = set_shared (prog_shared p) (variables loaded_program);
  in_local_mac : local_mac_addr (prog_shared p) = replicate 6 0;
}.

Lemma installing_shared f p : installing p ->
  let sh := f (prog_shared p) in
  drive_infos sh = drive_infos (prog_shared p) -> ip_mac_map sh = ip_mac_map (prog_shared p) ->
  MIN_MTU <= interface_mtu sh <= MAX_MTU -> is_u16 (local_port sh) /\ local_port sh <> 0 ->
  gateway_ip_slot sh = gateway_ip_slot (prog_shared p) ->
  local_mac_addr sh = local_mac_addr (prog_shared p) -> installing (upd_shared f p).
Proof.
  intros [H1 H2 H3 H4 H5 H6 H7 H8] sh E1 E2 E3 E4 E5 E6. subst sh. unfold prog_shared in *.
  split; unfold prog_shared; cbn; rewrite ?E1, ?E2, ?E5, ?E6; try done. by rewrite H7.
Qed.

Lemma install_option_ok arg b p b' p' : installing p -> install_option arg (b, p) = inr (b', p') ->
  installing p' /\ global_my_2Fmux_id p' = global_my_2Fmux_id p.
Proof.
  intros Hp. pose proof Hp as [H1 H2 H3 H4 H5 H6 H7 H8]. unfold install_option. cbv zeta.
  destruct (negb (byte_at arg 0 =? CH_SLASH)); [done|].
  destruct (has_prefix "IP:" _).
  { case_match; [|done]. intros [= _ <-]. split; [by apply installing_shared|done]. }
  destruct (has_prefix "MASK:" _).
  { case_match; [|done]. intros [= _ <-]. split; [by apply installing_shared|done]. }
  destruct (has_prefix "GW:" _).
  { case_match; [|done]. intros [= _ <-]. split; [|done].
    destruct (assign_remote_ip_addr_slot (prog_shared p) z) as [slot sh'] eqn:Es.
    apply assign_table in Es as Ht; [|done|done]. destruct Ht as (Hl & Hm & Hs & Hi).
    assert (prog_shared (upd_shared (fun sh => let '(slot, sh) := assign_remote_ip_addr_slot sh z in
      set_gateway_ip_slot slot sh) p) = set_gateway_ip_slot slot sh') as Esh
      by (unfold prog_shared in *; cbn; by rewrite Es).
    rewrite Hs in Esh. split; rewrite ?Esh; try done.
    unfold prog_shared in *. cbn. rewrite Es. rewrite Hs, H7. done. }
  destruct (has_prefix "PORT:" _).
  { destruct (Z.eqb_spec (strto_ui16 (drop 6 arg)).1 0); [done|]. intros [= _ <-].
    split; [|done]. apply installing_shared; try done. split; [apply strto_ui16_range|done]. }
  destruct (has_prefix "PKT_INT:" _).
  { case_match; [done|]. intros [= _ <-]. split; [by split|done]. }
  destruct (has_prefix "MTU:" _).
  { destruct (_ || _) eqn:E; [done|]. intros [= _ <-]. split; [|done].
    apply orb_false_iff in E as [E1%Z.ltb_ge E2%Z.ltb_ge]. by apply installing_shared. }
  destruct (is_word _ _); [|done]. intros [= _ <-]. split; [by apply installing_shared|done].
Qed.

Lemma install_options_ok args : forall b p b' p', installing p ->
  install_options args (b, p) = inr (b', p') ->
  installing p' /\ global_my_2Fmux_id p' = global_my_2Fmux_id p.
Proof.
  induction args as [|arg args IH]; intros b p b' p' Hp; cbn [install_options]; [by intros [= _ <-]|].
  destruct (install_option arg (b, p)) as [|[b1 p1]] eqn:E1; [done|]. intros E.
  apply install_option_ok in E1 as [Hp1 Hx1]; [|done].
  apply IH in E as [H2 Hx2]; [|done]. split; [done|congruence].
Qed.

Lemma install_options_exit args : forall o e, install_options args o = inl e -> e <> 0.
Proof.
  induction args as [|arg args IH]; intros [b p] e; cbn [install_options]; [done|].
  destruct (install_option arg (b, p)) as [e1|o1] eqn:E1; [|apply IH]. intros [= <-].
  unfold install_option in E1. cbv zeta in E1. repeat case_match; congruence.
Qed.

(** What INSTALL writes into a fresh image before it reads the options. *)
Lemma install_defaults_ok p : variables p = variables loaded_program ->
  installing (upd_shared install_defaults p).
Proof.
  intros E. split; unfold prog_shared; cbn; rewrite ?E; try done; try by left. all: try (by repeat constructor). all: unfold is_u16; cbn; lia.
Qed.

(** *** Staying resident *)

Lemma init_buffers_ok c : zlen (recv_buff c) = MAX_FRAMESIZE -> zlen (send_buff c) = MAX_FRAMESIZE ->
  length (arp_request_buff c) = 42%nat -> length (local_mac_addr (shared c)) = 6%nat ->
  Forall (fun e => length (mac_bytes e) = 6%nat) (ip_mac_map (shared c)) -> buffers_ok (init_buffers c).
Proof.
  intros Hr Hs Ha Hm Hms. split; try done; unfold init_buffers;
    cbn [send_buff arp_request_buff set_arp_request_buff set_send_buff].
  - unfold write_at. rewrite !length_app, length_take, length_drop, Hm.
    cbn [length le16_bytes]. lia.
  - unfold arp_request_frame. rewrite !length_app, length_drop, Hm, Ha, !length_replicate. done.
  - destruct (local_mac_addr (shared c)) as [|m1 [|m2 [|m3 [|m4 [|m5 [|m6 [|]]]]]]] eqn:Em; try done.
    unfold arp_request_frame. rewrite Em. reflexivity.
Qed.

Lemma installing_image p p' mac : installing p -> length mac = 6%nat ->
  variables p' = set_shared (set_local_mac_addr mac (prog_shared p)) (set_recv_data_len 1 (variables p)) ->
  let c := set_recv_data_len 0 (init_buffers (variables p')) in
  buffers_ok c /\ buffer_shape (read_file_buffer c)
  /\ configured (set_drives (replicate MAX_DRIVES_COUNT 0xFF) (drive_infos (shared c)) (shared c)).
Proof.
  intros [H1 H2 H3 H4 H5 H6 H7 H8] Hm E c. split_and!.
  - assert (buffers_ok (init_buffers (variables p'))) as [B1 B2 B3 B4 B5 B6].
    { rewrite E, H7. apply init_buffers_ok; done. }
    split; done.
  - unfold c. cbn. rewrite E, H7. split; vm_compute; try split; congruence.
  - assert (shared c = set_local_mac_addr mac (prog_shared p)) as -> by (unfold c; cbn; by rewrite E).
    split; try done; cbn.
    + by rewrite H1.
    + rewrite H1. apply Forall_replicate. split; [split; unfold is_byte; cbn; lia|by left|cbn; lia].
    + intros i Hi. apply is_mounted_lookup in Hi as (x & Hx & Hne). cbn in Hx.
      apply (lookup_replicate_1 26) in Hx as [-> _]. done.
Qed.

(** A machine on which the program has become resident: it answers for itself,
    keeps what UNINSTALL needs, and nothing is mounted. *)
Record installed_program s s' (q : program) : Prop := {
  ip_resident : resident (pc_of s') = Some q;
  ip_ok : program_ok q;
  ip_found : get_install_info (pc_of s') = (true, global_my_2Fmux_id q);
  ip_unmounted : forall i, is_mounted (prog_shared q) i = false;
  ip_psp : psp_segment (install_info q) = current_psp;
  ip_offset : int2F_redirector_offset (install_info q) = redirector_offset;
  ip_saved : saved_INT2F_handler (install_info q) = int2F_vector (pc_of s);
  ip_driver : pktdrv_INT_handler (install_info q) = global_pktdrv_INT_handler q;
  ip_handles : holds_handles q s s';
}.
Record installed_on s s' : Prop := {
  io_program : exists q, installed_program s s' q;
  io_machine : pc_of s' = set_resident (resident (pc_of s')) (free_memory env_segment
    (set_int2F_vector (MK_FP program_cs redirector_offset) (set_drivers (drivers (pc_of s')) (pc_of s))));
}.

Lemma stay_resident_spec s x s' p mac : installing p -> length mac = 6%nat ->
  variables (own s) = set_shared (set_local_mac_addr mac (prog_shared p)) (set_recv_data_len 1 (variables p)) ->
  stay_resident s = Done (x, s') ->
  x = EXIT_OK /\ pc_of s' = set_resident (resident (pc_of s'))
     (free_memory env_segment (set_int2F_vector (MK_FP program_cs redirector_offset) (pc_of s)))
  /\ exists q, resident (pc_of s') = Some q /\ program_ok q
    /\ global_my_2Fmux_id q = global_my_2Fmux_id (own s)
    /\ global_pktdrv_INT_handler q = global_pktdrv_INT_handler (own s)
    /\ (forall i, is_mounted (prog_shared q) i = false)
    /\ install_info q = install_record (int2F_vector (pc_of s)) (own s) (install_info (own s)).
Proof.
  intros Hp Hm E. destruct (installing_image p (own s) mac Hp Hm E) as (Hb & Hfb & Hc).
  unfold stay_resident, upd_own, upd_machine, get_own, get_machine, andthen, reads, writes, pure, id.
  intros [= <- <-]. split; [done|]. split; [done|]. eexists. split; [reflexivity|]. split_and!; try done.
  - split; [exact Hc| |exact Hfb|done]. destruct Hb as [B1 B2 B3 B4 B5 B6]. split; done.
  - intros i. destruct (is_mounted _ i) eqn:Ei; [|done].
    apply is_mounted_lookup in Ei as (y & Hy & Hne). cbn in Hy.
    apply (lookup_replicate_1 26) in Hy as [-> _]. done.
Qed.

(** *** The multiplex id *)

Lemma scan_free m ids : forall ah free_id id, scan_ids m ids ah free_id = (false, id) ->
  (id = free_id \/ ah <= id < ah + Z.of_nat ids)
  /\ forall i, ah <= i < ah + Z.of_nat ids ->
      let '(al, bx, cx, dx) := mux_check m i in
      al = 0 \/ (al =? 0xFF) && bool_decide ((bx, cx, dx) = SIGNATURE) = false.
Proof.
  induction ids as [|ids IH]; intros ah free_id id; cbn [scan_ids].
  { intros [= ->]. split; [by left|lia]. }
  destruct (mux_check m ah) as [[[al bx] cx] dx] eqn:Em.
  assert (forall f, scan_ids m ids (ah + 1) f = (false, id) ->
    (al = 0 \/ (al =? 0xFF) && bool_decide ((bx, cx, dx) = SIGNATURE) = false) ->
    (id = f \/ ah <= id < ah + Z.of_nat (S ids))
    /\ forall i, ah <= i < ah + Z.of_nat (S ids) -> let '(al, bx, cx, dx) := mux_check m i in
      al = 0 \/ (al =? 0xFF) && bool_decide ((bx, cx, dx) = SIGNATURE) = false) as H.
  { intros f E Ha. apply IH in E as [H1 H2]. split; [lia|]. intros i Hi.
    destruct (Z.eq_dec i ah) as [->|]; [rewrite Em; exact Ha|]. apply H2. lia. }
  destruct (Z.eqb_spec al 0) as [->|].
  - intros E. apply H in E as [E1 E2]; [|by left]. split; [lia|done].
  - destruct (_ && _) eqn:Es; [done|]. intros E. apply H in E; [done|by right].
Qed.

Lemma scan_own m q ids : resident m = Some q -> forall ah free_id,
  ah <= global_my_2Fmux_id q < ah + Z.of_nat ids ->
  (forall i, ah <= i < ah + Z.of_nat ids -> let '(al, bx, cx, dx) := mux_other i in
      al = 0 \/ (al =? 0xFF) && bool_decide ((bx, cx, dx) = SIGNATURE) = false) ->
  scan_ids m ids ah free_id = (true, global_my_2Fmux_id q).
Proof.
  intros Hq. induction ids as [|ids IH]; intros ah free_id Hid Ho; [lia|]. cbn [scan_ids].
  unfold mux_check. rewrite Hq. destruct (Z.eqb_spec ah (global_my_2Fmux_id q)) as [->|Hne].
  - rewrite bool_decide_eq_true_2 by done. done.
  - pose proof (Ho ah ltac:(lia)) as Hah. destruct (mux_other ah) as [[[al bx] cx] dx].
    assert (forall f, scan_ids m ids (ah + 1) f = (true, global_my_2Fmux_id q)) as Hn.
    { intros f. apply IH; [lia|]. intros i Hi. apply Ho. lia. }
    destruct (Z.eqb_spec al 0); [done|]. destruct Hah as [?|Hah]; [done|]. by rewrite Hah.
Qed.

(** What INSTALL comes to. *)
Definition install_outcome s x s' : Prop :=
  (x = EXIT_OK /\ installed_on s s')
  \/ (x <> EXIT_OK /\ same_machine (pc_of s) (pc_of s') /\ open_handles s' = open_handles s).

Lemma install_failed s s1 e x s' : e <> EXIT_OK -> pc_of s1 = pc_of s -> Done (e, s1) = Done (x, s') ->
  install_outcome s x s'.
Proof.
  intros He Es [= <- <-]. right. split; [done|]. unfold open_handles. rewrite Es.
  split; [apply same_machine_refl|done].
Qed.

Lemma install_as_spec id argv s x s' : variables (own s) = variables loaded_program ->
  install_as id argv s = Done (x, s') ->
  (forall q, resident (pc_of s') = Some q -> global_my_2Fmux_id q = id ->
     get_install_info (pc_of s') = (true, id)) -> install_outcome s x s'.
Proof.
  intros Ev E Hfound. unfold install_as in E. apply andthen_done in E as ([] & s1 & [= <-] & E).
  destruct (length argv <? 3)%nat; [by eapply install_failed; [| |exact E]|].
  apply andthen_done in E as ([] & s2 & [= <-] & E). apply andthen_done in E as ([] & s3 & [= <-] & E).
  apply andthen_done in E as (p0 & s4 & [= <- <-] & E). cbn [own] in E.
  set (p0 := upd_install _ _) in E.
  destruct (install_options (drop 2 argv) (false, p0)) as [e|[ip_set p1]] eqn:Eo.
  { eapply install_failed; [by eapply install_options_exit| |exact E]. done. }
  assert (installing p0) as Hp0 by (by destruct (install_defaults_ok (own s) Ev); split).
  apply install_options_ok in Eo as [Hp1 Hx1]; [|done].
  apply andthen_done in E as ([] & s5 & [= <-] & E).
  destruct (negb ip_set); [by eapply install_failed; [| |exact E]|].
  destruct (negb (valid_net_mask _)); [by eapply install_failed; [| |exact E]|].
  apply andthen_done in E as ([] & s6 & [= <-] & E). apply andthen_done in E as ([] & s7 & [= <-] & E).
  cbn [own pc_of] in E. set (s7 := mkProcess _ _) in E.
  apply andthen_done in E as (u & s8 & E8 & E).
  apply try_pktdrv_spec in E8 as (M8 & I8 & H8); [| |done].
  2: { unfold mac_sized. change (local_mac_addr (prog_shared (own s7))) with (local_mac_addr (prog_shared p1)).
       by rewrite (in_local_mac _ Hp1). }
  apply andthen_done in E as (used & s9 & [= <- <-] & E). cbn beta in E.
  destruct H8 as [[Hu H8]|[Hu H8]].
  2: { rewrite Hu in E. injection E as <- <-. right. done. }
  rewrite (proj2 (Z.eqb_neq _ _) Hu) in E. left.
  destruct I8 as [(mac & Hm & Ev8) _ Hx8].
  apply (stay_resident_spec s8 x s' p1 mac) in E as (-> & Epc & q & Hq & Hok & Hxq & Hdrv & Hmt & Hd);
    [|done|done|exact Ev8].
  split; [done|]. assert (same_machine (pc_of s) (pc_of s8)) as M by exact M8.
  assert (global_my_2Fmux_id q = id) as Eid by (rewrite Hxq, Hx8; exact Hx1).
  assert (drivers (pc_of s') = drivers (pc_of s8)) as Edrv by (by rewrite Epc).
  split.
  - exists q. split; [done|done|by rewrite Eid; eapply Hfound|done|by rewrite Hd|by rewrite Hd| | |].
    + rewrite Hd. unfold same_machine in M. cbn. by rewrite M.
    + by rewrite Hd, Hdrv.
    + revert H8. unfold holds_handles, open_handles. rewrite Edrv, Hd, Hdrv. done.
  - rewrite Edrv. unfold same_machine in M. by rewrite <- M.
Qed.

#[local] Opaque get_install_info.

Lemma install_ends argv s x s' : variables (own s) = variables loaded_program ->
  resident (pc_of s) = None -> install_command argv s = Done (x, s') -> install_outcome s x s'.
Proof.
  intros Ev Hn E. unfold install_command, andthen at 1, get_machine, reads in E.
  destruct (get_install_info (pc_of s)) as [installed id] eqn:Ei.
  destruct installed; [by eapply install_failed; [| |exact E]|].
  destruct (Z.eqb_spec id 0) as [|Hid]; [by eapply install_failed; [| |exact E]|].
  eapply install_as_spec; [done|exact E|]. intros q Hq Eid.
  rewrite get_install_info_eq in Ei. apply scan_free in Ei as [Hr Hf].
  rewrite get_install_info_eq, <- Eid. apply scan_own; [done|lia|].
  intros i Hi. specialize (Hf i ltac:(lia)). unfold mux_check in Hf. by rewrite Hn in Hf.
Qed.

(** C14: INSTALL either leaves the program resident, configured as the resident
    part needs it, with nothing mounted, two handles of its packet driver and
    all that UNINSTALL needs; or it fails, and then the machine is as it was
    and every handle that a packet driver gave out has been given back. *)
Theorem install_spec argv s x s' : variables (own s) = variables loaded_program ->
  resident (pc_of s) = None -> install_command argv s = Done (x, s') -> install_outcome s x s'.
Proof. apply install_ends. Qed.

Lemma install_steady argv s x s' : variables (own s) = variables loaded_program ->
  machine_ok (pc_of s) -> install_command argv s = Done (x, s') -> machine_ok (pc_of s').
Proof.
  intros Ev Hm E. destruct (resident (pc_of s)) as [p|] eqn:Er.
  - unfold install_command, andthen, get_machine, reads in E.
    destruct (Hm p Er) as [_ Hf]. rewrite Hf in E. by injection E as _ <-.
  - apply install_ends in E as [[-> [(q & Hq) _]]|(_ & Hs & _)]; [| |done|done].
    + destruct Hq as [Hq Hok Hf _ _ _ _ _ _]. intros q' Hq'. rewrite Hq in Hq'. by injection Hq' as <-.
    + eapply machine_ok_kept; [exact Hm|]. unfold same_machine in Hs. by rewrite Hs.
Qed.

(** Every command leaves the machine in order. *)
Lemma netmount_steady argv m x m' : machine_ok m -> netmount argv m = Done (x, m') -> machine_ok m'.
Proof.
  intros Hm. unfold netmount. set (s := mkProcess m loaded_program).
  assert (machine_ok (pc_of s)) as Hs by exact Hm.
  destruct (netmount_main argv s) as [[y s']| |] eqn:E; [|done|done]. intros [= <- <-].
  unfold netmount_main in E.
  destruct (existsb _ _); [by injection E as _ <-|]. destruct (_ <? 5); [by injection E as _ <-|].
  destruct (_ <? 2)%nat; [by injection E as _ <-|].
  destruct (is_word "UNINSTALL" _); [exact (uninstall_steady argv s y s' Hs E)|].
  destruct (is_word "INSTALL" _); [exact (install_steady argv s y s' eq_refl Hs E)|].
  destruct (is_word "MOUNT" _); [exact (mount_steady argv s y s' Hs E)|].
  destruct (is_word "UMOUNT" _); [exact (umount_steady argv s y s' Hs E)|]. by injection E as _ <-.
Qed.

(** *** UNINSTALL *)

Lemma get_installed_own m q : resident m = Some q -> get_installed m (global_my_2Fmux_id q) = Some q.
Proof. intros E. unfold get_installed. by rewrite E, Z.eqb_refl. Qed.

Lemma with_installed_found q k s : resident (pc_of s) = Some q ->
  get_install_info (pc_of s) = (true, global_my_2Fmux_id q) -> program_ok q ->
  with_installed k s = k q s.
Proof.
  intros Hq Hf Hok. unfold with_installed, andthen, get_machine, reads. rewrite Hf. cbn [negb].
  rewrite (get_installed_own _ _ Hq). unfold check_netmount_compatibility.
  by rewrite (po_version _ Hok).
Qed.

(** C23: UNINSTALL takes back what INSTALL did: while no drive is mounted and no
    other program has chained to INT 2Fh, it restores the vector, gives both
    handles back to the packet driver and frees the memory of the program; a
    program of the .com format runs with CS at its PSP. *)
Theorem uninstall_after_install s s1 own2 argv : installed_on s s1 -> program_cs = current_psp ->
  length argv = 2%nat ->
  exists s3, uninstall_command argv (mkProcess (pc_of s1) own2) = Done (EXIT_OK, s3)
  /\ open_handles s3 = open_handles s
  /\ pc_of s3 = set_resident None (free_memory current_psp (free_memory env_segment
                  (set_drivers (drivers (pc_of s3)) (pc_of s)))).
Proof.
  intros [(q & [Hq Hok Hf Hm Hpsp Hoff Hsv Hdrv Hh]) Hpc] Hcs Hargc.
  assert (int2F_vector (pc_of s1) = MK_FP program_cs redirector_offset) as Hv by (by rewrite Hpc).
  assert (existsb (is_mounted (prog_shared q)) (seq 0 MAX_DRIVES_COUNT) = false) as Hnone.
  { apply not_true_iff_false. intros (i & _ & Hi)%existsb_exists. by rewrite Hm in Hi. }
  set (s2 := mkProcess (pc_of s1) own2).
  assert (uninstall_command argv s2 = (
      do! upd_machine (set_int2F_vector (saved_INT2F_handler (install_info q))) in
      do! upd_own (set_pktdrv_handler (pktdrv_INT_handler (install_info q))) in
      do! release (pktdrv_INT_handler (install_info q)) (ipv4_pkthandle (install_info q)) in
      do! release (pktdrv_INT_handler (install_info q)) (arp_pkthandle (install_info q)) in
      do! upd_machine (fun m => set_resident None (free_memory (psp_segment (install_info q)) m)) in
      pure EXIT_OK) s2) as E.
  { unfold uninstall_command. rewrite (with_installed_found q); [|done|done|done].
    rewrite Hargc. cbn [Nat.eqb negb].
    unfold andthen at 1, get_machine at 1, reads at 1. cbn [pc_of s2]. rewrite Hv, Hpsp, Hoff, Hcs, Z.eqb_refl.
    cbn [negb]. by rewrite Hnone. }
  rewrite E. eexists. split; [reflexivity|]. cbn. rewrite Hpsp, Hsv. split.
  - unfold open_handles. cbn. rewrite !release_closes, Hdrv. fold (open_handles s1).
    destruct Hh as (_ & Ha & Hi & ->). set_solver.
  - rewrite Hpc. by destruct (pc_of s).
Qed.
End Install.
