(* ===== verification/MountSpec.v ===== *)
(** * MountSpec: what MOUNT and UMOUNT do to the drives

    MOUNT sets up the drive it names for the server it names and leaves every
    other drive with its server; when it fails it changes nothing.  The test of
    the drive letter against LASTDRIVE lets one letter too many pass, and the
    slot of a server is not found free again while a drive that was never
    mounted seems to use it. *)
From S2P Require Import Prelude Words Checksum Fcb Resident Network NetworkInv Redirector ReadAhead.
From S2P Require Import Args Setup SetupInv.

(** The server of a drive. *)
Definition server_address (sh : shared_data) (drive : Z) : Z :=
  ip_value (ip_mac_of sh (remote_ip_idx (drive_info_of sh drive))).

(** What a successful MOUNT with the arguments [o] makes of the shared data. *)
Record mounted_as (o : mount_args) (sh sh' : shared_data) : Prop := {
  ms_mounted : is_mounted sh' (Z.to_nat (mo_drive_no o)) = true;
  ms_remote : drive_map sh' = <[Z.to_nat (mo_drive_no o) := mo_remote_drive_no o]> (drive_map sh);
  ms_info : exists slot, in_table slot /\ drive_info_of sh' (mo_drive_no o) = mounted_drive o slot;
  ms_server : server_address sh' (mo_drive_no o) = mo_remote_ip o;
  ms_features : get_drive_has_ext_features (mo_drive_no o) (has_drive_extended_features sh') = false;
  ms_others : forall j, 0 <= j -> j <> mo_drive_no o -> drive_info_of sh' j = drive_info_of sh j
    /\ (is_mounted sh (Z.to_nat j) = true -> server_address sh j <> NO_IP ->
        server_address sh' j = server_address sh j);
  ms_gateway : gateway_ip_slot sh' = gateway_ip_slot sh
    /\ (in_table (gateway_ip_slot sh) -> ip_value (ip_mac_of sh (gateway_ip_slot sh)) <> NO_IP ->
        ip_value (ip_mac_of sh' (gateway_ip_slot sh)) = ip_value (ip_mac_of sh (gateway_ip_slot sh)));
}.

Lemma ip_mac_of_lookup sh i e : 0 <= i -> ip_mac_map sh !! Z.to_nat i = Some e -> ip_mac_of sh i = e.
Proof. intros _ E. unfold ip_mac_of. by erewrite nth_lookup_Some by done. Qed.

Lemma drive_info_of_lookup sh i d : drive_infos sh !! Z.to_nat i = Some d -> drive_info_of sh i = d.
Proof. intros E. unfold drive_info_of. by erewrite nth_lookup_Some by done. Qed.

(** A slot in use keeps its address when another is assigned. *)
Lemma slot_kept sh sh' slot ip k : slot_assigned sh sh' slot ip -> 0 <= k ->
  ip_value (ip_mac_of sh k) <> NO_IP -> k = gateway_ip_slot sh \/ used_by_drive sh k = true ->
  ip_value (ip_mac_of sh' k) = ip_value (ip_mac_of sh k).
Proof.
  intros [Hr Hip Ho _ Hre] Hk Hno Hused. destruct Hre as [->|[He Hfree]]; [done|].
  destruct (Z.eq_dec k slot) as [->|Hne].
  - destruct Hfree as [Hf|[Hg Hu]]; [|destruct Hused; congruence].
    destruct (ip_mac_map sh !! Z.to_nat slot) as [e|] eqn:E; [|done]. cbn in Hf. injection Hf as Hf.
    by rewrite (ip_mac_of_lookup sh slot e) in Hno.
  - unfold ip_mac_of. rewrite !nth_lookup, Ho; [done|]. intros E. apply Hne. lia.
Qed.

Lemma used_by_drive_of sh j : configured sh -> 0 <= j < 26 ->
  used_by_drive sh (remote_ip_idx (drive_info_of sh j)) = true.
Proof.
  intros Hc Hj. apply existsb_exists. exists (drive_info_of sh j). split; [|apply Z.eqb_refl].
  pose proof (cf_drives _ Hc). rewrite take_ge by lia. unfold drive_info_of. apply nth_In. lia.
Qed.

Lemma ext_features_off drive l : get_drive_has_ext_features drive (set_drive_ext drive 0 l) = false.
Proof.
  unfold get_drive_has_ext_features, set_drive_ext, has_flag. rewrite nth_lookup, list_lookup_alter_eq.
  apply negb_false_iff, Z.eqb_eq. destruct (l !! _) as [x|]; cbn [fmap option_fmap option_map default from_option];
    [|by rewrite Z.land_0_l].
  cbn. apply Z.bits_inj'. intros n Hn. rewrite Z.land_spec, Z.ldiff_spec, Z.bits_0.
  by destruct (Z.testbit x n), (Z.testbit _ n).
Qed.

Lemma mounted_as_intro o sh sh1 slot : configured sh -> mount_args_ok o ->
  assign_remote_ip_addr_slot sh (mo_remote_ip o) = (slot, sh1) -> slot <> NO_SLOT ->
  mounted_as o sh (mounted o slot sh1).
Proof.
  intros Hc Ho E Hs. pose proof (ma_drive _ Ho) as Hd. pose proof (ma_remote _ Ho) as Hrm.
  destruct (assign_configured _ _ _ _ Hc E) as [Hc1 Hin]. destruct Hin as [|Hin]; [done|].
  apply assign_slot_cases in E as [Ha|(-> & _)]; [|done|by rewrite (cf_table _ Hc)].
  pose proof Ha as [Hr Hip Hot Hrest Hre].
  assert (drive_infos sh1 = drive_infos sh /\ drive_map sh1 = drive_map sh
    /\ gateway_ip_slot sh1 = gateway_ip_slot sh) as (Edi & Edm & Eg) by (by rewrite Hrest).
  assert (drive_info_of (mounted o slot sh1) (mo_drive_no o) = mounted_drive o slot) as Edrv.
  { apply drive_info_of_lookup. cbn. apply list_lookup_insert_eq. rewrite (cf_drives _ Hc1). lia. }
  split.
  - apply mounted_is_mounted; [done|done|by left].
  - cbn. by rewrite Edm.
  - by exists slot.
  - unfold server_address. rewrite Edrv. cbn [remote_ip_idx mounted_drive].
    change (ip_mac_of (mounted o slot sh1) slot) with (ip_mac_of sh1 slot).
    destruct (ip_mac_map sh1 !! Z.to_nat slot) as [e|] eqn:Ee; [|done].
    rewrite (ip_mac_of_lookup _ _ e); [|lia|done]. cbn in Hip. congruence.
  - apply ext_features_off.
  - intros j Hj Hne. assert (drive_info_of (mounted o slot sh1) j = drive_info_of sh j) as Ej.
    { unfold drive_info_of. rewrite !nth_lookup. cbn. rewrite Edi.
      rewrite list_lookup_insert_ne; [done|]. intros En. apply Hne. lia. }
    split; [done|]. intros Hm Hno. unfold server_address. rewrite Ej.
    change (ip_mac_of (mounted o slot sh1)) with (ip_mac_of sh1).
    destruct (cf_mounted _ Hc _ Hm) as [(d & Ed & Hin' & _) _].
    pose proof (drive_info_of_lookup _ _ _ Ed) as Ed'.
    apply (slot_kept sh sh1 slot (mo_remote_ip o)); [done|rewrite Ed'; apply Hin'|done|right].
    apply used_by_drive_of; [done|]. apply lookup_lt_Some in Ed. rewrite (cf_drives _ Hc) in Ed. lia.
  - split; [by cbn|]. intros Hg Hno. change (ip_mac_of (mounted o slot sh1)) with (ip_mac_of sh1).
    apply (slot_kept sh sh1 slot (mo_remote_ip o)); [done|apply Hg|done|by left].
Qed.

(** ** The command *)

Section Mount.
Context {P : Type} `{DOS : !Dos, PKT : !PacketDriver P}.
Implicit Types (m : machine P) (s : process P).

(** The resident program, found by the multiplex id. *)
Definition finds m (p : program) : Prop :=
  resident m = Some p /\ program_ok p /\ get_install_info m = (true, global_my_2Fmux_id p).

(** The command from the resident program on. *)
Lemma mount_installed argv p s : finds (pc_of s) p -> mount_command argv s =
  match parse_mount_args (drop 2 argv) mount_defaults with
  | inl exit_code => Done (exit_code, s)
  | inr o =>
      if negb (mount_drive_set o) then Done (EXIT_MISSING_ARG, s)
      else match get_cds (mo_drive_no o) (pc_of s) with
      | None => Done (1, s)
      | Some i =>
          (let! e := read_cds i in
           if negb (cds_flags e =? 0) then pure EXIT_DRIVE_LETTER_ALREADY_USED
           else
             let '(remote_ip_idx, sh) := assign_remote_ip_addr_slot (prog_shared p) (mo_remote_ip o) in
             do! upd_resident (fun _ => sh) in
             if remote_ip_idx =? NO_SLOT then pure EXIT_NOT_FREE_SLOT_FOR_REMOTE_IP
             else
               do! upd_resident (mounted o remote_ip_idx) in
               do! write_cds i (mounted_cds (mo_drive_no o)) in
               pure EXIT_OK) s
      end
  end.
Proof.
  intros (Hq & Hok & Hf). unfold mount_command. rewrite (with_installed_found p) by done.
  destruct (parse_mount_args _ _) as [e|o]; [done|]. destruct (negb (mount_drive_set o)); [done|].
  unfold andthen at 1, get_machine, reads. by destruct (get_cds _ _).
Qed.
Lemma mount_option_exit arg o e : mount_option arg o = inl e -> e <> EXIT_OK.
Proof. unfold mount_option. intros E. repeat case_match; congruence. Qed.
Lemma mount_target_exit arg port e : mount_target arg port = inl e -> e <> EXIT_OK.
Proof. unfold mount_target. intros E. repeat case_match; congruence. Qed.

Lemma parse_mount_args_exit args : forall o e, parse_mount_args args o = inl e -> e <> EXIT_OK.
Proof.
  induction args as [args IH] using list_length_ind. intros o e.
  destruct args as [|arg args]; cbn [parse_mount_args]; [done|].
  destruct (byte_at arg 0 =? CH_SLASH).
  - destruct (mount_option arg o) as [e1|o1] eqn:E1; [|apply IH; cbn; lia].
    intros [= <-]. by eapply mount_option_exit.
  - destruct (mount_target _ _) as [e1|[[ip port] rd]] eqn:E1.
    { intros [= <-]. by eapply mount_target_exit. }
    destruct args as [|local args]; [by intros [= <-]|].
    destruct (26 <=? _); [by intros [= <-]|]. apply IH. cbn. lia.
Qed.

Lemma get_cds_index n m i : get_cds n m = Some i -> i = n.
Proof. unfold get_cds. destruct (cds_ptr m); [|done]. case_match; [done|]. by intros [= <-]. Qed.

Lemma read_cds_done i s e s' : read_cds i s = Done (e, s') ->
  s' = s /\ exists cds, cds_ptr (pc_of s) = Some cds /\ cds !! Z.to_nat i = Some e.
Proof.
  unfold read_cds. destruct (cds_ptr (pc_of s)) as [cds|]; [|done].
  destruct (cds !! Z.to_nat i) as [e'|] eqn:E; [|done]. intros [= <- <-]. split; [done|]. by exists cds.
Qed.

Lemma write_cds_done i f s u s' : write_cds i f s = Done (u, s') ->
  exists cds e, cds_ptr (pc_of s) = Some cds /\ cds !! Z.to_nat i = Some e
  /\ s' = mkProcess (set_cds_ptr (Some (<[Z.to_nat i := f e]> cds)) (pc_of s)) (own s).
Proof.
  intros E. apply andthen_done in E as (e & s1 & E1 & E2).
  apply read_cds_done in E1 as (-> & cds & Ec & Ee). exists cds, e. split; [done|]. split; [done|].
  unfold upd_machine, writes in E2. injection E2 as _ <-. by rewrite Ec.
Qed.

Lemma resident_same m p : resident m = Some p -> set_resident (Some p) m = m.
Proof. destruct m. cbn. by intros ->. Qed.
Lemma upd_shared_same p : upd_shared (fun _ => prog_shared p) p = p.
Proof. by destruct p as [[] ? ? ? ?]. Qed.

(** What a MOUNT that comes to an end has done. *)
Lemma mount_outcome argv p s x s' : finds (pc_of s) p -> mount_command argv s = Done (x, s') ->
  (x = EXIT_OK /\ exists o p' cds e, parse_mount_args (drop 2 argv) mount_defaults = inr o
     /\ resident (pc_of s') = Some p' /\ program_ok p' /\ mounted_as o (prog_shared p) (prog_shared p')
     /\ cds_ptr (pc_of s) = Some cds /\ cds !! Z.to_nat (mo_drive_no o) = Some e /\ cds_flags e = 0
     /\ cds_ptr (pc_of s')
        = Some (<[Z.to_nat (mo_drive_no o) := mounted_cds (mo_drive_no o) e]> cds))
  \/ (x <> EXIT_OK /\ pc_of s' = pc_of s).
Proof.
  intros Hp E. rewrite (mount_installed argv p s Hp) in E. destruct Hp as (Hq & Hok & _).
  destruct (parse_mount_args _ _) as [e|o] eqn:Eo.
  { injection E as <- <-. right. split; [by eapply parse_mount_args_exit|done]. }
  destruct (negb (mount_drive_set o)); [injection E as <- <-; by right|].
  destruct (get_cds _ _) as [i|] eqn:Ei; [|injection E as <- <-; by right].
  apply get_cds_index in Ei as ->.
  apply andthen_done in E as (e & s1 & E1 & E). apply read_cds_done in E1 as (-> & cds & Ecds & Ee).
  destruct (Z.eqb_spec (cds_flags e) 0) as [Hfree|]; [|injection E as <- <-; by right]. cbn [negb] in E.
  destruct (assign_remote_ip_addr_slot _ _) as [slot sh1] eqn:Es.
  pose proof (parse_mount_args_ok _ _ _ mount_defaults_ok Eo) as Ho.
  apply andthen_done in E as ([] & s2 & [= <-] & E). rewrite Hq in E. cbn [fmap option_fmap option_map] in E.
  destruct (Z.eqb_spec slot NO_SLOT) as [->|Hslot].
  - injection E as <- <-. right. split; [done|]. cbn [pc_of].
    apply assign_slot_cases in Es as [[Hr _ _ _ _]|(_ & -> & _)];
      [rewrite (cf_table _ (po_shared _ Hok)) in Hr; lia| |rewrite (cf_table _ (po_shared _ Hok)); lia].
    rewrite upd_shared_same. by apply resident_same.
  - left. apply andthen_done in E as ([] & s3 & [= <-] & E).
    apply andthen_done in E as ([] & s4 & E4 & [= <- <-]).
    apply write_cds_done in E4 as (cds' & e' & Ec' & Ee' & ->). cbn in Ec'.
    rewrite Ecds in Ec'. injection Ec' as <-. rewrite Ee in Ee'. injection Ee' as <-.
    split; [done|]. eexists o, _, cds, e. split; [done|]. split; [reflexivity|].
    pose proof (mounted_as_intro o _ _ _ (po_shared _ Hok) Ho Es Hslot) as Hm.
    destruct (assign_configured _ _ _ _ (po_shared _ Hok) Es) as [Hc1 [|Hin]]; [done|].
    split; [|by split_and!]. apply upd_shared_ok; [by apply upd_shared_ok|].
    by apply mounted_configured.
Qed.

(** It comes to an end, except for the drive behind the last one. *)
Lemma mount_ends argv p s : finds (pc_of s) p ->
  (forall cds, cds_ptr (pc_of s) = Some cds -> zlen cds = last_drive (pc_of s)) ->
  (exists r, mount_command argv s = Done r)
  \/ mount_command argv s = Overrun
     /\ exists o, parse_mount_args (drop 2 argv) mount_defaults = inr o /\ mo_drive_no o = last_drive (pc_of s).
Proof.
  intros Hp Hcds. rewrite (mount_installed argv p s Hp). destruct Hp as (Hq & _ & _).
  destruct (parse_mount_args _ _) as [e|o] eqn:Eo; [eauto|].
  destruct (negb (mount_drive_set o)); [eauto|].
  pose proof (ma_drive _ (parse_mount_args_ok _ _ _ mount_defaults_ok Eo)) as Hd.
  unfold get_cds. destruct (cds_ptr (pc_of s)) as [cds|] eqn:Ec; [|eauto]. specialize (Hcds cds eq_refl).
  destruct (Z.ltb_spec (last_drive (pc_of s)) (mo_drive_no o)) as [|Hle]; [eauto|].
  destruct (cds !! Z.to_nat (mo_drive_no o)) as [en|] eqn:El; [left|right].
  - unfold andthen at 1, read_cds at 1. rewrite Ec, El.
    destruct (negb _); [eauto|]. destruct (assign_remote_ip_addr_slot _ _) as [slot sh].
    unfold andthen, upd_resident, upd_machine, writes. destruct (slot =? NO_SLOT); [by eexists|].
    unfold write_cds, read_cds, andthen, upd_machine, writes, pure. cbn. rewrite Ec, El. by eexists.
  - split; [unfold andthen, read_cds; by rewrite Ec, El|].
    apply lookup_ge_None in El. exists o. split; [done|lia].
Qed.

(** C15: on a machine where DOS keeps an entry for each of its LASTDRIVE drives,
    MOUNT either mounts the drive for the server its arguments name, with an
    entry of DOS for it that was not in use before, and leaves every other
    drive its record, and every other mounted drive and the gateway their
    servers, as long as the address of these is not 255.255.255.255, which
    stands for none; or it fails, and nothing has changed; and only for the
    drive behind the last one of DOS it reads behind the end of the entries. *)
Theorem mount_spec argv p s : finds (pc_of s) p ->
  (forall cds, cds_ptr (pc_of s) = Some cds -> zlen cds = last_drive (pc_of s)) ->
  match mount_command argv s with
  | Done (x, s') =>
      (x = EXIT_OK /\ exists o p' cds e, parse_mount_args (drop 2 argv) mount_defaults = inr o
         /\ resident (pc_of s') = Some p' /\ program_ok p' /\ mounted_as o (prog_shared p) (prog_shared p')
         /\ cds_ptr (pc_of s) = Some cds /\ cds !! Z.to_nat (mo_drive_no o) = Some e /\ cds_flags e = 0
         /\ cds_ptr (pc_of s')
            = Some (<[Z.to_nat (mo_drive_no o) := mounted_cds (mo_drive_no o) e]> cds))
      \/ (x <> EXIT_OK /\ pc_of s' = pc_of s)
  | Overrun => exists o, parse_mount_args (drop 2 argv) mount_defaults = inr o
      /\ mo_drive_no o = last_drive (pc_of s)
  | Waiting => False
  end.
Proof.
  intros Hp Hcds. destruct (mount_ends argv p s Hp Hcds) as [[[x s'] E]|[E Ho]]; rewrite E; [|done].
  by apply (mount_outcome argv p s x s' Hp E).
Qed.

(** ** UMOUNT *)

#[local] Opaque get_install_info.

(** The drives [gone] are out of the tables, with nothing else changed, and
    their entries of DOS are free. *)
Definition without (gone : nat -> bool) (sh : shared_data) : shared_data :=
  set_drives (imap (fun i x => if gone i then 0xFF else x) (drive_map sh))
    (imap (fun i d => if gone i then set_remote_ip_idx NO_SLOT d else d) (drive_infos sh)) sh.
Definition entries_freed (gone : nat -> bool) (cds : list dos_current_dir) : list dos_current_dir :=
  imap (fun i e => if gone i then set_cds_flags 0 e else e) cds.
Definition taken_out (gone : nat -> bool) (p : program) (m : machine P) : machine P :=
  set_cds_ptr (entries_freed gone <$> cds_ptr m) (set_resident (Some (upd_shared (without gone) p)) m).

(** DOS has an entry for the drive, as far as [get_cds] sees. *)
Definition has_entry (m : machine P) (i : nat) : bool :=
  match get_cds (Z.of_nat i) m with Some _ => true | None => false end.

(** The drives a UMOUNT is for. *)
Definition umounts (argv : list bytes) (i : nat) : bool :=
  is_word "/ALL" (nth 2 argv []) || (Z.of_nat i =? drive_to_num (byte_at (nth 2 argv []) 0)).

Lemma imap_chosen {A} (f : A -> A) g1 g2 g (l : list A) : (forall x, f (f x) = f x) ->
  (forall i, (i < length l)%nat -> g i = g1 i || g2 i) ->
  imap (fun i x => if g2 i then f x else x) (imap (fun i x => if g1 i then f x else x) l)
  = imap (fun i x => if g i then f x else x) l.
Proof.
  intros Hf Hg. apply list_eq. intros i. rewrite !list_lookup_imap.
  destruct (l !! i) as [x|] eqn:E; [|done]. cbn. apply lookup_lt_Some in E. rewrite (Hg i E).
  destruct (g1 i), (g2 i); cbn; by rewrite ?Hf.
Qed.

Lemma imap_one {A} (f : A -> A) n (l : list A) :
  imap (fun i x => if (i =? n)%nat then f x else x) l = alter f n l.
Proof.
  apply list_eq. intros i. rewrite list_lookup_imap. destruct (Nat.eqb_spec i n) as [->|Hn].
  - by rewrite list_lookup_alter_eq.
  - rewrite list_lookup_alter_ne by done. by destruct (l !! i).
Qed.

Lemma without_more g1 g2 g sh : (forall i, g i = g1 i || g2 i) ->
  without g2 (without g1 sh) = without g sh.
Proof.
  intros Hg. unfold without. cbn [set_drives drive_map drive_infos].
  rewrite (imap_chosen (fun _ => 0xFF) g1 g2 g) by done.
  by rewrite (imap_chosen (set_remote_ip_idx NO_SLOT) g1 g2 g).
Qed.

Lemma taken_out_more g1 g2 g p m : (forall i, g i = g1 i || g2 i) ->
  taken_out g2 (upd_shared (without g1) p) (taken_out g1 p m) = taken_out g p m.
Proof.
  intros Hg. unfold taken_out.
  change (upd_shared (without g2) (upd_shared (without g1) p))
    with (upd_shared (fun sh => without g2 (without g1 sh)) p).
  assert (upd_shared (fun sh => without g2 (without g1 sh)) p = upd_shared (without g) p) as ->
    by (unfold upd_shared, upd_variables; by rewrite (without_more g1 g2 g)).
  unfold set_cds_ptr, set_resident. cbn. f_equal. destruct (cds_ptr m) as [cds|]; [|done]. cbn. f_equal.
  by apply imap_chosen.
Qed.

Lemma taken_out_ext g1 g2 p m : (forall i, g1 i = g2 i) -> taken_out g1 p m = taken_out g2 p m.
Proof.
  intros Hg. rewrite <- (taken_out_more g1 g2 g1 p m) by (intros i; rewrite Hg; by destruct (g2 i)).
  apply taken_out_more. intros i. rewrite Hg. by destruct (g2 i).
Qed.

Lemma nothing_taken g p m : resident m = Some p -> (forall i, g i = false) -> taken_out g p m = m.
Proof.
  intros Hp Hg. assert (forall A (f : A -> A) (l : list A), imap (fun i x => if g i then f x else x) l = l) as E.
  { intros A f l. apply list_eq. intros i. rewrite list_lookup_imap. destruct (l !! i); [|done]. cbn. by rewrite Hg. }
  unfold taken_out, without, entries_freed. destruct m as [r v ld cds d fr]. cbn in *. subst r.
  unfold set_cds_ptr, set_resident. cbn. f_equal.
  - destruct p as [[[]] ? ? ? ?]. unfold upd_shared, upd_variables, set_drives. cbn. by rewrite !E.
  - destruct cds as [l|]; [|done]. cbn. by rewrite E.
Qed.

Lemma without_mounted g sh i : is_mounted (without g sh) i = is_mounted sh i && negb (g i).
Proof.
  unfold is_mounted. cbn. destruct (drive_map sh !! i) as [x|] eqn:E.
  - rewrite (nth_lookup_Some (drive_map sh) i _ x) by done.
    rewrite (nth_lookup_Some _ i _ (if g i then 0xFF else x)) by (by rewrite list_lookup_imap, E).
    destruct (g i); cbn; by rewrite ?andb_true_r, ?andb_false_r.
  - apply lookup_ge_None in E. rewrite !nth_overflow by (rewrite ?length_imap; done). done.
Qed.

Lemma insert_alter {A} (f : A -> A) n (l : list A) x : l !! n = Some x -> <[n := f x]> l = alter f n l.
Proof.
  intros E. apply list_eq. intros i. destruct (decide (i = n)) as [->|Hn].
  - rewrite list_lookup_alter_eq, E. apply list_lookup_insert_eq. by apply lookup_lt_Some in E.
  - by rewrite list_lookup_alter_ne, list_lookup_insert_ne.
Qed.

Lemma unmounted_without n sh : unmounted n sh = without (fun i => (i =? n)%nat) sh.
Proof.
  unfold unmounted, without. rewrite (imap_one (fun _ => 0xFF)), (imap_one (set_remote_ip_idx NO_SLOT)). f_equal.
  destruct (drive_map sh !! n) as [x|] eqn:E; [by apply (insert_alter (fun _ => 0xFF) n _ x)|].
  apply lookup_ge_None in E. rewrite list_insert_ge by done.
  apply list_eq. intros i. destruct (decide (i = n)) as [->|Hn]; [|by rewrite list_lookup_alter_ne].
  rewrite list_lookup_alter_eq. by rewrite (proj2 (lookup_ge_None _ _) E).
Qed.

Lemma umount_done n p s x s' : resident (pc_of s) = Some p -> umount n s = Done (x, s') ->
  if has_entry (pc_of s) n then x = 0 /\ pc_of s' = taken_out (fun i => (i =? n)%nat) p (pc_of s)
  else x = 1 /\ s' = s.
Proof.
  intros Hp E. unfold umount, andthen at 1, get_machine, reads in E. unfold has_entry.
  destruct (get_cds _ _) as [i|] eqn:Ei; [|by injection E as <- <-]. apply get_cds_index in Ei as ->.
  apply andthen_done in E as ([] & s1 & E1 & E). apply write_cds_done in E1 as (cds & e & Hc & He & ->).
  apply andthen_done in E as ([] & s2 & [= <-] & [= <- <-]). split; [done|]. rewrite Nat2Z.id in *.
  unfold taken_out. cbn [pc_of own resident upd_machine set_resident set_cds_ptr cds_ptr].
  rewrite Hp, Hc. cbn [fmap option_fmap option_map].
  assert (upd_shared (without (fun i => (i =? n)%nat)) p = upd_shared (unmounted n) p) as ->
    by (unfold upd_shared, upd_variables; by rewrite unmounted_without).
  unfold entries_freed. rewrite imap_one, <- (insert_alter _ _ _ _ He). reflexivity.
Qed.

Lemma existsb_agree {A} (f g : A -> bool) l : (forall x, In x l -> f x = g x) -> existsb f l = existsb g l.
Proof. induction l as [|x l IH]; intros H; [done|]. cbn. rewrite H by by left. rewrite IH; [done|]. intros y Hy. apply H. by right. Qed.

Lemma has_entry_taken g p m i : has_entry (taken_out g p m) i = has_entry m i.
Proof. unfold has_entry, get_cds, taken_out. cbn. by destruct (cds_ptr m). Qed.

Lemma mounted_small sh i : length (drive_map sh) = MAX_DRIVES_COUNT -> is_mounted sh i = true -> (i < 26)%nat.
Proof. intros Hl (x & E%lookup_lt_Some & _)%is_mounted_lookup. lia. Qed.

(** The loop of UMOUNT /ALL takes out, of the drives from [26 - drives] on,
    those that DOS has an entry for. *)
Lemma umount_all_done drives : forall r p s x s', (drives <= 26)%nat ->
  length (drive_map (prog_shared p)) = MAX_DRIVES_COUNT -> resident (pc_of s) = Some p -> r = 0 \/ r = 1 ->
  umount_all drives r s = Done (x, s') ->
  pc_of s' = taken_out (fun i => is_mounted (prog_shared p) i && has_entry (pc_of s) i
                                 && (26 - drives <=? i)%nat) p (pc_of s)
  /\ x = if existsb (fun i => is_mounted (prog_shared p) i && negb (has_entry (pc_of s) i))
              (seq (26 - drives) drives) then 1 else r.
Proof.
  induction drives as [|drives IH]; intros r p s x s' Hd Hl Hp Hr; cbn [umount_all seq existsb].
  { intros [= <- <-]. split; [|done]. symmetry. apply nothing_taken; [done|]. intros i.
    destruct (is_mounted _ i) eqn:Ei; [|done]. apply mounted_small in Ei; [|done].
    by rewrite (proj2 (Nat.leb_gt _ _)), andb_false_r by lia. }
  cbv zeta. set (n := (26 - S drives)%nat). assert (26 - drives = S n)%nat as En by (unfold n; lia).
  unfold andthen at 1, get_machine, reads. rewrite Hp. rewrite En in IH.
  assert (forall b i, (b = false \/ i <> n) -> b && (S n <=? i)%nat = b && (n <=? i)%nat) as Hskip.
  { intros b i Hb. destruct b; [|done]. destruct Hb as [|Hb]; [done|]. cbn [andb].
    destruct (Nat.leb_spec n i), (Nat.leb_spec (S n) i); done || lia. }
  destruct (is_mounted (prog_shared p) n) eqn:Emn; cbn [andb orb].
  - intros E. apply andthen_done in E as (y & s1 & E1 & E). apply (umount_done n p) in E1; [|done].
    destruct (has_entry (pc_of s) n) eqn:Een; cbn [negb orb]; destruct E1 as [-> E1].
    + apply (IH _ (upd_shared (without (fun i => (i =? n)%nat)) p)) in E as [E ->];
        [|lia|by cbn; rewrite length_imap|by rewrite E1|by rewrite Z.lor_0_r].
      change (prog_shared (upd_shared (without (fun i => (i =? n)%nat)) p))
        with (without (fun i => (i =? n)%nat) (prog_shared p)) in *. rewrite E1 in *. split.
      * rewrite E. apply taken_out_more. intros i. rewrite has_entry_taken, without_mounted.
        destruct (Nat.eqb_spec i n) as [->|Hi]; cbn [negb orb].
        { by rewrite Emn, Een, (proj2 (Nat.leb_le n n)) by lia. }
        rewrite andb_true_r. symmetry. apply Hskip. by right.
      * rewrite Z.lor_0_r. erewrite existsb_agree; [reflexivity|]. intros i Hi%in_seq. cbn beta.
        rewrite has_entry_taken, without_mounted, (proj2 (Nat.eqb_neq i n)) by lia. by rewrite andb_true_r.
    + subst s1. apply (IH _ p) in E as [E ->]; [|lia|done|done|by right; destruct Hr as [-> | ->]]. split.
      * rewrite E. apply taken_out_ext. intros i. apply Hskip.
        destruct (Nat.eq_dec i n) as [->|]; [left; by rewrite Emn, Een|by right].
      * assert (Z.lor r 1 = 1) as -> by (by destruct Hr as [-> | ->]). by destruct (existsb _ _).
  - intros E. apply (IH _ p) in E as [E ->]; [|lia|done|done|done]. split; [|done].
    rewrite E. apply taken_out_ext. intros i. apply Hskip.
    destruct (Nat.eq_dec i n) as [->|]; [left; by rewrite Emn|by right].
Qed.

(** C22: a UMOUNT that is not refused takes out just the mounted drives it is
    for, all of them with UMOUNT /ALL: it frees their entries of DOS and leaves
    every other drive, with its server and options, and everything else as it
    was; only a drive for which DOS has no entry is passed over, and reported.
    A UMOUNT that is refused changes nothing. *)
Theorem umount_spec argv p s x s' : finds (pc_of s) p -> umount_command argv s = Done (x, s') ->
  let sh := prog_shared p in
  let asked i := is_mounted sh i && umounts argv i in
  let gone i := asked i && has_entry (pc_of s) i in
  (x = (if existsb (fun i => asked i && negb (has_entry (pc_of s) i)) (seq 0 MAX_DRIVES_COUNT)
        then 1 else EXIT_OK)
   /\ pc_of s' = taken_out gone p (pc_of s) /\ program_ok (upd_shared (without gone) p))
  \/ (x <> EXIT_OK /\ pc_of s' = pc_of s).
Proof.
  intros (Hp & Hok & Hf) E. cbv zeta.
  assert (machine_ok (pc_of s)) as Hm
    by (intros q Hq; rewrite Hp in Hq; injection Hq as <-; exact (conj Hok Hf)).
  pose proof (umount_steady argv s x s' Hm E) as Hm'. cbv beta in Hm'.
  assert (forall g, pc_of s' = taken_out g p (pc_of s) -> program_ok (upd_shared (without g) p)) as Hok'.
  { intros g Hg. apply Hm'. by rewrite Hg. }
  unfold umount_command in E. rewrite (with_installed_found p) in E by done.
  destruct (negb _); [injection E as <- <-; by right|]. cbv zeta in E. unfold umounts.
  pose proof (cf_map _ (po_shared _ Hok)) as Hl.
  destruct (is_word "/ALL" _); cbn [orb].
  - left. apply (umount_all_done 26 EXIT_OK p) in E as [E ->]; [|lia|done|done|by left].
    assert (pc_of s' = taken_out (fun i => is_mounted (prog_shared p) i && true && has_entry (pc_of s) i) p (pc_of s))
      as E' by (rewrite E; apply taken_out_ext; intros i; by rewrite !andb_true_r).
    split; [|split; [exact E'|by apply Hok']].
    erewrite existsb_agree; [reflexivity|]. intros i _. cbn beta. by rewrite andb_true_r.
  - set (drive := drive_to_num _) in *. pose proof (drive_to_num_range (byte_at (nth 2 argv []) 0)) as Hd.
    fold drive in Hd. destruct (Z.leb_spec 26 drive); [injection E as <- <-; by right|].
    destruct (is_mounted (prog_shared p) (Z.to_nat drive)) eqn:Em; [|injection E as <- <-; by right].
    cbn [negb] in E. apply (umount_done _ p) in E; [|done].
    destruct (has_entry (pc_of s) (Z.to_nat drive)) eqn:Ee; destruct E as [-> E]; [left|right; by rewrite E].
    assert (forall i, (Z.of_nat i =? drive) = (i =? Z.to_nat drive)%nat) as Hi.
    { intros i. destruct (Z.eqb_spec (Z.of_nat i) drive), (Nat.eqb_spec i (Z.to_nat drive)); done || lia. }
    assert (pc_of s' = taken_out (fun i => is_mounted (prog_shared p) i && (Z.of_nat i =? drive)
              && has_entry (pc_of s) i) p (pc_of s)) as E'.
    { rewrite E. apply taken_out_ext. intros i. rewrite Hi.
      destruct (Nat.eqb_spec i (Z.to_nat drive)) as [->|]; [by rewrite Em, Ee|by rewrite andb_false_r]. }
    split; [|split; [exact E'|by apply Hok']].
    rewrite (existsb_agree _ (fun _ => false)); [done|].
    intros i _. rewrite Hi.
    destruct (Nat.eqb_spec i (Z.to_nat drive)) as [->|]; [by rewrite Ee, andb_false_r|by rewrite andb_false_r].
Qed.
End Mount.

(** ** Two flaws *)

Section Flaws.
Context {P : Type} `{DOS : !Dos, PKT : !PacketDriver P}.

(** The letter right behind the last drive of DOS passes the test of
    [get_cds], whose comparison is one off: DOS has [last_drive] entries,
    numbered from 0, and MOUNT goes on to memory behind the last of them. *)
Theorem mount_behind_lastdrive argv p (s : process P) o cds : finds (pc_of s) p ->
  parse_mount_args (drop 2 argv) mount_defaults = inr o -> mount_drive_set o = true ->
  cds_ptr (pc_of s) = Some cds -> zlen cds = last_drive (pc_of s) ->
  mo_drive_no o = last_drive (pc_of s) -> mount_command argv s = Overrun.
Proof.
  intros Hp Eo Hset Ec Hl Hd. rewrite (mount_installed argv p s Hp), Eo, Hset. cbn [negb].
  unfold get_cds. rewrite Ec, Hd, Z.ltb_irrefl. unfold andthen, read_cds. rewrite Ec.
  rewrite (proj2 (lookup_ge_None cds (Z.to_nat (last_drive (pc_of s))))) by lia. done.
Qed.
End Flaws.

(** A drive that was never mounted has the index 0 in its record, so that slot
    0 is never found free again, whether a mounted drive uses it or not. *)
Lemma slot_0_not_reused sh ip sh' : zlen (ip_mac_map sh) < NO_SLOT ->
  loaded_drive ∈ take MAX_DRIVES_COUNT (drive_infos sh) ->
  ip_value <$> ip_mac_map sh !! 0%nat <> Some NO_IP ->
  assign_remote_ip_addr_slot sh ip = (0, sh') -> sh' = sh.
Proof.
  intros Hl Hd Hno E. apply assign_slot_cases in E as [[_ _ _ _ [->|(_ & Hf)]]|(? & _)]; [done| |done|done].
  destruct Hf as [?|[_ Hu]]; [done|]. exfalso. apply not_true_iff_false in Hu. apply Hu.
  apply existsb_exists. exists loaded_drive. split; [by apply list_elem_of_In|done].
Qed.
