(* ===== verification/Manage.v ===== *)
(** * Manage: looking at and changing the options of the client (nmmanage.c)

    NMMANAGE finds the resident program as NETMOUNT does and reads or changes
    its shared data.  A function that reads returns the exit code and what it
    prints, one that writes the exit code of a failure or the new data; the
    messages of errors are left out.  The program is compiled for a 16-bit
    [int], so that [%d] prints a [uint16_t] as a signed number.
    [strtoul] and [strcasecmp] are those of the C library. *)
From S2P Require Import Prelude Words Checksum Fcb Resident Network Redirector Args Setup.

(** ** The C library *)

(** [strcasecmp(a, b) == 0] *)
Definition same_word (a : bytes) (b : string) : bool :=
  bool_decide (ascii_to_upper <$> a = ascii_to_upper <$> str b).

Definition is_space (c : Z) : bool := (c =? CH_SPACE) || ((9 <=? c) && (c <=? 13)).
Fixpoint skip_space (s : bytes) : bytes :=
  match s with
  | c :: rest => if is_space c then skip_space rest else s
  | [] => []
  end.

(** The digits of base [base], letters up to z included. *)
Definition ul_digit (c : Z) : option Z :=
  if (CH_0 <=? c) && (c <=? CH_9) then Some (c - CH_0)
  else if (CH_A <=? c) && (c <=? CH_Z) then Some (c - CH_A + 10)
  else if (CH_a <=? c) && (c <=? CH_z) then Some (c - CH_a + 10)
  else None.
Fixpoint ul_digits (base n : Z) (s : bytes) : Z * bytes :=
  match s with
  | c :: rest =>
      match ul_digit c with
      | Some d => if d <? base then ul_digits base (n * base + d) rest else (n, s)
      | None => (n, s)
      end
  | [] => (n, [])
  end.
Definition starts_number (base : Z) (s : bytes) : bool :=
  match ul_digit (byte_at s 0) with Some d => d <? base | None => false end.

(** The base, and the digits behind its prefix. *)
Definition ul_prefix (base : Z) (s : bytes) : Z * bytes :=
  let hex := (byte_at s 0 =? CH_0) && ((byte_at s 1 =? 120) || (byte_at s 1 =? 88))
             && starts_number 16 (drop 2 s) in
  if ((base =? 0) || (base =? 16)) && hex then (16, drop 2 s)
  else if base =? 0 then (if byte_at s 0 =? CH_0 then 8 else 10, s)
  else (base, s).

(** The value, a 32-bit [unsigned long], and what [endptr] is set to. *)
Definition strtoul (s : bytes) (base : Z) : Z * bytes :=
  let s1 := skip_space s in
  let negative := byte_at s1 0 =? 45 in
  let s2 := if negative || (byte_at s1 0 =? 43) then drop 1 s1 else s1 in
  let '(base, s3) := ul_prefix base s2 in
  if negb (starts_number base s3) then (0, s)
  else
    let '(n, rest) := ul_digits base 0 s3 in
    (if 2 ^ 32 <=? n then 2 ^ 32 - 1 else if negative then u32 (- n) else n, rest).

(** [printf] of numbers: [%d] of a value of at most 16 bits, [%02X], [%03d]. *)
Fixpoint dec_digits (turns : nat) (n : Z) (behind : bytes) : bytes :=
  match turns with
  | O => behind
  | S turns =>
      let l := (n mod 10 + CH_0) :: behind in
      if n <? 10 then l else dec_digits turns (n / 10) l
  end.
Definition print_d (n : Z) : bytes :=
  let n := i16 n in
  if n <? 0 then 45 :: dec_digits 5 (- n) [] else dec_digits 5 n [].
Definition print_02X (n : Z) : bytes := uint16_to_str n 3 16 CH_0.
Definition print_03d (n : Z) : bytes := uint16_to_str n 4 10 CH_0.

(** ** Printing the data *)

Definition newline : bytes := [10].
Definition line (s : bytes) : bytes := s ++ newline.

(** The bytes of an address in the order of memory. *)
Fixpoint joined (sep : Z) (l : list bytes) : bytes :=
  match l with
  | [] => []
  | [x] => x
  | x :: l => x ++ [sep] ++ joined sep l
  end.
Definition ip_text (ip : Z) : bytes := joined CH_DOT (print_d <$> le32_bytes ip).
Definition mac_text (mac : bytes) : bytes := joined CH_COLON (print_02X <$> mac).
Definition on_off (on : bool) (yes no : string) : bytes := str (if on then yes else no).
Definition letter (drive_no : Z) : bytes := [u8 (drive_no + CH_A)].

Definition nmmanage_info : bytes :=
  line (str "NMManage") ++ line (str "Version: 1.1.0") ++ line (str "ABI version: " ++ print_d ABI_VERSION).
Definition netmount_info (d : install_data) : bytes :=
  line (str "Detected installed NetMount client") ++ line (str "Version: " ++ c_string (netmount_version d))
  ++ line (str "ABI version: " ++ print_d (abi_version d))
  ++ line (str "Minimum compatible ABI version: " ++ print_d (min_compatible_abi_version d)).

Definition gateway_text (sh : shared_data) : bytes :=
  if gateway_ip_slot sh =? NO_SLOT then [] else ip_text (ip_value (ip_mac_of sh (gateway_ip_slot sh))).

Definition net_info (sh : shared_data) (d : install_data) : bytes :=
  line (str "IP: " ++ ip_text (local_ipv4 sh)) ++ line (str "MASK: " ++ ip_text (net_mask sh))
  ++ line (if gateway_ip_slot sh =? NO_SLOT then str "GW:" else str "GW: " ++ gateway_text sh)
  ++ line (str "Local udp PORT: " ++ print_d (local_port sh))
  ++ line (str "Interface MTU: " ++ print_d (interface_mtu sh))
  ++ line (str "Send ARP_REQUESTS: "
           ++ on_off (negb (disable_sending_arp_request sh =? 0)) "DISABLED" "ENABLED")
  ++ line (str "PKT_INT: 0x" ++ print_02X (used_pktdrv_int d))
  ++ line (str "MAC: " ++ mac_text (local_mac_addr sh)).

(** ** NET GET and NET SET *)

Definition net_get (sh : shared_data) (d : install_data) (option : bytes) : Z * bytes :=
  if same_word option "IP" then (EXIT_OK, line (ip_text (local_ipv4 sh)))
  else if same_word option "MASK" then (EXIT_OK, line (ip_text (net_mask sh)))
  else if same_word option "GW" then (EXIT_OK, line (gateway_text sh))
  else if same_word option "PORT" then (EXIT_OK, line (print_d (local_port sh)))
  else if same_word option "MTU" then (EXIT_OK, line (print_d (interface_mtu sh)))
  else if same_word option "ARP_REQUESTS" then
    (EXIT_OK, line (on_off (negb (disable_sending_arp_request sh =? 0)) "DISABLED" "ENABLED"))
  else if same_word option "PKT_INT" then (EXIT_OK, line (str "0x" ++ print_02X (used_pktdrv_int d)))
  else if same_word option "MAC" then (EXIT_OK, line (mac_text (local_mac_addr sh)))
  else (EXIT_BAD_ARG, []).

(** A number that takes the whole of [value]. *)
Definition whole_number (value : bytes) : option Z :=
  let '(n, endptr) := strtoul value 0 in
  if nothing_read value endptr || negb (byte_at endptr 0 =? CH_NUL) then None else Some n.

(** The exit code, or the new data. *)
Definition net_set (sh : shared_data) (option value : bytes) : Z + shared_data :=
  if same_word option "PORT" then
    match whole_number value with
    | None => inl EXIT_BAD_ARG
    | Some n => let port := u16 n in
                if port =? 0 then inl EXIT_BAD_ARG else inr (set_local_port port sh)
    end
  else if same_word option "MTU" then
    match whole_number value with
    | None => inl EXIT_BAD_ARG
    | Some n => let mtu := u16 n in
                if (MAX_MTU <? mtu) || (mtu <? MIN_MTU) then inl EXIT_BAD_ARG
                else inr (set_interface_mtu mtu sh)
    end
  else if same_word option "ARP_REQUESTS" then
    if same_word value "ENABLED" then inr (set_no_arp 0 sh)
    else if same_word value "DISABLED" then inr (set_no_arp 1 sh)
    else inl EXIT_BAD_ARG
  else inl EXIT_BAD_ARG.

(** ** Drives *)

Definition drive_server (sh : shared_data) (d : drive_info) : bytes :=
  ip_text (ip_value (ip_mac_of sh (remote_ip_idx d))).

(** The loop over the drives from C: on. *)
Definition drive_line (sh : shared_data) (drive_no : nat) : bytes :=
  if is_mounted sh drive_no then
    let d := drive_info_of sh (Z.of_nat drive_no) in
    line (letter (Z.of_nat drive_no) ++ str " -> " ++ drive_server sh d ++ [CH_COLON]
          ++ print_d (remote_port d) ++ [CH_SLASH] ++ letter (nth drive_no (drive_map sh) 0))
  else [].
Definition drive_list (sh : shared_data) : bytes := concat (drive_line sh <$> seq 2 24).

(** Ticks to seconds, rounded. *)
Definition compute_rcv_tmo (rcv_tmo_18_2_ticks_shr_2 : Z) : Z :=
  let min_dsec := u16 (u32 (u32 (Z.shiftl rcv_tmo_18_2_ticks_shr_2 2) * 100) / 182) in
  let min_sec := u8 (min_dsec / 10) in
  let min_dsec := u16 (min_dsec - min_sec * 10) in
  if 5 <=? min_dsec then u8 (min_sec + 1) else min_sec.

Definition ext_features_text (sh : shared_data) (drive_no : nat) : bytes :=
  on_off (get_drive_has_ext_features (Z.of_nat drive_no) (has_drive_extended_features sh)) "YES" "NO".

Definition drive_info_text (sh : shared_data) (i : install_data) (drive_no : nat) : Z * bytes :=
  if negb (is_mounted sh drive_no) then (EXIT_DRIVE_NOT_MOUNTED, [])
  else
    let d := drive_info_of sh (Z.of_nat drive_no) in
    (EXIT_OK,
     line (str "Local drive: " ++ letter (Z.of_nat drive_no))
     ++ line (str "Server IP: " ++ drive_server sh d)
     ++ line (str "Server udp PORT: " ++ print_d (remote_port d))
     ++ line (str "Server DRIVE: " ++ letter (nth drive_no (drive_map sh) 0))
     ++ line (if 2 <=? abi_version i
              then str "Server HAS_EXTENDED_FEATURES: " ++ ext_features_text sh drive_no
              else str "Client does not support extended features")
     ++ line (str "Minimum length of data block read from the server MIN_READ_LEN [bytes]: "
              ++ print_d (min_server_read_len d))
     ++ line (str "Minimum response timenout MIN_RCV_TMO [seconds]: "
              ++ print_d (compute_rcv_tmo (min_rcv_tmo_18_2_ticks_shr_2 d)))
     ++ line (str "Maximum response timenout MAX_RCV_TMO [seconds]: "
              ++ print_d (compute_rcv_tmo (max_rcv_tmo_18_2_ticks_shr_2 d)))
     ++ line (str "Maximum number of request retries MAX_RETRIES: " ++ print_d (max_request_retries d))
     ++ line (str "Netmount protocol checksum CHECKSUM_NETMOUNT: "
              ++ on_off (has_flag (enabled_checksums d) CHECKSUM_NETMOUNT_PROTO) "ENABLED" "DISABLED")
     ++ line (str "IP header checksum CHECKSUM_IP_HEADER: "
              ++ on_off (has_flag (enabled_checksums d) CHECKSUM_IP_HEADER) "ENABLED"
                   "Send only (ignore received)")).

Definition drive_get (sh : shared_data) (i : install_data) (drive_no : nat) (option : bytes)
  : Z * bytes :=
  if negb (is_mounted sh drive_no) then (EXIT_DRIVE_NOT_MOUNTED, [])
  else
    let d := drive_info_of sh (Z.of_nat drive_no) in
    let ok s := (EXIT_OK, line s) in
    if same_word option "IP" then ok (drive_server sh d)
    else if same_word option "PORT" then ok (print_d (remote_port d))
    else if same_word option "DRIVE" then ok (letter (nth drive_no (drive_map sh) 0))
    else if same_word option "HAS_EXTENDED_FEATURES" then
      ok (if 2 <=? abi_version i then ext_features_text sh drive_no else str "NO")
    else if same_word option "MIN_READ_LEN" then ok (print_d (min_server_read_len d))
    else if same_word option "MIN_RCV_TMO" then
      ok (print_d (compute_rcv_tmo (min_rcv_tmo_18_2_ticks_shr_2 d)))
    else if same_word option "MAX_RCV_TMO" then
      ok (print_d (compute_rcv_tmo (max_rcv_tmo_18_2_ticks_shr_2 d)))
    else if same_word option "MAX_RETRIES" then ok (print_d (max_request_retries d))
    else if same_word option "CHECKSUM_NETMOUNT" then
      ok (on_off (has_flag (enabled_checksums d) CHECKSUM_NETMOUNT_PROTO) "ENABLED" "DISABLED")
    else if same_word option "CHECKSUM_IP_HEADER" then
      ok (on_off (has_flag (enabled_checksums d) CHECKSUM_IP_HEADER) "ENABLED" "SEND_ONLY")
    else (EXIT_BAD_ARG, []).

(** *** DRIVE SET *)

Definition set_drive_options min_tmo max_tmo retries checksums read_len (d : drive_info) :=
  mkDriveInfo (remote_ip_idx d) (remote_port d) min_tmo max_tmo retries checksums read_len.

(** [|= flag] or [&= ~flag]. *)
Definition set_checksum (on : bool) (flag : Z) (d : drive_info) : drive_info :=
  set_drive_options (min_rcv_tmo_18_2_ticks_shr_2 d) (max_rcv_tmo_18_2_ticks_shr_2 d)
    (max_request_retries d)
    (if on then Z.lor (enabled_checksums d) flag else Z.ldiff (enabled_checksums d) flag)
    (min_server_read_len d) d.

(** The record with the option set, or the exit code. *)
Definition set_drive_option (d : drive_info) (option value : bytes) : Z + drive_info :=
  let checksum flag off :=
    if same_word value "ENABLED" then inr (set_checksum true flag d)
    else if same_word value off then inr (set_checksum false flag d) else inl EXIT_BAD_ARG in
  if same_word option "MIN_READ_LEN" then
    match whole_number value with
    | None => inl EXIT_BAD_ARG
    | Some n =>
        let len := u16 n in
        if (MAX_MIN_READ_LEN <? len) || negb (Z.land len (u16 (len - 1)) =? 0) then inl EXIT_BAD_ARG
        else inr (set_drive_options (min_rcv_tmo_18_2_ticks_shr_2 d) (max_rcv_tmo_18_2_ticks_shr_2 d)
                    (max_request_retries d) (enabled_checksums d) (u8 len) d)
    end
  else if same_word option "MIN_RCV_TMO" then
    match whole_number value with
    | None => inl EXIT_BAD_ARG
    | Some n =>
        let sec := u16 n in
        if negb (in_sec_range sec) then inl EXIT_BAD_ARG
        else inr (set_drive_options (tmo_ticks sec) (max_rcv_tmo_18_2_ticks_shr_2 d)
                    (max_request_retries d) (enabled_checksums d) (min_server_read_len d) d)
    end
  else if same_word option "MAX_RCV_TMO" then
    match whole_number value with
    | None => inl EXIT_BAD_ARG
    | Some n =>
        let sec := u16 n in
        if negb (in_sec_range sec) then inl EXIT_BAD_ARG
        else inr (set_drive_options (min_rcv_tmo_18_2_ticks_shr_2 d) (tmo_ticks sec)
                    (max_request_retries d) (enabled_checksums d) (min_server_read_len d) d)
    end
  else if same_word option "MAX_RETRIES" then
    match whole_number value with
    | None => inl EXIT_BAD_ARG
    | Some n =>
        let retries := i16 n in
        if (MAX_MAX_RETRIES <? retries) || (retries <? MIN_MAX_RETRIES) then inl EXIT_BAD_ARG
        else inr (set_drive_options (min_rcv_tmo_18_2_ticks_shr_2 d) (max_rcv_tmo_18_2_ticks_shr_2 d)
                    (u8 retries) (enabled_checksums d) (min_server_read_len d) d)
    end
  else if same_word option "CHECKSUM_NETMOUNT" then checksum CHECKSUM_NETMOUNT_PROTO "DISABLED"%string
  else if same_word option "CHECKSUM_IP_HEADER" then checksum CHECKSUM_IP_HEADER "SEND_ONLY"%string
  else inl EXIT_BAD_ARG.

Definition drive_set (sh : shared_data) (drive_no : nat) (option value : bytes) : Z + shared_data :=
  if negb (is_mounted sh drive_no) then inl EXIT_DRIVE_NOT_MOUNTED
  else
    match set_drive_option (drive_info_of sh (Z.of_nat drive_no)) option value with
    | inl exit_code => inl exit_code
    | inr d => inr (set_drives (drive_map sh) (<[drive_no := d]> (drive_infos sh)) sh)
    end.

(** ** The table of addresses *)

Definition mac_line (e : ip_mac) : bytes :=
  if ip_value e =? NO_IP then []
  else line (joined CH_DOT (print_03d <$> le32_bytes (ip_value e)) ++ str "   " ++ mac_text (mac_bytes e)).
Definition mac_list (sh : shared_data) : bytes := concat (mac_line <$> ip_mac_map sh).

(** The loop of [parse_ipv4_addr] and [parse_mac_addr]: numbers up to 255, [n]
    of them followed by [sep] and one by the end of the string. *)
Fixpoint parse_bytes (n : nat) (base sep : Z) (s : bytes) : option bytes :=
  let '(value, endptr) := strtoul s base in
  let bad terminator :=
    (255 <? value) || nothing_read s endptr || negb (byte_at endptr 0 =? terminator) in
  match n with
  | O => if bad CH_NUL then None else Some [value]
  | S n => if bad sep then None
           else match parse_bytes n base sep (drop 1 endptr) with
                | Some bs => Some (value :: bs)
                | None => None
                end
  end.
Definition manage_parse_ipv4_addr (s : bytes) : option Z :=
  match parse_bytes 3 10 CH_DOT s with
  | Some addr => Some (le32 addr 0)
  | None => None
  end.
Definition parse_mac_addr (s : bytes) : option bytes := parse_bytes 5 16 CH_COLON s.

(** The first slot with the address. *)
Definition find_slot (sh : shared_data) (ip : Z) : option nat :=
  fst <$> list_find (fun e => ip_value e = ip) (ip_mac_map sh).

(** The address of an argument, and its slot. *)
Definition slot_argument (sh : shared_data) (s : bytes) : Z + nat :=
  match manage_parse_ipv4_addr s with
  | None => inl EXIT_BAD_ARG
  | Some ip =>
      if ip =? NO_IP then inl EXIT_UNKNOWN_ARG
      else match find_slot sh ip with
           | Some i => inr i
           | None => inl EXIT_UNKNOWN_ARG
           end
  end.

Definition mac_get (sh : shared_data) (ip : bytes) : Z * bytes :=
  match slot_argument sh ip with
  | inl exit_code => (exit_code, [])
  | inr i => (EXIT_OK, line (mac_text (mac_bytes (ip_mac_of sh (Z.of_nat i)))))
  end.

(** The address of the card is parsed before the slot is looked for. *)
Definition mac_set (sh : shared_data) (ip mac : bytes) : Z + shared_data :=
  match manage_parse_ipv4_addr ip with
  | None => inl EXIT_BAD_ARG
  | Some addr =>
      if addr =? NO_IP then inl EXIT_UNKNOWN_ARG
      else match parse_mac_addr mac with
      | None => inl EXIT_BAD_ARG
      | Some mac =>
          match find_slot sh addr with
          | Some i => inr (set_ip_mac_map (set_mac i mac (ip_mac_map sh)) sh)
          | None => inl EXIT_UNKNOWN_ARG
          end
      end
  end.

(** ** main *)

Abbreviation EXIT_MISSING_CMD := 1 (only parsing).

(** What a command prints, or the shared data it leaves. *)
Inductive result :=
  | Printed (exit_code : Z) (out : bytes)
  | Changed (sh : shared_data).

Definition printed (r : Z * bytes) : result := Printed r.1 r.2.
Definition set_result (r : Z + shared_data) : result :=
  match r with inl exit_code => Printed exit_code [] | inr sh => Changed sh end.

(** The tests of [argc], which has to be [n]. *)
Definition with_argc (argv : list bytes) (n : nat) (r : result) : result :=
  if (length argv <? n)%nat then Printed EXIT_MISSING_ARG []
  else if (n <? length argv)%nat then Printed EXIT_UNKNOWN_ARG [] else r.

Definition net_command (argv : list bytes) (p : program) : result :=
  let arg := nth 2 argv [] in
  let argi i := nth i argv [] in
  let sh := prog_shared p in
  if (length argv <? 3)%nat then Printed EXIT_MISSING_ARG []
  else if same_word arg "INFO" then with_argc argv 3 (Printed EXIT_OK (net_info sh (install_info p)))
  else if same_word arg "GET" then with_argc argv 4 (printed (net_get sh (install_info p) (argi 3%nat)))
  else if same_word arg "SET" then with_argc argv 5 (set_result (net_set sh (argi 3%nat) (argi 4%nat)))
  else Printed EXIT_UNKNOWN_ARG [].

Definition drive_command (argv : list bytes) (p : program) : result :=
  let argi i := nth i argv [] in
  let arg := argi 3%nat in
  let sh := prog_shared p in
  if (length argv <? 4)%nat then Printed EXIT_MISSING_ARG []
  else
    let drive_no := u8 (ascii_to_upper (byte_at (argi 2%nat) 0) - CH_A) in
    let n := Z.to_nat drive_no in
    if 26 <=? drive_no then Printed EXIT_BAD_DRIVE_LETTER []
    else if same_word arg "INFO" then with_argc argv 4 (printed (drive_info_text sh (install_info p) n))
    else if same_word arg "GET" then
      with_argc argv 5 (printed (drive_get sh (install_info p) n (argi 4%nat)))
    else if same_word arg "SET" then
      with_argc argv 6 (set_result (drive_set sh n (argi 4%nat) (argi 5%nat)))
    else Printed EXIT_UNKNOWN_ARG [].

Definition mac_command (argv : list bytes) (p : program) : result :=
  let arg := nth 2 argv [] in
  let argi i := nth i argv [] in
  let sh := prog_shared p in
  if (length argv <? 3)%nat then Printed EXIT_MISSING_ARG []
  else if same_word arg "GET" then with_argc argv 4 (printed (mac_get sh (argi 3%nat)))
  else if same_word arg "SET" then with_argc argv 5 (set_result (mac_set sh (argi 3%nat) (argi 4%nat)))
  else Printed EXIT_UNKNOWN_ARG [].

(** The commands, with the installed program found. *)
Definition manage_command (argv : list bytes) (p : program) : result :=
  let command := nth 1 argv [] in
  let info := nmmanage_info ++ newline ++ netmount_info (install_info p) in
  if ABI_VERSION <? min_compatible_abi_version (install_info p) then Printed EXIT_INCOMPATIBLE_VERSION info
  else if same_word command "INFO" then
    if (2 <? length argv)%nat then Printed EXIT_UNKNOWN_ARG [] else Printed EXIT_OK info
  else if same_word command "NET" then net_command argv p
  else if same_word command "DRIVES" then
    if (2 <? length argv)%nat then Printed EXIT_UNKNOWN_ARG []
    else Printed EXIT_OK (drive_list (prog_shared p))
  else if same_word command "DRIVE" then drive_command argv p
  else if same_word command "MACS" then
    if (2 <? length argv)%nat then Printed EXIT_UNKNOWN_ARG []
    else Printed EXIT_OK (mac_list (prog_shared p))
  else if same_word command "MAC" then mac_command argv p
  else Printed EXIT_UNKNOWN_CMD [].

(** A run of the program: the exit code, what it prints but for the usage text,
    and the machine. *)
Definition nmmanage {P} `{DOS : !Dos} (argv : list bytes) (m : machine P)
  : outcome (Z * bytes * machine P) :=
  if existsb is_help (drop 1 argv) then Done (EXIT_OK, [], m)
  else if (length argv <? 2)%nat then Done (EXIT_MISSING_CMD, [], m)
  else
    let '(installed, multiplex_id) := get_install_info m in
    if negb installed then Done (EXIT_NOT_INSTALLED, [], m)
    else match get_installed m multiplex_id with
         | None => Overrun
         | Some p =>
             match manage_command argv p with
             | Printed exit_code out => Done (exit_code, out, m)
             | Changed sh => Done (EXIT_OK, [], set_resident (Some (upd_shared (fun _ => sh) p)) m)
             end
         end.
