(* ===== verification/ManageSpec.v ===== *)
(** * ManageSpec: what NMMANAGE prints and changes

    Numbers and addresses are printed as they are read back, by NMMANAGE and by
    NETMOUNT; what GET prints is a value SET takes, and it stands for the
    setting; SET leaves the resident program in order, the other commands leave
    the machine alone. *)
From S2P Require Import Prelude Words Checksum Fcb Resident Network NetworkInv Redirector ReadAhead.
From S2P Require Import Args Setup SetupInv Manage.

(** ** Numbers *)

(** What stops [ul_digits]. *)
Definition ends_digits (base : Z) (s : bytes) : Prop := starts_number base s = false.
Definition digit_in (base c : Z) : bool :=
  match ul_digit c with Some d => d <? base | None => false end.
Definition digits_value (base n : Z) (ds : bytes) : Z :=
  foldl (fun n c => n * base + default 0 (ul_digit c)) n ds.

Lemma ul_digits_app base ds rest n : forallb (digit_in base) ds = true -> ends_digits base rest ->
  ul_digits base n (ds ++ rest) = (digits_value base n ds, rest).
Proof.
  intros Hd Hr. unfold digits_value. revert n. induction ds as [|c ds IH]; intros n.
  - destruct rest as [|c rest]; [done|]. unfold ends_digits, starts_number in Hr. cbn in *.
    destruct (ul_digit c) as [d|]; [by rewrite Hr|done].
  - cbn [forallb] in Hd. apply andb_prop in Hd as [Hc Hd]. unfold digit_in in Hc.
    cbn [app ul_digits foldl]. destruct (ul_digit c) as [d|]; [|done]. rewrite Hc. by apply IH.
Qed.

(** A printed number is read back, whatever stops its digits. *)
Lemma strtoul_digits base ds rest : base = 10 \/ base = 16 -> ds <> [] ->
  forallb (digit_in base) ds = true -> digits_value base 0 ds < 2 ^ 32 -> ends_digits base rest ->
  (base = 16 -> byte_at (ds ++ rest) 1 <> 120 /\ byte_at (ds ++ rest) 1 <> 88) ->
  strtoul (ds ++ rest) base = (digits_value base 0 ds, rest).
Proof.
  intros Hbase Hne Hd Hv Hr Hx. destruct ds as [|c ds]; [done|]. unfold strtoul.
  assert (digit_in base c = true) as Hc by (cbn [forallb] in Hd; by apply andb_prop in Hd as [? _]).
  assert (48 <= c) as Hc48.
  { revert Hc. unfold digit_in, ul_digit. destruct (Z.leb_spec CH_0 c); [done|].
    destruct (Z.leb_spec CH_A c); [lia|]. by destruct (Z.leb_spec CH_a c); [lia|]. }
  assert (skip_space ((c :: ds) ++ rest) = (c :: ds) ++ rest) as ->.
  { cbn [app skip_space]. unfold is_space. rewrite (proj2 (Z.eqb_neq c CH_SPACE)) by lia.
    by rewrite (proj2 (Z.leb_gt c 13)), andb_false_r by lia. }
  cbv zeta. change (byte_at ((c :: ds) ++ rest) 0) with c.
  rewrite (proj2 (Z.eqb_neq c 45)), (proj2 (Z.eqb_neq c 43)) by lia. cbn [orb].
  assert (ul_prefix base ((c :: ds) ++ rest) = (base, (c :: ds) ++ rest)) as ->.
  { unfold ul_prefix. destruct Hbase as [-> | ->]; [done|]. destruct Hx as [H1 H2]; [done|].
    rewrite (proj2 (Z.eqb_neq _ 120) H1), (proj2 (Z.eqb_neq _ 88) H2). cbn [orb].
    rewrite andb_false_r. cbn [andb]. by rewrite andb_false_r. }
  assert (starts_number base ((c :: ds) ++ rest) = true) as -> by done.
  cbn [negb]. rewrite ul_digits_app by done.
  by rewrite (proj2 (Z.leb_gt (2 ^ 32) _)) by lia.
Qed.

(** *** Bytes in decimal and hexadecimal *)

Definition good_text (base : Z) (text : Z -> bytes) (x : Z) : bool :=
  negb (length (text x) =? 0)%nat && forallb (digit_in base) (text x)
  && (digits_value base 0 (text x) =? x).

Lemma good_text_read base text x rest : base = 10 \/ base = 16 -> is_byte x ->
  good_text base text x = true -> ends_digits base rest ->
  (base = 16 -> byte_at (text x ++ rest) 1 <> 120 /\ byte_at (text x ++ rest) 1 <> 88) ->
  strtoul (text x ++ rest) base = (x, rest).
Proof.
  intros Hb Hx [[Hl Hd]%andb_prop Hv%Z.eqb_eq]%andb_prop Hr H16. unfold is_byte in Hx.
  rewrite strtoul_digits; [by rewrite Hv|done| |done|lia|done|done].
  intros E. by rewrite E in Hl.
Qed.

Lemma print_d_byte x : is_byte x -> good_text 10 print_d x = true.
Proof. intros Hx. by apply (by_enum 256 (good_text 10 print_d)). Qed.
Lemma print_03d_byte x : is_byte x -> good_text 10 print_03d x = true.
Proof. intros Hx. by apply (by_enum 256 (good_text 10 print_03d)). Qed.
Lemma print_02X_byte x : is_byte x -> good_text 16 print_02X x = true.
Proof. intros Hx. by apply (by_enum 256 (good_text 16 print_02X)). Qed.
Lemma print_02X_plain x rest : is_byte x ->
  byte_at (print_02X x ++ rest) 1 <> 120 /\ byte_at (print_02X x ++ rest) 1 <> 88.
Proof.
  intros Hx. pose proof (by_enum 256 (fun x => match print_02X x with
    | [_; c] => negb (c =? 120) && negb (c =? 88) | _ => false end) eq_refl x Hx) as H.
  cbv beta in H. destruct (print_02X x) as [|a [|c [|]]]; try done.
  apply andb_prop in H as [H1%negb_true_iff%Z.eqb_neq H2%negb_true_iff%Z.eqb_neq]. done.
Qed.

(** ** Addresses *)

(** The numbers of [l] printed by [text] and joined by [sep] are the bytes
    [parse_bytes] reads. *)
Lemma parse_bytes_joined base text sep l n : base = 10 \/ base = 16 -> sep = CH_DOT \/ sep = CH_COLON ->
  length l = S n -> Forall is_byte l -> (forall x, is_byte x -> good_text base text x = true) ->
  (base = 16 -> forall x rest, is_byte x ->
     byte_at (text x ++ rest) 1 <> 120 /\ byte_at (text x ++ rest) 1 <> 88) ->
  parse_bytes n base sep (joined sep (text <$> l)) = Some l.
Proof.
  intros Hb Hsep Hl Hf Ht Hx. revert l Hl Hf. induction n as [|n IH]; intros l Hl Hf.
  - destruct l as [|x [|]]; [done| |done]. apply Forall_cons in Hf as [Hx0 _].
    cbn [fmap list_fmap joined parse_bytes].
    rewrite <- (app_nil_r (text x)) at 1. rewrite good_text_read; [|done|done|auto|done|auto].
    rewrite (proj2 (Z.ltb_ge 255 x)) by (unfold is_byte in Hx0; lia).
    specialize (Ht x Hx0). unfold good_text in Ht.
    apply andb_prop in Ht as [[Hlen _]%andb_prop _]. unfold nothing_read. cbn [length].
    by rewrite Nat.eqb_sym, (proj1 (negb_true_iff _) Hlen).
  - destruct l as [|x [|y l]]; [done|done|]. apply Forall_cons in Hf as [Hx0 Hf].
    change (joined sep (text <$> x :: y :: l)) with (text x ++ sep :: joined sep (text <$> y :: l)).
    pose proof (IH (y :: l) ltac:(cbn in *; lia) Hf) as E.
    set (behind := joined sep (text <$> y :: l)) in *. cbn [parse_bytes]. rewrite good_text_read; [|done|done|auto| |auto].
    2: { unfold ends_digits, starts_number. by destruct Hsep as [-> | ->]. }
    rewrite (proj2 (Z.ltb_ge 255 x)) by (unfold is_byte in Hx0; lia).
    specialize (Ht x Hx0) as Ht'. unfold good_text in Ht'.
    apply andb_prop in Ht' as [[Hlen _]%andb_prop _].
    assert (nothing_read (text x ++ sep :: behind) (sep :: behind) = false) as ->.
    { unfold nothing_read. apply Nat.eqb_neq. rewrite length_app.
      apply negb_true_iff, Nat.eqb_neq in Hlen. lia. }
    change (byte_at (sep :: behind) 0) with sep. rewrite Z.eqb_refl.
    cbn [orb negb]. change (drop 1 (sep :: behind)) with behind. by rewrite E.
Qed.

(** The client's own reader of numbers and addresses. *)
Definition stops (rest : bytes) : Prop :=
  ends_number 10 rest /\ byte_at rest 0 <> 120 /\ byte_at rest 0 <> 88.

Lemma print_d_ui16 x rest : is_byte x -> stops rest ->
  strto_ui16 (print_d x ++ rest) = (x, rest) /\ nothing_read (print_d x ++ rest) rest = false.
Proof.
  intros Hx (Hr & Hx1 & Hx2). pose proof (by_enum 256 (fun x => negb (length (print_d x) =? 0)%nat
    && forallb (fun c => match digit_of c with Some d => d <? 10 | None => false end) (print_d x)
    && (foldl (fun n c => u16 (n * 10 + default 0 (digit_of c))) 0 (print_d x) =? x))
    ltac:(vm_compute; reflexivity) x Hx) as H. cbv beta in H.
  apply andb_prop in H as [[Hl Hd]%andb_prop Hv%Z.eqb_eq]. split.
  2: { unfold nothing_read. apply Nat.eqb_neq. rewrite length_app.
       apply negb_true_iff, Nat.eqb_neq in Hl. lia. }
  assert (forall c, c ∈ print_d x -> c <> 120 /\ c <> 88 /\ is_digit_in 10 c) as Hall.
  { intros c Hc%list_elem_of_In. rewrite forallb_forall in Hd. apply Hd in Hc.
    destruct (digit_of c) as [d|] eqn:Ed; [|done]. apply Z.ltb_lt in Hc.
    split_and!; [intros ->; done|intros ->; done|by exists d]. }
  assert (byte_at (print_d x ++ rest) 1 <> 120 /\ byte_at (print_d x ++ rest) 1 <> 88) as [N1 N2].
  { destruct (print_d x) as [|a [|b l]]; [done|done|].
    destruct (Hall b) as (? & ? & _); [by do 2 constructor|done]. }
  unfold strto_ui16. rewrite (proj2 (Z.eqb_neq _ _) N1), (proj2 (Z.eqb_neq _ _) N2). cbn [orb].
  rewrite andb_false_r, ui16_digits_app; [by rewrite Hv| |done].
  apply Forall_forall. intros c Hc. by apply Hall.
Qed.

Lemma parse_octets_joined n l rest : length l = S n -> Forall is_byte l -> stops rest ->
  parse_octets n (joined CH_DOT (print_d <$> l) ++ rest) = Some (l, rest).
Proof.
  revert l. induction n as [|n IH]; intros l Hl Hf Hr.
  - destruct l as [|x [|]]; [done| |done]. apply Forall_cons in Hf as [Hx0 _].
    destruct (print_d_ui16 x rest Hx0 Hr) as [E En].
    cbn [fmap list_fmap joined parse_octets]. rewrite E, En. by rewrite u8_id.
  - destruct l as [|x [|y l]]; [done|done|]. apply Forall_cons in Hf as [Hx0 Hf].
    pose proof (IH (y :: l) ltac:(cbn in *; lia) Hf Hr) as E.
    change (joined CH_DOT (print_d <$> x :: y :: l))
      with (print_d x ++ CH_DOT :: joined CH_DOT (print_d <$> y :: l)).
    rewrite <- app_assoc. cbn [app]. set (behind := joined CH_DOT (print_d <$> y :: l) ++ rest) in *.
    destruct (print_d_ui16 x (CH_DOT :: behind) Hx0) as [Ex En]; [by split_and!|].
    cbn [parse_octets]. rewrite Ex, En. change (byte_at (CH_DOT :: behind) 0) with CH_DOT.
    cbn [orb negb Z.eqb Pos.eqb]. change (drop 1 (CH_DOT :: behind)) with behind.
    rewrite E. by rewrite u8_id.
Qed.

(** C28: the text NMMANAGE prints for an address is read as that address by
    NMMANAGE and, up to a port or a drive behind it, by NETMOUNT; so is the text
    with leading zeros of MACS by NMMANAGE, and the text of a card's address. *)
Theorem address_text_read ip mac rest : is_u32 ip -> length mac = 6%nat -> Forall is_byte mac ->
  stops rest ->
  manage_parse_ipv4_addr (ip_text ip) = Some ip
  /\ manage_parse_ipv4_addr (joined CH_DOT (print_03d <$> le32_bytes ip)) = Some ip
  /\ parse_ipv4_addr (ip_text ip ++ rest) = Some (ip, rest)
  /\ parse_mac_addr (mac_text mac) = Some mac.
Proof.
  intros Hip Hl Hf Hr. pose proof (le32_bytes_byte ip) as Hb.
  pose proof (le32_roundtrip ip [] Hip) as E. rewrite app_nil_r in E.
  split_and!; unfold manage_parse_ipv4_addr, parse_ipv4_addr, parse_mac_addr, ip_text, mac_text.
  - rewrite (parse_bytes_joined 10 print_d); [by rewrite E|auto..|done|done|apply print_d_byte|done].
  - rewrite (parse_bytes_joined 10 print_03d); [by rewrite E|auto..|done|done|apply print_03d_byte|done].
  - rewrite parse_octets_joined by done. by rewrite E.
  - apply (parse_bytes_joined 16 print_02X);
      [auto..|done|done|apply print_02X_byte|intros _; apply print_02X_plain].
Qed.

(** ** Settings *)

Lemma configured_net ip mask port no_arp mtu sh : configured sh ->
  MIN_MTU <= mtu <= MAX_MTU -> is_u16 port /\ port <> 0 ->
  configured (set_net ip mask port no_arp (gateway_ip_slot sh) mtu sh).
Proof. intros [] Hm Hp. by split. Qed.

Lemma net_set_configured sh option value sh' : configured sh -> net_set sh option value = inr sh' ->
  configured sh'.
Proof.
  intros Hc. pose proof (cf_mtu _ Hc) as Hm. pose proof (cf_port _ Hc) as Hp. unfold net_set.
  destruct (same_word option "PORT").
  { destruct (whole_number value) as [n|]; [|done]. cbv zeta.
    destruct (Z.eqb_spec (u16 n) 0); [done|]. intros [= <-].
    apply configured_net; [done|done|]. split; [apply u16_range|done]. }
  destruct (same_word option "MTU").
  { destruct (whole_number value) as [n|]; [|done]. cbv zeta.
    destruct (_ || _) eqn:E; [done|]. intros [= <-].
    apply orb_false_iff in E as [E1%Z.ltb_ge E2%Z.ltb_ge]. by apply configured_net. }
  destruct (same_word option "ARP_REQUESTS"); [|done].
  destruct (same_word value "ENABLED"); [intros [= <-]; by apply configured_net|].
  destruct (same_word value "DISABLED"); [|done]. intros [= <-]. by apply configured_net.
Qed.

(** [d'] is a record for the same server, as fit as [d]. *)
Definition same_server (d d' : drive_info) : Prop :=
  remote_ip_idx d' = remote_ip_idx d /\ remote_port d' = remote_port d.

(** A case of SET of a number. *)
Lemma set_drive_option_ok d option value d' : drive_fit d -> set_drive_option d option value = inr d' ->
  drive_fit d' /\ same_server d d'.
Proof.
  intros [[Ht1 Ht2] Hb Hr]. unfold set_drive_option.
  assert (forall on flag, drive_fit (set_checksum on flag d) /\ same_server d (set_checksum on flag d)) as Hset
    by (intros on flag; by split).
  assert (forall flag off, (if same_word value "ENABLED" then inr (set_checksum true flag d)
    else if same_word value off then inr (set_checksum false flag d) else inl EXIT_BAD_ARG) = inr d' ->
    drive_fit d' /\ same_server d d') as Hchk.
  { intros flag off. case_match; [intros [= <-]; apply Hset|].
    case_match; [intros [= <-]; apply Hset|done]. }
  destruct (same_word option "MIN_READ_LEN").
  { destruct (whole_number value) as [n|]; [|done]. cbv zeta. destruct (_ || _) eqn:E; [done|].
    intros [= <-]. apply orb_false_iff in E as [E1%Z.ltb_ge E2%negb_false_iff%Z.eqb_eq].
    pose proof (u16_range n) as Hu. split; [|done]. split; [exact (conj Ht1 Ht2)| |exact Hr]. cbn.
    rewrite u8_id by (unfold is_byte, is_u16 in *; lia).
    destruct (Z.eq_dec (u16 n) 0) as [->|Hn]; [by left|].
    rewrite (u16_id (u16 n - 1)) in E2 by (unfold is_u16 in *; lia).
    apply pow2_test; [unfold is_byte, is_u16 in *; lia|by apply Z.ltb_ge|done]. }
  destruct (same_word option "MIN_RCV_TMO").
  { destruct (whole_number value) as [n|]; [|done]. cbv zeta. destruct (in_sec_range (u16 n)); [|done]. intros [= <-].
    split; [|done]. split; [split; [apply tmo_ticks_byte|exact Ht2]|exact Hb|exact Hr]. }
  destruct (same_word option "MAX_RCV_TMO").
  { destruct (whole_number value) as [n|]; [|done]. cbv zeta. destruct (in_sec_range (u16 n)); [|done]. intros [= <-].
    split; [|done]. split; [split; [exact Ht1|apply tmo_ticks_byte]|exact Hb|exact Hr]. }
  destruct (same_word option "MAX_RETRIES").
  { destruct (whole_number value) as [n|]; [|done]. cbv zeta. destruct (_ || _) eqn:E; [done|].
    intros [= <-]. apply orb_false_iff in E as [E1%Z.ltb_ge E2%Z.ltb_ge].
    split; [|done]. split; [exact (conj Ht1 Ht2)|exact Hb|]. cbn. rewrite u8_id by (unfold is_byte; lia). lia. }
  destruct (same_word option "CHECKSUM_NETMOUNT"); [apply Hchk|].
  destruct (same_word option "CHECKSUM_IP_HEADER"); [apply Hchk|done].
Qed.

(** Replacing the record of a drive by one for the same server. *)
Lemma configured_drive sh n d : configured sh -> drive_fit d ->
  same_server (drive_info_of sh (Z.of_nat n)) d ->
  configured (set_drives (drive_map sh) (<[n := d]> (drive_infos sh)) sh).
Proof.
  intros Hc Hd [Hs1 Hs2]. pose proof Hc as [H1 H2 H3 H4 H5 H6 H7 H8 H9 H10]. split; try done; cbn.
  - by rewrite length_insert.
  - by apply Forall_insert.
  - intros i Hi. destruct (H10 i Hi) as [(d0 & E0 & Hr) Hx]. split; [|done].
    destruct (decide (i = n)) as [->|Hne]; [|exists d0; by rewrite list_lookup_insert_ne].
    exists d. rewrite list_lookup_insert_eq by (by eapply lookup_lt_Some). split; [done|].
    unfold drive_info_of in Hs1, Hs2. rewrite Nat2Z.id in Hs1, Hs2.
    erewrite nth_lookup_Some in Hs1, Hs2 by done. by rewrite Hs1, Hs2.
Qed.

Lemma drive_set_configured sh n option value sh' : configured sh ->
  drive_set sh n option value = inr sh' -> configured sh'.
Proof.
  intros Hc. unfold drive_set. destruct (negb _); [done|].
  destruct (set_drive_option _ option value) as [|d] eqn:E; [done|]. intros [= <-].
  apply set_drive_option_ok in E as [Hd Hs]; [|by apply drive_info_fit]. by apply configured_drive.
Qed.

Lemma parse_bytes_length n base sep : forall s bs, parse_bytes n base sep s = Some bs -> length bs = S n.
Proof.
  induction n as [|n IH]; intros s bs; cbn [parse_bytes]; destruct (strtoul s base) as [x e]; cbv zeta.
  - case_match; [done|]. by intros [= <-].
  - case_match; [done|]. destruct (parse_bytes n base sep (drop 1 e)) as [bs'|] eqn:E; [|done].
    intros [= <-]. apply IH in E. cbn. lia.
Qed.

Lemma mac_set_configured sh ip mac sh' : configured sh -> mac_set sh ip mac = inr sh' -> configured sh'.
Proof.
  intros Hc. unfold mac_set. destruct (manage_parse_ipv4_addr ip) as [addr|]; [|done].
  destruct (addr =? NO_IP); [done|]. destruct (parse_mac_addr mac) as [bs|] eqn:Eb; [|done].
  destruct (find_slot sh addr) as [i|]; [|done]. intros [= <-].
  unfold set_mac. apply configured_table; [done|by rewrite length_alter, (cf_table _ Hc)|].
  apply Forall_alter; [apply Hc|]. intros e _ _. by apply parse_bytes_length in Eb.
Qed.

(** What SET never changes: the servers of the drives. *)
Record same_servers (sh sh' : shared_data) : Prop := {
  sv_map : drive_map sh' = drive_map sh;
  sv_local : local_ipv4 sh' = local_ipv4 sh;
  sv_mask : net_mask sh' = net_mask sh;
  sv_gateway : gateway_ip_slot sh' = gateway_ip_slot sh;
  sv_ips : ip_value <$> ip_mac_map sh' = ip_value <$> ip_mac_map sh;
  sv_drives : (fun d => (remote_ip_idx d, remote_port d)) <$> drive_infos sh'
              = (fun d => (remote_ip_idx d, remote_port d)) <$> drive_infos sh;
  sv_features : has_drive_extended_features sh' = has_drive_extended_features sh;
}.

Lemma net_set_servers sh option value sh' : net_set sh option value = inr sh' -> same_servers sh sh'.
Proof. unfold net_set. cbv zeta. intros E. repeat case_match; simplify_eq; by split. Qed.

Lemma drive_set_servers sh n option value sh' : configured sh -> drive_set sh n option value = inr sh' ->
  same_servers sh sh'.
Proof.
  intros Hc. unfold drive_set. destruct (negb _); [done|].
  destruct (set_drive_option _ option value) as [|d] eqn:E; [done|]. intros [= <-].
  apply set_drive_option_ok in E as [_ [Hs1 Hs2]]; [|by apply drive_info_fit].
  split; try done; cbn. rewrite list_fmap_insert.
  destruct (drive_infos sh !! n) as [d0|] eqn:E0.
  - unfold drive_info_of in Hs1, Hs2. rewrite Nat2Z.id in Hs1, Hs2.
    erewrite nth_lookup_Some in Hs1, Hs2 by done. rewrite Hs1, Hs2. apply list_insert_id.
    by rewrite list_lookup_fmap, E0.
  - apply list_insert_ge. rewrite length_fmap. by apply lookup_ge_None.
Qed.

Lemma mac_set_servers sh ip mac sh' : mac_set sh ip mac = inr sh' -> same_servers sh sh'.
Proof.
  unfold mac_set. destruct (manage_parse_ipv4_addr ip) as [addr|]; [|done].
  destruct (addr =? NO_IP); [done|]. destruct (parse_mac_addr mac) as [bs|]; [|done].
  destruct (find_slot sh addr) as [i|]; [|done]. intros [= <-]. split; try done. cbn. unfold set_mac.
  apply list_eq. intros j. rewrite !list_lookup_fmap. destruct (decide (j = i)) as [->|Hne].
  - rewrite list_lookup_alter_eq. by destruct (ip_mac_map sh !! i).
  - by rewrite list_lookup_alter_ne.
Qed.

Lemma manage_changes argv p sh : configured (prog_shared p) -> manage_command argv p = Changed sh ->
  configured sh /\ same_servers (prog_shared p) sh.
Proof.
  intros Hc. unfold manage_command, net_command, drive_command, mac_command, with_argc, set_result, printed.
  cbv zeta. intros E. repeat (case_match; try discriminate); simplify_eq;
    eauto using net_set_configured, drive_set_configured, mac_set_configured, net_set_servers,
      drive_set_servers, mac_set_servers.
Qed.

(** ** The program *)

Lemma nmmanage_effect {P} `{DOS : !Dos} argv (m : machine P) x out m' :
  machine_ok m -> nmmanage argv m = Done (x, out, m') ->
  machine_ok m'
  /\ (m' = m \/ x = EXIT_OK /\ out = [] /\ exists p sh,
        resident m = Some p /\ same_servers (prog_shared p) sh
        /\ m' = set_resident (Some (upd_shared (fun _ => sh) p)) m).
Proof.
  intros Hm. unfold nmmanage.
  destruct (existsb _ _); [intros [= <- <- <-]; by split; [|left]|].
  destruct (length argv <? 2)%nat; [intros [= <- <- <-]; by split; [|left]|].
  destruct (get_install_info m) as [installed id]. destruct (negb installed);
    [intros [= <- <- <-]; by split; [|left]|].
  destruct (get_installed m id) as [p|] eqn:Ep; [|done].
  assert (resident m = Some p) as Er.
  { unfold get_installed in Ep. destruct (resident m) as [q|]; [|done].
    destruct (id =? global_my_2Fmux_id q); [done|done]. }
  destruct (Hm _ Er) as [Hp _].
  destruct (manage_command argv p) as [e o|sh] eqn:Ec; intros [= <- <- <-]; [by split; [|left]|].
  apply manage_changes in Ec as [Hsh Hs]; [|apply Hp]. split.
  - eapply (machine_ok_same m _ p); [done|done|reflexivity|done|by apply upd_shared_ok].
  - right. split; [done|]. split; [done|]. by exists p, sh.
Qed.

Lemma nmmanage_steady {P} `{DOS : !Dos} argv (m : machine P) x out m' :
  machine_ok m -> nmmanage argv m = Done (x, out, m') -> machine_ok m'.
Proof. intros Hm E. by apply nmmanage_effect in E as [? _]. Qed.

(** C24: whatever its arguments, NMMANAGE leaves a resident program that was in
    order in order, and every drive with the server it was mounted from; it
    changes the machine only by a SET that succeeds, prints nothing and changes
    the shared data of the resident program alone. *)
Theorem nmmanage_keeps {P} `{DOS : !Dos} argv (m : machine P) x out m' :
  machine_ok m -> nmmanage argv m = Done (x, out, m') ->
  machine_ok m'
  /\ (m' = m \/ x = EXIT_OK /\ out = [] /\ exists p sh,
        resident m = Some p /\ same_servers (prog_shared p) sh
        /\ m' = set_resident (Some (upd_shared (fun _ => sh) p)) m).
Proof. apply nmmanage_effect. Qed.

(** ** GET after SET *)

Lemma digit_char c : digit_in 10 c = true -> 48 <= c <= 57.
Proof.
  unfold digit_in, ul_digit. intros H.
  destruct (Z.leb_spec CH_0 c), (Z.leb_spec c CH_9); cbn [andb] in H; try lia;
    repeat case_match; try done; repeat match goal with E : andb _ _ = true |- _ =>
      apply andb_prop in E as [?%Z.leb_le ?%Z.leb_le] end; simplify_eq; lia.
Qed.

Lemma dec_digits_spec turns : forall n behind, (0 < turns)%nat -> 0 <= n < 10 ^ Z.of_nat turns ->
  exists d ds, dec_digits turns n behind = (d :: ds) ++ behind
  /\ forallb (digit_in 10) (d :: ds) = true /\ digits_value 10 0 (d :: ds) = n /\ (n <> 0 -> d <> CH_0).
Proof.
  induction turns as [|turns IH]; intros n behind Ht Hn; [lia|]. cbn [dec_digits]. cbv zeta.
  assert (forall r, 0 <= r < 10 -> digit_in 10 (r + CH_0) = true /\ ul_digit (r + CH_0) = Some r) as Hdig.
  { intros r Hr. pose proof (by_enum 10 (fun r => digit_in 10 (r + CH_0)
      && bool_decide (ul_digit (r + CH_0) = Some r)) eq_refl r Hr) as H. cbv beta in H.
    by apply andb_prop in H as [H1 H2%bool_decide_eq_true]. }
  pose proof (Z.mod_pos_bound n 10 ltac:(lia)). pose proof (Z.div_mod n 10 ltac:(lia)).
  destruct (Hdig (n mod 10)) as [Hd1 Hd2]; [lia|].
  destruct (Z.ltb_spec n 10) as [Hlt|Hge].
  - exists (n mod 10 + CH_0), []. rewrite Z.mod_small in * by lia. cbn [forallb]. rewrite Hd1.
    split_and!; [done|done| |lia]. unfold digits_value. cbn [foldl]. by rewrite Hd2.
  - rewrite Nat2Z.inj_succ, Z.pow_succ_r in Hn by lia.
    destruct (IH (n / 10) ((n mod 10 + CH_0) :: behind)) as (d & ds & E & Hd & Hv & Hz).
    { destruct turns; [cbn in Hn; lia|lia]. }
    { lia. }
    exists d, (ds ++ [n mod 10 + CH_0]). split_and!.
    + by rewrite E, <- !app_comm_cons, <- app_assoc.
    + rewrite app_comm_cons, forallb_app, Hd. cbn [forallb]. by rewrite Hd1.
    + rewrite app_comm_cons. unfold digits_value in *. rewrite foldl_app, Hv. cbn [foldl]. rewrite Hd2.
      cbn [default from_option id]. lia.
    + intros _. apply Hz. lia.
Qed.

(** A number that does not start with 0 is decimal. *)
Lemma strtoul_dec (negative : bool) d ds : forallb (digit_in 10) (d :: ds) = true -> d <> CH_0 ->
  digits_value 10 0 (d :: ds) < 2 ^ 32 ->
  let v := digits_value 10 0 (d :: ds) in
  strtoul ((if negative then [45] else []) ++ d :: ds) 0 = (if negative then u32 (- v) else v, []).
Proof.
  intros Hd H0 Hv v. subst v. assert (48 <= d <= 57) as Hr
    by (apply digit_char; cbn [forallb] in Hd; by apply andb_prop in Hd as [? _]).
  assert (ul_prefix 0 (d :: ds) = (10, d :: ds)) as Hp.
  { unfold ul_prefix. change (byte_at (d :: ds) 0) with d. by rewrite (proj2 (Z.eqb_neq d CH_0) H0). }
  assert (starts_number 10 (d :: ds) = true) as Hs
    by (cbn [forallb] in Hd; by apply andb_prop in Hd as [? _]).
  pose proof (ul_digits_app 10 (d :: ds) [] 0 Hd eq_refl) as Hu. rewrite app_nil_r in Hu.
  unfold strtoul. destruct negative; cbn [app].
  - change (skip_space (45 :: d :: ds)) with (45 :: d :: ds). cbv zeta.
    change (byte_at (45 :: d :: ds) 0 =? 45) with true. cbn [orb].
    change (drop 1 (45 :: d :: ds)) with (d :: ds). rewrite Hp, Hs, Hu. cbn [negb].
    by rewrite (proj2 (Z.leb_gt (2 ^ 32) _)) by lia.
  - assert (skip_space (d :: ds) = d :: ds) as ->.
    { cbn [skip_space]. unfold is_space. rewrite (proj2 (Z.eqb_neq d CH_SPACE)) by lia.
      by rewrite (proj2 (Z.leb_gt d 13)), andb_false_r by lia. }
    cbv zeta. change (byte_at (d :: ds) 0) with d.
    rewrite (proj2 (Z.eqb_neq d 45)), (proj2 (Z.eqb_neq d 43)) by lia. cbn [orb].
    rewrite Hp, Hs, Hu. cbn [negb]. by rewrite (proj2 (Z.leb_gt (2 ^ 32) _)) by lia.
Qed.

(** A printed number is read back as itself modulo 2^16, printed as a negative
    number or not. *)
Lemma whole_number_printed n : is_u16 n -> exists x, whole_number (print_d n) = Some x /\ u16 x = n.
Proof.
  intros Hn. unfold is_u16 in Hn. destruct (Z.eq_dec n 0) as [->|Hn0]; [by exists 0|].
  assert (forall negative v, 0 < v < 10 ^ 5 -> print_d n = (if negative : bool then [45] else []) ++ dec_digits 5 v [] ->
    whole_number (print_d n) = Some (if negative then u32 (- v) else v)) as Hw.
  { intros negative v Hv E. destruct (dec_digits_spec 5 v []) as (d & ds & Ed & Hd & Hval & Hz); [lia|lia|].
    rewrite app_nil_r in Ed. rewrite Ed in E. unfold whole_number. rewrite E.
    rewrite strtoul_dec by (done || (rewrite Hval; lia) || (apply Hz; lia)). rewrite Hval.
    by destruct negative. }
  unfold print_d in *. cbv zeta in *.
  destruct (Z.lt_ge_cases n 32768) as [Hl|Hl].
  - assert (i16 n = n) as E by (unfold i16; rewrite Z.mod_small by lia; lia). rewrite E in *.
    exists n. rewrite (proj2 (Z.ltb_ge n 0)) in * by lia. split; [|by rewrite u16_id].
    apply (Hw false); [lia|done].
  - assert (i16 n = n - 65536) as E by (unfold i16; Z.to_euclidean_division_equations; lia).
    rewrite E in *. exists (u32 (n - 65536)). rewrite (proj2 (Z.ltb_lt (n - 65536) 0)) in * by lia. split.
    + rewrite (Hw true (- (n - 65536))); [by rewrite Z.opp_involutive|lia|done].
    + unfold u16, u32. Z.to_euclidean_division_equations. lia.
Qed.

Lemma tmo_printed sec : in_sec_range sec = true -> compute_rcv_tmo (tmo_ticks sec) = sec.
Proof.
  intros H. unfold in_sec_range in H.
  apply negb_true_iff, orb_false_iff in H as [H1%Z.ltb_ge H2%Z.ltb_ge].
  pose proof (by_enum 57 (fun s => (s =? 0) || (compute_rcv_tmo (tmo_ticks s) =? s)) eq_refl sec ltac:(lia)) as H.
  apply orb_prop in H as [H%Z.eqb_eq|H%Z.eqb_eq]; [lia|done].
Qed.

(** A word decides the comparisons with all others. *)
Lemma same_word_is a b c : same_word a b = true -> same_word a c = same_word (str b) c.
Proof. unfold same_word. intros E%bool_decide_eq_true. by rewrite E. Qed.

Lemma i16_of_u16 x : i16 (u16 x) = i16 x.
Proof. unfold i16, u16. Z.to_euclidean_division_equations. lia. Qed.

Lemma flag_set e flag : 0 < flag -> has_flag (Z.lor e flag) flag = true /\ has_flag (Z.ldiff e flag) flag = false.
Proof.
  intros Hf. unfold has_flag. split.
  - apply negb_true_iff, Z.eqb_neq. intros E.
    assert (Z.land (Z.lor e flag) flag = flag) as E'; [|lia].
    apply Z.bits_inj'. intros i _. rewrite Z.land_spec, Z.lor_spec.
    by destruct (Z.testbit e i), (Z.testbit flag i).
  - apply negb_false_iff, Z.eqb_eq, Z.bits_inj'. intros i _. rewrite Z.land_spec, Z.ldiff_spec, Z.bits_0.
    by destruct (Z.testbit e i), (Z.testbit flag i).
Qed.

Lemma set_checksum_again on flag d : set_checksum on flag (set_checksum on flag d) = set_checksum on flag d.
Proof.
  unfold set_checksum, set_drive_options. cbn. f_equal. destruct on; apply Z.bits_inj'; intros i _;
    rewrite ?Z.lor_spec, ?Z.ldiff_spec; by destruct (Z.testbit (enabled_checksums d) i), (Z.testbit flag i).
Qed.

(** What GET prints for an option of DRIVE, given the record. *)
Definition shown_option (d : drive_info) (option : bytes) : bytes :=
  if same_word option "MIN_READ_LEN" then print_d (min_server_read_len d)
  else if same_word option "MIN_RCV_TMO" then print_d (compute_rcv_tmo (min_rcv_tmo_18_2_ticks_shr_2 d))
  else if same_word option "MAX_RCV_TMO" then print_d (compute_rcv_tmo (max_rcv_tmo_18_2_ticks_shr_2 d))
  else if same_word option "MAX_RETRIES" then print_d (max_request_retries d)
  else if same_word option "CHECKSUM_NETMOUNT" then
    on_off (has_flag (enabled_checksums d) CHECKSUM_NETMOUNT_PROTO) "ENABLED" "DISABLED"
  else on_off (has_flag (enabled_checksums d) CHECKSUM_IP_HEADER) "ENABLED" "SEND_ONLY".

Lemma set_option_again d option value d' : set_drive_option d option value = inr d' ->
  set_drive_option d' option (shown_option d' option) = inr d'.
Proof.
  unfold set_drive_option, shown_option.
  assert (forall flag (off : string) chk, 0 < flag -> same_word (str "ENABLED") off = false ->
    same_word (str off) off = true -> same_word (str off) "ENABLED" = false ->
    chk = (fun d v => if same_word v "ENABLED" then inr (set_checksum true flag d)
      else if same_word v off then inr (set_checksum false flag d) else inl EXIT_BAD_ARG) ->
    chk d value = inr d' ->
    chk d' (on_off (has_flag (enabled_checksums d') flag) "ENABLED" off) = inr d') as Hchk.
  { intros flag off chk Hf H1 H2 H3 -> E. cbv beta in *.
    destruct (flag_set (enabled_checksums d) flag Hf) as [F1 F2].
    destruct (same_word value "ENABLED").
    - injection E as <-. cbn [enabled_checksums set_checksum set_drive_options]. rewrite F1.
      change (on_off true "ENABLED" off) with (str "ENABLED"). by rewrite set_checksum_again.
    - destruct (same_word value off); [|done]. injection E as <-.
      cbn [enabled_checksums set_checksum set_drive_options]. rewrite F2.
      change (on_off false "ENABLED" off) with (str off). by rewrite H3, H2, set_checksum_again. }
  destruct (same_word option "MIN_READ_LEN").
  { destruct (whole_number value) as [n|]; [|done]. cbv zeta. destruct (_ || _) eqn:E; [done|].
    intros [= <-]. cbn [min_server_read_len set_drive_options]. pose proof (u16_range n) as Hu.
    assert (u8 (u16 n) = u16 n) as E8.
    { apply orb_false_iff in E as [E1%Z.ltb_ge _]. apply u8_id. unfold is_byte, is_u16 in *. lia. }
    destruct (whole_number_printed (u8 (u16 n))) as (x & Ex & Hx); [by rewrite E8|].
    rewrite Ex, Hx, E8, E. by rewrite E8. }
  destruct (same_word option "MIN_RCV_TMO").
  { destruct (whole_number value) as [n|]; [|done]. cbv zeta.
    destruct (in_sec_range (u16 n)) eqn:E; [|done]. intros [= <-].
    cbn [min_rcv_tmo_18_2_ticks_shr_2 set_drive_options]. rewrite tmo_printed by done.
    destruct (whole_number_printed (u16 n)) as (x & Ex & Hx); [apply u16_range|].
    by rewrite Ex, Hx, E. }
  destruct (same_word option "MAX_RCV_TMO").
  { destruct (whole_number value) as [n|]; [|done]. cbv zeta.
    destruct (in_sec_range (u16 n)) eqn:E; [|done]. intros [= <-].
    cbn [max_rcv_tmo_18_2_ticks_shr_2 set_drive_options]. rewrite tmo_printed by done.
    destruct (whole_number_printed (u16 n)) as (x & Ex & Hx); [apply u16_range|].
    by rewrite Ex, Hx, E. }
  destruct (same_word option "MAX_RETRIES").
  { destruct (whole_number value) as [n|]; [|done]. cbv zeta. destruct (_ || _) eqn:E; [done|].
    intros [= <-]. cbn [max_request_retries set_drive_options].
    apply orb_false_iff in E as E'. destruct E' as [E1%Z.ltb_ge E2%Z.ltb_ge].
    destruct (whole_number_printed (u8 (i16 n))) as (x & Ex & Hx).
    { rewrite u8_id by (unfold is_byte; lia). unfold is_u16. lia. }
    rewrite u8_id in * by (unfold is_byte; lia).
    assert (i16 x = i16 n) as Hi.
    { rewrite <- (i16_of_u16 x), Hx. unfold i16 at 1. rewrite Z.mod_small; lia. }
    rewrite Ex, Hi, E. by rewrite u8_id by (unfold is_byte; lia). }
  destruct (same_word option "CHECKSUM_NETMOUNT").
  { exact (Hchk CHECKSUM_NETMOUNT_PROTO "DISABLED"%string _ eq_refl eq_refl eq_refl eq_refl eq_refl). }
  destruct (same_word option "CHECKSUM_IP_HEADER"); [|done].
  exact (Hchk CHECKSUM_IP_HEADER "SEND_ONLY"%string _ eq_refl eq_refl eq_refl eq_refl eq_refl).
Qed.

(** The options SET knows are none of those that only GET knows. *)
Lemma writable_option d option value d' : set_drive_option d option value = inr d' ->
  same_word option "IP" = false /\ same_word option "PORT" = false /\ same_word option "DRIVE" = false
  /\ same_word option "HAS_EXTENDED_FEATURES" = false
  /\ (same_word option "MIN_READ_LEN" || same_word option "MIN_RCV_TMO" || same_word option "MAX_RCV_TMO"
      || same_word option "MAX_RETRIES" || same_word option "CHECKSUM_NETMOUNT"
      || same_word option "CHECKSUM_IP_HEADER") = true.
Proof.
  unfold set_drive_option. cbv zeta.
  repeat match goal with |- context [if same_word option ?w then _ else _] =>
    destruct (same_word option w) eqn:?E end; try done; intros _; rewrite ?orb_true_r;
  match goal with E : same_word option _ = true |- _ =>
    by rewrite !(same_word_is option _ _ E) end.
Qed.

Lemma drive_get_shown sh i n option d value : is_mounted sh n = true ->
  set_drive_option d option value = inr (drive_info_of sh (Z.of_nat n)) ->
  drive_get sh i n option = (EXIT_OK, line (shown_option (drive_info_of sh (Z.of_nat n)) option)).
Proof.
  intros Hm (H1 & H2 & H3 & H4 & H5)%writable_option. unfold drive_get, shown_option.
  rewrite Hm, H1, H2, H3, H4. cbn [negb]. cbv zeta. revert H5.
  repeat match goal with |- context [if same_word option ?w then _ else _] =>
    destruct (same_word option w) eqn:?E end; done.
Qed.

(** SET with this value changes nothing. *)
Definition already_set (sh : shared_data) (n : nat) (option value : bytes) : Prop :=
  drive_set sh n option value = inr sh.

(** C27: when DRIVE SET has set an option, DRIVE GET prints a value for it that
    DRIVE SET takes, and setting it again changes nothing: what is shown is
    what is set, whatever the unit it is kept in. *)
Theorem drive_set_get sh i n option value sh' : configured sh -> drive_set sh n option value = inr sh' ->
  exists text, drive_get sh' i n option = (EXIT_OK, line text) /\ already_set sh' n option text.
Proof.
  intros Hc. unfold drive_set at 1. destruct (is_mounted sh n) eqn:Hm; [|done]. cbn [negb].
  destruct (set_drive_option _ option value) as [|d] eqn:E; [done|]. intros [= <-].
  set (sh' := set_drives _ _ _).
  assert (is_mounted sh' n = true) as Hm' by done.
  assert (drive_info_of sh' (Z.of_nat n) = d) as Ed.
  { unfold drive_info_of. rewrite Nat2Z.id. apply nth_lookup_Some, list_lookup_insert_eq.
    apply is_mounted_lookup in Hm as (x & Hx%lookup_lt_Some & _).
    by rewrite (cf_drives _ Hc), <- (cf_map _ Hc). }
  exists (shown_option d option). split.
  - rewrite <- Ed at 1. eapply drive_get_shown; [done|]. by rewrite Ed.
  - unfold already_set, drive_set. rewrite Hm', Ed. cbn [negb]. rewrite (set_option_again _ _ _ _ E).
    f_equal. unfold sh', set_drives. cbn. by rewrite list_insert_insert_eq.
Qed.

(** When NET SET has set an option, NET GET prints a value for it that NET
    SET takes, and setting it again changes nothing; this holds for the ports
    from 32768 on too, which are printed as negative numbers. *)
Theorem net_set_get sh i option value sh' : net_set sh option value = inr sh' ->
  exists text, net_get sh' i option = (EXIT_OK, line text) /\ net_set sh' option text = inr sh'.
Proof.
  unfold net_set at 1. intros E.
  destruct (same_word option "PORT") eqn:E1; [|destruct (same_word option "MTU") eqn:E2;
    [|destruct (same_word option "ARP_REQUESTS") eqn:E3; [|done]]].
  - destruct (whole_number value) as [n|]; [|done]. cbv zeta in E.
    destruct (Z.eqb_spec (u16 n) 0) as [|Hn]; [done|]. injection E as <-.
    destruct (whole_number_printed (u16 n)) as (x & Ex & Hx); [apply u16_range|].
    exists (print_d (u16 n)). split.
    + unfold net_get. by rewrite !(same_word_is option _ _ E1).
    + unfold net_set. rewrite E1, Ex, Hx. cbv zeta. by rewrite (proj2 (Z.eqb_neq _ _) Hn).
  - destruct (whole_number value) as [n|]; [|done]. cbv zeta in E.
    destruct (_ || _) eqn:Er; [done|]. injection E as <-.
    destruct (whole_number_printed (u16 n)) as (x & Ex & Hx); [apply u16_range|].
    exists (print_d (u16 n)). split.
    + unfold net_get. by rewrite !(same_word_is option _ _ E2).
    + unfold net_set. rewrite E1, E2, Ex, Hx. cbv zeta. by rewrite Er.
  - destruct (same_word value "ENABLED"); [|destruct (same_word value "DISABLED"); [|done]];
      injection E as <-.
    + exists (str "ENABLED"). unfold net_get, net_set. by rewrite !(same_word_is option _ _ E3).
    + exists (str "DISABLED"). unfold net_get, net_set. by rewrite !(same_word_is option _ _ E3).
Qed.
