(* ===== verification/NInstall.v ===== *)
(** * NInstall: NETMOUNT INSTALL from a configuration file (ninstall.c)

    NINSTALL reads a configuration file in the format of mTCP character by
    character, in one of three states, and runs NETMOUNT INSTALL with the values
    of the keys it knows.  A file is the list of the characters [fgetc] returns.
    The buffers behind the prefixes of the arguments hold 15 characters and a
    zero; [key], which is not initialised, ten. *)
From S2P Require Import Prelude Words Checksum Fcb Resident Network Redirector Args Setup Manage.

Definition IP_ARG : bytes := str "/IP:".
Definition MASK_ARG : bytes := str "/MASK:".
Definition GW_ARG : bytes := str "/GW:".
Definition PKT_INT_ARG : bytes := str "/PKT_INT:".
Definition MTU_ARG : bytes := str "/MTU:".
Abbreviation MAX_EXTRA_ARGS := 10%nat (only parsing).
Abbreviation MAX_KEY_LEN := 9%nat (only parsing).
Abbreviation MAX_VALUE_LEN := 15%nat (only parsing).

Inductive State := KEY | VALUE | IGNORE.

(** ** The C library *)

(** A 32-bit [long], which stops at its bounds. *)
Definition strtol (s : bytes) (base : Z) : Z :=
  let s := skip_space s in
  let negative := byte_at s 0 =? 45 in
  let s := if negative || (byte_at s 0 =? 43) then drop 1 s else s in
  let '(base, s) := ul_prefix base s in
  let n := (ul_digits base 0 s).1 in
  if negative then - Z.min n (2 ^ 31) else Z.min n (2 ^ 31 - 1).

(** [strupr] of the string in an array. *)
Definition strupr (a : bytes) : bytes :=
  (ascii_to_upper <$> c_string a) ++ drop (length (c_string a)) a.

(** ** The variables *)

(** The value of a key, behind the prefix of its argument, and whether it is
    set. *)
Record slot := mkSlot { text : bytes; is_set : bool }.
Record slots := mkSlots { ip : slot; mask : slot; gw : slot; pkt_int : slot; mtu : slot }.

(** What [value] and [is_value_set] point to. *)
Inductive target := Ip | Mask | Gw | Pkt_int | Mtu.
Definition at_target (t : target) (s : slots) : slot :=
  match t with Ip => ip s | Mask => mask s | Gw => gw s | Pkt_int => pkt_int s | Mtu => mtu s end.
Definition upd_target (t : target) (f : slot -> slot) (s : slots) : slots :=
  match t with
  | Ip => mkSlots (f (ip s)) (mask s) (gw s) (pkt_int s) (mtu s)
  | Mask => mkSlots (ip s) (f (mask s)) (gw s) (pkt_int s) (mtu s)
  | Gw => mkSlots (ip s) (mask s) (f (gw s)) (pkt_int s) (mtu s)
  | Pkt_int => mkSlots (ip s) (mask s) (gw s) (f (pkt_int s)) (mtu s)
  | Mtu => mkSlots (ip s) (mask s) (gw s) (pkt_int s) (f (mtu s))
  end.
Definition upd_text (f : bytes -> bytes) (v : slot) : slot := mkSlot (f (text v)) (is_set v).
Definition put_set (v : slot) : slot := mkSlot (text v) true.

(** [value] is not set before a key is found. *)
Record reader := mkReader {
  state : State;
  idx : nat;
  key : bytes;
  value : target;
  values : slots;
}.
Definition to_state st i (r : reader) := mkReader st i (key r) (value r) (values r).
Definition set_key k (r : reader) := mkReader (state r) (idx r) k (value r) (values r).
Definition set_value t (r : reader) := mkReader (state r) (idx r) (key r) t (values r).
Definition upd_values f (r : reader) := mkReader (state r) (idx r) (key r) (value r) (f (values r)).

Definition empty_slot : slot := mkSlot (replicate (S MAX_VALUE_LEN) 0) false.
Definition empty_slots : slots := mkSlots empty_slot empty_slot empty_slot empty_slot empty_slot.

(** ** Reading the file *)

Definition ends_line (ch : Z) : bool := (ch =? 13) || (ch =? 10).

Definition key_target (k : bytes) : option target :=
  if bool_decide (k = str "IPADDR") then Some Ip
  else if bool_decide (k = str "NETMASK") then Some Mask
  else if bool_decide (k = str "GATEWAY") then Some Gw
  else if bool_decide (k = str "PACKETINT") then Some Pkt_int
  else if bool_decide (k = str "MTU") then Some Mtu
  else None.

(** The body of the loop: [None] is the return for a bad interrupt. *)
Definition read_key (ch : Z) (r : reader) : reader :=
  if (idx r =? 0)%nat && (ch =? 35) then to_state IGNORE (idx r) r
  else if (idx r =? 0)%nat && ends_line ch then r
  else if ch =? CH_SPACE then
    let r := set_key (strupr (<[idx r := 0]> (key r))) r in
    match key_target (c_string (key r)) with
    | None => to_state IGNORE (idx r) r
    | Some t => to_state VALUE 0 (set_value t r)
    end
  else if (idx r <? MAX_KEY_LEN)%nat then to_state KEY (S (idx r)) (set_key (<[idx r := ch]> (key r)) r)
  else to_state IGNORE (idx r) r.

Definition end_value (r : reader) : option reader :=
  let r := upd_values (upd_target (value r) (upd_text (<[idx r := 0]>))) r in
  let done r := Some (to_state KEY 0 (upd_values (upd_target (value r) put_set) r)) in
  if bool_decide (c_string (key r) = str "PACKETINT") then
    let pkt_interrupt := i16 (strtol (c_string (text (at_target (value r) (values r)))) 0) in
    if (pkt_interrupt <? 0x10) || (0xFF <? pkt_interrupt) then None
    else done (upd_values (upd_target (value r)
           (upd_text (write_at 0 (dec_digits 5 pkt_interrupt [] ++ [CH_NUL])))) r)
  else done r.

Definition read_value (ch : Z) (r : reader) : option reader :=
  if ends_line ch then end_value r
  else Some (if (idx r <? MAX_VALUE_LEN)%nat
             then to_state VALUE (S (idx r)) (upd_values (upd_target (value r) (upd_text (<[idx r := ch]>))) r)
             else to_state IGNORE (idx r) r).

Definition read_char (ch : Z) (r : reader) : option reader :=
  match state r with
  | KEY => Some (read_key ch r)
  | VALUE => read_value ch r
  | IGNORE => Some (if ends_line ch then to_state KEY 0 r else r)
  end.

Fixpoint read_file (file : bytes) (r : reader) : option reader :=
  match file with
  | [] => Some r
  | ch :: file => match read_char ch r with Some r => read_file file r | None => None end
  end.

(** ** main *)

(** The arguments of NETMOUNT. *)
Definition optional_arg (prefix : bytes) (v : slot) : list bytes :=
  if is_set v then [prefix ++ c_string (text v)] else [].
Definition install_args (s : slots) (extra : list bytes) : list bytes :=
  [str "NETMOUNT"; str "INSTALL"; IP_ARG ++ c_string (text (ip s))]
  ++ optional_arg MASK_ARG (mask s) ++ optional_arg GW_ARG (gw s)
  ++ optional_arg PKT_INT_ARG (pkt_int s) ++ optional_arg MTU_ARG (mtu s) ++ extra.

(** The exit code, or the arguments of the program that is run; [uninit] is what
    [key] and [value] hold before they are set, [file] the file, if it can be
    opened. *)
Definition ninstall (uninit : bytes * target) (argv : list bytes) (file : option bytes)
  : Z + list bytes :=
  if (length argv <? 2)%nat || (2 + MAX_EXTRA_ARGS <? length argv)%nat then inl 1
  else
    match file with
    | None => inl 1
    | Some file =>
        match read_file file (mkReader KEY 0 uninit.1 uninit.2 empty_slots) with
        | None => inl 1
        | Some r =>
            if byte_at (text (ip (values r))) 0 =? CH_NUL then inl 1
            else inr (install_args (values r) (drop 2 argv))
        end
    end.
