(* ===== verification/NInstallSpec.v ===== *)
(** * NInstallSpec: what NINSTALL makes of a configuration file

    The three states amount to a reading by lines, as long as every line that is
    neither empty nor a comment has a space; the addresses and numbers of a
    configuration then arrive in NETMOUNT as they were meant. *)
From S2P Require Import Prelude Words Checksum Fcb Resident Network NetworkInv Redirector ReadAhead.
From S2P Require Import Args Setup SetupInv Manage ManageSpec NInstall.

(** ** Reading by lines *)

(** The characters before the first space and those behind it. *)
Fixpoint split_key (l : bytes) : option (bytes * bytes) :=
  match l with
  | [] => None
  | ch :: l => if ch =? CH_SPACE then Some ([], l)
               else match split_key l with
                    | Some (k, v) => Some (ch :: k, v)
                    | None => None
                    end
  end.

(** The value of a key: a buffer that is too short is filled, but not taken. *)
Definition store_value (t : target) (v : bytes) (s : slots) : option slots :=
  if (MAX_VALUE_LEN <? length v)%nat
  then Some (upd_target t (upd_text (write_at 0 (take MAX_VALUE_LEN v))) s)
  else
    let s := upd_target t (upd_text (write_at 0 (v ++ [CH_NUL]))) s in
    match t with
    | Pkt_int =>
        let i := i16 (strtol (c_string v) 0) in
        if (i <? 0x10) || (0xFF <? i) then None
        else Some (upd_target t (fun x => put_set (upd_text (write_at 0 (dec_digits 5 i [] ++ [CH_NUL])) x)) s)
    | _ => Some (upd_target t put_set s)
    end.

Definition read_line (l : bytes) (s : slots) : option slots :=
  if (byte_at l 0 =? 35) then Some s
  else match split_key l with
       | None => Some s
       | Some (k, v) =>
           if (MAX_KEY_LEN <? length k)%nat then Some s
           else match key_target (ascii_to_upper <$> c_string k) with
                | None => Some s
                | Some t => store_value t v s
                end
       end.

(** A line that ends where it seems to. *)
Definition complete_line (l : bytes) : Prop :=
  Forall (fun ch => ends_line ch = false) l
  /\ (l = [] \/ byte_at l 0 = 35 \/ split_key l <> None \/ (MAX_KEY_LEN < length l)%nat).

(** A reader at the start of a line. *)
Record at_line (r : reader) (s : slots) : Prop := {
  al_state : state r = KEY;
  al_idx : idx r = 0%nat;
  al_key : length (key r) = S MAX_KEY_LEN;
  al_values : values r = s;
  al_texts : forall t, length (text (at_target t s)) = S MAX_VALUE_LEN;
}.

(** What [read_file] comes to at the end of a line. *)
Definition line_read (e : Z) (l rest : bytes) (r : reader) (s : option slots) : Prop :=
  match s with
  | None => read_file (l ++ e :: rest) r = None
  | Some s => exists r', at_line r' s /\ read_file (l ++ e :: rest) r = read_file rest r'
  end.

Lemma read_ignored e l rest r : ends_line e = true -> Forall (fun ch => ends_line ch = false) l ->
  state r = IGNORE -> read_file (l ++ e :: rest) r = read_file rest (to_state KEY 0 r).
Proof.
  intros He Hl Hs. induction Hl as [|ch l Hch Hl IH]; cbn [app read_file]; unfold read_char; rewrite Hs.
  - by rewrite He.
  - by rewrite Hch.
Qed.

Lemma at_target_upd t f s : at_target t (upd_target t f s) = f (at_target t s).
Proof. by destruct t. Qed.
Lemma at_target_upd_ne t t' f s : t <> t' -> at_target t' (upd_target t f s) = at_target t' s.
Proof. by destruct t, t'. Qed.
Lemma upd_target_comp t f g s : upd_target t f (upd_target t g s) = upd_target t (fun x => f (g x)) s.
Proof. by destruct t. Qed.

(** *** Typing into a buffer *)

Lemma write_at_insert i ch v l : (i < length l)%nat ->
  write_at (S i) v (<[i := ch]> l) = write_at i (ch :: v) l.
Proof.
  intros Hi. unfold write_at. rewrite (take_S_r _ _ ch) by (by apply list_lookup_insert_eq).
  rewrite take_insert_ge by lia. rewrite drop_insert_lt by lia.
  rewrite <- app_assoc. cbn [length app]. by rewrite Nat.add_succ_r.
Qed.
Lemma write_at_nil i l : write_at i [] l = l.
Proof. unfold write_at. cbn. rewrite Nat.add_0_r. apply take_drop. Qed.
Lemma write_at_end v ch l : (length v < length l)%nat ->
  <[length v := ch]> (write_at 0 v l) = write_at 0 (v ++ [ch]) l.
Proof.
  intros Hv. unfold write_at. rewrite take_0. cbn [app Nat.add].
  rewrite insert_app_r_alt, Nat.sub_diag by lia. rewrite length_app. cbn [length].
  destruct (drop (length v) l) as [|x d] eqn:E.
  { assert (length (drop (length v) l) = 0%nat) as E' by (by rewrite E). rewrite length_drop in E'. lia. }
  rewrite <- app_assoc. cbn. do 2 f_equal. by rewrite <- drop_drop, E.
Qed.
Lemma length_write_at i v l : (i + length v <= length l)%nat -> length (write_at i v l) = length l.
Proof. intros H. unfold write_at. rewrite !length_app, length_take, length_drop. lia. Qed.

Lemma c_string_app v l : c_string (v ++ CH_NUL :: l) = c_string v.
Proof. induction v as [|ch v IH]; [done|]. cbn. by rewrite IH. Qed.

Lemma c_string_written v l : (length v < length l)%nat -> c_string (write_at 0 (v ++ [CH_NUL]) l) = c_string v.
Proof. intros Hv. unfold write_at. rewrite take_0. cbn [app]. rewrite <- app_assoc. apply c_string_app. Qed.

Lemma c_string_upper l : c_string (ascii_to_upper <$> l) = ascii_to_upper <$> c_string l.
Proof.
  induction l as [|ch l IH]; [done|]. cbn.
  assert ((ascii_to_upper ch =? CH_NUL) = (ch =? CH_NUL)) as ->.
  { unfold ascii_to_upper. destruct (_ && _) eqn:E; [|done].
    apply andb_prop in E as [E1%Z.leb_le E2%Z.leb_le].
    rewrite !(proj2 (Z.eqb_neq _ _)); [done|lia|lia]. }
  destruct (ch =? CH_NUL); [done|]. cbn. by rewrite IH.
Qed.

(** A string in an array is followed by its zero. *)
Lemma c_string_split l : (exists d, l = c_string l ++ CH_NUL :: d) \/ l = c_string l.
Proof.
  induction l as [|ch l IH]; [by right|]. cbn. destruct (Z.eqb_spec ch CH_NUL) as [->|]; [left; by exists l|].
  destruct IH as [(d & E)|E]; [left; exists d; cbn; by rewrite <- E|right; by rewrite <- E].
Qed.
Lemma c_string_idem l : c_string (c_string l) = c_string l.
Proof.
  induction l as [|ch l IH]; [done|]. cbn. destruct (ch =? CH_NUL) eqn:E; [done|]. cbn. by rewrite E, IH.
Qed.

Lemma c_string_strupr k l : c_string (strupr (k ++ CH_NUL :: l)) = ascii_to_upper <$> c_string k.
Proof.
  unfold strupr. rewrite c_string_app.
  assert (exists d, drop (length (c_string k)) (k ++ CH_NUL :: l) = CH_NUL :: d) as (d & ->).
  { destruct (c_string_split k) as [(d & E)|E].
    - exists (d ++ CH_NUL :: l). rewrite E at 2. rewrite <- app_assoc. by rewrite drop_app_length.
    - exists l. rewrite E at 2. by rewrite drop_app_length. }
  rewrite c_string_app, c_string_upper. by rewrite c_string_idem.
Qed.

(** *** The key *)

Definition plain (ch : Z) : Prop := ch <> CH_SPACE /\ ends_line ch = false.

Lemma read_keys k rest : forall r, state r = KEY -> Forall plain k ->
  (idx r = 0%nat -> byte_at k 0 <> 35) -> (idx r + length k <= MAX_KEY_LEN)%nat ->
  length (key r) = S MAX_KEY_LEN ->
  read_file (k ++ rest) r
  = read_file rest (to_state KEY (idx r + length k) (set_key (write_at (idx r) k (key r)) r)).
Proof.
  induction k as [|ch k IH]; intros r Hs Hk H0 Hl Hlen.
  - cbn [app length]. rewrite write_at_nil, Nat.add_0_r. destruct r. cbn in *. by rewrite Hs.
  - apply Forall_cons in Hk as [[Hsp He] Hk]. cbn [app read_file]. unfold read_char. rewrite Hs.
    unfold read_key. rewrite He, andb_false_r, (proj2 (Z.eqb_neq ch CH_SPACE) Hsp).
    assert ((idx r =? 0)%nat && (ch =? 35) = false) as ->.
    { destruct (Nat.eqb_spec (idx r) 0) as [E|]; [|done]. apply Z.eqb_neq. by apply H0. }
    cbn [length] in Hl. rewrite (proj2 (Nat.ltb_lt (idx r) MAX_KEY_LEN)) by lia.
    rewrite IH; [|done|done|done|cbn; lia|cbn; by rewrite length_insert].
    cbn [idx key to_state set_key state value values]. rewrite write_at_insert by lia.
    by rewrite Nat.add_succ_comm.
Qed.

(** A key that is too long: the rest of the line is ignored. *)
Lemma read_long_key e k l rest r : state r = KEY -> idx r = 0%nat -> length (key r) = S MAX_KEY_LEN ->
  Forall plain k -> (MAX_KEY_LEN < length k)%nat -> byte_at k 0 <> 35 ->
  Forall (fun ch => ends_line ch = false) l -> ends_line e = true ->
  exists key', length key' = S MAX_KEY_LEN
    /\ read_file (k ++ l ++ e :: rest) r = read_file rest (to_state KEY 0 (set_key key' r)).
Proof.
  intros Hs Hi Hlen Hk Hl H0 Hf He.
  destruct (drop MAX_KEY_LEN k) as [|ch k2] eqn:E.
  { assert (length (drop MAX_KEY_LEN k) = 0%nat) as E0 by (by rewrite E). rewrite length_drop in E0. lia. }
  rewrite <- (take_drop MAX_KEY_LEN k) in Hk, H0 |- *. rewrite E in *.
  apply Forall_app in Hk as [Hk1 Hk2]. apply Forall_cons in Hk2 as [[Hsp Hch] Hk2].
  assert (length (take MAX_KEY_LEN k) = MAX_KEY_LEN) as Hlt by (rewrite length_take; lia).
  exists (write_at 0 (take MAX_KEY_LEN k) (key r)). split; [rewrite length_write_at; lia|].
  rewrite <- app_assoc, read_keys; [|done|done| |lia|done].
  2: { intros _. by rewrite byte_at_app_l in H0 by lia. }
  rewrite Hi, Hlt. cbn [app read_file]. unfold read_char. cbn [state to_state set_key].
  unfold read_key. cbn [idx to_state Nat.add]. rewrite (proj2 (Z.eqb_neq ch CH_SPACE) Hsp).
  cbn [Nat.eqb andb Nat.ltb Nat.leb]. rewrite app_assoc, read_ignored; [done|done| |done].
  apply Forall_app. split; [|done]. eapply Forall_impl; [exact Hk2|]. by intros x [_ ?].
Qed.

(** A key and the space behind it. *)
Lemma read_whole_key k rest r : state r = KEY -> idx r = 0%nat -> length (key r) = S MAX_KEY_LEN ->
  Forall plain k -> (length k <= MAX_KEY_LEN)%nat -> byte_at k 0 <> 35 ->
  exists key', length key' = S MAX_KEY_LEN /\ c_string key' = ascii_to_upper <$> c_string k
    /\ read_file (k ++ CH_SPACE :: rest) r
       = read_file rest (match key_target (ascii_to_upper <$> c_string k) with
           | None => to_state IGNORE (length k) (set_key key' r)
           | Some t => to_state VALUE 0 (set_value t (set_key key' r))
           end).
Proof.
  intros Hs Hi Hlen Hk Hl H0.
  exists (strupr (write_at 0 (k ++ [CH_NUL]) (key r))).
  assert (write_at 0 (k ++ [CH_NUL]) (key r) = k ++ CH_NUL :: drop (length k + 1) (key r)) as Ew.
  { unfold write_at. rewrite take_0, length_app. cbn [app length Nat.add]. by rewrite <- app_assoc. }
  assert (c_string (strupr (write_at 0 (k ++ [CH_NUL]) (key r))) = ascii_to_upper <$> c_string k) as Ec
    by (by rewrite Ew, c_string_strupr).
  split_and!; [|done|].
  { unfold strupr. rewrite length_app, length_fmap, length_drop.
    assert (length (c_string (write_at 0 (k ++ [CH_NUL]) (key r))) <= S MAX_KEY_LEN)%nat.
    { rewrite Ew, c_string_app. clear -Hl.
      assert (length (c_string k) <= length k)%nat; [|lia].
      clear Hl. induction k as [|ch k IH]; [done|]. cbn. destruct (ch =? CH_NUL); cbn; lia. }
    rewrite length_write_at by (rewrite length_app; cbn; lia). lia. }
  rewrite read_keys; [|done|done|done|lia|done]. rewrite Hi. cbn [read_file]. unfold read_char.
  cbn [state to_state set_key]. unfold read_key. cbn [idx key to_state set_key Nat.add].
  change (CH_SPACE =? 35) with false. change (ends_line CH_SPACE) with false.
  rewrite !andb_false_r. change (CH_SPACE =? CH_SPACE) with true. cbv zeta iota.
  cbn [key set_key]. rewrite write_at_end by lia. rewrite Ec.
  by destruct (key_target _).
Qed.

(** *** The value *)

Definition value_text (r : reader) : bytes := text (at_target (value r) (values r)).
Definition put_text (v : bytes) (i : nat) (r : reader) : slots :=
  upd_target (value r) (upd_text (write_at i v)) (values r).
Abbreviation no_line_end v := (Forall (fun ch => ends_line ch = false) v) (only parsing).

Lemma upd_target_same t s : upd_target t (fun x => x) s = s.
Proof. by destruct t, s. Qed.
Lemma upd_target_ext t f g s : f (at_target t s) = g (at_target t s) -> upd_target t f s = upd_target t g s.
Proof. destruct t; cbn; by intros ->. Qed.

Lemma read_values v rest : forall r, state r = VALUE -> no_line_end v ->
  (idx r + length v <= MAX_VALUE_LEN)%nat -> length (value_text r) = S MAX_VALUE_LEN ->
  read_file (v ++ rest) r
  = read_file rest (mkReader VALUE (idx r + length v) (key r) (value r) (put_text v (idx r) r)).
Proof.
  induction v as [|ch v IH]; intros r Hs Hv Hl Hlen.
  - cbn [app length]. f_equal. rewrite Nat.add_0_r. destruct r as [st i k t s]. cbn in Hs. subst st.
    unfold put_text. cbn. f_equal. rewrite <- (upd_target_same t s) at 1. apply upd_target_ext.
    unfold upd_text. rewrite write_at_nil. by destruct (at_target t s).
  - apply Forall_cons in Hv as [He Hv]. cbn [app read_file]. unfold read_char. rewrite Hs.
    unfold read_value. rewrite He. cbn [length] in Hl.
    rewrite (proj2 (Nat.ltb_lt (idx r) MAX_VALUE_LEN)) by lia.
    rewrite IH; [|done|done|cbn; lia|].
    + cbn [idx key to_state upd_values state value values]. rewrite Nat.add_succ_comm. do 2 f_equal.
      unfold put_text. cbn [value values to_state upd_values]. rewrite upd_target_comp.
      apply upd_target_ext. unfold upd_text. cbn [text is_set]. f_equal. apply write_at_insert.
      unfold value_text in Hlen. lia.
    + unfold value_text. cbn. rewrite at_target_upd. cbn. by rewrite length_insert.
Qed.

#[export] Instance target_eq_dec : EqDecision target.
Proof. solve_decision. Defined.

Lemma key_target_pkt k t : key_target k = Some t ->
  bool_decide (k = str "PACKETINT") = bool_decide (t = Pkt_int).
Proof. unfold key_target. intros E. repeat case_bool_decide; simplify_eq; done. Qed.

Lemma texts_upd t f s : (forall x, length (text x) = S MAX_VALUE_LEN -> length (text (f x)) = S MAX_VALUE_LEN) ->
  (forall t, length (text (at_target t s)) = S MAX_VALUE_LEN) ->
  forall t', length (text (at_target t' (upd_target t f s))) = S MAX_VALUE_LEN.
Proof.
  intros Hf Hs t'. destruct (decide (t = t')) as [->|]; [by rewrite at_target_upd; auto|].
  by rewrite at_target_upd_ne.
Qed.

(** The longest text of an interrupt number has three digits. *)
Lemma int_text_length i : 0 <= i <= 0xFF -> (length (dec_digits 5 i []) <= 3)%nat.
Proof.
  intros Hi. pose proof (by_enum 256 (fun i => (length (dec_digits 5 i []) <=? 3)%nat) eq_refl i ltac:(lia)) as H.
  by apply Nat.leb_le.
Qed.

Lemma read_line_value v e rest r s : state r = VALUE -> idx r = 0%nat -> values r = s ->
  length (key r) = S MAX_KEY_LEN -> (forall t, length (text (at_target t s)) = S MAX_VALUE_LEN) ->
  key_target (c_string (key r)) = Some (value r) -> no_line_end v -> ends_line e = true ->
  line_read e v rest r (store_value (value r) v s).
Proof.
  intros Hs Hi Hvs Hlen Ht Hk Hv He. unfold store_value.
  assert (length (value_text r) = S MAX_VALUE_LEN) as Hvt by (unfold value_text; by rewrite Hvs).
  destruct (Nat.ltb_spec MAX_VALUE_LEN (length v)) as [Hl|Hl].
  - unfold line_read. destruct (drop MAX_VALUE_LEN v) as [|ch v2] eqn:E.
    { assert (length (drop MAX_VALUE_LEN v) = 0%nat) as E0 by (by rewrite E). rewrite length_drop in E0. lia. }
    assert (length (take MAX_VALUE_LEN v) = MAX_VALUE_LEN) as Hlt by (rewrite length_take; lia).
    rewrite <- (take_drop MAX_VALUE_LEN v) in Hv. rewrite E in Hv.
    apply Forall_app in Hv as [Hv1 Hv2]. apply Forall_cons in Hv2 as [Hch Hv2].
    eexists. split; [|rewrite <- (take_drop MAX_VALUE_LEN v) at 1; rewrite E, <- app_assoc;
      rewrite read_values by (done || lia); rewrite Hi, Hlt; cbn [app read_file]; unfold read_char;
      cbn [state]; unfold read_value; rewrite Hch; cbn [idx Nat.add Nat.ltb Nat.leb];
      apply read_ignored; done].
    split; try done.
    + cbn. unfold put_text. by rewrite Hvs.
    + apply texts_upd; [|done]. intros x Hx. cbn. rewrite length_write_at; lia.
  - assert (read_file (v ++ e :: rest) r = read_file (e :: rest)
      (mkReader VALUE (length v) (key r) (value r) (put_text v 0 r))) as E.
    { rewrite read_values by (done || lia). by rewrite Hi. }
    assert (upd_target (value r) (upd_text (<[length v := 0]>)) (put_text v 0 r)
      = upd_target (value r) (upd_text (write_at 0 (v ++ [CH_NUL]))) s) as Ew.
    { unfold put_text. rewrite upd_target_comp, Hvs. apply upd_target_ext. unfold upd_text. cbn [text is_set].
      f_equal. apply write_at_end. rewrite Ht. lia. }
    assert (forall f, (forall x, length (text x) = S MAX_VALUE_LEN -> length (text (f x)) = S MAX_VALUE_LEN) ->
      forall k t, length k = S MAX_KEY_LEN ->
      at_line (mkReader KEY 0 k t (upd_target (value r) f
        (upd_target (value r) (upd_text (write_at 0 (v ++ [CH_NUL]))) s)))
        (upd_target (value r) f (upd_target (value r) (upd_text (write_at 0 (v ++ [CH_NUL]))) s))) as Hat.
    { intros f Hf k t Hkl. split; try done. apply texts_upd; [done|]. apply texts_upd; [|done].
      intros x Hx. cbn. rewrite length_write_at; rewrite ?length_app; cbn; lia. }
    assert (text (at_target (value r) (upd_target (value r) (upd_text (write_at 0 (v ++ [CH_NUL]))) s))
      = write_at 0 (v ++ [CH_NUL]) (text (at_target (value r) s))) as Etext by (by rewrite at_target_upd).
    unfold line_read. rewrite E. cbn [read_file]. unfold read_char. cbn [state]. unfold read_value.
    rewrite He. unfold end_value. cbn [idx value upd_values values key]. rewrite Ew. cbv zeta.
    rewrite (key_target_pkt _ _ Hk). cbn [idx value upd_values values key to_state].
    destruct (value r); case_bool_decide as Hd; try done.
    4: {
    rewrite Etext, c_string_written by (rewrite Ht; lia).
    destruct (_ || _) eqn:Er; [done|]. eexists. split; [|reflexivity].
    unfold to_state. cbn [upd_values values key value]. rewrite Ew, (upd_target_comp _ put_set).
    apply Hat; [|done].
    apply orb_false_iff in Er as [E1%Z.ltb_ge E2%Z.ltb_ge].
    intros x Hx. cbn [text put_set upd_text]. pose proof (int_text_length _ (conj (Z.le_trans 0 16 _ ltac:(lia) E1) E2)).
    rewrite length_write_at; [done|]. rewrite length_app, Hx. cbn [length]. lia. }
    all: eexists; split; [|reflexivity]; unfold to_state; cbn [upd_values values key value];
      rewrite Ew; by apply Hat.
Qed.

(** *** A line *)

Lemma split_key_app l k v : split_key l = Some (k, v) -> l = k ++ CH_SPACE :: v /\ Forall (fun ch => ch <> CH_SPACE) k.
Proof.
  revert k. induction l as [|ch l IH]; intros k; cbn [split_key]; [done|].
  destruct (Z.eqb_spec ch CH_SPACE) as [->|Hne]; [by intros [= <- <-]|].
  destruct (split_key l) as [[k' v']|]; [|done]. intros [= <- <-].
  destruct (IH k' eq_refl) as [-> Hk]. by split; [|constructor].
Qed.
Lemma split_key_none l : split_key l = None -> Forall (fun ch => ch <> CH_SPACE) l.
Proof.
  induction l as [|ch l IH]; cbn [split_key]; [done|].
  destruct (Z.eqb_spec ch CH_SPACE) as [|Hne]; [done|].
  destruct (split_key l) as [[k v]|]; [done|]. intros _. constructor; auto.
Qed.
Lemma plain_chars k : Forall (fun ch => ch <> CH_SPACE) k -> no_line_end k -> Forall plain k.
Proof. intros Hk Hn. by apply Forall_and. Qed.

Lemma read_line_done e l rest r s : at_line r s -> complete_line l -> ends_line e = true ->
  line_read e l rest r (read_line l s).
Proof.
  intros Hr [Hn Hl] He. pose proof Hr as [Hs Hi Hlen Hvs Ht]. unfold read_line.
  assert (forall key', length key' = S MAX_KEY_LEN -> at_line (to_state KEY 0 (set_key key' r)) s) as Hat
    by (intros key' Hk; by split).
  destruct (Z.eqb_spec (byte_at l 0) 35) as [Hc|Hc].
  { destruct l as [|ch l]; [done|]. unfold byte_at in Hc. cbn [nth] in Hc. subst ch.
    apply Forall_cons in Hn as [_ Hn].
    exists (to_state KEY 0 r). split; [by split|]. cbn [app read_file]. unfold read_char at 1. rewrite Hs.
    unfold read_key. rewrite Hi. cbn [Nat.eqb andb Z.eqb Pos.eqb]. by rewrite read_ignored. }
  destruct (split_key l) as [[k v]|] eqn:Ek.
  - destruct (split_key_app _ _ _ Ek) as [-> Hk]. apply Forall_app in Hn as [Hnk Hnv].
    apply Forall_cons in Hnv as [_ Hnv]. pose proof (plain_chars k Hk Hnk) as Hp.
    assert (byte_at k 0 <> 35) as Hk0 by (by destruct k).
    destruct (Nat.ltb_spec MAX_KEY_LEN (length k)) as [Hlong|Hshort].
    + destruct (read_long_key e k (CH_SPACE :: v) rest r) as (key' & Hkey & E); try done; [by constructor|].
      exists (to_state KEY 0 (set_key key' r)). split; [by apply Hat|]. rewrite <- E, <- app_assoc. done.
    + destruct (read_whole_key k (v ++ e :: rest) r) as (key' & Hkey & Ec & E); try done.
      assert (read_file ((k ++ CH_SPACE :: v) ++ e :: rest) r
        = read_file (k ++ CH_SPACE :: v ++ e :: rest) r) as E' by (by rewrite <- app_assoc).
      destruct (key_target _) as [t|] eqn:Et.
      * unfold line_read. rewrite E', E.
        apply (read_line_value v e rest (to_state VALUE 0 (set_value t (set_key key' r))) s); try done.
        cbn. by rewrite Ec.
      * unfold line_read. rewrite E', E. exists (to_state KEY 0 (set_key key' r)).
        split; [by apply Hat|]. by rewrite read_ignored.
  - apply split_key_none in Ek. pose proof (plain_chars l Ek Hn) as Hp.
    destruct Hl as [->|[?|[?|Hlong]]]; [|done|done|].
    + exists r. split; [done|]. cbn [app read_file]. unfold read_char. rewrite Hs.
      unfold read_key. rewrite Hi, He. cbn [Nat.eqb andb].
      destruct (Z.eqb_spec e 35) as [->|]; [done|done].
    + destruct (read_long_key e l [] rest r) as (key' & Hkey & E); try done.
      exists (to_state KEY 0 (set_key key' r)). split; [by apply Hat|done].
Qed.

(** The lines one after the other. *)
Fixpoint read_lines (lines : list bytes) (s : slots) : option slots :=
  match lines with
  | [] => Some s
  | l :: lines => match read_line l s with Some s => read_lines lines s | None => None end
  end.

(** A file of lines, each with the character that ends it. *)
Definition file_of (lines : list (bytes * Z)) : bytes := concat ((fun '(l, e) => l ++ [e]) <$> lines).

Lemma read_file_lines lines : forall r s, at_line r s ->
  Forall (fun '(l, e) => complete_line l /\ ends_line e = true) lines ->
  values <$> read_file (file_of lines) r = read_lines lines.*1 s.
Proof.
  induction lines as [|[l e] lines IH]; intros r s Hr Hl; [cbn; by rewrite (al_values _ _ Hr)|].
  apply Forall_cons in Hl as [[Hl He] Hls].
  pose proof (read_line_done e l (file_of lines) r s Hr Hl He) as H.
  assert (file_of ((l, e) :: lines) = l ++ e :: file_of lines) as ->
    by (unfold file_of; cbn; by rewrite <- app_assoc).
  cbn [fmap list_fmap fst read_lines]. unfold line_read in H.
  destruct (read_line l s) as [s'|]; [|by rewrite H].
  destruct H as (r' & Hr' & ->). by apply IH.
Qed.

(** C25: NINSTALL reads a configuration file by lines when every line ends
    with CR or LF and is complete: empty, a comment, with a space in it, or of
    more than 9 characters.  Comments, empty lines and
    lines with another key are passed over; a known key's value of at most 15
    characters is stored with its NUL in the slot of the key, over what a line
    before left there, and marks the slot as set, an interrupt after it has
    been read as a number, which ends NINSTALL when it is out of range; of a
    longer value the first 15 characters are stored over the slot, and it is
    not marked.  NETMOUNT is then run with the slots that are marked and the
    address slot, marked or not.  The condition is needed: a shorter word alone
    on its line takes the next line into its key (Example
    [word_swallows_line]); a long address is cut and used (Example
    [long_address_cut]). *)
Theorem ninstall_lines uninit argv lines : length (uninit : bytes * target).1 = S MAX_KEY_LEN ->
  (2 <= length argv <= 2 + MAX_EXTRA_ARGS)%nat ->
  Forall (fun '(l, e) => complete_line l /\ ends_line e = true) lines ->
  ninstall uninit argv (Some (file_of lines)) =
  match read_lines lines.*1 empty_slots with
  | None => inl 1
  | Some s => if byte_at (text (ip s)) 0 =? CH_NUL then inl 1 else inr (install_args s (drop 2 argv))
  end.
Proof.
  intros Hu Ha Hl. unfold ninstall.
  rewrite (proj2 (Nat.ltb_ge (length argv) 2)), (proj2 (Nat.ltb_ge (2 + MAX_EXTRA_ARGS) (length argv))) by lia.
  cbn [orb]. pose proof (read_file_lines lines (mkReader KEY 0 uninit.1 uninit.2 empty_slots) empty_slots) as H.
  rewrite <- H; [|split; try done; by intros []|done]. by destruct (read_file _ _).
Qed.

(** ** From the configuration to the installed program *)

(** Characters of addresses and numbers. *)
Definition number_text (v : bytes) : Prop := Forall (fun ch => 46 <= ch <= 57 \/ 65 <= ch <= 70 \/ ch = 120) v.

Definition number_char (ch : Z) : bool :=
  ((46 <=? ch) && (ch <=? 57)) || ((65 <=? ch) && (ch <=? 70)) || (ch =? 120).
Lemma number_text_test v : forallb number_char v = true -> number_text v.
Proof.
  intros H. apply Forall_forall. intros ch Hch%list_elem_of_In. rewrite forallb_forall in H.
  apply H in Hch. unfold number_char in Hch. lia.
Qed.

Lemma number_text_c_string v : number_text v -> c_string v = v.
Proof.
  induction 1 as [|ch v Hch Hv IH]; [done|]. cbn. rewrite (proj2 (Z.eqb_neq ch CH_NUL)) by lia. by rewrite IH.
Qed.
Lemma number_text_line v : number_text v -> no_line_end v.
Proof.
  intros Hv. eapply Forall_impl; [exact Hv|]. intros ch Hch. cbv beta in Hch. unfold ends_line.
  by rewrite (proj2 (Z.eqb_neq ch 13)), (proj2 (Z.eqb_neq ch 10)) by lia.
Qed.

Lemma print_d_text x : is_byte x -> number_text (print_d x) /\ (1 <= length (print_d x) <= 3)%nat.
Proof.
  intros Hx. pose proof (by_enum 256 (fun x => forallb number_char (print_d x)
    && (1 <=? length (print_d x))%nat && (length (print_d x) <=? 3)%nat) eq_refl x Hx) as H. cbv beta in H.
  apply andb_prop in H as [[H1%number_text_test H2%Nat.leb_le]%andb_prop H3%Nat.leb_le]. done.
Qed.

Lemma ip_text_ok ip : number_text (ip_text ip) /\ (length (ip_text ip) <= MAX_VALUE_LEN)%nat
  /\ byte_at (ip_text ip) 0 <> CH_NUL.
Proof.
  pose proof (le32_bytes_byte ip) as Hb. unfold ip_text.
  destruct (le32_bytes ip) as [|a [|b [|c [|d [|]]]]] eqn:E; try discriminate E.
  rewrite !Forall_cons in Hb. destruct Hb as (Ha & Hb & Hc & Hd & _).
  destruct (print_d_text a Ha) as [Ta La], (print_d_text b Hb) as [Tb Lb],
    (print_d_text c Hc) as [Tc Lc], (print_d_text d Hd) as [Td Ld]. cbn [fmap list_fmap joined].
  assert (number_text [CH_DOT]) as Tdot by (constructor; [lia|done]).
  split_and!.
  - unfold number_text in *. rewrite !Forall_app. by split_and!.
  - rewrite !length_app. cbn [length]. lia.
  - destruct (print_d a) as [|ch v]; [cbn in La; lia|]. apply Forall_cons in Ta as [Hch _]. cbn. lia.
Qed.

(** A buffer with a value, and a line with a key that is known. *)
Definition put_value (t : target) (v : bytes) (s : slots) : slots :=
  upd_target t (fun x => mkSlot (write_at 0 (v ++ [CH_NUL]) (text x)) true) s.

Lemma read_text l t v s lines : read_line l s = store_value t v s -> t <> Pkt_int -> number_text v ->
  (length v <= MAX_VALUE_LEN)%nat -> read_lines (l :: lines) s = read_lines lines (put_value t v s).
Proof.
  intros E Ht Hv Hl. cbn [read_lines]. rewrite E. unfold store_value.
  rewrite (proj2 (Nat.ltb_ge _ _) Hl). cbv zeta. destruct t; try done; by rewrite upd_target_comp.
Qed.

Lemma c_string_value v l : length l = S MAX_VALUE_LEN -> number_text v -> (length v <= MAX_VALUE_LEN)%nat ->
  c_string (write_at 0 (v ++ [CH_NUL]) l) = v.
Proof. intros Hl Hv Hlv. rewrite c_string_written by lia. by apply number_text_c_string. Qed.

Lemma pkt_int_text i : MIN_PKT_INT <= i <= MAX_PKT_INT ->
  number_text (str "0x" ++ print_02X i) /\ length (print_02X i) = 2%nat
  /\ strtol (str "0x" ++ print_02X i) 0 = i.
Proof.
  intros Hi. pose proof (by_enum 256 (fun i => implb (0x60 <=? i) (forallb number_char (str "0x" ++ print_02X i)
    && (length (print_02X i) =? 2)%nat && (strtol (str "0x" ++ print_02X i) 0 =? i)))
    ltac:(vm_compute; reflexivity) i ltac:(lia)) as H. cbv beta in H.
  rewrite (proj2 (Z.leb_le 0x60 i)) in H by lia. cbn [implb] in H.
  by apply andb_prop in H as [[H1%number_text_test H2%Nat.eqb_eq]%andb_prop H3%Z.eqb_eq].
Qed.

Lemma mtu_text m : MIN_MTU <= m <= MAX_MTU ->
  number_text (print_d m) /\ (length (print_d m) <= 4)%nat /\ (strto_ui16 (print_d m)).1 = m.
Proof.
  intros Hm. pose proof (by_enum 1501 (fun m => forallb number_char (print_d m)
    && (length (print_d m) <=? 4)%nat && ((strto_ui16 (print_d m)).1 =? m))
    ltac:(vm_compute; reflexivity) m ltac:(lia)) as H. cbv beta in H.
  by apply andb_prop in H as [[H1%number_text_test H2%Nat.leb_le]%andb_prop H3%Z.eqb_eq].
Qed.

(** A configuration as mTCP writes it. *)
Definition mtcp_config (ip mask gw i m : Z) : list bytes :=
  [str "# DHCP"; str "PACKETINT 0x" ++ print_02X i; str "HOSTNAME DOS"; str "IPADDR " ++ ip_text ip;
   str "NETMASK " ++ ip_text mask; str "GATEWAY " ++ ip_text gw; str "MTU " ++ print_d m].
Definition mtcp_args (ip mask gw i m : Z) : list bytes :=
  [str "NETMOUNT"; str "INSTALL"; IP_ARG ++ ip_text ip; MASK_ARG ++ ip_text mask; GW_ARG ++ ip_text gw;
   PKT_INT_ARG ++ print_d i; MTU_ARG ++ print_d m].

(** The program with the values of the configuration. *)
Definition configured_with (ip mask gw i m : Z) (p : program) : program :=
  upd_shared (set_interface_mtu m)
    (upd_install (fun d => set_pktdrv_ints i (used_pktdrv_int d) d)
      (upd_shared (fun sh => let '(slot, sh) := assign_remote_ip_addr_slot sh gw in set_gateway_ip_slot slot sh)
        (upd_shared (set_net_mask mask) (upd_shared (set_local_ipv4 ip) p)))).

Lemma mtcp_config_read ip0 mask0 gw0 i m : MIN_PKT_INT <= i <= MAX_PKT_INT -> MIN_MTU <= m <= MAX_MTU ->
  exists s, read_lines (mtcp_config ip0 mask0 gw0 i m) empty_slots = Some s
    /\ byte_at (text (ip s)) 0 <> CH_NUL /\ install_args s [] = mtcp_args ip0 mask0 gw0 i m.
Proof.
  intros Hi Hm. destruct (ip_text_ok ip0) as (T1 & L1 & N1), (ip_text_ok mask0) as (T2 & L2 & _),
    (ip_text_ok gw0) as (T3 & L3 & _), (pkt_int_text i Hi) as (T4 & L4 & V4), (mtu_text m Hm) as (T5 & L5 & _).
  assert (i16 i = i) as Ei by (unfold i16; rewrite Z.mod_small; lia).
  assert (is_byte i) as Hib by (unfold is_byte; lia). destruct (print_d_text i Hib) as [T6 L6].
  assert (dec_digits 5 i [] = print_d i) as E6.
  { unfold print_d. rewrite Ei. cbv zeta. by rewrite (proj2 (Z.ltb_ge i 0)) by lia. }
  assert (length (str "0x" ++ print_02X i) <= MAX_VALUE_LEN)%nat as L4' by (rewrite length_app, L4; cbn; lia).
  set (hex := str "0x" ++ print_02X i) in *.
  assert (read_line (str "PACKETINT " ++ hex) empty_slots
    = Some (put_value Pkt_int (print_d i) (put_value Pkt_int hex empty_slots))) as S1.
  { change (read_line (str "PACKETINT " ++ hex) empty_slots) with (store_value Pkt_int hex empty_slots).
    unfold store_value. rewrite number_text_c_string, V4, Ei, E6 by done.
    rewrite (proj2 (Nat.ltb_ge MAX_VALUE_LEN _) L4'), (proj2 (Z.ltb_ge i 16)), (proj2 (Z.ltb_ge 255 i)) by lia.
    done. }
  exists (put_value Mtu (print_d m) (put_value Gw (ip_text gw0) (put_value Mask (ip_text mask0)
    (put_value Ip (ip_text ip0) (put_value Pkt_int (print_d i) (put_value Pkt_int hex empty_slots)))))).
  split_and!.
  - unfold mtcp_config. change (str "PACKETINT 0x" ++ print_02X i) with (str "PACKETINT " ++ hex).
    match goal with |- read_lines (_ :: ?l :: _ :: ?lines) ?x = ?y =>
      change (match read_line l x with Some x' => read_lines lines x' | None => None end = y) end.
    rewrite S1.
    rewrite (read_text _ Ip (ip_text ip0)), (read_text _ Mask (ip_text mask0)),
      (read_text _ Gw (ip_text gw0)), (read_text _ Mtu (print_d m)) by (done || lia). done.
  - change (byte_at (write_at 0 (ip_text ip0 ++ [CH_NUL]) (replicate 16 0)) 0 <> CH_NUL).
    unfold write_at. rewrite take_0. by destruct (ip_text ip0).
  - unfold install_args, optional_arg, put_value. cbn [ip mask gw pkt_int mtu upd_target text is_set].
    rewrite !c_string_value; try done; try lia. rewrite length_write_at; [done|]. rewrite length_app.
    cbn [length]. change (length (text (pkt_int empty_slots))) with 16%nat. lia.
Qed.

Lemma ip_argument ip : is_u32 ip -> parse_ipv4_addr (ip_text ip) = Some (ip, []).
Proof.
  intros Hip. pose proof (le32_roundtrip ip [] Hip) as E. rewrite app_nil_r in E.
  unfold parse_ipv4_addr, ip_text. rewrite <- (app_nil_r (joined _ _)).
  rewrite parse_octets_joined by (done || apply le32_bytes_byte). by rewrite E.
Qed.

Lemma mtcp_options ip mask gw i m p : is_u32 ip -> is_u32 mask -> is_u32 gw ->
  MIN_PKT_INT <= i <= MAX_PKT_INT -> MIN_MTU <= m <= MAX_MTU ->
  install_options (drop 2 (mtcp_args ip mask gw i m)) (false, p)
  = inr (true, configured_with ip mask gw i m p).
Proof.
  intros H1 H2 H3 Hi Hm.
  assert (forall b p, install_option (IP_ARG ++ ip_text ip) (b, p) = inr (true, upd_shared (set_local_ipv4 ip) p)) as E1.
  { intros b q. transitivity (match match parse_ipv4_addr (ip_text ip) with
      | Some (ip, endptr) => if byte_at endptr 0 =? CH_NUL then Some ip else None | None => None end with
      | Some ip => inr (true, upd_shared (set_local_ipv4 ip) q) | None => @inl Z _ EXIT_BAD_ARG end);
      [reflexivity|]. by rewrite ip_argument. }
  assert (forall b p, install_option (MASK_ARG ++ ip_text mask) (b, p) = inr (b, upd_shared (set_net_mask mask) p)) as E2.
  { intros b q. transitivity (match match parse_ipv4_addr (ip_text mask) with
      | Some (ip, endptr) => if byte_at endptr 0 =? CH_NUL then Some ip else None | None => None end with
      | Some ip => inr (b, upd_shared (set_net_mask ip) q) | None => @inl Z _ EXIT_BAD_ARG end);
      [reflexivity|]. by rewrite ip_argument. }
  assert (forall b p, install_option (GW_ARG ++ ip_text gw) (b, p) = inr (b, upd_shared
     (fun sh => let '(slot, sh) := assign_remote_ip_addr_slot sh gw in set_gateway_ip_slot slot sh) p)) as E3.
  { intros b q. transitivity (match match parse_ipv4_addr (ip_text gw) with
      | Some (ip, endptr) => if byte_at endptr 0 =? CH_NUL then Some ip else None | None => None end with
      | Some ip => inr (b, upd_shared (fun sh => let '(slot, sh) := assign_remote_ip_addr_slot sh ip in
          set_gateway_ip_slot slot sh) q) | None => @inl Z _ EXIT_BAD_ARG end);
      [reflexivity|]. by rewrite ip_argument. }
  assert (is_byte i) as Hib by (unfold is_byte; lia).
  assert (forall b p, install_option (PKT_INT_ARG ++ print_d i) (b, p) = inr (b, upd_install
     (fun d => set_pktdrv_ints i (used_pktdrv_int d) d) p)) as E4.
  { intros b q. transitivity (let i := u8 (strto_ui16 (print_d i)).1 in
      if (i <? MIN_PKT_INT) || (MAX_PKT_INT <? i) then @inl Z _ EXIT_BAD_ARG
      else inr (b, upd_install (fun d => set_pktdrv_ints i (used_pktdrv_int d) d) q)); [reflexivity|].
    destruct (print_d_ui16 i [] Hib) as [E _]; [by split_and!|]. rewrite app_nil_r in E. rewrite E.
    cbn [fst]. rewrite u8_id by done. cbv zeta.
    by rewrite (proj2 (Z.ltb_ge i MIN_PKT_INT)), (proj2 (Z.ltb_ge MAX_PKT_INT i)) by lia. }
  assert (forall b p, install_option (MTU_ARG ++ print_d m) (b, p) = inr (b, upd_shared (set_interface_mtu m) p)) as E5.
  { intros b q. transitivity (let m := (strto_ui16 (print_d m)).1 in
      if (MAX_MTU <? m) || (m <? MIN_MTU) then @inl Z _ EXIT_BAD_ARG
      else inr (b, upd_shared (set_interface_mtu m) q)); [reflexivity|].
    destruct (mtu_text m Hm) as (_ & _ & ->). cbv zeta.
    by rewrite (proj2 (Z.ltb_ge m MIN_MTU)), (proj2 (Z.ltb_ge MAX_MTU m)) by lia. }
  unfold mtcp_args. cbn [drop install_options]. by rewrite E1, E2, E3, E4, E5.
Qed.

Lemma keyed_line_complete k v : complete_line k -> split_key k <> None -> number_text v -> complete_line (k ++ v).
Proof.
  intros [Hk _] Hs Hv. split.
  - apply Forall_app. split; [done|by apply number_text_line].
  - right; right; left. destruct (split_key k) as [[x y]|] eqn:E; [|done]. clear Hs Hk.
    revert x y E. induction k as [|ch k IH]; intros x y; cbn [app split_key]; [done|].
    destruct (ch =? CH_SPACE); [done|]. destruct (split_key k) as [[x' y']|]; [|done].
    intros _. specialize (IH x' y' eq_refl). by destruct (split_key (k ++ v)) as [[]|].
Qed.

Lemma mtcp_lines_complete ip mask gw i m : MIN_PKT_INT <= i <= MAX_PKT_INT -> MIN_MTU <= m <= MAX_MTU ->
  Forall complete_line (mtcp_config ip mask gw i m).
Proof.
  intros Hi Hm. destruct (ip_text_ok ip) as (T1 & _), (ip_text_ok mask) as (T2 & _),
    (ip_text_ok gw) as (T3 & _), (pkt_int_text i Hi) as (T4 & _), (mtu_text m Hm) as (T5 & _).
  assert (forall k, forallb (fun ch => negb (ends_line ch)) k = true -> split_key k <> None -> complete_line k) as Hc.
  { intros k Hk Hs. split; [|by right; right; left]. apply Forall_forall. intros ch Hch%list_elem_of_In.
    rewrite forallb_forall in Hk. by apply negb_true_iff, Hk. }
  unfold mtcp_config. rewrite !Forall_cons. split_and!; try done; try (by apply Hc).
  1: change (str "PACKETINT 0x" ++ print_02X i) with (str "PACKETINT " ++ (str "0x" ++ print_02X i)).
  all: apply keyed_line_complete; try done; by apply Hc.
Qed.

(** C26: the values of a configuration as mTCP writes it arrive in the program
    that INSTALL makes resident: NINSTALL passes them on, the interrupt in
    decimal, and INSTALL reads from its arguments the addresses, the interrupt
    and the size that the configuration gives. *)
Theorem config_arrives uninit prog name ip mask gw i m p : length (uninit : bytes * target).1 = S MAX_KEY_LEN ->
  is_u32 ip -> is_u32 mask -> is_u32 gw -> MIN_PKT_INT <= i <= MAX_PKT_INT -> MIN_MTU <= m <= MAX_MTU ->
  exists args, ninstall uninit [prog; name]
      (Some (file_of ((fun l => (l, 10)) <$> mtcp_config ip mask gw i m))) = inr args
    /\ nth 1 args [] = str "INSTALL"
    /\ install_options (drop 2 args) (false, p) = inr (true, configured_with ip mask gw i m p).
Proof.
  intros Hu H1 H2 H3 Hi Hm. exists (mtcp_args ip mask gw i m).
  split; [|split; [done|by apply mtcp_options]].
  destruct (mtcp_config_read ip mask gw i m Hi Hm) as (s & Es & Hip & Ha).
  pose proof (mtcp_lines_complete ip mask gw i m Hi Hm) as Hc.
  set (cfg := mtcp_config ip mask gw i m) in *.
  pose proof (read_file_lines ((fun l => (l, 10)) <$> cfg)
    (mkReader KEY 0 uninit.1 uninit.2 empty_slots) empty_slots) as H.
  assert (((fun l => (l, 10)) <$> cfg).*1 = cfg) as El by reflexivity. clearbody cfg.
  rewrite El, Es in H. destruct (proj1 (fmap_Some _ _ _) (H ltac:(split; try done; by intros [])
    ltac:(apply Forall_fmap; eapply Forall_impl; [exact Hc|done]))) as (r & Er & ->).
  unfold ninstall. cbn [length Nat.ltb Nat.leb Nat.add orb]. rewrite Er. cbn [drop].
  by rewrite (proj2 (Z.eqb_neq _ _) Hip), Ha.
Qed.

(** ** Other files *)

(** A word on a line of its own takes the next line into its key. *)
Example word_swallows_line :
  ninstall (replicate 10 0, Ip) [[]; []] (Some (str "DHCP" ++ [10] ++ str "IPADDR 10.0.0.2" ++ [10])) = inl 1
  /\ complete_line (str "IPADDR 10.0.0.2") /\ ~ complete_line (str "DHCP").
Proof.
  split; [by vm_compute|]. split.
  - split; [vm_compute; repeat constructor|]. by right; right; left.
  - intros [_ [H|[H|[H|H]]]]; try done. cbn in H. lia.
Qed.

(** An address that is too long is cut and passed on, though it was not set;
    so is the address of a last line that does not end. *)
Example long_address_cut :
  ninstall (replicate 10 0, Ip) [[]; []] (Some (str "IPADDR 192.168.100.100 " ++ [10]))
  = inr [str "NETMOUNT"; str "INSTALL"; str "/IP:192.168.100.100"]
  /\ ninstall (replicate 10 0, Ip) [[]; []] (Some (str "IPADDR 10.0.0.1" ++ [10] ++ str "IPADDR 9.9"))
  = inr [str "NETMOUNT"; str "INSTALL"; str "/IP:9.90.0.1"].
Proof. by split; vm_compute. Qed.
