(* ===== verification/Calls.v ===== *)
(** * Calls: every call of the redirector comes back, with the client in order

    A call of DOS for a drive of the client returns, whatever the server and the
    network do, and leaves the settings, the tables and the buffers of the
    client as the commands set them up: a total correctness triple [live] for
    each operation of Redirector, with the condition under which it may access
    memory outside a buffer instead. *)
From S2P Require Import Prelude Words Checksum Fcb Files Protocol Resident Network NetworkInv Redirector ReadAhead.
From S2P Require Import Args Setup SetupInv.

Create HintDb calls.

(** ** Total correctness *)

Section Live.
Context {S : Type} (E : Prop).

(** With enough fuel [m] ends, and [Q] holds when it returns; only if [E] holds
    it may run over the end of a buffer instead. *)
Definition live {A} (P : S -> Prop) (m : nat -> C S A) (Q : A -> S -> Prop) : Prop :=
  forall s, P s -> exists o, ends m s o /\
    match o with Done (a, s') => Q a s' | Overrun => E | Waiting => False end.

Lemma live_const {A} P (m : C S A) Q :
  (forall s, P s -> match m s with Done _ => True | Overrun => E | Waiting => False end) ->
  hoare P m Q -> live P (fun _ => m) Q.
Proof.
  intros Hw Hm s Hs. exists (m s). split; [apply ends_const|].
  specialize (Hw s Hs). destruct (m s) as [[a s']| |] eqn:Em; [by eapply Hm|done|done].
Qed.
Lemma live_pure {A} (a : A) (P : S -> Prop) (Q : A -> S -> Prop) :
  (forall s, P s -> Q a s) -> live P (fun _ => pure a) Q.
Proof. intros H. apply live_const; [done|by apply hoare_pure]. Qed.
Lemma live_writes (f : S -> S) (P : S -> Prop) (Q : unit -> S -> Prop) :
  (forall s, P s -> Q tt (f s)) -> live P (fun _ => writes f) Q.
Proof. intros H. apply live_const; [done|by apply hoare_writes]. Qed.
Lemma live_reads {A} (f : S -> A) (P : S -> Prop) (Q : A -> S -> Prop) :
  (forall s, P s -> Q (f s) s) -> live P (fun _ => reads f) Q.
Proof. intros H. apply live_const; [done|by apply hoare_reads]. Qed.
Lemma live_overrun {A} (P : S -> Prop) (Q : A -> S -> Prop) : E -> live P (fun _ _ => Overrun) Q.
Proof. intros. by apply live_const. Qed.

Lemma live_bind {A B} (m : nat -> C S A) (k : nat -> A -> C S B) P R (Q : B -> S -> Prop) :
  live P m R -> (forall a, live (R a) (fun fuel => k fuel a) Q) ->
  live P (fun fuel => andthen (m fuel) (k fuel)) Q.
Proof.
  intros Hm Hk s Hs. destruct (Hm s Hs) as (o & En & Ho).
  destruct o as [[a s1]| |]; [|exists Overrun; split; [|done]|done].
  - destruct (Hk a s1 Ho) as (o' & En' & Ho'). exists o'. split; [by eapply ends_bind|done].
  - destruct En as [n Hn]. exists n. intros fuel Hf. unfold andthen. by rewrite Hn.
Qed.
Lemma live_if {A} (b : bool) (m m' : nat -> C S A) P Q :
  (b = true -> live P m Q) -> (b = false -> live P m' Q) ->
  live P (fun fuel => if b then m fuel else m' fuel) Q.
Proof. destruct b; auto. Qed.
Lemma live_pre {A} (m : nat -> C S A) (P P' : S -> Prop) Q :
  (forall s, P s -> P' s) -> live P' m Q -> live P m Q.
Proof. intros H Hm s Hs. apply Hm; auto. Qed.
Lemma live_post {A} (m : nat -> C S A) P (Q Q' : A -> S -> Prop) :
  (forall a s, Q' a s -> Q a s) -> live P m Q' -> live P m Q.
Proof.
  intros H Hm s Hs. destruct (Hm s Hs) as (o & En & Ho). exists o. split; [done|].
  destruct o as [[a s']| |]; auto.
Qed.
Lemma live_fact {A} (m : nat -> C S A) (P : S -> Prop) (F : Prop) Q :
  (F -> live P m Q) -> live (fun s => P s /\ F) m Q.
Proof. intros H s [Hs HF]. by apply H. Qed.
End Live.

(** ** What a call leaves alone *)

(** The configuration but for the feature bits, which the replies set. *)
Definition settings (sh : shared_data) := (config_of sh).1.

Lemma configured_settings sh sh' : configured sh -> settings sh' = settings sh ->
  Forall (fun e => length (mac_bytes e) = 6%nat) (ip_mac_map sh') -> configured sh'.
Proof.
  intros Hc E Hm. unfold settings, config_of in E. cbn [fst] in E.
  injection E as E1 E2 E3 E4 E5 E6 E7 E8 E9 E10. destruct Hc as [H1 H2 H3 H4 H5 H6 H7 H8 H9 H10].
  split; try congruence.
  - rewrite <- (length_fmap ip_value), E9, length_fmap. exact H4.
  - intros i. unfold is_mounted. rewrite E1, E2. apply H10.
Qed.

(** The two file names and the search template are no longer than their arrays
    in the swappable data area. *)
Record names_ok (d : dos) : Prop := {
  nm_fn1 : zlen (fn1 d) <= 128;
  nm_fn2 : zlen (fn2 d) <= 128;
  nm_template : zlen (name_blank_padded (srch_tmpl (search d))) <= 8
                /\ zlen (ext_blank_padded (srch_tmpl (search d))) <= 3;
}.

Lemma copy_while_bound ok n l : (length (copy_while ok n l) <= n)%nat.
Proof. revert l. induction n as [|n IH]; intros [|c l]; simpl; try lia. case_match; simpl; [|lia]. specialize (IH l). lia. Qed.
Lemma blank_pad_length n l : (length l <= n)%nat -> (length (blank_pad n l) <= n)%nat.
Proof. intros H. unfold blank_pad. rewrite length_app, length_replicate. lia. Qed.
Lemma to_dos_fn_length l : zlen (name_blank_padded (to_dos_fn l)) <= 8 /\ zlen (ext_blank_padded (to_dos_fn l)) <= 3.
Proof.
  unfold to_dos_fn. cbn [name_blank_padded ext_blank_padded]. set (dots := copy_while _ sizeof_name _).
  pose proof (copy_while_bound (fun c => c =? CH_DOT) sizeof_name (c_string l)) as Hd. fold dots in Hd.
  pose proof (copy_while_bound (fun c => negb (c =? CH_DOT)) (sizeof_name - length dots)
    (drop (length dots) (c_string l))) as Hn.
  match goal with |- zlen (blank_pad _ ?n) <= _ /\ zlen (blank_pad _ ?e) <= _ =>
    pose proof (blank_pad_length sizeof_name n) as H1; pose proof (blank_pad_length sizeof_ext e) as H2 end.
  rewrite length_app in H1. change sizeof_name with 8%nat in *. change sizeof_ext with 3%nat in *.
  specialize (H1 ltac:(lia)). split; [lia|].
  apply (Nat2Z.inj_le _ 3), H2. case_match; [simpl; lia|apply copy_while_bound].
Qed.
Lemma names_ok_found entry sub drv r d : names_ok d -> names_ok (set_found entry (updated_search sub drv r d) d).
Proof.
  intros [H1 H2 H3]. split; [done|done|]. cbn [search set_found]. unfold updated_search.
  case_match; [|done]. cbn [srch_tmpl]. unfold get_dos_fn_from_full_path. case_match; apply to_dos_fn_length.
Qed.

(** The server or the network can answer some READ_FILE by more bytes than it
    asks for. *)
Definition answers_long (N : Type) `{WIRE : !Wire N, TIMER : !Timer} : Prop :=
  exists fuel drive out (s : pc N) n out' s', buffers_ok (cl s)
    /\ send_request fuel INT2F_READ_FILE drive 8 out s = Done ((n, out'), s')
    /\ n <> NETWORK_ERROR /\ le16 (send_buff (cl s)) (DRIVE_DATA_OFFSET + 6) < n.

Section Calls.
Context {N : Type} `{WIRE : !Wire N, TIMER : !Timer, LAWS : !WireLaws N, TL : !TimerLaws}.
Context (E : Prop) (sh0 : shared_data) (Hsh0 : configured sh0).
Implicit Types (s : pc N).

(** The client with the settings of [sh0], its read buffer and the names in
    DOS's memory. *)
Record in_order s : Prop := {
  io_buffers : buffers_ok (cl s);
  io_settings : settings (shared (cl s)) = settings sh0;
  io_file : buffer_shape (read_file_buffer (cl s));
  io_names : names_ok (mem s);
}.

Lemma in_order_configured s : in_order s -> configured (shared (cl s)).
Proof. intros [Hb Es _ _]. eapply configured_settings; [exact Hsh0|exact Es|apply Hb]. Qed.

Lemma in_order_undisturbed s s' : undisturbed s s' -> in_order s -> in_order s'.
Proof.
  intros [Hm Hf _ Hc Hb] [Hb0 Es Hfb Hn]. split; [auto| |by rewrite Hf|by rewrite Hm].
  unfold settings in *. by rewrite Hc.
Qed.

(** The same memory of DOS. *)
Definition in_order_at (d : dos) s : Prop := in_order s /\ mem s = d.

Lemma in_order_at_undisturbed d s s' : undisturbed s s' -> in_order_at d s -> in_order_at d s'.
Proof. intros Hu [Hi <-]. split; [by eapply in_order_undisturbed|apply Hu]. Qed.
Lemma in_order_at_step d s s' : waiting_step s s' -> in_order_at d s -> in_order_at d s'.
Proof. intros [Hu _ _ _ _ _]. by apply in_order_at_undisturbed. Qed.

(** ** Requests *)

Lemma in_order_build d function drive len ext s : in_order_at d s ->
  in_order_at d (set_cl (build_request function drive len ext (cl s)) s).
Proof.
  intros [[Hb Es Hf Hn] Hd]. pose proof (build_request_size function drive len ext (cl s)
    (mac_of_size _ _ (mac_sizes _ Hb)) ltac:(pose proof (send_buff_size _ Hb); lia)) as Hl.
  rewrite build_request_eq in *. split; [|done]. destruct Hb as [B1 B2 B3 B4 B5 B6].
  split; [|done|done|done]. split; try done. cbn in *. by rewrite Hl.
Qed.

Lemma in_order_arp d ip s : in_order_at d s -> in_order_at d
  (set_cl (set_arp_request_buff (write_at 38 (le32_bytes ip) (arp_request_buff (cl s))) (cl s)) s).
Proof.
  intros [[[B1 B2 B3 B4 B5 B6] Es Hf Hn] Hd]. split; [|done]. split; [|done|done|done]. split; try done; cbn.
  - unfold write_at. rewrite !length_app, length_take, length_drop, B3. done.
  - rewrite <- B4. unfold le16, write_at. rewrite !byte_at_app_l by (rewrite length_take; lia).
    rewrite <- (take_drop 38 (arp_request_buff (cl s))) at 3 4.
    by rewrite !byte_at_app_l by (rewrite length_take; lia).
Qed.

(** What a request returns: the length of the data, which are in the buffer
    when a frame can hold so many. *)
Definition answered (r : Z * results) : Prop :=
  r.1 = NETWORK_ERROR \/ 0 <= r.1 <= 0x7FF /\ (r.1 <= 1468 -> r.1 <= zlen (reply_data r.2)).

Lemma accept_reply_size drv seq c n out : buffers_ok c -> accept_reply drv seq c = Some (n, out) ->
  answered (n, out).
Proof.
  intros Hb. unfold accept_reply. cbv zeta. set (len := Z.land _ 0x7FF).
  assert (0 <= len < 2 ^ 11) as Hl.
  { unfold len. change 0x7FF with (Z.ones 11). rewrite Z.land_ones by lia. by apply Z.mod_pos_bound. }
  repeat (case_match; [done|]). intros [= <- <-]. right. cbn [fst snd reply_data].
  match goal with H : (len <? _) = false |- _ => apply Z.ltb_ge in H end. split; [lia|].
  intros H8. rewrite length_drop. pose proof (recv_buff_size _ Hb). lia.
Qed.

Lemma request_keeps fuel d function drive len out :
  hoare (in_order_at d) (send_request fuel function drive len out)
    (fun r s => in_order_at d s /\ answered r).
Proof.
  pose proof (in_order_at_step d) as Hstep. unfold send_request.
  apply (hoare_bind _ _ _ (fun _ => in_order_at d)); [by apply hoare_reads|intros sh].
  destruct (_ <? _); [apply hoare_pure; intros s Hs; split; [done|right; cbn [fst snd]; lia]|].
  apply (hoare_bind _ _ _ (fun _ => in_order_at d)).
  { destruct (_ && _); [|by apply hoare_pure]. unfold send_arp_request.
    apply (hoare_bind _ _ _ (fun _ => in_order_at d)); [by apply hoare_reads|intros sh'].
    apply (hoare_bind _ _ _ (fun _ => in_order_at d)).
    { apply hoare_writes. intros s. apply in_order_arp. }
    intros []. apply arp_attempts_holds; intros s; apply Hstep; auto. }
  intros []. apply (hoare_bind _ _ _ (fun _ => in_order_at d)).
  { apply hoare_writes. intros s. apply in_order_build. }
  intros []. apply (hoare_bind _ _ _ (fun _ => in_order_at d)); [by apply hoare_reads|intros seq].
  eapply hoare_bind.
  { apply (send_attempts_holds (in_order_at d)); intros s Hs; intros; (eapply Hstep; [|exact Hs]); auto. }
  intros [[n out']|]; apply hoare_pure.
  - intros s [Hs Ha]. split; [done|]. destruct (Ha _ eq_refl) as [_ Ea]. eapply accept_reply_size; [apply Hs|done].
  - intros s [Hs _]. split; [done|by left].
Qed.

Lemma live_request d function drive len out :
  live E (in_order_at d) (fun fuel => send_request fuel function drive len out)
    (fun r s => in_order_at d s /\ answered r).
Proof.
  intros s Hs. destruct (send_request_ends function drive len out s) as (n & r & Hn).
  { apply drive_info_fit, in_order_configured, Hs. }
  exists (Done r). split; [by exists n|]. destruct r as [r s'].
  apply (request_keeps n d function drive len out s r s' Hs). by apply Hn.
Qed.

(** ** The steps of a call *)

Definition keeps {A} (m : nat -> C (pc N) A) : Prop := live E in_order m (fun _ => in_order).

Lemma safe_pure {A} (a : A) : keeps (fun _ => pure a).
Proof. by apply live_pure. Qed.
Lemma safe_overrun {A} : E -> keeps (fun _ => (fun _ => Overrun) : C (pc N) A).
Proof. apply live_overrun. Qed.
Lemma safe_reads {A} (f : pc N -> A) : keeps (fun _ => reads f).
Proof. by apply live_reads. Qed.
Lemma safe_bind {A B} (m : nat -> C (pc N) A) (k : nat -> A -> C (pc N) B) :
  keeps m -> (forall a, keeps (fun fuel => k fuel a)) -> keeps (fun fuel => andthen (m fuel) (k fuel)).
Proof. intros Hm Hk. by eapply live_bind. Qed.
Lemma safe_if {A} (b : bool) (m m' : nat -> C (pc N) A) :
  keeps m -> keeps m' -> keeps (fun fuel => if b then m fuel else m' fuel).
Proof. by destruct b. Qed.

Lemma safe_mem f : (forall d, names_ok d -> names_ok (f d)) ->
  keeps (fun _ => writes (fun s => set_mem (f (mem s)) s)).
Proof. intros Hf. apply live_writes. intros s [Hb Es Hfb Hn]. split; [done..|]. by apply Hf. Qed.
Lemma safe_regs f : keeps (fun _ => upd_regs f).
Proof. apply (safe_mem (fun d => set_regs (f (regs d)) d)). by intros d []. Qed.
Lemma safe_sft f : keeps (fun _ => upd_sft f).
Proof. apply (safe_mem (fun d => set_sft (f (sft d)) d)). by intros d []. Qed.
Lemma safe_error x : keeps (fun _ => set_error x).
Proof. apply safe_regs. Qed.
Lemma safe_found sub drv r : keeps (fun _ => writes (fun s =>
  set_mem (set_found (found_entry r) (updated_search sub drv r (mem s)) (mem s)) s)).
Proof. apply (safe_mem (fun d => set_found (found_entry r) (updated_search sub drv r d) d)). apply names_ok_found. Qed.

Lemma safe_client f : (forall c, buffers_ok c -> buffers_ok (f c)) ->
  (forall c, settings (shared (f c)) = settings (shared c)) ->
  (forall c, buffer_shape (read_file_buffer c) -> buffer_shape (read_file_buffer (f c))) ->
  keeps (fun _ => upd_client f).
Proof.
  intros Hb Hs Hf. apply live_writes. intros s [B Es Hfb Hn]. split; [cbn; auto| | |done].
  - change (settings (shared (f (cl s))) = settings sh0). by rewrite Hs.
  - by apply Hf.
Qed.
Lemma safe_received n : keeps (fun _ => upd_client (set_recv_data_len n)).
Proof. apply safe_client; [by intros c []|done|done]. Qed.
Lemma safe_features reqdrv x : keeps (fun _ => set_drive_has_ext_features reqdrv x).
Proof. apply safe_client; [by intros c []|done|done]. Qed.
Lemma safe_invalidate : keeps (fun _ => invalidate).
Proof. apply safe_client; [by intros c []|done|]. intros c [H1 H2]. split; [done|cbn; lia]. Qed.

Lemma put_args_buffers off bs c : 0 <= off -> Z.of_nat DRIVE_DATA_OFFSET + off + zlen bs <= zlen (send_buff c) ->
  buffers_ok c ->
  buffers_ok (set_send_buff (write_at (DRIVE_DATA_OFFSET + Z.to_nat off) bs (send_buff c)) c).
Proof.
  intros Ho Hl [B1 B2 B3 B4 B5 B6]. split; try done; cbn.
  unfold write_at. rewrite !length_app, length_take, length_drop. lia.
Qed.

(** Arguments that fit the buffer are stored, and everything else stays. *)
Lemma live_put_args d off bs : 0 <= off -> off + zlen bs <= 1468 ->
  live E (in_order_at d) (fun _ => put_args off bs) (fun _ s => in_order_at d s
    /\ exists b, send_buff (cl s) = write_at (DRIVE_DATA_OFFSET + Z.to_nat off) bs b /\ zlen b = MAX_FRAMESIZE).
Proof.
  intros Ho Hl. apply live_const.
  - intros s [[B _ _ _] _]. unfold put_args. pose proof (send_buff_size _ B).
    by rewrite (proj2 (Z.leb_le _ _)) by lia.
  - intros s [] s' [[B Es Hf Hn] Hm]. unfold put_args.
    destruct (Z.leb_spec (Z.of_nat DRIVE_DATA_OFFSET + off + zlen bs) (zlen (send_buff (cl s)))); [|done].
    intros [= <-]. split; [split; [split; cbn; [by apply put_args_buffers|done..]|done]|].
    exists (send_buff (cl s)). split; [done|apply B].
Qed.
Lemma live_in_order {A} (m : nat -> C (pc N) A) (Q : A -> Prop) :
  (forall d, names_ok d -> live E (in_order_at d) m (fun a s => in_order_at d s /\ Q a)) ->
  live E in_order m (fun a s => in_order s /\ Q a).
Proof.
  intros H s Hs. destruct (H (mem s) (io_names _ Hs) s) as (o & En & Ho); [done|]. exists o. split; [done|].
  destruct o as [[a s']| |]; [|done|done]. destruct Ho as [[Hi _] Ha]. done.
Qed.
Lemma safe_put_args off bs : 0 <= off -> off + zlen bs <= 1468 -> keeps (fun _ => put_args off bs).
Proof.
  intros Ho Hl. eapply live_post; [|apply (live_in_order _ (fun _ => True)); intros d _;
    eapply live_post; [|by apply live_put_args]]; cbv beta; [by intros a s [? _]|by intros a s [? _]].
Qed.
Lemma c_string_length l : (length (c_string l) <= length l)%nat.
Proof. induction l as [|c l IH]; simpl; [lia|]. case_match; simpl; lia. Qed.
Lemma skip_chars_length n l : (length (skip_chars n l).2 <= length l)%nat.
Proof. revert l. induction n as [|n IH]; intros [|c l]; simpl; try lia. specialize (IH l). lia. Qed.
Lemma safe_put_path off src : 0 <= off -> off + zlen src <= 1468 -> keeps (fun _ => put_path off src).
Proof.
  intros Ho Hl. unfold put_path, my_strcpy_noterm_nf.
  pose proof (skip_chars_length 2 (c_string src)). pose proof (c_string_length src).
  destruct (skip_chars 2 (c_string src)) as [rest chars]. cbn [snd] in *.
  destruct (0 <? rest)%nat; (apply safe_bind; [apply safe_put_args; cbn [length]; lia|intros _; apply safe_pure]).
Qed.

(** Copies that lie in their source, unless they may go wrong. *)
Lemma live_copy P src off n : E \/ off + Z.max 0 (i16 n) <= zlen src ->
  live E P (fun _ => copy_from src off n)
    (fun data s => P s /\ (0 <= off -> 0 <= n < 2 ^ 15 -> zlen data = n)).
Proof.
  intros Hor. apply live_const.
  - intros s _. unfold copy_from. destruct (Z.leb_spec (off + Z.max 0 (i16 n)) (zlen src)); [done|].
    destruct Hor; [done|lia].
  - intros s data s' Hs. unfold copy_from. destruct (Z.leb_spec (off + Z.max 0 (i16 n)) (zlen src)) as [Hle|]; [|done].
    intros [= <- <-]. split; [done|]. intros Ho Hn.
    assert (i16 n = n) as Ei by (unfold i16; rewrite Z.mod_small; lia). rewrite Ei in *.
    rewrite length_take, length_drop. lia.
Qed.
Lemma safe_copy src off n : E \/ off + Z.max 0 (i16 n) <= zlen src -> keeps (fun _ => copy_from src off n).
Proof. intros Hor. eapply live_post; [|by apply live_copy]. by intros a s [? _]. Qed.

Lemma safe_send_request function drive len out :
  keeps (fun fuel => send_request fuel function drive len out).
Proof.
  eapply live_post; [|apply (live_in_order _ answered); intros d _; apply live_request].
  by intros a s [Hs _].
Qed.
Lemma safe_request uninit function drive len : keeps (fun fuel => request fuel uninit function drive len).
Proof. apply safe_send_request. Qed.

Lemma safe_get_dos {A} (f : dos -> A) : keeps (fun _ => get_dos f).
Proof. apply safe_reads. Qed.
Lemma safe_get_buffer : keeps (fun _ => get_buffer).
Proof. apply safe_reads. Qed.
Lemma safe_check_ax out : keeps (fun _ => check_ax out).
Proof. unfold check_ax. apply safe_if; [apply safe_error|apply safe_pure]. Qed.

(** A read of the memory of DOS, of a path, of the read buffer. *)
Lemma safe_with_dos {A} (k : nat -> dos -> C (pc N) A) :
  (forall d, names_ok d -> keeps (fun fuel => k fuel d)) -> keeps (fun fuel => andthen (get_dos id) (k fuel)).
Proof.
  intros Hk s Hs. destruct (Hk (mem s) (io_names _ Hs) s Hs) as (o & [n Hn] & Ho).
  exists o. split; [by exists n|done].
Qed.
Lemma safe_with_path {A} (k : nat -> bytes -> C (pc N) A) :
  (forall p, zlen p <= 128 -> keeps (fun fuel => k fuel p)) -> keeps (fun fuel => andthen (get_dos fn1) (k fuel)).
Proof.
  intros Hk s Hs. destruct (Hk (fn1 (mem s)) (nm_fn1 _ (io_names _ Hs)) s Hs) as (o & [n Hn] & Ho).
  exists o. split; [by exists n|done].
Qed.
(** The program text of a call, step by step. *)
#[local] Hint Resolve safe_pure safe_reads safe_regs safe_sft safe_error
  safe_received safe_features safe_invalidate safe_found
  safe_send_request safe_request safe_get_dos safe_get_buffer safe_check_ax : calls.
Ltac in_buffer := try match goal with |- context [u8 ?x] => pose proof (u8_range x) end;
  repeat match goal with H : names_ok _ |- _ => destruct H as [? ? [? ?]] end;
  unfold is_byte, find_next_args in *; rewrite ?length_app; cbn [length le16_bytes le32_bytes]; lia.
Ltac keep := repeat (cbv zeta; first
  [ apply safe_with_dos; intros ? ?; unfold id | apply safe_with_path; intros ? ?
  | progress intros
  | apply safe_put_args; in_buffer | apply safe_put_path; in_buffer
  | solve [auto with calls nocore]
  | apply safe_if
  | apply safe_bind; [|let a := fresh in intros a; try (match type of a with prod _ _ => destruct a end)]
  | match goal with |- keeps (fun _ => match ?x with _ => _ end) => destruct x end ]).

Context (uninit : results).

Lemma safe_make_remove_dir sub drv : keeps (fun fuel => call_make_remove_dir fuel uninit sub drv).
Proof. unfold call_make_remove_dir. keep. Qed.
Lemma safe_change_dir sub drv : keeps (fun fuel => call_change_dir fuel uninit sub drv).
Proof. unfold call_change_dir. keep. Qed.
Lemma safe_close_file sub drv : keeps (fun fuel => call_close_file fuel uninit sub drv).
Proof. unfold call_close_file. keep. Qed.
Lemma safe_disk_info sub drv : keeps (fun fuel => call_disk_info fuel uninit sub drv).
Proof. unfold call_disk_info. keep. Qed.
Lemma safe_disk_info_large sub drv : keeps (fun fuel => call_disk_info_large fuel uninit sub drv).
Proof. unfold call_disk_info_large. keep. Qed.
Lemma safe_set_attrs sub drv : keeps (fun fuel => call_set_attrs fuel uninit sub drv).
Proof. unfold call_set_attrs. keep. Qed.
Lemma safe_get_attrs sub drv : keeps (fun fuel => call_get_attrs fuel uninit sub drv).
Proof. unfold call_get_attrs. keep. Qed.
Lemma safe_rename_file sub drv : keeps (fun fuel => call_rename_file fuel uninit sub drv).
Proof. unfold call_rename_file. keep. Qed.
Lemma safe_delete_file sub drv : keeps (fun fuel => call_delete_file fuel uninit sub drv).
Proof. unfold call_delete_file. keep. Qed.
Lemma safe_open_create_file sub drv : keeps (fun fuel => call_open_create_file fuel uninit sub drv).
Proof. unfold call_open_create_file. keep. Qed.
Lemma safe_find sub drv : keeps (fun fuel => call_find fuel uninit sub drv).
Proof. unfold call_find. keep. Qed.
Lemma safe_seek_from_end sub drv : keeps (fun fuel => call_seek_from_end fuel uninit sub drv).
Proof. unfold call_seek_from_end. keep. Qed.

(** ** Memory that is known *)

(** The fields of DOS's memory have their widths and the names fit their arrays;
    a transfer area lies in one segment. *)
Record shaped (d : dos) : Prop := {
  sh_cx : is_u16 (r_cx (regs d));
  sh_pos : is_u32 (file_pos (sft d));
  sh_names : names_ok d;
  sh_dta : zlen (dta d) <= 0xFFFF;
}.

Lemma safe_at {A} d (m : nat -> C (pc N) A) : keeps m -> live E (in_order_at d) m (fun _ => in_order).
Proof. intros Hm. eapply live_pre; [|exact Hm]. by intros s [? _]. Qed.

(** A read of the memory of DOS that is known. *)
Lemma live_dos {A B} d (f : dos -> A) (k : nat -> A -> C (pc N) B) Q :
  live E (in_order_at d) (fun fuel => k fuel (f d)) Q ->
  live E (in_order_at d) (fun fuel => andthen (get_dos f) (k fuel)) Q.
Proof.
  intros Hk s Hs. destruct (Hk s Hs) as (o & [n Hn] & Ho). exists o. split; [|done].
  exists n. intros fuel Hf. rewrite <- (Hn fuel Hf). destruct Hs as [_ <-]. done.
Qed.
(** A read of the settings. *)
Lemma live_shared {B} (P : pc N -> Prop) (k : nat -> shared_data -> C (pc N) B) Q :
  (forall s, P s -> in_order s) ->
  (forall sh, settings sh = settings sh0 -> live E P (fun fuel => k fuel sh) Q) ->
  live E P (fun fuel => andthen (reads (fun s => shared (cl s))) (k fuel)) Q.
Proof.
  intros HP Hk s Hs. destruct (Hk (shared (cl s)) (io_settings _ (HP s Hs)) s Hs) as (o & [n Hn] & Ho).
  exists o. split; [|done]. exists n. intros fuel Hf. by rewrite <- (Hn fuel Hf).
Qed.
(** A read of the read buffer. *)
Lemma live_buffer {B} (P : pc N -> Prop) (k : nat -> file_buffer -> C (pc N) B) Q :
  (forall s, P s -> in_order s) ->
  (forall b, buffer_shape b -> live E P (fun fuel => k fuel b) Q) ->
  live E P (fun fuel => andthen get_buffer (k fuel)) Q.
Proof.
  intros HP Hk s Hs. destruct (Hk (read_file_buffer (cl s)) (io_file _ (HP s Hs)) s Hs) as (o & [n Hn] & Ho).
  exists o. split; [|done]. exists n. intros fuel Hf. by rewrite <- (Hn fuel Hf).
Qed.

Lemma settings_mtu sh : settings sh = settings sh0 -> MIN_MTU <= interface_mtu sh <= MAX_MTU.
Proof.
  intros Es. unfold settings, config_of in Es. cbn [fst] in Es. injection Es as _ _ _ _ _ _ _ Em _ _.
  rewrite Em. apply Hsh0.
Qed.
Lemma settings_block sh drive : settings sh = settings sh0 ->
  let m := min_server_read_len (drive_info_of sh drive) in m = 0 \/ block_size m.
Proof.
  intros Es. unfold settings, config_of in Es. cbn [fst] in Es. injection Es as _ Ed _ _ _ _ _ _ _ _.
  cbv zeta. unfold drive_info_of. rewrite Ed. apply (drive_info_fit sh0 drive Hsh0).
Qed.

(** *** Locks *)

Lemma safe_lock_unlock_file d drv : shaped d -> 8 * r_cx (regs d) <= zlen (lock_params d) ->
  E \/ 8 * r_cx (regs d) <= 1464 ->
  live E (in_order_at d) (fun fuel => call_lock_unlock_file fuel uninit drv) (fun _ => in_order).
Proof.
  intros Hd Hp Hor. destruct (sh_cx _ Hd) as [Hc _].
  unfold call_lock_unlock_file. apply live_dos. cbv zeta. unfold id. apply safe_at.
  apply safe_bind; [apply safe_if; auto with calls nocore|intros _].
  apply safe_bind; [apply safe_put_args; in_buffer|intros _].
  set (k := u16 (Z.shiftl (r_cx (regs d)) 3)).
  assert (E \/ k = 8 * r_cx (regs d) /\ 0 <= k <= 1464) as Hk.
  { destruct Hor; [by left|right]. unfold k. rewrite Z.shiftl_mul_pow2 by lia.
    rewrite u16_id by (unfold is_u16; lia). lia. }
  assert (E \/ 0 + Z.max 0 (i16 k) <= zlen (lock_params d)) as Hcopy.
  { destruct Hk as [|[-> Hk]]; [by left|right]. unfold i16. rewrite Z.mod_small; lia. }
  eapply live_bind; [by apply (live_copy in_order)|]. intros params. apply live_fact. intros Hz.
  destruct Hk as [HE|[_ Hk]].
  - apply safe_bind; [|intros []; keep].
    apply live_const; [intros s _; unfold put_args; by destruct (_ <=? _)|].
    intros s [] s' [B Es Hf Hn]. unfold put_args. destruct (Z.leb_spec (Z.of_nat DRIVE_DATA_OFFSET + 4 + zlen params)
      (zlen (send_buff (cl s)))); [|done]. intros [= <-]. split; cbn; [by apply put_args_buffers|done..].
  - specialize (Hz ltac:(lia) ltac:(lia)). apply safe_bind; [apply safe_put_args; lia|intros _]. keep.
Qed.

(** ** The transfer area *)

(** In order, with a transfer area of [n] bytes and a handle at [p]. *)
Definition with_dta (n p : Z) s : Prop :=
  in_order s /\ zlen (dta (mem s)) = n /\ file_pos (sft (mem s)) = p.

Lemma with_dta_order n p s : with_dta n p s -> in_order s.
Proof. by intros [? _]. Qed.
Lemma safe_dta {A} n p (m : nat -> C (pc N) A) : keeps m -> live E (with_dta n p) m (fun _ => in_order).
Proof. intros Hm. eapply live_pre; [|exact Hm]. apply with_dta_order. Qed.
Lemma dta_of {A} n p (m : nat -> C (pc N) A) (Q : A -> Prop) :
  (forall d, live E (in_order_at d) m (fun a s => in_order_at d s /\ Q a)) ->
  live E (with_dta n p) m (fun a s => with_dta n p s /\ Q a).
Proof.
  intros H s (Hs & Hd & Hp). destruct (H (mem s) s) as (o & En & Ho); [done|].
  exists o. split; [done|]. destruct o as [[a s']| |]; [|done|done].
  destruct Ho as [[Hi Hm] Ha]. split; [|done]. unfold with_dta. by rewrite Hm.
Qed.

Lemma dta_sft {B} n p (k : nat -> dos_sft -> C (pc N) B) Q :
  (forall f, file_pos f = p -> live E (with_dta n p) (fun fuel => k fuel f) Q) ->
  live E (with_dta n p) (fun fuel => andthen (get_dos sft) (k fuel)) Q.
Proof.
  intros Hk s Hs. destruct (Hk (sft (mem s)) (proj2 (proj2 Hs)) s Hs) as (o & [m Hm] & Ho).
  exists o. split; [|done]. exists m. intros fuel Hf. by rewrite <- (Hm fuel Hf).
Qed.
Lemma dta_received n p x : live E (with_dta n p) (fun _ => upd_client (set_recv_data_len x)) (fun _ => with_dta n p).
Proof. apply live_writes. intros s [[[] ? ? ?] ?]. by split; [split|]. Qed.

(** The arguments of a READ_FILE, and the answer to it. *)
Definition asked (k : Z) s : Prop := le16 (send_buff (cl s)) (DRIVE_DATA_OFFSET + 6) = k.

Lemma readf_args_length (b : bytes) o c k : zlen b = MAX_FRAMESIZE -> is_u16 k ->
  le16 (write_at (DRIVE_DATA_OFFSET + Z.to_nat 0) (readf_args o c k) b) (DRIVE_DATA_OFFSET + 6) = k.
Proof.
  intros Hb Hk. unfold write_at. set (pre := take _ b). set (rest := drop _ b).
  assert (length pre = 50%nat) as Lp by (unfold pre; rewrite length_take; change (DRIVE_DATA_OFFSET + Z.to_nat 0)%nat with 50%nat; lia).
  replace (DRIVE_DATA_OFFSET + 6)%nat with (length pre + 6)%nat by (rewrite Lp; done).
  rewrite le16_app_r. exact (le16_roundtrip k rest Hk).
Qed.

Lemma dta_read_args n p o c k : is_u16 k ->
  live E (with_dta n p) (fun _ => put_args 0 (readf_args o c k)) (fun _ s => with_dta n p s /\ asked k s).
Proof.
  intros Hk s (Hs & Hd & Hp). destruct (live_put_args (mem s) 0 (readf_args o c k) (Z.le_refl 0)
    ltac:(unfold readf_args; rewrite !length_app; cbn [length le16_bytes le32_bytes]; lia) s) as (r & En & Hr); [done|].
  exists r. split; [done|]. destruct r as [[a s']| |]; [|done|done].
  destruct Hr as [[Hi Hm] (b & Eb & Hb)]. split; [unfold with_dta; by rewrite Hm|].
  unfold asked. rewrite Eb. by apply readf_args_length.
Qed.

Context (Hlong : answers_long N -> E).

Lemma dta_read_request n p drv k :
  live E (fun s => with_dta n p s /\ asked k s) (fun fuel => request fuel uninit INT2F_READ_FILE drv 8)
    (fun r s => with_dta n p s /\ (r.1 = NETWORK_ERROR \/ 0 <= r.1 <= 0x7FF
       /\ (E \/ r.1 <= k /\ (r.1 <= 1468 -> r.1 <= zlen (reply_data r.2))))).
Proof.
  intros s [(Hs & Hd & Hp) Hk]. set (out := mkResults (reply_data uninit) (reply_ax uninit) 0).
  destruct (live_request (mem s) INT2F_READ_FILE drv 8 out s) as (o & [m Hm] & Ho); [done|].
  exists o. split; [exists m; exact Hm|]. destruct o as [[[len out'] s']| |]; [|done|done].
  destruct Ho as [[Hi Em] Ha]. split; [unfold with_dta; by rewrite Em|]. cbn [fst snd] in *.
  destruct Ha as [Ha|[Ha Hz]]; [by left|]. cbn [fst snd] in *.
  destruct (Z.eq_dec len NETWORK_ERROR) as [|Hne]; [by left|right]. split; [done|].
  destruct (Z.le_gt_cases len k) as [Hle|Hgt]; [by right|left]. apply Hlong.
  exists m, drv, out, s, len, out', s'. split_and!; [apply Hs|by apply Hm|done|]. unfold asked in Hk. lia.
Qed.

Lemma dta_put n p off bs : 0 <= off -> E \/ off + zlen bs <= n ->
  live E (with_dta n p) (fun _ => put_dta off bs) (fun _ s => with_dta n p s /\ off + zlen bs <= n).
Proof.
  intros Ho Hor. apply live_const.
  - intros s (_ & <- & _). unfold put_dta. destruct (Z.leb_spec (off + zlen bs) (zlen (dta (mem s)))); [done|].
    destruct Hor; [done|lia].
  - intros s [] s' ([B Es Hf [N1 N2 N3]] & Hd & Hp). unfold put_dta.
    destruct (Z.leb_spec (off + zlen bs) (zlen (dta (mem s)))) as [Hl|]; [|done].
    intros [= <-]. split; [|lia]. split; [by split|]. split; [|done]. cbn.
    unfold write_at. rewrite !length_app, length_take, length_drop. lia.
Qed.

(** *** Reading *)

Lemma safe_read_chunks L p drv cx max : is_u16 cx -> 0 < max <= 1468 -> L <= 0xFFFF -> cx <= L ->
  forall turns total, 0 <= total <= L -> total <> cx -> E \/ total <= cx -> L - total < Z.of_nat turns ->
  live E (with_dta L p) (fun fuel => read_chunks fuel uninit turns INT2F_READ_FILE drv cx max total) (fun _ => in_order).
Proof.
  intros Hcx Hmax HL HcL. induction turns as [|turns IH]; intros total Ht Hne Htc Hm; [lia|]. cbn [read_chunks].
  apply dta_sft. intros f Hf. cbv zeta. set (chunklen := Z.min _ max).
  assert (1 <= chunklen <= max /\ (E \/ total + chunklen <= cx)) as [Hc Hcc].
  { unfold chunklen, is_u16, u16 in *. pose proof (Z.mod_pos_bound (cx - total) (2 ^ 16) ltac:(lia)).
    split; [|destruct Htc; [by left|right; rewrite Z.mod_small by lia; lia]].
    destruct (Z.eq_dec ((cx - total) mod 2 ^ 16) 0) as [E0|]; [|lia].
    exfalso. apply Hne. revert E0. Z.to_euclidean_division_equations. lia. }
  eapply live_bind; [apply dta_read_args; unfold is_u16; lia|]. intros [].
  eapply live_bind; [apply dta_read_request|]. intros [len out]. apply live_fact. cbn [fst snd]. intros Hlen.
  apply live_if; [intros _; apply safe_dta, safe_error|intros Hne'%Z.eqb_neq].
  apply live_if; intros _; [apply safe_dta, safe_error|]. destruct Hlen as [|[Hlen Hk]]; [done|].
  eapply live_bind; [apply live_copy|].
  { destruct Hk as [|[Hk Hz]]; [by left|right]. unfold i16. rewrite Z.mod_small by lia. specialize (Hz ltac:(lia)). lia. }
  intros data. apply live_fact. intros Hd. specialize (Hd ltac:(lia) ltac:(lia)).
  eapply live_bind; [apply dta_put; [lia|]|].
  { destruct Hk as [|[Hk _]]; [by left|]. destruct Hcc; [by left|right]. lia. }
  intros []. apply live_fact. rewrite Hd. intros Hfit.
  assert (u16 (total + len) = total + len) as -> by (apply u16_id; unfold is_u16; lia).
  apply live_if; intros Hdone.
  - apply safe_dta. apply safe_bind; [apply safe_sft|intros _; apply safe_regs].
  - apply orb_false_iff in Hdone as [Hl1%Z.ltb_ge Hl2%Z.eqb_neq].
    eapply live_bind; [apply dta_received|]. intros []. apply IH; [lia|lia| |lia].
    destruct Hk as [|[Hk _]]; [by left|]. destruct Hcc; [by left|right]. lia.
Qed.

(** The arithmetic of a short read: position, block and offset of the request.
    Positions wrap at 2^32. *)
Lemma read_geometry p t cx m : block_size m -> is_u32 p -> 0 <= t <= cx -> cx < m ->
  let position := u32 (p + t) in
  let boff := Z.land (u32 (p + cx)) (u32 (Z.lnot (m - 1))) in
  exists btr roff,
    (if position <? boff then (u16 (m + (boff - position)), position) else (m, boff)) = (btr, roff)
    /\ is_u16 btr /\ 0 <= roff < 2 ^ 32 /\ 0 <= boff < 2 ^ 32
    /\ (roff = position /\ 0 < boff - position <= 64 /\ btr = m + (boff - position)
        \/ roff = boff /\ btr = m).
Proof.
  intros Hm Hp Ht Hc position boff. destruct (align_bounds (u32 (p + cx)) m Hm) as [Ha Hm'].
  assert (boff = u32 (p + cx) - u32 (p + cx) mod m) as Eb by (apply land_mask; [done|apply u32_range]).
  assert (is_u32 (u32 (p + cx)) /\ is_u32 position) as [[B1 B2] [P1 P2]] by (split; apply u32_range).
  pose proof (Z.mod_le (u32 (p + cx)) m ltac:(lia) ltac:(lia)).
  assert (forall x, is_u32 p -> 0 <= x <= 64 -> u32 (p + x) = p + x \/ u32 (p + x) = p + x - 2 ^ 32) as Hu.
  { intros x [? ?] ?. unfold u32. destruct (Z.lt_ge_cases (p + x) (2 ^ 32)); [left; apply Z.mod_small; lia|right].
    symmetry. apply Z.mod_unique_pos with 1; lia. }
  destruct (Hu t Hp ltac:(lia)) as [E1|E1], (Hu cx Hp ltac:(lia)) as [E2|E2]; fold position in E1;
    rewrite E2 in *; generalize dependent ((p + cx) mod m); generalize dependent ((p + cx - 2 ^ 32) mod m);
    clearbody position boff; unfold is_u16, is_u32 in *; intros;
    (destruct (Z.ltb_spec position boff); [rewrite u16_id by (unfold is_u16, is_u32 in *; lia)|];
     do 2 eexists; (split; [reflexivity|]); unfold is_u16, is_u32 in *; lia).
Qed.

Lemma dta_refill n p drv start roff boff len m (reply : bytes) :
  0 <= len <= 0x7FF -> 0 <= roff < 2 ^ 32 -> 0 <= boff < 2 ^ 32 -> 1 <= m <= 64 ->
  roff = boff \/ 0 < boff - roff <= 64 ->
  E \/ len <= zlen reply /\ len <= m + (boff - roff) ->
  live E (with_dta n p) (fun _ => refill drv start roff boff len reply) (fun _ => with_dta n p).
Proof.
  intros Hlen Hr Hb Hm Hg Hor. unfold refill. apply live_if; [intros Hlt%Z.ltb_lt|by intros _; apply live_pure].
  assert (u32 (roff + len) = roff + len) as Eu.
  { destruct (Z.lt_ge_cases (roff + len) (2 ^ 32)); [apply u32_id; unfold is_u32; lia|].
    exfalso. assert (u32 (roff + len) = roff + len - 2 ^ 32) as Ew
      by (unfold u32; symmetry; apply Z.mod_unique_pos with 1; lia). lia. }
  rewrite Eu in Hlt. rewrite (u32_id (roff + len - boff)) by (unfold is_u32; lia).
  rewrite (u16_id (boff - roff)) by (unfold is_u16; lia). set (k := roff + len - boff) in *.
  assert (i16 k = k) as Ek by (unfold i16; rewrite Z.mod_small; lia).
  eapply live_bind; [apply live_copy; destruct Hor; [by left|right; lia]|].
  intros data. apply live_fact. intros Hd. specialize (Hd ltac:(lia) ltac:(lia)).
  eapply live_bind; [by apply (live_reads _ _ _ (fun _ => with_dta n p))|]. intros now.
  apply live_buffer; [apply with_dta_order|]. intros b [H1 H2].
  apply live_if; intros Hdata; [apply live_overrun; apply Z.ltb_lt in Hdata|apply Z.ltb_ge in Hdata].
  - destruct Hor; [done|lia].
  - apply live_writes. intros s ([B Es Hf Hn] & Hdd & Hp). split; [|done]. split; [by destruct B|done| |done].
    split; cbn.
    + unfold write_at. rewrite !length_app, length_take, length_drop. lia.
    + rewrite u8_id by (unfold is_byte; lia). lia.
Qed.

Lemma safe_read_through_buffer L p drv cx m t : is_u32 p -> block_size m -> 0 <= t <= cx -> cx < m -> cx <= L ->
  live E (with_dta L p)
    (fun fuel => read_through_buffer fuel uninit INT2F_READ_FILE drv cx (u32 (Z.lnot (m - 1))) m t) (fun _ => in_order).
Proof.
  intros Hp Hm Ht Hc HL. destruct (align_bounds 0 m Hm) as [_ Hm'].
  unfold read_through_buffer. apply dta_sft. intros f Hf. cbv zeta. rewrite Hf.
  destruct (read_geometry p t cx m Hm Hp Ht Hc) as (btr & roff & -> & Hb & Hr & Hbo & Hg).
  set (position := u32 (p + t)) in *. set (boff := Z.land _ _) in *.
  eapply live_bind; [by apply dta_read_args|]. intros [].
  eapply live_bind; [apply dta_read_request|]. intros [len out]. apply live_fact. cbn [fst snd]. intros Hlen.
  apply live_if; [intros _; apply safe_dta, safe_error|intros Hne%Z.eqb_neq].
  apply live_if; intros _; [apply safe_dta, safe_error|]. destruct Hlen as [|[Hlen Hk]]; [done|].
  eapply live_bind; [apply (dta_refill L p drv _ roff boff len m); [done|done|done|done|lia|]|].
  { destruct Hk as [|[Hk Hz]]; [by left|right]. split; [apply Hz; lia|lia]. }
  intros []. set (oir := u16 (position - roff)). pose proof (u16_range (position - roff)) as [Ho _]. fold oir in Ho.
  pose proof (u16_range (cx - t)) as [Hct _]. assert (u16 (cx - t) = cx - t) as Ect by (apply u16_id; unfold is_u16; lia).
  set (len2 := if oir <? len then _ else 0).
  assert (0 <= len2 <= cx - t /\ (if 0 <? len2 then oir else 0) + len2 <= len) as [H1 H2].
  { unfold len2. destruct (Z.ltb_spec oir len); rewrite ?Ect; destruct (Z.ltb_spec 0 (Z.min (len - oir) (cx - t)));
      cbn; lia. }
  eapply live_bind; [apply live_copy|].
  { destruct Hk as [|[Hk Hz]]; [by left|right]. unfold i16. rewrite Z.mod_small by lia. specialize (Hz ltac:(lia)). lia. }
  intros data. apply live_fact. intros Hd. specialize (Hd ltac:(case_match; lia) ltac:(lia)).
  eapply live_bind; [apply dta_put; [lia|right; lia]|].
  intros []. apply live_fact. intros _. apply safe_dta.
  apply safe_bind; [apply safe_sft|intros _; apply safe_regs].
Qed.

Lemma safe_read_file d drv : shaped d -> r_cx (regs d) <= zlen (dta d) ->
  live E (in_order_at d) (fun fuel => call_read_file fuel uninit INT2F_READ_FILE drv) (fun _ => in_order).
Proof.
  intros [[Hcx Hcx'] Hpos _ Hdta] Htr.
  unfold call_read_file. apply live_dos. cbv zeta. unfold id.
  apply live_if; intros _; [apply safe_at, safe_error|].
  apply live_if; [intros _; apply safe_at, safe_pure|intros Hcx0%Z.eqb_neq].
  apply live_shared; [by intros s []|]. intros sh Hsh.
  eapply (live_pre _ _ _ (with_dta (zlen (dta d)) (file_pos (sft d)))); [by intros s [Hs <-]|].
  pose proof (settings_block sh drv Hsh) as Hm. cbv zeta in Hm. set (m := min_server_read_len _) in *.
  apply live_if; [intros Hlt%Z.ltb_lt|intros _].
  - destruct Hm as [Hm|Hm]; [lia|]. destruct (align_bounds 0 m Hm) as [_ Hm'].
    apply live_buffer; [apply with_dta_order|]. intros b Hbs.
    destruct (buffered b drv (sft d) (r_cx (regs d)) _) as [[off n]|] eqn:Eb; [|by apply safe_read_through_buffer].
    revert Eb. unfold buffered. destruct (_ && _) eqn:Eg; [|done]. intros [= <- <-].
    apply andb_prop in Eg as [_ Hoff%Z.ltb_lt]. set (off := u8 (file_pos (sft d) - _)) in *.
    pose proof (u8_range (file_pos (sft d) - Z.land (file_pos (sft d)) (u32 (Z.lnot (m - 1))))) as Ho. fold off in Ho.
    rewrite (u8_id (r_cx (regs d))) by (unfold is_byte; lia).
    set (n := Z.min _ _). pose proof (u8_range (valid_bytes b - off)) as Hv. unfold is_byte in *.
    assert (0 <= n <= r_cx (regs d)) as Hn by (unfold n; lia).
    eapply live_bind; [apply live_copy|].
    { destruct Hbs as [H1 H2]. right. unfold i16. rewrite Z.mod_small by lia.
      assert (u8 (valid_bytes b - off) = valid_bytes b - off) by (apply u8_id; unfold is_byte; lia). unfold n. lia. }
    intros data. apply live_fact. intros Hd. specialize (Hd ltac:(lia) ltac:(lia)).
    eapply live_bind; [apply dta_put; [lia|right; lia]|]. intros []. apply live_fact. intros _.
    apply live_if; intros _; [apply safe_dta, safe_sft|]. by apply safe_read_through_buffer.
  - apply settings_mtu in Hsh. rewrite u16_id by (unfold is_u16; lia).
    apply safe_read_chunks; first [lia | by split].
Qed.

(** *** Writing *)

Lemma live_dta {B} n p (k : nat -> dos -> C (pc N) B) Q :
  (forall d, zlen (dta d) = n -> live E (with_dta n p) (fun fuel => k fuel d) Q) ->
  live E (with_dta n p) (fun fuel => andthen (get_dos id) (k fuel)) Q.
Proof.
  intros Hk s Hs. destruct (Hk (mem s) (proj1 (proj2 Hs)) s Hs) as (o & [m Hm] & Ho).
  exists o. split; [|done]. exists m. intros fuel Hf. by rewrite <- (Hm fuel Hf).
Qed.

Lemma dta_args n p off bs : 0 <= off -> off + zlen bs <= 1468 ->
  live E (with_dta n p) (fun _ => put_args off bs) (fun _ => with_dta n p).
Proof.
  intros Ho Hl. eapply live_post; [|apply (dta_of _ _ _ (fun _ => True)); intros d;
    eapply live_post; [|by apply live_put_args]]; cbv beta; [by intros a s [? _]|by intros a s [? _]].
Qed.

(** In order, with room for [n] bytes at the transfer area. *)
Definition room_for (n : Z) s : Prop := in_order s /\ n <= zlen (dta (mem s)).

Lemma safe_write_chunks sub drv max cx : 0 < max <= 1462 -> 0 <= cx < 2 ^ 16 ->
  forall turns total, 0 <= total <= cx -> cx - total < Z.of_nat turns ->
  live E (room_for cx) (fun fuel => write_chunks fuel uninit turns sub drv max total (cx - total)) (fun _ => in_order).
Proof.
  intros Hmax Hcx. induction turns as [|turns IH]; intros total Ht Hm; [lia|]. cbn [write_chunks].
  intros s [Hs Hroom]. revert s Hs Hroom.
  assert (forall n p, cx <= n -> live E (with_dta n p)
    (fun fuel => write_chunks fuel uninit (S turns) sub drv max total (cx - total)) (fun _ => in_order)) as H.
  2: { intros s Hs Hroom. by eapply H. }
  intros n p Hn. cbn [write_chunks]. apply live_dta. intros d Hd. cbv zeta.
  set (chunklen := if max <? cx - total then max else cx - total).
  assert (0 <= chunklen <= cx - total /\ chunklen <= max /\ (0 < cx - total -> 0 < chunklen)) as (Hc & Hc2 & Hc3).
  { unfold chunklen. destruct (Z.ltb_spec max (cx - total)); lia. }
  eapply live_bind; [apply dta_args; [lia|in_buffer]|]. intros [].
  eapply live_bind; [apply live_copy; right; unfold id, i16; rewrite Z.mod_small by lia; lia|]. intros data.
  apply live_fact. intros Hz. specialize (Hz ltac:(lia) ltac:(lia)).
  eapply live_bind; [apply dta_args; lia|]. intros [].
  eapply live_bind; [apply (dta_of _ _ _ answered); intros d'; apply live_request|]. intros [len out].
  apply live_fact. intros _.
  apply live_if; intros _; [apply safe_dta, safe_error|]. apply live_if; intros _; [apply safe_dta, safe_error|].
  eapply (live_bind _ _ _ _ (fun _ s => in_order s /\ zlen (dta (mem s)) = n)).
  { apply live_writes. by intros s ([? ? ? []] & ? & _). }
  intros []. eapply (live_bind _ _ _ _ (fun _ s => in_order s /\ zlen (dta (mem s)) = n)).
  { apply live_writes. by intros s ([? ? ? []] & ?). }
  intros []. destruct (Z.eqb_spec (le16 (reply_data out) 0) chunklen) as [->|]; cbn [negb].
  2: { apply live_pure. by intros s [? _]. }
  eapply (live_bind _ _ _ _ (fun _ => room_for cx)).
  { apply live_writes. intros s ([[] ? ? ?] & ?). split; [by split|]. cbn. lia. }
  intros []. assert (u16 (cx - total - chunklen) = cx - total - chunklen) as -> by (apply u16_id; unfold is_u16; lia).
  assert (u16 (total + chunklen) = total + chunklen) as -> by (apply u16_id; unfold is_u16; lia).
  destruct (Z.ltb_spec 0 (cx - total - chunklen)); [|apply live_pure; by intros s [? _]].
  replace (cx - total - chunklen) with (cx - (total + chunklen)) by lia. apply IH; lia.
Qed.

Lemma safe_write_file d sub drv : shaped d -> r_cx (regs d) <= zlen (dta d) ->
  live E (in_order_at d) (fun fuel => call_write_file fuel uninit sub drv) (fun _ => in_order).
Proof.
  intros [Hcx _ _ _] Htr.
  unfold call_write_file. apply live_dos. cbv zeta. unfold id.
  apply live_if; intros _; [apply safe_at, safe_error|].
  eapply (live_pre _ _ _ (room_for (r_cx (regs d)))); [by intros s [Hs <-]|].
  apply live_buffer; [by intros s []|]. intros b _.
  eapply (live_bind _ _ _ _ (fun _ => room_for (r_cx (regs d)))).
  { destruct (write_overlaps _ _ _ _); [|by apply live_pure]. apply live_writes.
    intros s ([[] ? Hf ?] & ?). split; [|done]. split; [done|done| |done].
    destruct Hf as [? ?]. split; [done|cbn; lia]. }
  intros []. apply live_shared; [by intros s []|]. intros sh Hsh. apply settings_mtu in Hsh.
  unfold is_u16 in Hcx. rewrite u16_id by (unfold is_u16; lia).
  match goal with |- live _ _ (fun fuel => write_chunks fuel _ ?n _ _ ?max _ _) _ =>
    pose proof (safe_write_chunks sub drv max (r_cx (regs d)) ltac:(lia) Hcx n 0) as H end.
  rewrite Z.sub_0_r in H. apply H; lia.
Qed.

End Calls.

(** ** The handler *)

(** A call made with [d] in DOS's memory: the transfer area of a read or a write
    has room for the CX bytes of the call, and the caller of a lock has CX
    parameters in memory. *)
Record well_called (d : dos) : Prop := {
  wc_shaped : shaped d;
  wc_transfer : u8 (r_ax (regs d)) = INT2F_READ_FILE \/ u8 (r_ax (regs d)) = INT2F_WRITE_FILE ->
    r_cx (regs d) <= zlen (dta d);
  wc_lock : u8 (r_ax (regs d)) = INT2F_LOCK_UNLOCK_FILE -> 8 * r_cx (regs d) <= zlen (lock_params d);
}.

Section Handler.
Context {N : Type} `{WIRE : !Wire N, TIMER : !Timer, LAWS : !WireLaws N, TL : !TimerLaws}.
Context (E : Prop) (sh0 : shared_data) (Hsh0 : configured sh0) (uninit : results).
Context (d : dos) (Hd : well_called d).
Hypothesis long_read : u8 (r_ax (regs d)) = INT2F_READ_FILE -> answers_long N -> E.
Hypothesis many_locks : u8 (r_ax (regs d)) = INT2F_LOCK_UNLOCK_FILE -> 1464 < 8 * r_cx (regs d) -> E.

#[local] Hint Resolve safe_make_remove_dir safe_change_dir safe_close_file
  safe_disk_info safe_disk_info_large safe_set_attrs safe_get_attrs safe_rename_file
  safe_delete_file safe_open_create_file safe_find safe_seek_from_end
  safe_pure safe_error safe_regs : calls.

(** The memory when the switch is reached. *)
Let d1 := set_regs (with_success (regs d)) d.

Lemma live_call drv :
  live E (in_order_at (N := N) sh0 d1) (fun fuel => switch fuel uninit (u8 (r_ax (regs d))) drv)
    (fun _ => in_order sh0).
Proof.
  destruct Hd as [[Hcx Hpos [N1 N2 N3] Hdta] Htr Hlk]. assert (shaped d1) as Hs1 by (by split).
  unfold switch.
  repeat (apply live_if; [intros Hal|intros _]).
  all: try (apply safe_at; solve [auto with calls nocore]).
  - apply Z.eqb_eq in Hal. rewrite Hal. apply (safe_read_file E sh0 Hsh0); [by auto|done|]. apply Htr. by left.
  - apply Z.eqb_eq in Hal. apply (safe_write_file E sh0 Hsh0); [done|]. apply Htr. by right.
  - apply Z.eqb_eq in Hal. apply (safe_lock_unlock_file E sh0 Hsh0); [done|by apply Hlk|].
    destruct (Z.lt_ge_cases 1464 (8 * r_cx (regs d))); [left; by apply many_locks|by right].
Qed.

Lemma handler_lives : live E (in_order_at (N := N) sh0 d)
  (fun fuel => handle_request_for_our_drive fuel uninit) (fun _ => in_order sh0).
Proof.
  unfold handle_request_for_our_drive. apply live_dos.
  eapply live_bind; [apply (live_reads _ _ _ (fun _ => in_order_at sh0 d)); done|]. intros drv. cbv zeta.
  eapply live_bind.
  { apply (live_writes _ _ _ (fun _ => in_order_at sh0 d1)). by intros s [[? ? ? []] <-]. }
  intros []. eapply live_bind; [apply (live_reads _ _ _ (fun _ => in_order_at sh0 d1)); done|]. intros now.
  eapply live_bind.
  { apply (live_writes _ _ _ (fun _ => in_order_at sh0 d1)). intros s [[[] Es Hf Hn] Hm]. split; [|done].
    split; [done|done| |done]. destruct Hf as [H1 H2]. cbn. unfold expire_buffer.
    case_match; split; cbn; try done; lia. }
  intros []. eapply live_bind; [apply live_call|]. intros []. apply safe_received.
Qed.
End Handler.

(** The calls that may access memory outside a buffer: a LOCK_UNLOCK_FILE whose
    CX parameters of 8 bytes do not fit the send buffer, and a READ_FILE when
    the network can answer one by more bytes than it asks for. *)
Definition may_overrun (N : Type) `{WIRE : !Wire N, TIMER : !Timer} (d : dos) : Prop :=
  u8 (r_ax (regs d)) = INT2F_LOCK_UNLOCK_FILE /\ 1464 < 8 * r_cx (regs d)
  \/ u8 (r_ax (regs d)) = INT2F_READ_FILE /\ answers_long N.

Lemma call_lives {N} `{WIRE : !Wire N, TIMER : !Timer, LAWS : !WireLaws N, TL : !TimerLaws}
    sh0 uninit d : configured sh0 -> well_called d ->
  live (may_overrun N d) (in_order_at (N := N) sh0 d)
    (fun fuel => handle_request_for_our_drive fuel uninit) (fun _ => in_order sh0).
Proof. intros Hc Hd. apply handler_lives; [done|done|by right|by left]. Qed.

