(* ===== verification/Session.v ===== *)
(** * Session: any sequence of commands, calls and interrupts

    The programs NETMOUNT and NMMANAGE run one after the other; in between, DOS
    calls the resident program and packets arrive.  [step] is one of these
    events, with everything that is not the client's chosen freely: arguments,
    memory of DOS, other programs, traffic and time.  A command or a call that
    accesses memory outside a buffer ([Overrun]) is not a step: nothing is said
    of a PC on which that has happened.  Otherwise the resident program is
    always in a state that the theorems on reading, writing and requests ask
    for. *)
From stdpp Require Import relations.
From S2P Require Import Prelude Words Checksum Fcb Resident Network NetworkInv Redirector ReadAhead.
From S2P Require Import Args Setup SetupInv MountSpec Manage ManageSpec Calls.

Section Session.
Context {N P : Type} `{WIRE : !Wire N, TIMER : !Timer, LAWS : !WireLaws N, TL : !TimerLaws}.
Context `{DOS : !Dos, PKT : !PacketDriver P, PL : !PacketLaws P}.
Context (uninit : results) (behind_table : nat -> Z).

(** The PC, with its clock and its network. *)
Record world := mkWorld { w_machine : machine P; w_ticks : Z; w_wire : N }.

Definition set_req_drive drive (c : client) : client :=
  mkClient (shared c) (recv_buff c) (recv_data_len c) (send_buff c) (arp_request_buff c)
    (ipv4_last_sent_packet_id c) (request_last_sent_seq_num c) drive (read_file_buffer c).

(** The state in which the handlers of the resident program [p] run, and the
    world after them. *)
Definition handler_state (w : world) (c : client) (d : dos) : pc N := mkPc (w_ticks w) c d (w_wire w).
Definition after_handler (w : world) (p : program) (s : pc N) : world :=
  mkWorld (set_resident (Some (upd_variables (fun _ => cl s) p)) (w_machine w)) (ticks s) (wire s).

(** What the resident handler answers to the scan for its multiplex id. *)
Lemma mux_check_handler (m : machine P) p id cds_letter sdb_drive_no bx d : resident m = Some p -> 0xC0 <= id <= 0xFF ->
  mux_check m id =
  match int2F_redirector behind_table cds_letter sdb_drive_no (global_my_2Fmux_id p) (id * 2 ^ 8) bx
          (prog_shared p) d with
  | InstalledReply => (0xFF, SIGNATURE.1.1, SIGNATURE.1.2, SIGNATURE.2)
  | _ => mux_other id
  end.
Proof.
  intros Hp Hid. unfold mux_check, int2F_redirector. rewrite Hp.
  assert (u8 (Z.shiftr (id * 2 ^ 8) 8) = id) as ->.
  { rewrite Z.shiftr_div_pow2, Z.div_mul by lia. apply u8_id. unfold is_byte. lia. }
  assert (u8 (id * 2 ^ 8) = 0) as -> by (unfold u8; by rewrite Z.mod_mul).
  destruct (id =? global_my_2Fmux_id p); [done|].
  by rewrite (proj2 (Z.eqb_neq id 0x11)) by lia.
Qed.

Inductive step (w : world) : world -> Prop :=
  | step_netmount argv x m : netmount argv (w_machine w) = Done (x, m) ->
      step w (mkWorld m (w_ticks w) (w_wire w))
  | step_nmmanage argv x out m : nmmanage argv (w_machine w) = Done (x, out, m) ->
      step w (mkWorld m (w_ticks w) (w_wire w))
  | step_call p d cds_letter sdb_drive_no drive s : resident (w_machine w) = Some p -> well_called d ->
      int2F_redirector behind_table cds_letter sdb_drive_no (global_my_2Fmux_id p)
        (r_ax (regs d)) (r_bx (regs d)) (prog_shared p) d = OurHandler drive ->
      ends (fun fuel => handle_request_for_our_drive fuel uninit)
        (handler_state w (set_req_drive drive (variables p)) d) (Done (tt, s)) ->
      step w (after_handler w p s)
  | step_interrupt p d : resident (w_machine w) = Some p ->
      step w (after_handler w p (interrupt (handler_state w (variables p) d)))
  | step_elsewhere t n : step w (mkWorld (w_machine w) t n).

Lemma after_handler_ok w p s : machine_ok (w_machine w) -> resident (w_machine w) = Some p ->
  configured (shared (cl s)) -> buffers_ok (cl s) -> buffer_shape (read_file_buffer (cl s)) ->
  machine_ok (w_machine (after_handler w p s)).
Proof.
  intros Hm Hp Hc Hb Hf. destruct (Hm p Hp) as [[_ _ _ Hv] _].
  eapply (machine_ok_same _ _ p); [exact Hm|done|reflexivity|done|]. by split.
Qed.

Lemma step_ok w w' : step w w' -> machine_ok (w_machine w) -> machine_ok (w_machine w').
Proof.
  intros [argv x m E|argv x out m E|p d cds sdb drive s Hp Hd _ E|p d Hp|t n] Hm.
  - by eapply netmount_steady.
  - by eapply nmmanage_steady.
  - destruct (Hm p Hp) as [[Hc Hb Hf _] _].
    set (s0 := handler_state w (set_req_drive drive (variables p)) d) in *.
    destruct (call_lives (shared (cl s0)) uninit d Hc Hd s0) as (o & En & Ho).
    { split; [|done]. split; [by destruct Hb|done|done|apply Hd]. }
    assert (o = Done (tt, s)) as ->.
    { destruct E as [n1 H1], En as [n2 H2]. by rewrite <- (H1 (Nat.max n1 n2)), <- (H2 (Nat.max n1 n2)) by lia. }
    apply after_handler_ok; [done|done| |apply Ho|apply Ho]. by eapply in_order_configured.
  - destruct (Hm p Hp) as [[Hc Hb Hf _] _]. set (s0 := handler_state w (variables p) d).
    destruct (interrupt_same s0) as [[_ Hfb _ Hcfg Hbuf] _ _ _ _ _].
    apply after_handler_ok; [done|done| |by apply Hbuf|by rewrite Hfb].
    eapply configured_settings; [exact Hc| |apply mac_sizes; by apply Hbuf]. unfold settings. by rewrite Hcfg.
  - done.
Qed.

Lemma steps_ok w w' : rtc step w w' -> machine_ok (w_machine w) -> machine_ok (w_machine w').
Proof. induction 1 as [|w1 w2 w3 H1 _ IH]; [done|]. intros Hm. by eapply IH, step_ok. Qed.

End Session.
