(* ===== verification/SessionSamples.v ===== *)
(** * SessionSamples: a PC with a packet driver, and what the commands do on it

    The interfaces of Setup and SetupInv at concrete functions, a session that
    installs the client and mounts drives, and the theorems on the commands
    applied to it. *)
From stdpp Require Import gmap relations.
From S2P Require Import Prelude Words Checksum Fcb Resident Network NetworkInv NetworkSpec Redirector ReadAhead.
From S2P Require Import Args Setup SetupInv MountSpec Manage ManageSpec NInstall NInstallSpec Calls Session.

(** ** The PC *)

(** A packet driver at interrupt 0x61; no other program answers. *)
#[export] Instance pc_dos : Dos := {|
  dos_version := (5, 0);
  mux_other := fun _ => (0, 0, 0, 0);
  pktdrv_vector := fun i => i;
  code_at := fun h => if h =? 0x61 then [0; 0; 0] ++ PKTDRV_SIGNATURE else [];
  current_psp := 0x1000; program_cs := 0x1000; redirector_offset := 0x200; env_segment := 0x900 |}.

(** The handles that are open; a new one is above them all. *)
Definition new_handle (d : list (Z * Z)) : Z := 1 + foldr (fun x n => Z.max x.2 n) 0 d.
#[export] Instance pc_driver : PacketDriver (list (Z * Z)) := {|
  access_type := fun h _ d => (inr (new_handle d), (h, new_handle d) :: d);
  release_type := fun h x d => (0, filter (fun y => y <> (h, x)) d);
  get_address := fun _ _ d => (inr (6, [2; 0; 0; 0; 0; 1]), d) |}.

Lemma new_handle_above d x : x ∈ d -> x.2 < new_handle d.
Proof.
  unfold new_handle. induction 1 as [x d|x y d _ IH]; cbn [foldr]; lia.
Qed.

#[export] Instance pc_driver_laws : PacketLaws (list (Z * Z)).
Proof.
  refine {| opened := list_to_set |}.
  - intros h t d. cbn. split; [|done]. intros Hin%elem_of_list_to_set%new_handle_above. cbn in Hin. lia.
  - intros h x d. cbn. apply set_eq. intros y.
    rewrite elem_of_difference, elem_of_singleton, !elem_of_list_to_set, list_elem_of_filter. naive_solver.
  - done.
  - intros h x d cx mac [= <- _]. lia.
Defined.

Definition cds_free : dos_current_dir := mkCds 0 (str "X:\" ++ replicate 64 0).
(** LASTDRIVE=F: two disks and four letters that are free. *)
Definition bare_pc : machine (list (Z * Z)) :=
  mkMachine None 0x700 6 (Some ([mkCds 0x4000 (str "A:\"); mkCds 0x4000 (str "B:\")] ++ replicate 4 cds_free))
    [(0x61, 7)] [].

Definition words (l : list string) : list bytes := str <$> l.
Definition result_of {A} (o : outcome A) (a : A) : A := match o with Done x => x | _ => a end.
Definition run (l : list string) (m : machine (list (Z * Z))) : Z * machine (list (Z * Z)) :=
  result_of (netmount (words ("netmount" :: l)%string) m) (-100, m).

Example installs : let '(x, m) := run ["INSTALL"; "/IP:10.0.0.1"; "/MASK:255.255.255.0"; "/GW:10.0.0.254"] bare_pc in
  x = EXIT_OK /\ int2F_vector m = MK_FP 0x1000 0x200 /\ drivers m = [(0x61, 9); (0x61, 8); (0x61, 7)]
  /\ (fun p => (local_ipv4 (prog_shared p), used_pktdrv_int (install_info p), global_my_2Fmux_id p)) <$> resident m
     = Some (le32 [10; 0; 0; 1] 0, 0x61, 0xFF).
Proof. vm_compute. by split_and!. Qed.

Definition installed_pc : machine (list (Z * Z)) :=
  (run ["INSTALL"; "/IP:10.0.0.1"; "/MASK:255.255.255.0"; "/GW:10.0.0.254"] bare_pc).2.
Definition mounted_pc : machine (list (Z * Z)) := (run ["MOUNT"; "10.0.0.2:12201/C"; "D"] installed_pc).2.

Example mounts : (run ["MOUNT"; "10.0.0.2:12201/C"; "D"] installed_pc).1 = EXIT_OK
  /\ (fun p => is_mounted (prog_shared p) 3) <$> resident mounted_pc = Some true.
Proof. vm_compute. by split. Qed.

(** The slot of a server stays taken when it is the first: no drive was ever
    mounted on some letter, and the record of such a drive names slot 0. *)
Definition four_servers : list (list string) :=
  [["INSTALL"; "/IP:10.0.0.1"]; ["MOUNT"; "10.0.0.2/C"; "C"]; ["MOUNT"; "10.0.0.3/C"; "D"];
   ["MOUNT"; "10.0.0.4/C"; "E"]; ["MOUNT"; "10.0.0.5/C"; "F"]]%string.
Definition run_all (l : list (list string)) (m : machine (list (Z * Z))) : list Z * machine (list (Z * Z)) :=
  foldl (fun '(xs, m) c => let '(x, m) := run c m in (xs ++ [x], m)) ([], m) l.

Example slot_0_leaks :
  (run_all (four_servers ++ [["UMOUNT"; "F"]; ["MOUNT"; "10.0.0.6/C"; "F"]; ["UMOUNT"; "E"]; ["MOUNT"; "10.0.0.6/C"; "F"]])
     bare_pc).1 = [0; 0; 0; 0; 0; 0; EXIT_NOT_FREE_SLOT_FOR_REMOTE_IP; 0; 0].
Proof. vm_compute. reflexivity. Qed.

(** ** The theorems on it *)

Abbreviation installs_with := (words ["netmount"; "INSTALL"; "/IP:10.0.0.1"; "/MASK:255.255.255.0"; "/GW:10.0.0.254"])
  (only parsing).
Definition fresh (m : machine (list (Z * Z))) : process (list (Z * Z)) := mkProcess m loaded_program.

(** The exit code and the machine behind a command. *)
Definition exit_of (o : outcome (Z * process (list (Z * Z)))) : Z :=
  match o with Done (x, _) => x | _ => -100 end.
Definition pc_after (o : outcome (Z * process (list (Z * Z)))) : machine (list (Z * Z)) :=
  match o with Done (_, s) => pc_of s | _ => bare_pc end.

Lemma command_done (o : outcome (Z * process (list (Z * Z)))) x : exit_of o = x -> x <> -100 ->
  exists s, o = Done (x, s) /\ pc_of s = pc_after o.
Proof. destruct o as [[y s]| |]; cbn; intros E Hx; [subst; by exists s|done|done]. Qed.

Lemma install_done : exists s, install_command installs_with (fresh bare_pc) = Done (EXIT_OK, s)
  /\ pc_of s = pc_after (install_command installs_with (fresh bare_pc)).
Proof. apply command_done; [vm_compute; reflexivity|discriminate]. Qed.

Lemma install_spec_witness : exists s, install_command installs_with (fresh bare_pc) = Done (EXIT_OK, s)
  /\ install_outcome (fresh bare_pc) EXIT_OK s.
Proof.
  destruct install_done as (s & E & _). exists s. split; [exact E|].
  apply (@install_spec (list (Z * Z)) pc_dos pc_driver pc_driver_laws installs_with (fresh bare_pc) EXIT_OK s
    eq_refl eq_refl E).
Defined.

Lemma installed_sample : exists s, pc_of s = pc_after (install_command installs_with (fresh bare_pc))
  /\ installed_on (fresh bare_pc) s.
Proof.
  destruct install_done as (s & E & Ep). exists s. split; [done|].
  by destruct (install_ends installs_with (fresh bare_pc) EXIT_OK s eq_refl eq_refl E) as [[_ H]|[[] _]].
Qed.

Lemma uninstall_after_install_witness : exists s1 s3, pc_of s1 = pc_after (install_command installs_with (fresh bare_pc))
  /\ uninstall_command (words ["netmount"; "UNINSTALL"]) (mkProcess (pc_of s1) loaded_program) = Done (EXIT_OK, s3)
  /\ open_handles s3 = {[(0x61, 7)]}.
Proof.
  destruct installed_sample as (s1 & Ep & Hi).
  destruct (@uninstall_after_install (list (Z * Z)) pc_dos pc_driver pc_driver_laws (fresh bare_pc) s1 loaded_program
    (words ["netmount"; "UNINSTALL"]) Hi eq_refl eq_refl) as (s3 & E & Ho & _).
  exists s1, s3. split; [exact Ep|]. split; [exact E|]. rewrite Ho. vm_compute. reflexivity.
Defined.

(** The PC with the client installed, and with a drive. *)
Definition pc1 : machine (list (Z * Z)) := pc_after (install_command installs_with (fresh bare_pc)).
Abbreviation mounts_d := (words ["netmount"; "MOUNT"; "10.0.0.2:12201/C"; "D"; "/MIN_RCV_TMO:2"]) (only parsing).
Abbreviation mounts_g := (words ["netmount"; "MOUNT"; "10.0.0.2/C"; "G"]) (only parsing).
Definition pc2 : machine (list (Z * Z)) := pc_after (mount_command mounts_d (fresh pc1)).

Lemma installed_finds : exists p, finds pc1 p.
Proof.
  destruct installed_sample as (s & Ep & [(q & [Hq Hok Hf _ _ _ _ _ _]) _]). exists q.
  rewrite Ep in Hq, Hf. exact (conj Hq (conj Hok Hf)).
Qed.
Lemma installed_ok : machine_ok pc1.
Proof. destruct installed_finds as (p & Hp & Hok & Hf). intros q Hq. rewrite Hp in Hq. injection Hq as <-. exact (conj Hok Hf). Qed.

Lemma mount_done : exists s, mount_command mounts_d (fresh pc1) = Done (EXIT_OK, s) /\ pc_of s = pc2.
Proof. apply command_done; [vm_compute; reflexivity|discriminate]. Qed.

Lemma mount_spec_witness : exists p s p' o, finds pc1 p
  /\ mount_command mounts_d (fresh pc1) = Done (EXIT_OK, s)
  /\ resident (pc_of s) = Some p' /\ mounted_as o (prog_shared p) (prog_shared p').
Proof.
  destruct installed_finds as (p & Hp), mount_done as (s & E & _). exists p, s.
  assert (forall cds, cds_ptr (pc_of (fresh pc1)) = Some cds -> zlen cds = last_drive (pc_of (fresh pc1))) as Hcds.
  { intros cds Hc.
    change (zlen cds) with (match Some cds with Some l => zlen l | None => 0 end).
    rewrite <- Hc. vm_compute. reflexivity. }
  pose proof (@mount_spec (list (Z * Z)) pc_dos mounts_d p (fresh pc1) Hp Hcds) as H. rewrite E in H.
  destruct H as [(_ & o & p' & _ & _ & _ & Hr & _ & Hm & _)|[[] _]]; [|reflexivity].
  exists p', o. split; [exact Hp|]. split; [exact E|]. split; [exact Hr|exact Hm].
Defined.

Definition accepted (r : Z + mount_args) : mount_args := match r with inr o => o | inl _ => mount_defaults end.
Definition six_entries : list dos_current_dir :=
  [mkCds 0x4000 (str "A:\"); mkCds 0x4000 (str "B:\")] ++ replicate 4 cds_free.

Lemma mount_behind_lastdrive_witness : zlen six_entries = last_drive pc1
  /\ mount_command mounts_g (fresh pc1) = Overrun.
Proof.
  split; [vm_compute; reflexivity|]. destruct installed_finds as (p & Hp).
  apply (@mount_behind_lastdrive (list (Z * Z)) pc_dos mounts_g p (fresh pc1)
    (accepted (parse_mount_args (drop 2 mounts_g) mount_defaults)) six_entries Hp);
    vm_compute; reflexivity.
Defined.

Lemma assign_slot_spec_witness : exists i sh', assign_remote_ip_addr_slot loaded_shared (le32 [10; 0; 0; 2] 0) = (i, sh')
  /\ slot_assigned loaded_shared sh' i (le32 [10; 0; 0; 2] 0).
Proof.
  destruct (assign_remote_ip_addr_slot loaded_shared (le32 [10; 0; 0; 2] 0)) as [i sh'] eqn:E.
  exists i, sh'. split; [reflexivity|].
  destruct (assign_slot_spec loaded_shared (le32 [10; 0; 0; 2] 0) i sh' eq_refl E) as [H|[Hi _]]; [exact H|].
  apply (f_equal fst) in E. vm_compute in E. rewrite Hi in E. discriminate E.
Defined.

(** A program with a drive mounted. *)
Definition program2 : program := match resident pc2 with Some p => p | None => loaded_program end.

Lemma program2_ok : resident pc2 = Some program2 /\ program_ok program2.
Proof.
  destruct mount_done as (s & E & Ep).
  pose proof (mount_steady mounts_d (fresh pc1) EXIT_OK s installed_ok E) as Hm.
  cbv beta in Hm. rewrite Ep in Hm.
  assert (resident pc2 = Some program2) as Hr by (vm_compute; reflexivity).
  exact (conj Hr (proj1 (Hm _ Hr))).
Qed.

Abbreviation umounts_all := (words ["netmount"; "UMOUNT"; "/ALL"]) (only parsing).
Lemma umount_spec_witness : exists s, umount_command umounts_all (fresh pc2) = Done (EXIT_OK, s)
  /\ exists gone, gone 3%nat = true /\ gone 25%nat = false /\ pc_of s = taken_out gone program2 (pc_of (fresh pc2)).
Proof.
  destruct (command_done (umount_command umounts_all (fresh pc2)) EXIT_OK) as (s & E & _);
    [vm_compute; reflexivity|discriminate|].
  assert (finds pc2 program2) as Hf.
  { destruct program2_ok as [Hr Hok]. refine (conj Hr (conj Hok _)). vm_compute. reflexivity. }
  exists s. split; [exact E|].
  destruct (@umount_spec (list (Z * Z)) pc_dos umounts_all program2 (fresh pc2) EXIT_OK s Hf E)
    as [(_ & H & _)|[H _]]; [|exfalso; exact (H eq_refl)].
  refine (ex_intro _ (fun i => is_mounted (prog_shared program2) i && umounts umounts_all i
      && has_entry (pc_of (fresh pc2)) i)
    (conj _ (conj _ _))); [vm_compute; reflexivity|vm_compute; reflexivity|exact H].
Defined.

Definition changed (r : Z + shared_data) : shared_data := match r with inr sh => sh | inl _ => loaded_shared end.

Lemma drive_set_get_witness :
  let sh' := changed (drive_set (prog_shared program2) 3 (str "max_rcv_tmo") (str "0x20")) in
  drive_set (prog_shared program2) 3 (str "max_rcv_tmo") (str "0x20") = inr sh'
  /\ exists text, drive_get sh' (install_info program2) 3 (str "max_rcv_tmo") = (EXIT_OK, line text)
       /\ drive_set sh' 3 (str "max_rcv_tmo") text = inr sh'.
Proof.
  intros sh'. assert (drive_set (prog_shared program2) 3 (str "max_rcv_tmo") (str "0x20") = inr sh') as E
    by (vm_compute; reflexivity).
  split; [exact E|].
  exact (drive_set_get (prog_shared program2) (install_info program2) 3 (str "max_rcv_tmo") (str "0x20") sh'
    (po_shared _ (proj2 program2_ok)) E).
Defined.

Lemma net_set_get_witness :
  let sh' := changed (net_set loaded_shared (str "Port") (str "40000")) in
  net_set loaded_shared (str "Port") (str "40000") = inr sh'
  /\ (net_get sh' (install_info loaded_program) (str "Port")).2 = str "-25536" ++ newline
  /\ exists text, net_get sh' (install_info loaded_program) (str "Port") = (EXIT_OK, line text)
       /\ net_set sh' (str "Port") text = inr sh'.
Proof.
  intros sh'. assert (net_set loaded_shared (str "Port") (str "40000") = inr sh') as E by (vm_compute; reflexivity).
  split; [exact E|]. split; [vm_compute; reflexivity|].
  exact (net_set_get loaded_shared (install_info loaded_program) (str "Port") (str "40000") sh' E).
Defined.

Lemma address_text_read_witness :
  parse_ipv4_addr (ip_text (le32 [192; 168; 100; 7] 0) ++ str ":12201/C")
  = Some (le32 [192; 168; 100; 7] 0, str ":12201/C").
Proof.
  apply (address_text_read (le32 [192; 168; 100; 7] 0) [2; 0; 0; 0; 0; 1] (str ":12201/C")).
  - split; [discriminate|reflexivity].
  - reflexivity.
  - repeat (constructor; [split; [discriminate|reflexivity]|]). constructor.
  - split; [exact I|]. split; discriminate.
Defined.

Abbreviation sets_mtu := (words ["nmmanage"; "NET"; "SET"; "MTU"; "1000"]) (only parsing).
Lemma nmmanage_keeps_witness : exists x out m', nmmanage sets_mtu pc1 = Done (x, out, m') /\ machine_ok m'.
Proof.
  destruct (nmmanage sets_mtu pc1) as [[[x out] m']| |] eqn:E;
    [|vm_compute in E; discriminate E|vm_compute in E; discriminate E].
  exists x, out, m'. split; [reflexivity|].
  exact (proj1 (@nmmanage_keeps (list (Z * Z)) pc_dos sets_mtu pc1 x out m' installed_ok E)).
Defined.

(** ** NINSTALL *)

Lemma ninstall_lines_witness :
  ninstall (replicate 10 0, Ip) (words ["ninstall"; "mtcp.cfg"; "/NO_ARP_REQUESTS"])
    (Some (file_of [(str "ipaddr 10.0.0.1", 13); ([], 10); (str "# MTU 700", 10); (str "MTU 600", 10);
                    (str "MTU 800", 10)]))
  = inr (words ["NETMOUNT"; "INSTALL"; "/IP:10.0.0.1"; "/MTU:800"; "/NO_ARP_REQUESTS"]).
Proof.
  rewrite ninstall_lines.
  - vm_compute. reflexivity.
  - reflexivity.
  - cbn. lia.
  - repeat (constructor; [split; [split; [vm_compute; repeat constructor|]|reflexivity]|]); [..|constructor].
    + right; right; left. discriminate.
    + left. reflexivity.
    + right; left. reflexivity.
    + right; right; left. discriminate.
    + right; right; left. discriminate.
Defined.

Lemma config_arrives_witness : exists args, ninstall (replicate 10 0, Ip) [str "ninstall"; str "mtcp.cfg"]
    (Some (file_of ((fun l => (l, 10)) <$> mtcp_config (le32 [10; 0; 0; 1] 0) (le32 [255; 0; 0; 0] 0)
                                             (le32 [10; 0; 0; 254] 0) 0x61 1400))) = inr args
  /\ install_options (drop 2 args) (false, loaded_program)
     = inr (true, configured_with (le32 [10; 0; 0; 1] 0) (le32 [255; 0; 0; 0] 0)
                    (le32 [10; 0; 0; 254] 0) 0x61 1400 loaded_program).
Proof.
  destruct (config_arrives (replicate 10 0, Ip) (str "ninstall") (str "mtcp.cfg") (le32 [10; 0; 0; 1] 0)
    (le32 [255; 0; 0; 0] 0) (le32 [10; 0; 0; 254] 0) 0x61 1400 loaded_program) as (args & E & _ & Ho);
    [reflexivity|split; [discriminate|reflexivity]..|split; discriminate|split; discriminate|].
  exists args. split; [exact E|exact Ho].
Defined.

(** ** Calls and sessions *)

Definition pc2_calls : pc script := mkPc 0 (variables program2) sample_dos (mkScript true []).


